(* ===== verification/_CoqProject ===== *)
-Q . S2P
Prelude.v
Result.v
Grid.v
Volume.v
Polygon.v
Raster.v
Canvas.v
Components.v
Overlap.v
Gravity.v
Liquid.v
Sheet.v
Session.v
Export.v
Sampler.v
Bag.v
SamplerTypes.v
