(* ===== verification/Prelude.v ===== *)
(** * A verification development for the 2D shape-grammar baggage generator

    The program is [src/lib/bag_generator/baggage_creator_2d.py]. It builds
    a virtual bag as a stack of 2D labelled slices. Class [Object2D] rasterizes a shape
    descriptor into a labelled mask. Class [BaggageImage2D] drops every object
    into a shared occupancy canvas [ws_bag]. Four rules apply there: overlap
    (a collision resolver), gravity, deformable sheets and liquid
    containers. The gravity rule calls the resolver while an object
    overlaps, and calls the sheet fitter when a sheet lands. The slice
    session places the objects one by one and then runs the liquid rule.
    [create_random_object_list] draws the objects, [create_baggage_image]
    runs a session on every slice of the 3-D array [ws_bag], copies the
    bag into the output volume [virtual_bag], and writes the metadata.

    ** How the files correspond to the program

    - [Prelude] (this file): the Python and numpy conventions that the whole
      model shares. These are slice-bound normalisation ([py_index],
      [py_slice]), [numpy.argmax] and [numpy.argmin] with their first-index
      tie-break, [l[-k]], and the minimum and maximum of a list of integers.
      It also holds the hint database [raster] and the case-splitting
      tactics.
    - [Result]: Python exceptions as values of [result], and the state
      and exception monad [SE] that the export and the sampler run in.
    - [Grid]: numpy 2-D integer arrays. An array is a [grid] record: its shape
      and a cell function. The operations are [get] (read),
      [slice] ([a[r0:r1, c0:c1]], Python bound semantics),
      [fill_rect] ([a[r0:r1, c0:c1] = v]) and
      [write_nz] ([a[..][nz] = b[nz]], the masked write of
      [place_object_in_bag]). The readers are [nz_cells] ([np.where] in
      raster order), [count_nonzero] and [where_bbox]. Grids are compared by
      the setoid [≡], which ignores the cell function outside the shape.
      Every operation is [Proper] for it.
    - [Volume]: numpy 3-D arrays as a [vol] record, read by [vread]
      (notation [v.{x, y, z}]), with slices along the third axis
      ([vslice], [vset_slice]), boxes with Python slice bounds and numpy
      broadcasting ([vsub], [vassign_box], [vfill_box]), the masked
      writes [vcopy_nz] and [vwrite_columns], [v[v < 0] = 0] and the
      product with a plane [g[:, :, newaxis]]. Volumes are compared by a
      setoid [≡] like grids.
    - [Polygon]: [skimage.draw.polygon] with its crossing-number test
      [point_in_polygon] on exact rationals, and [a[rr, cc] = v].
    - [Raster]: the Primitive Rasterizer: [Object2D.create_ellipse],
      [create_rectanguloid], [create_trapezoid], [create_sheet], the crop
      that all of them but the sheet share,
      and the labelling in [Object2D.__init__]. An [obj] record holds the
      attributes that placement reads and writes; a sheet also carries its
      [curve_pts] and [axes].
    - [Canvas]: one slice of [ws_bag] and [boundary] as a [canvas] record,
      with [get_overlap], [place_object_in_bag] and [_adjust_for_boundaries].
    - [Components]: [skimage.measure.label] (8-connected components in
      raster order), behind the class [Labeller] and its laws. The resolver
      is proved against the class, and the executable merge labeller is an
      instance.
    - [Overlap]: [run_shape_grammar_overlap], the Collision Resolver. Its
      state [rstate] includes a store of pose arrays, because [pose_list]
      holds references to the one numpy array that the loop mutates.
    - [Gravity]: [run_shape_grammar_overlap_and_gravity]. The sheet branch is
      a section variable that receives the drop counter; [Sheet.sheet_rule]
      instantiates it.
    - [Liquid]: [apply_liquid_container_rule], with skimage's [disk] and
      [binary_erosion].
    - [Sheet]: the sheet fitter: [run_midpoint_recursion],
      [generate_sheet_curve], [inflate_sheet] and the sheet branch of the
      gravity rule, with skimage's Bresenham [line], numpy indexing and
      scipy's [binary_dilation]. Python exceptions are values of [result].
    - [Session]: the constructor's bag geometry and wall mask,
      [add_object], and one slice of [create_baggage_image] ([slice_body],
      then [run_slice] with its clearing). The spawn poses and the shuffle
      are inputs here.
    - [Export] (Module [Metadata]): the [param_file] loop at the end of
      [create_baggage_image], which writes every object's geometry in bag
      coordinates and appends its dictionary to [param_file]. It is written
      in a state and exception monad [ST]. The [geom] dictionaries are a heap
      that the shallow copies [obj_dict.copy()] share, and [param_file] is
      [self.bg_sf_list] itself.
    - [Sampler]: the Random Object Sampler [create_random_object_list].
      Its state [sstate] holds the generator, [self.lqd_count] and the
      locals [target_counter], [orig_metal_amt] and [obj_list]. Its steps
      run in [SE sstate]: the draws of a material, a shape letter, its
      float parameters and a spawn pose, the liquid option with its cap,
      the closure [change_object_material], the target cap, the metal
      budget, the main loop and the loop that adds targets. The generator
      is the class [Rng] with the laws [RngLaws]: [rand()] lies in
      [0, 1), and a weighted [choice] returns an index of positive weight.
      [Object2D], [rescale] and [rdm.shuffle] are section variables, so the
      theorems hold for every generator and every rasterizer.
    - [Bag]: the 3-D arrays of the constructor ([bag3_init]: [boundary],
      [ws_bag], [virtual_bag]) and [create_baggage_image] up to the
      metadata loop: the slice loop [slice_loop], whose pass [slice_step]
      re-poses copies of the objects ([repose_all]), shuffles them and runs
      [Session.slice_body] on slice [z] of [ws_bag]; the prior image; the
      clearing of negative labels; the copy of the central cube into
      [virtual_bag] with ([masked_copy]) and without ([window_copy]) a bag
      mask; and the gantry cavity. [rdm.shuffle] and the sheet branch are
      section variables.
    - [SamplerTypes]: the well-formedness of the sampler's objects
      ([obj_typed]: the geometry matches the shape letter, the pose has
      three coordinates), with the frame lemmas of every step on
      [obj_list].

    ** What the theorems show

    Each component has functional theorems on every branch, errors
    included, and invariants of its state: the resolver's escape and its
    aliasing, the floor clamp and the double placement of the gravity rule,
    the wall mask kept by a whole session, the liquid cavity of a box, and
    the sheet fitter's termination, round trip through object coordinates,
    inflation and clipping, and the metadata written for each shape, with
    the effects of its two aliasings and of its exceptions. For the
    sampler, they show the labels and poses that the target loop reuses,
    its exit, the [NameError] of a sampler with no objects, the bounds of
    the spawn pose, and two defects: the metal budget that never shrinks
    the object, and the uncounted target liquid of the target cap, and
    that every object it returns is well formed. For the 3-D pipeline, a
    functional theorem gives the constructor's walls and prior image cell
    by cell; a refinement theorem shows that [create_baggage_image] runs
    a [Session] slice on every slice of [ws_bag], from the generator state
    the earlier slices leave ([Bag.slice_gen], a [Nat.iter] of the
    re-posing), and that the deferred clearing equals per-slice clearing
    because a pass writes only its own slice; a functional theorem gives
    [virtual_bag] cell by cell, an error theorem shows the [ValueError]
    of a window starting at a negative index, and a bounds theorem shows
    that every slice re-poses the copies at the spawn row. The slice
    lemmas use [functional_extensionality_dep] of the Standard Library
    ([Volume.vslice_ext]): the canvas of a slice is a record of cell
    functions, and a write to another slice changes that function only
    up to extensional equality. The gravity descent is a state machine
    [Gravity.descends] indexed by its number of steps, and the loop is
    shown to count every step in [drop_ctr]. The properties of the manifest are numbered
    C1, C2, ... in their doc comments.

    ** Bounds and fuel

    Loops run on fuel equal to the code's own bound: the resolver loop 10
    ([ol_ctr == 10]), the gravity descent 50 ([drop_ctr < 50]) and its inner
    loop 11 ([ol_ctr > 10]). The theorems [Overlap.resolve_loop_fuel] and
    [Gravity.gravity_fuel] show that more fuel gives the same result. The
    midpoint recursion has no bound in the code. Its fuel is the
    interpreter's recursion depth ([Sheet.recursion_limit], 1000), and
    [Sheet.midpoint_rec_terminates] bounds the depth it needs by a measure
    of the two end points. The sampler's loop that adds targets runs on
    fuel [num_range[0] - target_counter], and [Sampler.extra_loop_fuel]
    shows that one more pass of fuel changes nothing. The metal shrink
    loop has the code's own bound 5. The slice loop runs over
    [virtual_bag.shape[2]], as the code's [range] does.

    ** What is not modelled

    These parts are not modelled: rotation by a non-zero angle (scipy's
    spline interpolation on floating-point trigonometry),
    [create_custom_object] and [rescale], the branch of the constructor
    with a bag template [bag_b] (the template, the mask and [img_ctr] come
    from [get_bag_background], an external module; [bc_bag_mask] and
    [bc_img_ctr] are inputs instead), file I/O, [tqdm] and logging. In the sampler, the draws of
    numpy's generator are abstract ([Rng]), the floats it draws are exact
    rationals, and [read_fits_data] of a custom mask is not read. The
    rasterizers are modelled at rotation
    angle 0, where [ndimage.rotate] is the identity. [create_trapezoid]
    rotates by at most [(pi/2) * (pi/180)] radians, since it passes an
    angle in radians through [np.deg2rad] again. That rotation is the
    identity for radii below 500. *)

From Stdlib Require Import ZArith Lia.
From stdpp Require Import base list numbers.

Declare Scope raster_scope.
Delimit Scope raster_scope with raster.
Open Scope Z_scope.

(** ** Python slice bounds *)

(** Normalisation of one bound [i] of a slice with step 1 over a sequence
    of length [n]: a negative bound counts from the end, and the result is
    clamped to [0, n]. *)
Definition py_index (i n : Z) : Z :=
  if i <? 0 then Z.max 0 (i + n) else Z.min i n.

(** [a[start:stop]] selects the positions [fst r .. snd r - 1] of
    [r := py_slice start stop n]. A stop below the start selects nothing. *)
Definition py_slice (start stop n : Z) : Z * Z :=
  let a := py_index start n in (a, Z.max a (py_index stop n)).

(** ** numpy reductions *)

(** [numpy.argmax]: the first index that holds the maximum. *)
Fixpoint argmax_from (l : list Z) (i bi : nat) (bv : Z) : nat :=
  match l with
  | [] => bi
  | x :: l' => if bv <? x then argmax_from l' (S i) i x
               else argmax_from l' (S i) bi bv
  end.

Definition argmax (l : list Z) : nat :=
  match l with
  | [] => 0%nat
  | x :: l' => argmax_from l' 1 0 x
  end.

(** [numpy.argmin]: the first index that holds the minimum, the first
    index of the maximum of the negated list. *)
Definition argmin (l : list Z) : nat := argmax (Z.opp <$> l).

(** [min()] and [max()] of a list; [None] is the [ValueError] that numpy
    raises on an empty array. *)
Definition list_min (l : list Z) : option Z :=
  match l with [] => None | x :: l' => Some (foldl Z.min x l') end.
Definition list_max (l : list Z) : option Z :=
  match l with [] => None | x :: l' => Some (foldl Z.max x l') end.

(** [l[-k]] for [k >= 1]; [IndexError] ([None]) when [len(l) < k]. *)
Definition py_neg_index {A} (l : list A) (k : nat) : option A :=
  if decide (k <= length l)%nat then l !! (length l - k)%nat else None.

(** ** Tactics *)

Create HintDb raster discriminated.

(** Split every boolean integer comparison of the goal and the context. *)
Ltac zcase :=
  repeat match goal with
  | |- context [?a <? ?b] => destruct (Z.ltb_spec a b)
  | |- context [?a <=? ?b] => destruct (Z.leb_spec a b)
  | |- context [?a =? ?b] => destruct (Z.eqb_spec a b)
  | H : context [?a <? ?b] |- _ => destruct (Z.ltb_spec a b)
  | H : context [?a <=? ?b] |- _ => destruct (Z.leb_spec a b)
  | H : context [?a =? ?b] |- _ => destruct (Z.eqb_spec a b)
  end.

(** [lia] after turning every division and modulo by a constant into its
    Euclidean equations. *)
Ltac dlia := Z.to_euclidean_division_equations; lia.

(** Close an arithmetic goal about slice bounds. *)
Ltac slice_lia :=
  unfold py_slice, py_index in *; simpl in *; zcase; simpl in *; lia.

(** ** Lemmas on slice bounds *)

Lemma py_index_bounds i n : 0 <= n -> 0 <= py_index i n <= n.
Proof. intros. slice_lia. Qed.

Lemma py_index_id i n : 0 <= i <= n -> py_index i n = i.
Proof. intros. slice_lia. Qed.

Lemma py_index_over i n : 0 <= n <= i -> py_index i n = n.
Proof. intros. slice_lia. Qed.

Lemma py_slice_bounds s e n :
  0 <= n ->
  0 <= fst (py_slice s e n) /\ fst (py_slice s e n) <= snd (py_slice s e n) <= n.
Proof. intros. slice_lia. Qed.

(** For a start inside the sequence and a stop at or after it, the slice
    is the expected window, cut at the end of the sequence. *)
Lemma py_slice_window s k n :
  0 <= s <= n -> 0 <= k -> py_slice s (s + k) n = (s, Z.min (s + k) n).
Proof. intros. unfold py_slice. f_equal; slice_lia. Qed.

(** [a[:k]] *)
Lemma py_slice_prefix k n : 0 <= k -> 0 <= n -> py_slice 0 k n = (0, Z.min k n).
Proof. intros. unfold py_slice. f_equal; slice_lia. Qed.

#[export] Hint Resolve py_index_bounds py_slice_bounds : raster.

(** ** Lemmas on [argmax] *)

Lemma argmax_from_lt l i bi bv :
  (bi < i)%nat -> (argmax_from l i bi bv < i + length l)%nat.
Proof.
  revert i bi bv. induction l as [|x l IH]; intros i bi bv Hbi; simpl; [lia|].
  destruct (bv <? x); eapply Nat.lt_le_trans; try apply IH; lia.
Qed.

Lemma argmax_lt l : l <> [] -> (argmax l < length l)%nat.
Proof.
  destruct l as [|x l]; [done|]. intros _. simpl.
  pose proof (argmax_from_lt l 1 0 x). lia.
Qed.

(** The invariant of the scan: [bv] is the value at [bi], it bounds
    everything seen so far, and everything before [bi] is strictly below. *)
Lemma argmax_from_spec (pre l : list Z) (bi : nat) (bv : Z) :
  pre !! bi = Some bv ->
  (forall k v, pre !! k = Some v -> v <= bv) ->
  (forall k v, (k < bi)%nat -> pre !! k = Some v -> v < bv) ->
  let r := argmax_from l (length pre) bi bv in
  exists m, (pre ++ l) !! r = Some m /\
    (forall k v, (pre ++ l) !! k = Some v -> v <= m) /\
    (forall k v, (k < r)%nat -> (pre ++ l) !! k = Some v -> v < m).
Proof.
  revert pre bi bv. induction l as [|x l IH]; intros pre bi bv Hb Hle Hlt; simpl.
  - rewrite app_nil_r. eauto.
  - replace (pre ++ x :: l) with ((pre ++ [x]) ++ l) by (rewrite <- app_assoc; done).
    assert (Hlen : S (length pre) = length (pre ++ [x])) by (rewrite length_app; simpl; lia).
    assert (Hx : (pre ++ [x]) !! length pre = Some x)
      by (rewrite lookup_app_r, Nat.sub_diag by lia; done).
    assert (Hsplit : forall k v, (pre ++ [x]) !! k = Some v ->
              pre !! k = Some v \/ (k = length pre /\ v = x)).
    { intros k v Hk. apply lookup_app_Some in Hk as [Hk|[Hge Hk]]; [by left|right].
      apply list_lookup_singleton_Some in Hk as [? ?]; split; [lia|done]. }
    destruct (Z.ltb_spec bv x).
    + rewrite Hlen. apply IH; [done| |].
      * intros k v [Hk|[-> ->]]%Hsplit; [specialize (Hle _ _ Hk)|]; lia.
      * intros k v Hk [Hk'|[-> ->]]%Hsplit; [specialize (Hle _ _ Hk')|]; lia.
    + rewrite Hlen. apply IH.
      * by apply lookup_app_l_Some.
      * intros k v [Hk|[-> ->]]%Hsplit; [eauto|lia].
      * intros k v Hk [Hk'|[-> ->]]%Hsplit; [eauto|].
        apply lookup_lt_Some in Hb. lia.
Qed.

(** [argmax] returns an index of the maximum, and the first such index. *)
Lemma argmax_spec (l : list Z) :
  l <> [] ->
  exists m, l !! argmax l = Some m /\
    (forall k v, l !! k = Some v -> v <= m) /\
    (forall k v, (k < argmax l)%nat -> l !! k = Some v -> v < m).
Proof.
  destruct l as [|x l]; [done|]. intros _.
  apply (argmax_from_spec [x] l 0 x); [done| |].
  - intros k v Hk. apply list_lookup_singleton_Some in Hk as [_ ->]. lia.
  - intros k v Hk. lia.
Qed.

Lemma argmin_spec (l : list Z) :
  l <> [] ->
  exists m, l !! argmin l = Some m /\
    (forall k v, l !! k = Some v -> m <= v) /\
    (forall k v, (k < argmin l)%nat -> l !! k = Some v -> m < v).
Proof.
  intros Hl. unfold argmin.
  destruct (argmax_spec (Z.opp <$> l)) as (m & Hm & Hle & Hlt); [by destruct l|].
  rewrite list_lookup_fmap in Hm. destruct (l !! _) as [x|] eqn:Hx; simplify_eq/=.
  exists x. split; [done|split].
  - intros k v Hk. assert (- v <= - x) by (apply (Hle k); by rewrite list_lookup_fmap, Hk). lia.
  - intros k v Hk Hv. assert (- v < - x) by (apply (Hlt k); [done|by rewrite list_lookup_fmap, Hv]). lia.
Qed.

(** ** Options *)

(** Evaluating only the constructor of an option keeps [vm_compute] away
    from the closures it carries. *)
Lemma Some_of_check {A} (o : option A) :
  match o with Some _ => true | None => false end = true -> exists a, o = Some a.
Proof. destruct o; [eauto|discriminate]. Qed.

(** ** Lists *)

(** A list bind only depends on the values of its function on the list. *)
Lemma list_bind_ext {A B} (f g : A -> list B) (l : list A) :
  (forall x, x ∈ l -> f x = g x) -> l ≫= f = l ≫= g.
Proof.
  induction l as [|x l IH]; intros H; [done|].
  change (f x ++ (l ≫= f) = g x ++ (l ≫= g)).
  rewrite (H x), IH; [done| |by left]. intros y Hy. apply H. by right.
Qed.

(** ** Lemmas on [list_min] and [list_max] *)

Lemma foldl_min_spec (l : list Z) x :
  (foldl Z.min x l = x \/ In (foldl Z.min x l) l) /\
  foldl Z.min x l <= x /\ Forall (fun y => foldl Z.min x l <= y) l.
Proof.
  revert x. induction l as [|y l IH]; intros x; simpl; [split; [by left|split; [lia|constructor]]|].
  destruct (IH (Z.min x y)) as [Hin [Hle Hall]]. split; [|split].
  - destruct Hin as [Heq|Hin]; [|by right; right].
    rewrite Heq. destruct (Z.min_spec x y) as [[_ ->]|[_ ->]]; [by left|by right; left].
  - lia.
  - constructor; [lia|done].
Qed.

Lemma foldl_max_spec (l : list Z) x :
  (foldl Z.max x l = x \/ In (foldl Z.max x l) l) /\
  x <= foldl Z.max x l /\ Forall (fun y => y <= foldl Z.max x l) l.
Proof.
  revert x. induction l as [|y l IH]; intros x; simpl; [split; [by left|split; [lia|constructor]]|].
  destruct (IH (Z.max x y)) as [Hin [Hle Hall]]. split; [|split].
  - destruct Hin as [Heq|Hin]; [|by right; right].
    rewrite Heq. destruct (Z.max_spec x y) as [[_ ->]|[_ ->]]; [by right; left|by left].
  - lia.
  - constructor; [lia|done].
Qed.

(** The minimum of a non-empty list is one of its elements and bounds all
    of them from below. *)
Lemma list_min_spec (l : list Z) m :
  list_min l = Some m <-> In m l /\ Forall (fun y => m <= y) l.
Proof.
  destruct l as [|x l]; simpl; split.
  - done.
  - intros [[] _].
  - intros [= <-]. destruct (foldl_min_spec l x) as [[Heq|Hin] [Hle Hall]].
    + rewrite Heq. split; [by left|constructor; [lia|]]. rewrite <- Heq. done.
    + split; [by right|constructor; [lia|done]].
  - intros [Hin Hall]. inversion Hall as [|? ? Hx Hl]; subst. f_equal.
    destruct (foldl_min_spec l x) as [Hm [Hle Hall']].
    destruct Hin as [<-|Hin].
    + rewrite Forall_forall in Hl. destruct Hm as [Hm|Hm]; [lia|]. specialize (Hl _ Hm). lia.
    + rewrite Forall_forall in Hall'. specialize (Hall' _ Hin).
      destruct Hm as [Hm|Hm]; [lia|]. rewrite Forall_forall in Hl. specialize (Hl _ Hm). lia.
Qed.

Lemma list_max_spec (l : list Z) m :
  list_max l = Some m <-> In m l /\ Forall (fun y => y <= m) l.
Proof.
  destruct l as [|x l]; simpl; split.
  - done.
  - intros [[] _].
  - intros [= <-]. destruct (foldl_max_spec l x) as [[Heq|Hin] [Hle Hall]].
    + rewrite Heq. split; [by left|constructor; [lia|]]. rewrite <- Heq. done.
    + split; [by right|constructor; [lia|done]].
  - intros [Hin Hall]. inversion Hall as [|? ? Hx Hl]; subst. f_equal.
    destruct (foldl_max_spec l x) as [Hm [Hle Hall']].
    destruct Hin as [<-|Hin].
    + rewrite Forall_forall in Hl. destruct Hm as [Hm|Hm]; [lia|]. specialize (Hl _ Hm). lia.
    + rewrite Forall_forall in Hall'. specialize (Hall' _ Hin).
      destruct Hm as [Hm|Hm]; [lia|]. rewrite Forall_forall in Hl. specialize (Hl _ Hm). lia.
Qed.

Lemma list_min_None (l : list Z) : list_min l = None <-> l = [].
Proof. destruct l; done. Qed.

Lemma list_max_None (l : list Z) : list_max l = None <-> l = [].
Proof. destruct l; done. Qed.

(** [a[-k:]] for [0 < k <= n]: the last [k] positions. *)
Lemma py_slice_suffix k n : 0 < k <= n -> py_slice (- k) n n = (n - k, n).
Proof. intros. unfold py_slice. f_equal; slice_lia. Qed.

(** [a[:]] *)
Lemma py_slice_all n : 0 <= n -> py_slice 0 n n = (0, n).
Proof. intros. unfold py_slice. f_equal; slice_lia. Qed.

(** ** Lemmas on negative indexing *)

Lemma py_neg_index_Some {A} (l : list A) k :
  (1 <= k <= length l)%nat -> exists x, py_neg_index l k = Some x /\ x ∈ l.
Proof.
  intros Hk. unfold py_neg_index. rewrite decide_True by lia.
  destruct (lookup_lt_is_Some_2 l (length l - k)%nat) as [x Hx]; [lia|].
  exists x. split; [done|]. by eapply list_elem_of_lookup_2.
Qed.

Lemma py_neg_index_elem {A} (l : list A) k x : py_neg_index l k = Some x -> x ∈ l.
Proof.
  unfold py_neg_index. case_decide; [|done]. intros. by eapply list_elem_of_lookup_2.
Qed.

(** [a[s:e]] inside the axis. *)
Lemma py_slice_in s e n : 0 <= s <= e -> e <= n -> py_slice s e n = (s, e).
Proof. intros. unfold py_slice. f_equal; slice_lia. Qed.

(** The length of [a[s:e]] for [0 <= s <= e] is at most [e - s]. *)
Lemma py_slice_len s e n :
  0 <= s <= e -> 0 <= n -> snd (py_slice s e n) - fst (py_slice s e n) <= e - s.
Proof. intros. unfold py_slice. simpl. slice_lia. Qed.
