(* ===== verification/Result.v ===== *)
(** * Python exceptions as values, and a state and exception monad

    [result] is the outcome of Python code that may raise: a value, or the
    exception it raised. [SE S] is code that also updates a state of type
    [S]. Python keeps the effects done before an exception, so an
    exception in [SE S] comes with the state it was raised in. *)

From stdpp Require Import base tactics.

(** ** Exceptions *)

Inductive py_error := IndexError | ValueError | AttributeError | NameError | RecursionError | KeyError.

Inductive result (A : Type) := Ok (a : A) | Err (e : py_error).
Arguments Ok {A} a.
Arguments Err {A} e.

#[export] Instance result_ret : MRet result := fun _ a => Ok a.
#[export] Instance result_bind : MBind result := fun _ _ f r =>
  match r with Ok a => f a | Err e => Err e end.

Definition of_option {A} (e : py_error) (o : option A) : result A :=
  match o with Some a => Ok a | None => Err e end.

(** A caught exception of the gravity loop's caller is [None]. *)
Definition to_option {A} (r : result A) : option A :=
  match r with Ok a => Some a | Err _ => None end.

(** ** State and exceptions *)

Definition SE (S A : Type) : Type := S -> S * result A.

#[export] Instance SE_ret {S} : MRet (SE S) := fun _ a s => (s, Ok a).
#[export] Instance SE_bind {S} : MBind (SE S) := fun _ _ f m s =>
  match m s with (s', Ok a) => f a s' | (s', Err e) => (s', Err e) end.

Definition se_lift {S A} (r : result A) : SE S A := fun s => (s, r).

Definition se_gets {S A} (f : S -> A) : SE S A := fun s => (s, Ok (f s)).

Definition se_modify {S} (f : S -> S) : SE S unit := fun s => (f s, Ok ()).

(** ** Lemmas *)

Lemma bind_Ok {A B} (r : result A) (f : A -> result B) b :
  (r ≫= f) = Ok b -> exists a, r = Ok a /\ f a = Ok b.
Proof. destruct r as [a|e]; simpl; [eauto|done]. Qed.

Lemma bind_Err {A B} (r : result A) (f : A -> result B) e :
  (r ≫= f) = Err e -> r = Err e \/ exists a, r = Ok a /\ f a = Err e.
Proof. destruct r as [a|e']; simpl; [eauto|intros [= ->]; auto]. Qed.

(** Evaluating only the constructor of a result: the witnesses compute
    [Ok] or [Err] by [vm_compute] and never normalise the value. *)
Lemma ok_of_check {A} (r : result A) :
  match r with Ok _ => true | Err _ => false end = true -> exists a, r = Ok a.
Proof. destruct r; [eauto|discriminate]. Qed.

Lemma se_bind_eq {S A B} (m : SE S A) (f : A -> SE S B) s :
  (m ≫= f) s = match m s with (s', Ok a) => f a s' | (s', Err e) => (s', Err e) end.
Proof. reflexivity. Qed.

Lemma se_bind_assoc {S A B C} (m : SE S A) (f : A -> SE S B) (g : B -> SE S C) s :
  ((m ≫= f) ≫= g) s = (m ≫= fun a => f a ≫= g) s.
Proof. rewrite !se_bind_eq. by destruct (m s) as [s1 [a|e]]. Qed.

(** ** Frame conditions

    [se_keeps f m]: whatever [m] returns or raises, the part [f] of the
    state is as it was. *)

Definition se_keeps {S A B} (f : S -> B) (m : SE S A) : Prop :=
  forall s s' r, m s = (s', r) -> f s' = f s.

Lemma se_keeps_bind {S A B C} (f : S -> C) (m : SE S A) (k : A -> SE S B) :
  se_keeps f m -> (forall a, se_keeps f (k a)) -> se_keeps f (m ≫= k).
Proof.
  intros Hm Hk s s' r. rewrite se_bind_eq.
  destruct (m s) as [s1 [a|e]] eqn:E; intros Hr.
  - rewrite (Hk a _ _ _ Hr). exact (Hm _ _ _ E).
  - injection Hr as <- _. exact (Hm _ _ _ E).
Qed.

Lemma se_keeps_lift {S A B} (f : S -> B) (r : result A) : se_keeps f (se_lift r).
Proof. by intros s s' r' [= <- _]. Qed.

Lemma se_keeps_gets {S A B} (f : S -> B) (g : S -> A) : se_keeps f (se_gets g).
Proof. by intros s s' r' [= <- _]. Qed.

Lemma se_keeps_ret {S A B} (f : S -> B) (a : A) : se_keeps f (mret (M := SE S) a).
Proof. by intros s s' r' [= <- _]. Qed.

Create HintDb se_keeps discriminated.
#[export] Hint Resolve se_keeps_bind se_keeps_lift se_keeps_gets se_keeps_ret : se_keeps.

Lemma se_bind_Ok {S A B} (m : SE S A) (k : A -> SE S B) s s' b :
  (m ≫= k) s = (s', Ok b) -> exists s1 a, m s = (s1, Ok a) /\ k a s1 = (s', Ok b).
Proof. rewrite se_bind_eq. destruct (m s) as [s1 [a|e]]; [eauto|done]. Qed.

Lemma se_bind_Err {S A B} (m : SE S A) (k : A -> SE S B) s s' e :
  (m ≫= k) s = (s', Err e) ->
  m s = (s', Err e) \/ exists s1 a, m s = (s1, Ok a) /\ k a s1 = (s', Err e).
Proof. rewrite se_bind_eq. destruct (m s) as [s1 [a|e']]; [eauto|intros [= -> ->]; auto]. Qed.

(** Split every returning bind of the context. *)
Ltac se_inv :=
  repeat match goal with
  | H : (_ ≫= _) _ = (_, Ok _) |- _ =>
      let s := fresh "s" in let a := fresh "a" in let H1 := fresh "H" in
      apply se_bind_Ok in H as (s & a & H1 & H); cbv beta in H
  | H : (match ?a with pair _ _ => _ end) _ = _ |- _ => destruct a
  | H : mret _ _ = _ |- _ => cbv [mret SE_ret] in H; simplify_eq
  | H : se_lift _ _ = _ |- _ => unfold se_lift in H; simplify_eq
  | H : se_gets _ _ = _ |- _ => unfold se_gets in H; simplify_eq
  | H : of_option _ (Some _) = _ |- _ => cbn [of_option] in H; simplify_eq
  end.

(** [se_raises P m]: every exception that [m] raises satisfies [P]. *)
Definition se_raises {S A} (P : py_error -> Prop) (m : SE S A) : Prop :=
  forall s s' e, m s = (s', Err e) -> P e.

Lemma se_raises_bind {S A B} P (m : SE S A) (k : A -> SE S B) :
  se_raises P m -> (forall a, se_raises P (k a)) -> se_raises P (m ≫= k).
Proof.
  intros Hm Hk s s' e. rewrite se_bind_eq.
  destruct (m s) as [s1 [a|e']] eqn:E; intros Hr; [exact (Hk a _ _ _ Hr)|].
  injection Hr as <- <-. exact (Hm _ _ _ E).
Qed.

Lemma se_raises_lift {S A} P (r : result A) :
  (forall e, r = Err e -> P e) -> se_raises (S := S) P (se_lift r).
Proof. intros H s s' e [= _ Hr]. by apply H. Qed.

Lemma se_raises_gets {S A} P (g : S -> A) : se_raises P (se_gets g).
Proof. by intros s s' e [= _ Hr]. Qed.

Lemma se_raises_modify {S} P (g : S -> S) : se_raises P (se_modify g).
Proof. by intros s s' e [= _ Hr]. Qed.

Lemma se_raises_ret {S A} P (a : A) : se_raises P (mret (M := SE S) a).
Proof. by intros s s' e [= _ Hr]. Qed.

#[export] Hint Resolve se_raises_bind se_raises_gets se_raises_modify se_raises_ret : se_keeps.

Lemma se_raises_weaken {S A} (P Q : py_error -> Prop) (m : SE S A) :
  se_raises P m -> (forall e, P e -> Q e) -> se_raises Q m.
Proof. intros Hm HPQ s s' e H. exact (HPQ _ (Hm _ _ _ H)). Qed.

Lemma se_raises_lift_Err {S A} (P : py_error -> Prop) e :
  P e -> se_raises (S := S) (A := A) P (se_lift (Err e)).
Proof. intros HP s s' e' [= _ <-]. exact HP. Qed.

(** A bind after a raise never runs. *)
Lemma se_raises_bind_Err {S A B} (P : py_error -> Prop) e (k : A -> SE S B) :
  P e -> se_raises P (se_lift (Err e) ≫= k).
Proof. intros HP s s' e' [= _ <-]. exact HP. Qed.

(** [se_fails P m]: [m] never returns, and what it raises satisfies [P]. *)
Definition se_fails {S A} (P : py_error -> Prop) (m : SE S A) : Prop :=
  forall s, exists e, (m s).2 = Err e /\ P e.

Lemma se_fails_lift_Err {S A} (P : py_error -> Prop) e :
  P e -> se_fails (S := S) (A := A) P (se_lift (Err e)).
Proof. intros HP s. by exists e. Qed.

Lemma se_fails_bind {S A B} P (m : SE S A) (k : A -> SE S B) :
  se_raises P m -> (forall a, se_fails P (k a)) -> se_fails P (m ≫= k).
Proof.
  intros Hm Hk s. rewrite se_bind_eq.
  destruct (m s) as [s1 [a|e]] eqn:E; [apply Hk|]. exists e. split; [done|exact (Hm _ _ _ E)].
Qed.

Lemma se_fails_bind_l {S A B} P (m : SE S A) (k : A -> SE S B) :
  se_fails P m -> se_fails P (m ≫= k).
Proof.
  intros Hm s. rewrite se_bind_eq. destruct (Hm s) as (e & He & HP).
  destruct (m s) as [s1 [a|e']]; simpl in He; [done|]. exists e'. by simplify_eq.
Qed.

(** [se_keeps_err f m]: when [m] raises, the part [f] of the state is as
    it was. *)
Definition se_keeps_err {S A B} (f : S -> B) (m : SE S A) : Prop :=
  forall s s' e, m s = (s', Err e) -> f s' = f s.

Lemma se_keeps_err_bind {S A B C} (f : S -> C) (m : SE S A) (k : A -> SE S B) :
  se_keeps f m -> (forall a, se_keeps_err f (k a)) -> se_keeps_err f (m ≫= k).
Proof.
  intros Hm Hk s s' e. rewrite se_bind_eq.
  destruct (m s) as [s1 [a|e']] eqn:E; intros Hr.
  - rewrite (Hk a _ _ _ Hr). exact (Hm _ _ _ E).
  - injection Hr as <- _. exact (Hm _ _ _ E).
Qed.

Lemma se_keeps_err_modify_bind {S B C} (f : S -> C) (g : S -> S) (k : unit -> SE S B) :
  (forall s, match k () s with (_, Err _) => False | _ => True end) ->
  se_keeps_err f (se_modify g ≫= k).
Proof.
  intros Hk s s' e. rewrite se_bind_eq. cbn. specialize (Hk (g s)).
  destruct (k () (g s)) as [s1 [a|e']]; [done|contradiction].
Qed.
