(* ===== verification/Grid.v ===== *)
(** * numpy 2-D integer arrays

    A numpy array of the program is a [grid]: its shape ([rows], [cols])
    and a cell function. Reads go through [get], which answers 0 outside
    the shape. The operations are the numpy idioms that the source uses:
    [zeros], slicing with Python's bound semantics ([slice]), slice
    assignment of a constant ([fill_rect]), the masked write
    [a[..][nz] = b[nz]] ([write_nz]), element-wise products and casts, and
    the [np.where] family ([nz_cells], [count_nonzero], [any_nz],
    [where_bbox]). Two grids are equivalent ([≡]) when they have the same
    shape and the same cells. Every operation respects [≡]. *)

From Stdlib Require Import ZArith Lia.
From stdpp Require Import base list numbers.
From S2P Require Import Prelude.
Open Scope Z_scope.

Record grid := mkGrid { rows : Z; cols : Z; cell : Z -> Z -> Z }.

(** ** Reading *)

Definition inb (g : grid) (i j : Z) : bool :=
  bool_decide (0 <= i < rows g /\ 0 <= j < cols g).

Definition get (g : grid) (i j : Z) : Z := if inb g i j then cell g i j else 0.

Notation "g .[ i , j ]" := (get g i j)
  (at level 1, i at level 200, j at level 200, format "g .[ i ,  j ]") : raster_scope.
Open Scope raster_scope.

Definition wf_grid (g : grid) : Prop := 0 <= rows g /\ 0 <= cols g.

(** ** Construction and update *)

(** [np.zeros((r, c))] *)
Definition zeros (r c : Z) : grid := mkGrid r c (fun _ _ => 0).

(** [a[r0:r1, c0:c1]] (a copy of the view). *)
Definition slice (g : grid) (r0 r1 c0 c1 : Z) : grid :=
  let r := py_slice r0 r1 (rows g) in
  let c := py_slice c0 c1 (cols g) in
  mkGrid (snd r - fst r) (snd c - fst c) (fun i j => g.[fst r + i, fst c + j]).

(** [a[r0:r1, c0:c1] = v] *)
Definition fill_rect (g : grid) (r0 r1 c0 c1 v : Z) : grid :=
  let r := py_slice r0 r1 (rows g) in
  let c := py_slice c0 c1 (cols g) in
  mkGrid (rows g) (cols g) (fun i j =>
    if bool_decide (fst r <= i < snd r /\ fst c <= j < snd c)
    then v else g.[i, j]).

(** [a[a0:a0+h, a1:a1+w][nz] = b[nz]] with [nz = np.where(b)], for a source
    [b] of the window's shape: the non-zero cells of [b] overwrite the
    window, and every other cell is kept. *)
Definition write_nz (g : grid) (a0 a1 : Z) (b : grid) : grid :=
  mkGrid (rows g) (cols g) (fun i j =>
    let v := b.[i - a0, j - a1] in if v =? 0 then g.[i, j] else v).

(** [a.astype(bool)], as 0/1. *)
Definition bool_of (g : grid) : grid :=
  mkGrid (rows g) (cols g) (fun i j => if g.[i, j] =? 0 then 0 else 1).

(** [k * a] *)
Definition scale (k : Z) (g : grid) : grid :=
  mkGrid (rows g) (cols g) (fun i j => k * g.[i, j]).

(** [a * b] for two arrays of one shape. *)
Definition mul (g h : grid) : grid :=
  mkGrid (rows g) (cols g) (fun i j => g.[i, j] * h.[i, j]).

(** ** The [np.where] family *)

(** [np.where(a)]: the non-zero positions in raster order. *)
Definition nz_cells (g : grid) : list (Z * Z) :=
  seqZ 0 (rows g) ≫= fun i =>
    (fun j => (i, j)) <$> filter (fun j => g.[i, j] <> 0) (seqZ 0 (cols g)).

Definition count_nonzero (g : grid) : Z := Z.of_nat (length (nz_cells g)).

(** [np.any(a)] *)
Definition any_nz (g : grid) : bool :=
  match nz_cells g with [] => false | _ => true end.

(** [(rows.min(), rows.max(), cols.min(), cols.max())] of [np.where(a)];
    [None] is numpy's [ValueError] on an all-zero array. *)
Definition where_bbox (g : grid) : option (Z * Z * Z * Z) :=
  let nz := nz_cells g in
  r0 ← list_min (fst <$> nz); r1 ← list_max (fst <$> nz);
  c0 ← list_min (snd <$> nz); c1 ← list_max (snd <$> nz);
  Some (r0, r1, c0, c1).

(** The cells of the rectangle [[a, a+h) x [c, c+w)], row by row. *)
Definition rect_cells (a h c w : Z) : list (Z * Z) :=
  seqZ a h ≫= fun i => (fun j => (i, j)) <$> seqZ c w.

(** ** Lemmas on reading *)

Lemma get_inb g i j : 0 <= i < rows g -> 0 <= j < cols g -> g.[i, j] = cell g i j.
Proof. intros. unfold get, inb. by rewrite bool_decide_true. Qed.

Lemma get_out g i j : ~ (0 <= i < rows g /\ 0 <= j < cols g) -> g.[i, j] = 0.
Proof. intros. unfold get, inb. by rewrite bool_decide_false. Qed.

Lemma get_nz_inb g i j : g.[i, j] <> 0 -> 0 <= i < rows g /\ 0 <= j < cols g.
Proof.
  intros H. destruct (decide (0 <= i < rows g /\ 0 <= j < cols g)); [done|].
  by rewrite get_out in H.
Qed.

Lemma elem_of_nz_cells g i j :
  (i, j) ∈ nz_cells g <-> 0 <= i < rows g /\ 0 <= j < cols g /\ g.[i, j] <> 0.
Proof.
  unfold nz_cells. rewrite list_elem_of_bind. split.
  - intros (i' & Hin & Hi). apply list_elem_of_fmap in Hin as (j' & [= -> ->] & Hj).
    apply list_elem_of_filter in Hj as [Hnz Hj]. apply elem_of_seqZ in Hj, Hi. lia.
  - intros (Hi & Hj & Hnz). exists i. split; [|apply elem_of_seqZ; lia].
    apply list_elem_of_fmap. exists j. split; [done|].
    apply list_elem_of_filter. split; [done|]. apply elem_of_seqZ. lia.
Qed.

Lemma elem_of_nz_cells_get g p : p ∈ nz_cells g <-> g.[p.1, p.2] <> 0.
Proof.
  destruct p as [i j]. rewrite elem_of_nz_cells. simpl. split; [tauto|].
  intros H. pose proof (get_nz_inb _ _ _ H). tauto.
Qed.

Lemma any_nz_spec g : any_nz g = true <-> exists i j, g.[i, j] <> 0.
Proof.
  unfold any_nz. split.
  - destruct (nz_cells g) as [|[i j] l] eqn:E; [done|]. intros _.
    exists i, j. apply (elem_of_nz_cells_get g (i, j)). rewrite E. left.
  - intros (i & j & H). apply (elem_of_nz_cells_get g (i, j)) in H.
    destruct (nz_cells g); [inversion H|done].
Qed.

Lemma any_nz_false g : any_nz g = false <-> forall i j, g.[i, j] = 0.
Proof.
  split.
  - intros H i j. destruct (decide (g.[i, j] = 0)); [done|].
    assert (any_nz g = true) by (apply any_nz_spec; eauto). congruence.
  - intros H. destruct (any_nz g) eqn:E; [|done].
    apply any_nz_spec in E as (i & j & Hij). by rewrite H in Hij.
Qed.

(** The bounding box of [np.where]: every non-zero cell lies inside it and
    each of its four sides holds a non-zero cell. *)
Lemma where_bbox_spec g r0 r1 c0 c1 :
  where_bbox g = Some (r0, r1, c0, c1) ->
  (forall i j, g.[i, j] <> 0 -> r0 <= i <= r1 /\ c0 <= j <= c1) /\
  (exists j, g.[r0, j] <> 0) /\ (exists j, g.[r1, j] <> 0) /\
  (exists i, g.[i, c0] <> 0) /\ (exists i, g.[i, c1] <> 0).
Proof.
  unfold where_bbox.
  destruct (list_min (fst <$> nz_cells g)) as [a|] eqn:Ha; simpl; [|done].
  destruct (list_max (fst <$> nz_cells g)) as [b|] eqn:Hb; simpl; [|done].
  destruct (list_min (snd <$> nz_cells g)) as [c|] eqn:Hc; simpl; [|done].
  destruct (list_max (snd <$> nz_cells g)) as [d|] eqn:Hd; simpl; [|done].
  intros [= <- <- <- <-].
  apply list_min_spec in Ha as [Ha Ha'], Hc as [Hc Hc'].
  apply list_max_spec in Hb as [Hb Hb'], Hd as [Hd Hd'].
  rewrite Forall_forall in Ha', Hb', Hc', Hd'.
  repeat match goal with H : In _ _ |- _ => apply list_elem_of_In, list_elem_of_fmap in H end.
  split; [|split; [|split; [|split]]].
  - intros i j Hij. apply (elem_of_nz_cells_get g (i, j)) in Hij.
    assert (Hi : In i (fst <$> nz_cells g))
      by (apply list_elem_of_In, list_elem_of_fmap; eexists (i, j); done).
    assert (Hj : In j (snd <$> nz_cells g))
      by (apply list_elem_of_In, list_elem_of_fmap; eexists (i, j); done).
    specialize (Ha' _ Hi). specialize (Hb' _ Hi). specialize (Hc' _ Hj). specialize (Hd' _ Hj). lia.
  - destruct Ha as ([i j] & -> & Hp). exists j. by apply (elem_of_nz_cells_get g (i, j)).
  - destruct Hb as ([i j] & -> & Hp). exists j. by apply (elem_of_nz_cells_get g (i, j)).
  - destruct Hc as ([i j] & -> & Hp). exists i. by apply (elem_of_nz_cells_get g (i, j)).
  - destruct Hd as ([i j] & -> & Hp). exists i. by apply (elem_of_nz_cells_get g (i, j)).
Qed.

Lemma where_bbox_None g : where_bbox g = None <-> any_nz g = false.
Proof.
  unfold where_bbox, any_nz. destruct (nz_cells g) as [|p l]; simpl; [done|].
  split; [done|congruence].
Qed.

(** ** Lemmas on the operations *)

Lemma rows_slice g r0 r1 c0 c1 :
  rows (slice g r0 r1 c0 c1) = snd (py_slice r0 r1 (rows g)) - fst (py_slice r0 r1 (rows g)).
Proof. done. Qed.

Lemma cols_slice g r0 r1 c0 c1 :
  cols (slice g r0 r1 c0 c1) = snd (py_slice c0 c1 (cols g)) - fst (py_slice c0 c1 (cols g)).
Proof. done. Qed.

Lemma get_slice g r0 r1 c0 c1 i j :
  (slice g r0 r1 c0 c1).[i, j] =
  if inb (slice g r0 r1 c0 c1) i j
  then g.[fst (py_slice r0 r1 (rows g)) + i, fst (py_slice c0 c1 (cols g)) + j]
  else 0.
Proof. done. Qed.

Lemma get_write_nz g a0 a1 b i j :
  (write_nz g a0 a1 b).[i, j] =
  if inb g i j then (if b.[i - a0, j - a1] =? 0 then g.[i, j] else b.[i - a0, j - a1]) else 0.
Proof. done. Qed.

(** The masked write changes no cell where the source is zero. *)
Lemma write_nz_frame g a0 a1 b i j :
  b.[i - a0, j - a1] = 0 -> (write_nz g a0 a1 b).[i, j] = g.[i, j].
Proof.
  intros H. rewrite get_write_nz, H. simpl.
  destruct (inb g i j) eqn:E; [done|]. symmetry. unfold get. by rewrite E.
Qed.

(** Inside the target, every non-zero source cell is copied. *)
Lemma write_nz_copy g a0 a1 b i j :
  0 <= i < rows g -> 0 <= j < cols g -> b.[i - a0, j - a1] <> 0 ->
  (write_nz g a0 a1 b).[i, j] = b.[i - a0, j - a1].
Proof.
  intros Hi Hj H. rewrite get_write_nz. unfold inb. rewrite bool_decide_true by lia.
  destruct (Z.eqb_spec (b.[i - a0, j - a1]) 0); lia.
Qed.

Lemma get_fill_rect g r0 r1 c0 c1 v i j :
  (fill_rect g r0 r1 c0 c1 v).[i, j] =
  if inb g i j then
    (if bool_decide (fst (py_slice r0 r1 (rows g)) <= i < snd (py_slice r0 r1 (rows g)) /\
                     fst (py_slice c0 c1 (cols g)) <= j < snd (py_slice c0 c1 (cols g)))
     then v else g.[i, j])
  else 0.
Proof. done. Qed.

(** ** The grid setoid *)

#[export] Instance grid_equiv : Equiv grid := fun g h =>
  rows g = rows h /\ cols g = cols h /\ forall i j, g.[i, j] = h.[i, j].

#[export] Instance grid_equivalence : Equivalence (≡@{grid}).
Proof.
  split.
  - intros g. done.
  - intros g h (? & ? & H). split; [done|split; [done|]]. intros. by rewrite H.
  - intros g h k (? & ? & H1) (? & ? & H2). split; [congruence|split; [congruence|]].
    intros. by rewrite H1, H2.
Qed.

(** [inb] only depends on the shape. *)
Lemma inb_equiv g h i j : g ≡ h -> inb g i j = inb h i j.
Proof. intros (Hr & Hc & _). unfold inb. by rewrite Hr, Hc. Qed.

#[export] Instance get_proper : Proper ((≡) ==> eq ==> eq ==> eq) get.
Proof. intros g h (_ & _ & H) ? i -> ? j ->. apply H. Qed.

#[export] Instance rows_proper : Proper ((≡) ==> eq) rows.
Proof. intros g h (H & _). done. Qed.

#[export] Instance cols_proper : Proper ((≡) ==> eq) cols.
Proof. intros g h (_ & H & _). done. Qed.

#[export] Instance slice_proper : Proper ((≡) ==> eq ==> eq ==> eq ==> eq ==> (≡)) slice.
Proof.
  intros g h Hgh ? r0 -> ? r1 -> ? c0 -> ? c1 ->.
  pose proof (rows_proper _ _ Hgh) as Hr. pose proof (cols_proper _ _ Hgh) as Hc.
  split; [|split]; simpl; rewrite ?Hr, ?Hc; [done|done|].
  intros i j. rewrite !get_slice. unfold inb; simpl. rewrite Hr, Hc. by rewrite Hgh.
Qed.

#[export] Instance fill_rect_proper :
  Proper ((≡) ==> eq ==> eq ==> eq ==> eq ==> eq ==> (≡)) fill_rect.
Proof.
  intros g h Hgh ? r0 -> ? r1 -> ? c0 -> ? c1 -> ? v ->.
  pose proof (rows_proper _ _ Hgh) as Hr. pose proof (cols_proper _ _ Hgh) as Hc.
  split; [|split]; simpl; [done|done|].
  intros i j. rewrite !get_fill_rect, (inb_equiv _ _ _ _ Hgh), Hr, Hc. by rewrite Hgh.
Qed.

Lemma grid_equiv_intro g h :
  rows g = rows h -> cols g = cols h -> (forall i j, g.[i, j] = h.[i, j]) -> g ≡ h.
Proof. done. Qed.

(** A grid built cell by cell on the shape of [g] reads like [g] does. *)
Lemma get_on (g : grid) f i j :
  (mkGrid (rows g) (cols g) f).[i, j] = if inb g i j then f i j else 0.
Proof. done. Qed.

(** The closing step of the [Proper] proofs of the pointwise operations. *)
Ltac pointwise_proper H :=
  apply grid_equiv_intro; [simpl; by rewrite H|simpl; by rewrite H|];
  intros ??; rewrite ?get_on, ?get_write_nz, (inb_equiv _ _ _ _ H).

#[export] Instance write_nz_proper : Proper ((≡) ==> eq ==> eq ==> (≡) ==> (≡)) write_nz.
Proof.
  intros g h Hgh ? a0 -> ? a1 -> b b' Hb. pointwise_proper Hgh. by rewrite !Hgh, !Hb.
Qed.

#[export] Instance bool_of_proper : Proper ((≡) ==> (≡)) bool_of.
Proof. intros g h Hgh. unfold bool_of. pointwise_proper Hgh. by rewrite !Hgh. Qed.

#[export] Instance scale_proper : Proper (eq ==> (≡) ==> (≡)) scale.
Proof. intros ? k -> g h Hgh. unfold scale. pointwise_proper Hgh. by rewrite !Hgh. Qed.

#[export] Instance mul_proper : Proper ((≡) ==> (≡) ==> (≡)) mul.
Proof. intros g g' Hg h h' Hh. unfold mul. pointwise_proper Hg. by rewrite !Hg, !Hh. Qed.

#[export] Instance nz_cells_proper : Proper ((≡) ==> eq) nz_cells.
Proof.
  intros g h Hgh. unfold nz_cells. rewrite (rows_proper _ _ Hgh), (cols_proper _ _ Hgh).
  apply list_bind_ext. intros i _.
  f_equal. apply list_filter_iff. intros j. by rewrite Hgh.
Qed.

#[export] Instance count_nonzero_proper : Proper ((≡) ==> eq) count_nonzero.
Proof. intros g h H. unfold count_nonzero. by rewrite H. Qed.

#[export] Instance any_nz_proper : Proper ((≡) ==> eq) any_nz.
Proof. intros g h H. unfold any_nz. by rewrite H. Qed.

#[export] Instance where_bbox_proper : Proper ((≡) ==> eq) where_bbox.
Proof. intros g h H. unfold where_bbox. by rewrite (nz_cells_proper _ _ H). Qed.

(** The four conditions of [where_bbox_spec] determine the box. *)
Lemma where_bbox_char g r0 r1 c0 c1 :
  (forall i j, g.[i, j] <> 0 -> r0 <= i <= r1 /\ c0 <= j <= c1) ->
  (exists j, g.[r0, j] <> 0) -> (exists j, g.[r1, j] <> 0) ->
  (exists i, g.[i, c0] <> 0) -> (exists i, g.[i, c1] <> 0) ->
  where_bbox g = Some (r0, r1, c0, c1).
Proof.
  intros Hin [ja Ha] [jb Hb] [ic Hc] [id Hd].
  destruct (where_bbox g) as [[[[a b] c] d]|] eqn:E.
  - apply where_bbox_spec in E as (Hin' & [ja' Ha'] & [jb' Hb'] & [ic' Hc'] & [id' Hd']).
    apply Hin in Ha', Hb', Hc', Hd'. apply Hin' in Ha, Hb, Hc, Hd.
    repeat f_equal; lia.
  - apply where_bbox_None in E. rewrite any_nz_false in E. exfalso. apply Ha, E.
Qed.

(** A constant rectangle drawn on zeros: its cells. *)
Lemma get_fill_zeros n m r0 r1 c0 c1 v i j :
  (fill_rect (zeros n m) r0 r1 c0 c1 v).[i, j] =
  if bool_decide ((0 <= i < n /\ 0 <= j < m) /\
     fst (py_slice r0 r1 n) <= i < snd (py_slice r0 r1 n) /\
     fst (py_slice c0 c1 m) <= j < snd (py_slice c0 c1 m))
  then v else 0.
Proof.
  rewrite get_fill_rect. unfold get, inb; simpl.
  repeat case_bool_decide; try done; exfalso; lia.
Qed.

(** ** Counting *)

Lemma elem_of_rect_cells a h c w i j :
  (i, j) ∈ rect_cells a h c w <-> a <= i < a + h /\ c <= j < c + w.
Proof.
  unfold rect_cells. rewrite list_elem_of_bind. split.
  - intros (i' & Hj & Hi). apply list_elem_of_fmap in Hj as (j' & [= -> ->] & Hj).
    apply elem_of_seqZ in Hi, Hj. lia.
  - intros [Hi Hj]. exists i. split; [|by apply elem_of_seqZ].
    apply list_elem_of_fmap. exists j. split; [done|by apply elem_of_seqZ].
Qed.

Lemma NoDup_rect_cells a h c w : NoDup (rect_cells a h c w).
Proof.
  apply NoDup_bind; [|intros; apply NoDup_fmap; [intros ?? [=]; done|apply NoDup_seqZ]|apply NoDup_seqZ].
  intros x1 x2 y _ _ H1 H2. apply list_elem_of_fmap in H1 as (? & -> & _).
  by apply list_elem_of_fmap in H2 as (? & [= -> _] & _).
Qed.

Lemma length_bind_const {A B} (l : list A) (f : A -> list B) n :
  (forall x, length (f x) = n) -> length (l ≫= f) = (length l * n)%nat.
Proof.
  intros Hf. induction l as [|x l IH]; [done|].
  change (length (f x ++ (l ≫= f)) = (S (length l) * n)%nat).
  rewrite length_app, IH, Hf. lia.
Qed.

Lemma length_rect_cells a h c w :
  0 <= h -> 0 <= w -> Z.of_nat (length (rect_cells a h c w)) = h * w.
Proof.
  intros. unfold rect_cells. rewrite (length_bind_const _ _ (Z.to_nat w)).
  - rewrite length_seqZ. lia.
  - intros. by rewrite length_fmap, length_seqZ.
Qed.

Lemma NoDup_nz_cells g : NoDup (nz_cells g).
Proof.
  apply NoDup_bind; [|intros; apply NoDup_fmap; [intros ?? [=]; done|]|apply NoDup_seqZ].
  - intros x1 x2 y _ _ H1 H2. apply list_elem_of_fmap in H1 as (? & -> & _).
    by apply list_elem_of_fmap in H2 as (? & [= -> _] & _).
  - apply list.NoDup_filter, NoDup_seqZ.
Qed.

(** [np.count_nonzero] counted through any duplicate-free list of exactly
    the non-zero cells. *)
Lemma count_nonzero_perm g (l : list (Z * Z)) :
  NoDup l -> (forall p, p ∈ l <-> g.[p.1, p.2] <> 0) ->
  count_nonzero g = Z.of_nat (length l).
Proof.
  intros Hnd Hl. unfold count_nonzero. f_equal. apply Permutation_length.
  apply NoDup_Permutation; [apply NoDup_nz_cells|done|].
  intros p. rewrite elem_of_nz_cells_get, Hl. done.
Qed.

(** A slice whose window holds every non-zero cell keeps the count. *)
Lemma count_nonzero_slice g r0 r1 c0 c1 :
  let r := py_slice r0 r1 (rows g) in
  let c := py_slice c0 c1 (cols g) in
  (forall i j, g.[i, j] <> 0 -> fst r <= i < snd r /\ fst c <= j < snd c) ->
  count_nonzero (slice g r0 r1 c0 c1) = count_nonzero g.
Proof.
  intros r c Hin. set (f := fun p : Z * Z => (p.1 - fst r, p.2 - fst c)).
  unfold count_nonzero at 2. rewrite <- (length_fmap f).
  apply count_nonzero_perm.
  - apply NoDup_fmap; [|apply NoDup_nz_cells]. intros [] [] [=]. f_equal; lia.
  - intros [i j]. rewrite list_elem_of_fmap. split.
    + intros ([i' j'] & [= -> ->] & Hp). apply elem_of_nz_cells_get in Hp. simpl in *.
      pose proof (Hin _ _ Hp). rewrite get_slice. unfold inb; simpl.
      rewrite bool_decide_true by lia.
      match goal with |- g.[?x, ?y] <> 0 => replace x with i' by lia; by replace y with j' by lia end.
    + intros Hp. rewrite get_slice in Hp. fold r c in Hp. simpl in Hp.
      destruct (inb (slice g r0 r1 c0 c1) i j); [|done]. exists (fst r + i, fst c + j). simpl.
      split; [unfold f; simpl; f_equal; lia|]. by apply elem_of_nz_cells_get.
Qed.

(** The count of a constant non-zero rectangle drawn on zeros. *)
Lemma count_fill_zeros n m r0 r1 c0 c1 v :
  0 <= n -> 0 <= m -> v <> 0 ->
  let r := py_slice r0 r1 n in
  let c := py_slice c0 c1 m in
  count_nonzero (fill_rect (zeros n m) r0 r1 c0 c1 v) = (snd r - fst r) * (snd c - fst c).
Proof.
  intros Hn Hm Hv r c.
  pose proof (py_slice_bounds r0 r1 n Hn) as Hr. pose proof (py_slice_bounds c0 c1 m Hm) as Hc.
  fold r in Hr. fold c in Hc.
  rewrite (count_nonzero_perm _ (rect_cells (fst r) (snd r - fst r) (fst c) (snd c - fst c))).
  - apply length_rect_cells; lia.
  - apply NoDup_rect_cells.
  - intros [i j]. rewrite elem_of_rect_cells, get_fill_zeros. cbn [fst snd]. fold r c.
    case_bool_decide; lia.
Qed.

Lemma nz_cells_bool_of g : nz_cells (bool_of g) = nz_cells g.
Proof.
  unfold nz_cells. change (rows (bool_of g)) with (rows g).
  change (cols (bool_of g)) with (cols g). apply list_bind_ext. intros i _. f_equal.
  apply list_filter_iff. intros j. unfold bool_of. rewrite get_on.
  destruct (inb g i j) eqn:Hb; [|unfold get; by rewrite Hb].
  destruct (Z.eqb_spec (g.[i, j]) 0); simpl; lia.
Qed.

Lemma count_nonzero_bool_of g : count_nonzero (bool_of g) = count_nonzero g.
Proof. unfold count_nonzero. by rewrite nz_cells_bool_of. Qed.

Lemma get_bool_of g i j : (bool_of g).[i, j] = if g.[i, j] =? 0 then 0 else 1.
Proof.
  unfold bool_of. rewrite get_on.
  destruct (inb g i j) eqn:Hb; [done|]. unfold get; by rewrite Hb.
Qed.

Lemma get_scale k g i j : (scale k g).[i, j] = k * g.[i, j].
Proof.
  unfold scale. rewrite get_on. destruct (inb g i j) eqn:Hb; [done|]. unfold get; rewrite Hb; lia.
Qed.

Lemma rows_bool_of g : rows (bool_of g) = rows g.
Proof. done. Qed.
Lemma cols_bool_of g : cols (bool_of g) = cols g.
Proof. done. Qed.

(** A window [a[r : r + k, c : c + l]] that starts inside the array or past
    its end reads the array at the offset position; outside the window it
    reads 0. *)
Lemma get_slice_window g r k c l i j :
  wf_grid g -> 0 <= r -> 0 <= k -> 0 <= c -> 0 <= l ->
  (slice g r (r + k) c (c + l)).[i, j] =
  if bool_decide (0 <= i < k /\ 0 <= j < l) then g.[r + i, c + j] else 0.
Proof.
  intros [Hr Hc] ????. rewrite get_slice. unfold inb. rewrite rows_slice, cols_slice.
  unfold py_slice, py_index. zcase; try lia; simpl.
  repeat case_bool_decide; try done; try (exfalso; lia);
    first [ rewrite (Z.min_l r), (Z.min_l c) by lia; done
          | symmetry; apply get_out; lia ].
Qed.

Lemma get_mul g h i j :
  (mul g h).[i, j] = if inb g i j then g.[i, j] * h.[i, j] else 0.
Proof. done. Qed.

Lemma rows_write_nz g a0 a1 b : rows (write_nz g a0 a1 b) = rows g.
Proof. done. Qed.
Lemma cols_write_nz g a0 a1 b : cols (write_nz g a0 a1 b) = cols g.
Proof. done. Qed.

Lemma get_slice_prefix g k l i j :
  wf_grid g -> 0 <= k -> 0 <= l ->
  (slice g 0 k 0 l).[i, j] = if bool_decide (0 <= i < k /\ 0 <= j < l) then g.[i, j] else 0.
Proof. intros Hg ??. apply (get_slice_window g 0 k 0 l); [exact Hg|lia..]. Qed.

(** The extent of the window [p : p + h] of a sequence of length [n], for a
    start [p >= 0]: at most [h], and it ends exactly where the sequence
    does when it is shorter than [h]. *)
Lemma window_extent p h n :
  0 <= p -> 0 <= h -> 0 <= n ->
  let k := snd (py_slice p (p + h) n) - fst (py_slice p (p + h) n) in
  0 <= k <= h /\ (forall i, 0 <= i < k -> p + i < n) /\ (forall i, k <= i < h -> n <= p + i) /\
  (p <= n -> fst (py_slice p (p + h) n) = p).
Proof.
  intros Hp Hh Hn. cbv zeta. unfold py_slice, py_index.
  zcase; simpl; (split; [lia|split; [intros; lia|split; intros; lia]]).
Qed.

Lemma wf_slice g r0 r1 c0 c1 : wf_grid g -> wf_grid (slice g r0 r1 c0 c1).
Proof.
  intros [Hr Hc]. unfold wf_grid. rewrite rows_slice, cols_slice.
  pose proof (py_slice_bounds r0 r1 _ Hr). pose proof (py_slice_bounds c0 c1 _ Hc). lia.
Qed.

(** Reading a slice inside its window. *)
Lemma get_slice_in g r0 r1 c0 c1 i j :
  0 <= i < snd (py_slice r0 r1 (rows g)) - fst (py_slice r0 r1 (rows g)) ->
  0 <= j < snd (py_slice c0 c1 (cols g)) - fst (py_slice c0 c1 (cols g)) ->
  (slice g r0 r1 c0 c1).[i, j] = g.[fst (py_slice r0 r1 (rows g)) + i, fst (py_slice c0 c1 (cols g)) + j].
Proof.
  intros Hi Hj. rewrite get_slice. unfold inb. rewrite rows_slice, cols_slice.
  by rewrite bool_decide_true.
Qed.
