(* ===== verification/Volume.v ===== *)
(** * numpy 3-D integer arrays: [ws_bag], [boundary] and [virtual_bag]

    [BaggageImage2D] keeps three volumes: the workspace [ws_bag] and the
    wall mask [boundary], both of side [size], and the output
    [virtual_bag] of shape [img_vol]. A volume is a [vol] record: its
    shape and a cell function, read through [vread], which answers 0
    outside the shape, as [Grid.get] does for 2-D arrays. The operations
    are the numpy idioms of [create_baggage_image]:
    - the slice [v[:, :, z]] ([vslice]) and its write-back ([vset_slice]);
    - the box view [v[a:b, c:d, e:f]] ([vsub]) and the box assignment
      [v[a:b, c:d, e:f] = w] with numpy's broadcasting check
      ([vassign_box]);
    - the product [v * g[:, :, newaxis]] with broadcasting ([vmul_plane]);
    - [v[v < 0] = 0] ([vclear_negative]);
    - [v[nz] = p[nz]] with [nz = p.nonzero()] ([vcopy_nz]);
    - [v[m.nonzero()] = w[m.nonzero()]] for a 2-D mask [m]
      ([vwrite_columns]).
    An assignment whose shapes do not broadcast raises [ValueError], and an
    index outside the array raises [IndexError]; both are [None]. *)

From Stdlib Require Import ZArith Lia FunctionalExtensionality.
From stdpp Require Import base list numbers.
From S2P Require Import Prelude Grid.
Open Scope Z_scope.
Open Scope raster_scope.

Record vol := mkVol { vx : Z; vy : Z; vz : Z; vcell : Z -> Z -> Z -> Z }.

(** ** Reading *)

Definition vinb (v : vol) (x y z : Z) : bool :=
  bool_decide (0 <= x < vx v /\ 0 <= y < vy v /\ 0 <= z < vz v).

Definition vread (v : vol) (x y z : Z) : Z := if vinb v x y z then vcell v x y z else 0.

Notation "v .{ x , y , z }" := (vread v x y z)
  (at level 1, x at level 200, y at level 200, z at level 200,
   format "v .{ x ,  y ,  z }") : raster_scope.

Definition vshape (v : vol) : Z * Z * Z := (vx v, vy v, vz v).

(** A volume with the shape of [v] and the cells [f] inside it. *)
Definition von (v : vol) (f : Z -> Z -> Z -> Z) : vol := mkVol (vx v) (vy v) (vz v) f.

(** [np.zeros(shape)] and [np.ones(shape)] *)
Definition vzeros (s : Z * Z * Z) : vol := mkVol s.1.1 s.1.2 s.2 (fun _ _ _ => 0).
Definition vones (s : Z * Z * Z) : vol := mkVol s.1.1 s.1.2 s.2 (fun _ _ _ => 1).

(** ** Slices along the third axis *)

(** [v[:, :, z]] *)
Definition vslice (v : vol) (z : Z) : grid := mkGrid (vx v) (vy v) (fun i j => v.{i, j, z}).

(** The writes of [add_object] and [place_object_in_bag] into
    [v[..., self.slice_no]]: slice [z] becomes [g], read on [v]'s shape. *)
Definition vset_slice (v : vol) (z : Z) (g : grid) : vol :=
  von v (fun x y k => if k =? z then g.[x, y] else v.{x, y, k}).

(** ** Element-wise *)

(** [v[v < 0] = 0] *)
Definition vclear_negative (v : vol) : vol :=
  von v (fun x y z => if v.{x, y, z} <? 0 then 0 else v.{x, y, z}).

(** The non-zero cells of [v], in [nonzero()] order. *)
Definition vnz_cells (v : vol) : list (Z * Z * Z) :=
  seqZ 0 (vx v) ≫= fun x => seqZ 0 (vy v) ≫= fun y =>
    (fun z => (x, y, z)) <$> filter (fun z => v.{x, y, z} <> 0) (seqZ 0 (vz v)).

(** [v[nz] = p[nz]] with [nz = p.nonzero()]: [IndexError] when a non-zero
    cell of [p] lies outside [v]. *)
Definition vcopy_nz (v p : vol) : option vol :=
  if forallb (fun c => vinb v c.1.1 c.1.2 c.2) (vnz_cells p)
  then Some (von v (fun x y z => if p.{x, y, z} =? 0 then v.{x, y, z} else p.{x, y, z}))
  else None.

(** ** Boxes *)

(** [v[x0:x1, y0:y1, z0:z1]] (a copy of the view). *)
Definition vsub (v : vol) (x0 x1 y0 y1 z0 z1 : Z) : vol :=
  let a := py_slice x0 x1 (vx v) in let b := py_slice y0 y1 (vy v) in
  let c := py_slice z0 z1 (vz v) in
  mkVol (a.2 - a.1) (b.2 - b.1) (c.2 - c.1) (fun x y z => v.{a.1 + x, b.1 + y, c.1 + z}).

(** Whether a source axis of length [m] broadcasts to a window of length
    [n], and the source index that window index [i] reads. *)
Definition bfits (m n : Z) : bool := (m =? n) || (m =? 1).
Definition bidx (m i : Z) : Z := if m =? 1 then 0 else i.

(** [v[x0:x1, y0:y1, z0:z1] = w]: [ValueError] unless every axis of [w]
    has the window's length or length 1. *)
Definition vassign_box (v : vol) (x0 x1 y0 y1 z0 z1 : Z) (w : vol) : option vol :=
  let a := py_slice x0 x1 (vx v) in let b := py_slice y0 y1 (vy v) in
  let c := py_slice z0 z1 (vz v) in
  if bfits (vx w) (a.2 - a.1) && bfits (vy w) (b.2 - b.1) && bfits (vz w) (c.2 - c.1)
  then Some (von v (fun x y z =>
         if bool_decide (a.1 <= x < a.2 /\ b.1 <= y < b.2 /\ c.1 <= z < c.2)
         then w.{bidx (vx w) (x - a.1), bidx (vy w) (y - b.1), bidx (vz w) (z - c.1)}
         else v.{x, y, z}))
  else None.

(** [v[x0:x1, y0:y1, z0:z1] = k] for a scalar [k]. *)
Definition vfill_box (v : vol) (x0 x1 y0 y1 z0 z1 k : Z) : vol :=
  let a := py_slice x0 x1 (vx v) in let b := py_slice y0 y1 (vy v) in
  let c := py_slice z0 z1 (vz v) in
  von v (fun x y z => if bool_decide (a.1 <= x < a.2 /\ b.1 <= y < b.2 /\ c.1 <= z < c.2)
                      then k else v.{x, y, z}).

(** [k * v] *)
Definition vscale (k : Z) (v : vol) : vol := von v (fun x y z => k * v.{x, y, z}).

(** [p != 0], as 0/1: the cells that [v[p.nonzero()] = 1] sets. *)
Definition vbool (p : vol) : vol := von p (fun x y z => if p.{x, y, z} =? 0 then 0 else 1).

(** The length of two axes broadcast together, [None] when they do not
    broadcast. *)
Definition bdim (m n : Z) : option Z :=
  if m =? n then Some m else if m =? 1 then Some n else if n =? 1 then Some m else None.

(** [v * g[:, :, newaxis]]: the plane [g] of shape [(r, c, 1)] broadcast
    against [v]. *)
Definition vmul_plane (v : vol) (g : grid) : option vol :=
  x ← bdim (vx v) (rows g); y ← bdim (vy v) (cols g);
  Some (mkVol x y (vz v) (fun i j k =>
          v.{bidx (vx v) i, bidx (vy v) j, k} * g.[bidx (rows g) i, bidx (cols g) j])).

(** [v[m.nonzero()] = w[m.nonzero()]] for a 2-D mask [m]: the whole column
    [v[i, j, :]] takes [w[i, j, :]] at every non-zero [(i, j)] of [m].
    [IndexError] when such a cell lies outside [v] or [w], [ValueError]
    when the columns differ in length. *)
Definition vwrite_columns (v : vol) (m : grid) (w : vol) : option vol :=
  if forallb (fun c => bool_decide (0 <= c.1 < vx v /\ 0 <= c.2 < vy v /\
                                   0 <= c.1 < vx w /\ 0 <= c.2 < vy w)) (nz_cells m)
     && bfits (vz w) (vz v)
  then Some (von v (fun x y z => if m.[x, y] =? 0 then v.{x, y, z} else w.{x, y, bidx (vz w) z}))
  else None.

(** ** Reading lemmas *)

Lemma vread_on v f x y z : (von v f).{x, y, z} = if vinb v x y z then f x y z else 0.
Proof. done. Qed.

Lemma vread_out v x y z : ~ (0 <= x < vx v /\ 0 <= y < vy v /\ 0 <= z < vz v) -> v.{x, y, z} = 0.
Proof. intros H. unfold vread, vinb. by rewrite bool_decide_false. Qed.

(** A slice reads like the volume, inside and outside its shape. *)
Lemma get_vslice v z i j : (vslice v z).[i, j] = v.{i, j, z}.
Proof.
  unfold vslice, get, inb. cbn [rows cols cell]. case_bool_decide; [done|].
  rewrite vread_out; [done|]. tauto.
Qed.

Lemma vread_set_slice v z g x y k :
  (vset_slice v z g).{x, y, k} = if vinb v x y k then (if k =? z then g.[x, y] else v.{x, y, k}) else 0.
Proof. done. Qed.

Lemma vread_clear v x y z :
  (vclear_negative v).{x, y, z} = if v.{x, y, z} <? 0 then 0 else v.{x, y, z}.
Proof.
  unfold vclear_negative. rewrite vread_on. destruct (vinb v x y z) eqn:E; [done|].
  unfold vread. by rewrite E.
Qed.

(** ** The volume setoid *)

#[export] Instance vol_equiv : Equiv vol := fun v w =>
  vshape v = vshape w /\ forall x y z, v.{x, y, z} = w.{x, y, z}.

#[export] Instance vol_equivalence : Equivalence (≡@{vol}).
Proof.
  split.
  - intros v. done.
  - intros v w (? & H). split; [done|]. intros. by rewrite H.
  - intros u v w (? & H1) (? & H2). split; [congruence|]. intros. by rewrite H1, H2.
Qed.

Lemma vshape_equiv v w : v ≡ w -> vx v = vx w /\ vy v = vy w /\ vz v = vz w.
Proof. intros [H _]. unfold vshape in H. by simplify_eq. Qed.

Lemma vinb_equiv v w x y z : v ≡ w -> vinb v x y z = vinb w x y z.
Proof. intros H. apply vshape_equiv in H as (Hx & Hy & Hz). unfold vinb. by rewrite Hx, Hy, Hz. Qed.

#[export] Instance vread_proper : Proper ((≡) ==> eq ==> eq ==> eq ==> eq) vread.
Proof. intros v w [_ H] ? x -> ? y -> ? z ->. apply H. Qed.

#[export] Instance vslice_proper : Proper ((≡) ==> eq ==> (≡)) vslice.
Proof.
  intros v w H ? z ->. pose proof (vshape_equiv _ _ H) as (Hx & Hy & _).
  apply grid_equiv_intro; [simpl; done|simpl; done|]. intros i j. rewrite !get_vslice. by rewrite H.
Qed.

#[export] Instance vset_slice_proper : Proper ((≡) ==> eq ==> (≡) ==> (≡)) vset_slice.
Proof.
  intros v w H ? z -> g h Hg. split; [by destruct H|].
  intros x y k. rewrite !vread_set_slice, (vinb_equiv _ _ _ _ _ H), H, Hg. done.
Qed.

#[export] Instance vclear_negative_proper : Proper ((≡) ==> (≡)) vclear_negative.
Proof. intros v w [Hs H]. split; [exact Hs|]. intros x y z. by rewrite !vread_clear, H. Qed.

(** ** Slice lemmas *)

(** Writing slice [z] back with a grid of the slice's shape and reading
    it gives the grid. *)
Lemma vslice_set_eq v z g :
  0 <= z < vz v -> rows g = vx v -> cols g = vy v -> vslice (vset_slice v z g) z ≡ g.
Proof.
  intros Hz Hr Hc. apply grid_equiv_intro; [simpl; done|simpl; done|].
  intros i j. rewrite get_vslice, vread_set_slice, Z.eqb_refl. unfold vinb.
  case_bool_decide; [done|]. symmetry. apply get_out. rewrite Hr, Hc. lia.
Qed.

(** The other slices are untouched. *)
Lemma vslice_set_ne v z z' g : z <> z' -> vslice (vset_slice v z g) z' ≡ vslice v z'.
Proof.
  intros Hz. apply grid_equiv_intro; [done|done|]. intros i j.
  rewrite !get_vslice, vread_set_slice. rewrite (proj2 (Z.eqb_neq z' z)) by lia.
  destruct (vinb v i j z') eqn:E; [done|]. unfold vread. by rewrite E.
Qed.

Lemma vshape_set_slice v z g : vshape (vset_slice v z g) = vshape v.
Proof. done. Qed.

Lemma vshape_clear v : vshape (vclear_negative v) = vshape v.
Proof. done. Qed.

(** ** Boxes and products *)

(** An index of a source axis that fits its window reads the source at
    the offset into the window. *)
Lemma bidx_in m i : 0 <= i < m -> bidx m i = i.
Proof. unfold bidx. intros. destruct (Z.eqb_spec m 1); lia. Qed.

Lemma vread_sub v x0 x1 y0 y1 z0 z1 x y z :
  0 <= x0 <= x1 -> x1 <= vx v -> 0 <= y0 <= y1 -> y1 <= vy v -> 0 <= z0 <= z1 -> z1 <= vz v ->
  (vsub v x0 x1 y0 y1 z0 z1).{x, y, z} =
  if bool_decide (0 <= x < x1 - x0 /\ 0 <= y < y1 - y0 /\ 0 <= z < z1 - z0)
  then v.{x0 + x, y0 + y, z0 + z} else 0.
Proof. intros. unfold vsub. rewrite !py_slice_in by lia. done. Qed.

Lemma vshape_sub v x0 x1 y0 y1 z0 z1 :
  0 <= x0 <= x1 -> x1 <= vx v -> 0 <= y0 <= y1 -> y1 <= vy v -> 0 <= z0 <= z1 -> z1 <= vz v ->
  vshape (vsub v x0 x1 y0 y1 z0 z1) = (x1 - x0, y1 - y0, z1 - z0).
Proof. intros. unfold vsub. rewrite !py_slice_in by lia. done. Qed.

(** A box inside the volume, assigned a source of the box's shape. *)
Lemma vassign_box_in v w x0 x1 y0 y1 z0 z1 :
  0 <= x0 <= x1 -> x1 <= vx v -> 0 <= y0 <= y1 -> y1 <= vy v -> 0 <= z0 <= z1 -> z1 <= vz v ->
  vshape w = (x1 - x0, y1 - y0, z1 - z0) ->
  exists v', vassign_box v x0 x1 y0 y1 z0 z1 w = Some v' /\ vshape v' = vshape v /\
    forall x y z, v'.{x, y, z} =
      if bool_decide (x0 <= x < x1 /\ y0 <= y < y1 /\ z0 <= z < z1)
      then w.{x - x0, y - y0, z - z0} else v.{x, y, z}.
Proof.
  intros ? ? ? ? ? ? Hw. destruct w as [wx wy wz wc]. unfold vshape in Hw. cbn in Hw.
  injection Hw as -> -> ->.
  unfold vassign_box. rewrite !py_slice_in by lia. cbn [fst snd vx vy vz].
  unfold bfits. rewrite !Z.eqb_refl. cbn.
  eexists. split; [done|]. split; [done|]. intros x y z. rewrite vread_on.
  case_bool_decide as Hin.
  - rewrite !bidx_in by lia. unfold vinb. rewrite bool_decide_true by lia. done.
  - destruct (vinb v x y z) eqn:E; [done|]. unfold vread. by rewrite E.
Qed.

(** A window that is not of the source's length on one axis, for a source
    longer than one on that axis, is a [ValueError]. *)
Lemma vassign_box_mismatch v w x0 x1 y0 y1 z0 z1 :
  let a := py_slice x0 x1 (vx v) in let b := py_slice y0 y1 (vy v) in
  let c := py_slice z0 z1 (vz v) in
  (vx w <> a.2 - a.1 /\ vx w <> 1) \/ (vy w <> b.2 - b.1 /\ vy w <> 1) \/
  (vz w <> c.2 - c.1 /\ vz w <> 1) ->
  vassign_box v x0 x1 y0 y1 z0 z1 w = None.
Proof.
  intros a b c H. unfold vassign_box. fold a b c. unfold bfits.
  destruct H as [[H1 H2]|[[H1 H2]|[H1 H2]]];
    rewrite ?(proj2 (Z.eqb_neq _ _) H1), ?(proj2 (Z.eqb_neq _ _) H2), ?andb_false_r; done.
Qed.

(** The product with a plane of the volume's first two axes. *)
Lemma vmul_plane_same v g :
  rows g = vx v -> cols g = vy v ->
  exists v', vmul_plane v g = Some v' /\ vshape v' = vshape v /\
    forall x y z, v'.{x, y, z} = v.{x, y, z} * g.[x, y].
Proof.
  intros Hr Hc. unfold vmul_plane, bdim. rewrite Hr, Hc, !Z.eqb_refl. cbn.
  eexists. split; [done|]. split; [done|]. intros x y z.
  unfold vread at 1, vinb. cbn [vx vy vz vcell].
  case_bool_decide as Hin.
  - rewrite !bidx_in by lia. done.
  - rewrite vread_out; [done|]. done.
Qed.

Lemma vread_set_slice_ne v z g x y k : k <> z -> (vset_slice v z g).{x, y, k} = v.{x, y, k}.
Proof.
  intros Hk. rewrite vread_set_slice, (proj2 (Z.eqb_neq k z) Hk).
  destruct (vinb v x y k) eqn:E; [done|]. unfold vread. by rewrite E.
Qed.

Lemma vread_set_slice_eq v z g x y : vinb v x y z = true -> (vset_slice v z g).{x, y, z} = g.[x, y].
Proof. intros E. by rewrite vread_set_slice, E, Z.eqb_refl. Qed.

(** Two volumes of the same first two axes that agree on slice [z] have
    the same slice [z]. *)
Lemma vslice_ext v w z :
  vx v = vx w -> vy v = vy w -> (forall x y, v.{x, y, z} = w.{x, y, z}) -> vslice v z = vslice w z.
Proof.
  intros Hx Hy H. unfold vslice. rewrite Hx, Hy. f_equal.
  extensionality i. extensionality j. apply H.
Qed.

(** ** Non-zero cells and masked writes *)

Lemma vread_nz_inb v x y z : v.{x, y, z} <> 0 -> vinb v x y z = true.
Proof. unfold vread. by destruct (vinb v x y z). Qed.

Lemma elem_of_vnz_cells v x y z : (x, y, z) ∈ vnz_cells v <-> v.{x, y, z} <> 0.
Proof.
  split.
  - intros H. apply list_elem_of_bind in H as (x' & H & _). apply list_elem_of_bind in H as (y' & H & _).
    apply list_elem_of_fmap in H as (z' & [= -> -> ->] & H). by apply list_elem_of_filter in H as [? _].
  - intros H. pose proof (vread_nz_inb _ _ _ _ H) as Hin. unfold vinb in Hin. apply bool_decide_eq_true in Hin.
    apply list_elem_of_bind. exists x. split; [|apply elem_of_seqZ; lia].
    apply list_elem_of_bind. exists y. split; [|apply elem_of_seqZ; lia].
    apply list_elem_of_fmap. exists z. split; [done|].
    apply list_elem_of_filter. split; [done|]. apply elem_of_seqZ. lia.
Qed.

(** [v[nz] = p[nz]] succeeds when every non-zero cell of [p] lies in [v]. *)
Lemma vcopy_nz_Some v p :
  (forall x y z, p.{x, y, z} <> 0 -> vinb v x y z = true) ->
  vcopy_nz v p = Some (von v (fun x y z => if p.{x, y, z} =? 0 then v.{x, y, z} else p.{x, y, z})).
Proof.
  intros H. unfold vcopy_nz. rewrite (proj2 (forallb_forall _ _)); [done|].
  intros [[x y] z] Hc. apply H, elem_of_vnz_cells. by apply list_elem_of_In.
Qed.

(** ... and raises [IndexError] when one of them lies outside [v]. *)
Lemma vcopy_nz_None v p x y z : p.{x, y, z} <> 0 -> vinb v x y z = false -> vcopy_nz v p = None.
Proof.
  intros Hp Hv. unfold vcopy_nz. destruct (forallb _ _) eqn:E; [|done].
  apply forallb_forall with (x := (x, y, z)) in E; [cbn in E; congruence|].
  by apply list_elem_of_In, elem_of_vnz_cells.
Qed.

(** The cells of [a[x0:x1, y0:y1, z0:z1] = k] for a box inside [a]. *)
Lemma vread_fill_box_in v x0 x1 y0 y1 z0 z1 k x y z :
  0 <= x0 <= x1 -> x1 <= vx v -> 0 <= y0 <= y1 -> y1 <= vy v -> 0 <= z0 <= z1 -> z1 <= vz v ->
  (vfill_box v x0 x1 y0 y1 z0 z1 k).{x, y, z} =
    if vinb v x y z then (if bool_decide (x0 <= x < x1 /\ y0 <= y < y1 /\ z0 <= z < z1) then k else v.{x, y, z})
    else 0.
Proof. intros. unfold vfill_box. rewrite !py_slice_in by lia. by rewrite vread_on. Qed.

Lemma vshape_fill_box v x0 x1 y0 y1 z0 z1 k : vshape (vfill_box v x0 x1 y0 y1 z0 z1 k) = vshape v.
Proof. done. Qed.
