(* ===== verification/Polygon.v ===== *)
(** * [skimage.draw.polygon] and the fancy assignment [a[rr, cc] = v]

    [create_trapezoid] fills a four-vertex polygon with
    [skimage.draw.polygon]. The library takes every pixel of the vertices'
    bounding box, cut to the array shape, and keeps those whose centre
    passes the crossing-number test [point_in_polygon]. It walks the edges
    from vertex [j] to vertex [i], with [j] trailing [i] and starting at
    the last vertex, and flips a flag at every edge that the horizontal
    ray to the right of the pixel crosses. The test compares
    [x < (xp[j] - xp[i]) * (y - yp[i]) / (yp[j] - yp[i]) + xp[i]] in double
    precision. The vertices of the source are small integers, so the
    numerator and the denominator are exact integers and the quotient is
    correctly rounded. It therefore lies on the same side of the integer
    [x] as the exact rational quotient that the model computes in [Q]. *)

From Stdlib Require Import ZArith Lia QArith.
From stdpp Require Import base list numbers.
From S2P Require Import Prelude Grid.
Open Scope Z_scope.
Open Scope raster_scope.

(** ** Definitions *)

(** The test of one edge, from vertex [(xj, yj)] to vertex [(xi, yi)]. The
    [and] of Python does not evaluate the quotient when the edge is
    horizontal. *)
Definition pip_crosses (xi yi xj yj x y : Z) : bool :=
  (((yi <=? y) && (y <? yj)) || ((yj <=? y) && (y <? yi))) &&
  negb (Qle_bool (inject_Z (xj - xi) * inject_Z (y - yi) / inject_Z (yj - yi) + inject_Z xi)
                 (inject_Z x)).

(** [for i in range(n): if crosses: c = not c; j = i] *)
Fixpoint pip_loop (vs : list (Z * Z)) (vj : Z * Z) (x y : Z) (c : bool) : bool :=
  match vs with
  | [] => c
  | vi :: vs' =>
      pip_loop vs' vi x y (if pip_crosses vi.1 vi.2 vj.1 vj.2 x y then negb c else c)
  end.

(** [point_in_polygon(xp, yp, x, y)], with [j = n - 1] at the start. *)
Definition point_in_polygon (xp yp : list Z) (x y : Z) : bool :=
  let vs := zip xp yp in
  match py_neg_index vs 1 with
  | Some vj => pip_loop vs vj x y false
  | None => false
  end.

(** [polygon(r, c, shape)]: the pixels [(r_i, c_i)] of the box
    [max(0, min) .. min(shape - 1, ceil(max))], in raster order, whose
    centre is inside. [None] is the [ValueError] of [min()] on no vertex. *)
Definition polygon (rp cp : list Z) (shape : Z * Z) : option (list (Z * Z)) :=
  rmin ← list_min rp; rmax ← list_max rp; cmin ← list_min cp; cmax ← list_max cp;
  let minr := Z.max 0 rmin in let maxr := Z.min (shape.1 - 1) rmax in
  let minc := Z.max 0 cmin in let maxc := Z.min (shape.2 - 1) cmax in
  Some (seqZ minr (maxr - minr + 1) ≫= fun r =>
          (fun c => (r, c)) <$>
            filter (fun c => point_in_polygon cp rp c r = true) (seqZ minc (maxc - minc + 1))).

(** [a[rr, cc] = v] for pixels inside the array, which is what [polygon]
    with a [shape] returns. *)
Definition set_cells (g : grid) (pts : list (Z * Z)) (v : Z) : grid :=
  mkGrid (rows g) (cols g) (fun i j => if bool_decide ((i, j) ∈ pts) then v else g.[i, j]).

(** ** Lemmas *)

(** The rational comparison of the test as an integer one: multiplying
    both sides by [d * d > 0] keeps the order whatever the sign of [d]. *)
Lemma pip_cmp x xi a d :
  d <> 0 ->
  negb (Qle_bool (inject_Z a / inject_Z d + inject_Z xi) (inject_Z x)) =
  ((x - xi) * d * d <? a * d).
Proof.
  intros Hd.
  assert (Hq : (inject_Z a / inject_Z d + inject_Z xi) * inject_Z (d * d) ==
               inject_Z (a * d + xi * (d * d))).
  { rewrite inject_Z_plus, !inject_Z_mult. field.
    intros H. apply Hd, inject_Z_injective. exact H. }
  assert (Hdd : (0 < inject_Z (d * d))%Q) by (change 0%Q with (inject_Z 0); rewrite <- Zlt_Qlt; nia).
  destruct (Qle_bool _ _) eqn:E; symmetry; simpl; [apply Z.ltb_ge|apply Z.ltb_lt].
  - apply Qle_bool_iff in E. apply (proj2 (Qmult_le_r _ _ _ Hdd)) in E.
    rewrite Hq, <- inject_Z_mult, <- Zle_Qle in E. nia.
  - apply not_true_iff_false in E. rewrite Qle_bool_iff in E. apply Qnot_le_lt in E.
    apply (proj2 (Qmult_lt_r _ _ _ Hdd)) in E.
    rewrite Hq, <- inject_Z_mult, <- Zlt_Qlt in E. nia.
Qed.

(** The edge test in integers. *)
Lemma pip_crosses_spec xi yi xj yj x y :
  pip_crosses xi yi xj yj x y =
  (((yi <=? y) && (y <? yj)) || ((yj <=? y) && (y <? yi))) &&
  ((x - xi) * (yj - yi) * (yj - yi) <? (xj - xi) * (y - yi) * (yj - yi)).
Proof.
  unfold pip_crosses.
  destruct (((yi <=? y) && (y <? yj)) || ((yj <=? y) && (y <? yi))) eqn:E; [|done].
  simpl. rewrite <- inject_Z_mult, pip_cmp; [done|].
  apply orb_true_iff in E as [E|E]; apply andb_true_iff in E as [E1 E2]; lia.
Qed.

Lemma elem_of_polygon rp cp shape pts rmin rmax cmin cmax i j :
  list_min rp = Some rmin -> list_max rp = Some rmax ->
  list_min cp = Some cmin -> list_max cp = Some cmax ->
  polygon rp cp shape = Some pts ->
  (i, j) ∈ pts <->
  Z.max 0 rmin <= i <= Z.min (shape.1 - 1) rmax /\
  Z.max 0 cmin <= j <= Z.min (shape.2 - 1) cmax /\ point_in_polygon cp rp j i = true.
Proof.
  intros E1 E2 E3 E4. unfold polygon. rewrite E1, E2, E3, E4. simpl. intros [= <-].
  rewrite list_elem_of_bind. split.
  - intros (r & Hp & Hr). apply list_elem_of_fmap in Hp as (c & [= -> ->] & Hc).
    apply list_elem_of_filter in Hc as [Hin Hc]. apply elem_of_seqZ in Hr, Hc. split; [lia|split; [lia|done]].
  - intros (Hi & Hj & Hin). exists i. split; [|apply elem_of_seqZ; lia].
    apply list_elem_of_fmap. exists j. split; [done|].
    apply list_elem_of_filter. split; [done|]. apply elem_of_seqZ. lia.
Qed.

Lemma get_set_cells g pts v i j :
  (set_cells g pts v).[i, j] =
  if inb g i j then (if bool_decide ((i, j) ∈ pts) then v else g.[i, j]) else 0.
Proof. apply get_on. Qed.
