(* ===== verification/Raster.v ===== *)
(** * The Primitive Rasterizer ([Object2D] of the source)

    A shape descriptor becomes a labelled mask. Every creator draws into a
    square buffer and then crops it with the same three lines of code,
    modelled once as [crop_where]. [create_ellipse] and [create_rectanguloid]
    are modelled at rotation angle 0, where [ndimage.rotate] is the identity.
    [create_trapezoid] (cones [C] and cylinders [Y]) fills the polygon of
    [Polygon] and rotates it by [np.deg2rad(rho)] degrees, which is below
    0.03 degrees. For a square of side below 1000 that rotation moves no
    pixel centre by half a pixel, so with [order=0] it is the identity too.
    [object_init] is [Object2D.__init__]: it dispatches on the shape letter
    and multiplies the boolean mask by the label.

    The ellipse test of [skimage.draw.ellipse] is cross-multiplied into
    integers. For radii below 2^20, the double-precision test of the library
    and this exact test agree. *)

From Stdlib Require Import ZArith Lia QArith.
From stdpp Require Import base list numbers.
From S2P Require Import Prelude Grid Polygon.
Open Scope Z_scope.
Open Scope raster_scope.

(** ** Data *)

(** The shape letters of [obj_dict['shape']]. *)
Inductive shape_kind := E | B | C | Y | S | M.

#[export] Instance shape_kind_eq_dec : EqDecision shape_kind.
Proof. solve_decision. Defined.

(** [obj_dict['lqd_param']] of a liquid-filled container. The level is a
    rational, standing for the Python float. *)
Record lqd_param := mkLqd {
  cntr_thickness : Z;
  lqd_level : Q;
  lqd_label : Z
}.

(** The geometry of a descriptor, with the parameters the creators read. *)
Inductive geom :=
  | GEllipse (a0 a1 : Z)     (* [geom['axes']] after [astype(int)] *)
  | GBox (d0 d1 : Z)         (* [geom['dim']] after [astype(int)] *)
  | GSheet (d0 d1 : Z)       (* [geom['dim']] of a sheet, after [astype(int)] *)
  | GCone (r1 r2 : Z)        (* [int(geom['radius1'])], [int(geom['radius2'])] *)
  | GCyl (r : Z).            (* [int(geom['radius'])] *)

(** A shape descriptor, the dictionary [obj_dict] of the source. *)
Record descriptor := mkDesc {
  d_shape : shape_kind;
  d_geom : geom;
  d_label : Z;
  d_lqd : option lqd_param
}.

(** The attributes only a sheet has: [self.curve_pts], the two end points
    of its centre line in object coordinates, and [self.axes], the
    descriptor's [dim] (the thickness is [axes[0]]). *)
Record sheet_attr := mkSheetAttr {
  curve_pts : (Z * Z) * (Z * Z);
  s_axes : Z * Z
}.

(** An [Object2D] instance: the attributes that placement reads and writes. *)
Record obj := mkObj {
  o_shape : shape_kind;
  o_label : Z;
  o_data : grid;            (* [self.data] *)
  o_dim : Z * Z;            (* [self.dim] *)
  o_pose : Z * Z;           (* [self.pose[0]], [self.pose[1]] *)
  o_lqd : option lqd_param;  (* [lqd_flag] with its parameters *)
  o_sheet : option sheet_attr (* the sheet attributes; [None] for the other shapes *)
}.

(** ** The crop shared by the creators *)

(** [box_coord = np.where(mask)];
    [box_dim = rmax - rmin + 1, cmax - cmin + 1];
    [bin_image = mask[rmin : rmin + box_dim[0] + 1, cmin : cmin + box_dim[1] + 1]].
    [None] is the [ValueError] that [.min()] raises on an empty mask. *)
Definition crop_where (mask : grid) : option grid :=
  '(r0, r1, c0, c1) ← where_bbox mask;
  let d0 := r1 - r0 + 1 in
  let d1 := c1 - c0 + 1 in
  Some (slice mask r0 (r0 + d0 + 1) c0 (c0 + d1 + 1)).

(** ** Ellipse *)

(** The pixel test of [skimage.draw.ellipse(r, c, r_radius, c_radius)] at
    rotation 0: [((rr - r) / r_radius)^2 + ((cc - c) / c_radius)^2 < 1]. *)
Definition in_ellipse (r c r_radius c_radius rr cc : Z) : bool :=
  (rr - r) ^ 2 * c_radius ^ 2 + (cc - c) ^ 2 * r_radius ^ 2 <? r_radius ^ 2 * c_radius ^ 2.

(** The buffer of [create_ellipse]:
    [e_r, e_c = ellipse(m+1, m+1, axes[0], axes[1], shape=(2m+1, 2m+1))] and
    [mask[e_r, e_c] = 1], with [m = max(axes[0], axes[1])]. *)
Definition ellipse_buffer (a0 a1 : Z) : grid :=
  let m := Z.max a0 a1 in
  mkGrid (2 * m + 1) (2 * m + 1)
    (fun rr cc => if in_ellipse (m + 1) (m + 1) a0 a1 rr cc then 1 else 0).

(** [Object2D.create_ellipse]: the boolean data and [self.dim]. *)
Definition create_ellipse (a0 a1 : Z) : option (grid * (Z * Z)) :=
  bin ← crop_where (ellipse_buffer a0 a1);
  Some (bool_of bin, (rows bin, cols bin)).

(** ** Box *)

(** The buffer side of [create_rectanguloid]:
    [max_dim = sqrt(dim[0]**2 + dim[1]**2)]; [max_dim = 2*int(max_dim//2) + 1]. *)
Definition box_side (d0 d1 : Z) : Z := 2 * (Z.sqrt (d0 ^ 2 + d1 ^ 2) / 2) + 1.

(** [start_pt = (max_dim-1)//2 - dim[k]//2 + 1] *)
Definition box_start (side d : Z) : Z := (side - 1) / 2 - d / 2 + 1.

(** [mask[s0 : s0 + dim[0] + 1, s1 : s1 + dim[1] + 1] = 1] on a zero buffer. *)
Definition box_buffer (d0 d1 : Z) : grid :=
  let n := box_side d0 d1 in
  let s0 := box_start n d0 in
  let s1 := box_start n d1 in
  fill_rect (zeros n n) s0 (s0 + d0 + 1) s1 (s1 + d1 + 1) 1.

(** [Object2D.create_rectanguloid] at [theta[0] = 0]. *)
Definition create_rectanguloid (d0 d1 : Z) : option (grid * (Z * Z)) :=
  bin ← crop_where (box_buffer d0 d1);
  Some (bool_of bin, (rows bin, cols bin)).

(** [mask[max_dim//2, 5:-5] = 1] on a zero [max_dim x max_dim] buffer. *)
Definition sheet_buffer (d1 : Z) : grid :=
  let max_dim := d1 + 10 in
  fill_rect (zeros max_dim max_dim) (max_dim / 2) (max_dim / 2 + 1) 5 (-5) 1.

(** [Object2D.create_sheet] at [theta[0] = 0]. The end points are the first
    and last cells of [np.where(cpt_mask > 0)] ([IndexError] on an empty
    mask); [cpt_mask] is drawn like [mask]. They are rebased to the
    bounding box of the two points, and the mask is cut to that box. A
    buffer side [max_dim <= 0] raises in [zeros] or in the row index. The
    result is the data, [self.dim] and [self.curve_pts]. *)
Definition create_sheet (d1 : Z) : option (grid * (Z * Z) * ((Z * Z) * (Z * Z))) :=
  let max_dim := d1 + 10 in
  if max_dim <=? 0 then None else
  let mask := sheet_buffer d1 in
  let pts := nz_cells mask in
  p ← pts !! 0%nat; q ← py_neg_index pts 1;
  let r_min := Z.min p.1 q.1 in let r_max := Z.max p.1 q.1 in
  let c_min := Z.min p.2 q.2 in let c_max := Z.max p.2 q.2 in
  let bin_image := slice mask r_min (r_max + 1) c_min (c_max + 1) in
  Some (bool_of bin_image, (rows bin_image, cols bin_image),
        ((p.1 - r_min, p.2 - c_min), (q.1 - r_min, q.2 - c_min))).

(** ** Trapezoid *)

(** [polygon_coord_r = [max_dim - min_dim, max_dim + min_dim, max_dim*2+1, 0]] *)
Definition trapezoid_rows (max_dim min_dim : Z) : list Z :=
  [max_dim - min_dim; max_dim + min_dim; max_dim * 2 + 1; 0].

(** [polygon_coord_c = [0, 0, max_dim*2+1, max_dim*2+1]] *)
Definition trapezoid_cols (max_dim : Z) : list Z := [0; 0; max_dim * 2 + 1; max_dim * 2 + 1].

(** [Object2D.create_trapezoid]: the polygon drawn into a zero
    [(2 max_dim + 1)] square, then cropped like the other shapes. The
    rotation by [np.deg2rad(rho)] degrees is the identity (see the header
    of [Prelude]). The two centres only enter that rotation. *)
Definition create_trapezoid (radius1 radius2 : Z) : option (grid * (Z * Z)) :=
  let max_dim := Z.max radius1 radius2 in
  let min_dim := Z.min radius1 radius2 in
  let n := max_dim * 2 + 1 in
  pts ← polygon (trapezoid_rows max_dim min_dim) (trapezoid_cols max_dim) (n, n);
  bin ← crop_where (set_cells (zeros n n) pts 1);
  Some (bool_of bin, (rows bin, cols bin)).

(** The pixels of the trapezoid without the crossing test: on or below the
    upper side, from [(M-m, 0)] to [(0, 2M+1)], and on or above the lower
    side, from [(M+m, 0)] to [(2M+1, 2M+1)] (row, column). *)
Definition in_trapezoid (M m r c : Z) : bool :=
  ((M * 2 + 1) * (M - m - r) <=? c * (M - m)) && ((M * 2 + 1) * (r - M - m) <=? c * (M + 1 - m)).

(** ** The constructor *)

(** The creator that the shape letter selects, with the sheet attributes
    it sets. A letter whose parameters the descriptor lacks ends in [None],
    the [KeyError] of the source. *)
Definition create_shape (k : shape_kind) (gm : geom) : option (grid * (Z * Z) * option sheet_attr) :=
  match k, gm with
  | E, GEllipse a0 a1 => '(g, dim) ← create_ellipse a0 a1; Some (g, dim, None)
  | B, GBox d0 d1 => '(g, dim) ← create_rectanguloid d0 d1; Some (g, dim, None)
  | S, GSheet d0 d1 =>
      '(g, dim, cp) ← create_sheet d1; Some (g, dim, Some (mkSheetAttr cp (d0, d1)))
  | C, GCone r1 r2 => '(g, dim) ← create_trapezoid r1 r2; Some (g, dim, None)
  | Y, GCyl r => '(g, dim) ← create_trapezoid r r; Some (g, dim, None)
  | _, _ => None
  end.

(** [Object2D.__init__]: create the mask, then [self.data = self.label*self.data]. *)
Definition object_init (d : descriptor) (pose : Z * Z) : option obj :=
  '(data, dim, sh) ← create_shape (d_shape d) (d_geom d);
  Some (mkObj (d_shape d) (d_label d) (scale (d_label d) data) dim pose (d_lqd d) sh).

(** ** The crop *)

Lemma crop_where_bbox g r0 r1 c0 c1 :
  where_bbox g = Some (r0, r1, c0, c1) ->
  crop_where g = Some (slice g r0 (r1 + 2) c0 (c1 + 2)).
Proof.
  intros H. unfold crop_where. rewrite H. simpl. do 2 f_equal; lia.
Qed.

Lemma crop_where_None g : crop_where g = None <-> any_nz g = false.
Proof.
  unfold crop_where. rewrite <- where_bbox_None.
  destruct (where_bbox g) as [[[[? ?] ?] ?]|]; simpl; done.
Qed.

(** The box of [np.where] lies inside the array. *)
Lemma where_bbox_inside g r0 r1 c0 c1 :
  where_bbox g = Some (r0, r1, c0, c1) ->
  0 <= r0 <= r1 /\ r1 < rows g /\ 0 <= c0 <= c1 /\ c1 < cols g.
Proof.
  intros H. apply where_bbox_spec in H as (Hin & [ja Ha] & [jb Hb] & [ic Hc] & [id Hd]).
  pose proof (get_nz_inb _ _ _ Ha). pose proof (get_nz_inb _ _ _ Hb).
  pose proof (get_nz_inb _ _ _ Hc). pose proof (get_nz_inb _ _ _ Hd).
  apply Hin in Ha, Hb, Hc, Hd. lia.
Qed.

(** What the crop returns: the window that starts at the box's corner and
    extends two rows and two columns past the box's last ones, cut at the
    buffer's edge. It keeps every foreground pixel. *)
Lemma crop_where_shape g r0 r1 c0 c1 :
  where_bbox g = Some (r0, r1, c0, c1) ->
  exists c, crop_where g = Some c /\
    rows c = Z.min (r1 + 2) (rows g) - r0 /\ cols c = Z.min (c1 + 2) (cols g) - c0 /\
    (forall i j, 0 <= i < rows c -> 0 <= j < cols c -> c.[i, j] = g.[r0 + i, c0 + j]) /\
    count_nonzero c = count_nonzero g.
Proof.
  intros H. pose proof (where_bbox_inside _ _ _ _ _ H) as Hb.
  eexists. split; [by apply crop_where_bbox|].
  assert (Hr : py_slice r0 (r1 + 2) (rows g) = (r0, Z.min (r1 + 2) (rows g)))
    by (replace (r1 + 2) with (r0 + (r1 + 2 - r0)) by lia; rewrite py_slice_window by lia;
        f_equal; lia).
  assert (Hc : py_slice c0 (c1 + 2) (cols g) = (c0, Z.min (c1 + 2) (cols g)))
    by (replace (c1 + 2) with (c0 + (c1 + 2 - c0)) by lia; rewrite py_slice_window by lia;
        f_equal; lia).
  rewrite rows_slice, cols_slice, Hr, Hc. simpl. split; [done|split; [done|split]].
  - intros i j Hi Hj. rewrite get_slice, Hr, Hc. unfold inb.
    rewrite rows_slice, cols_slice, Hr, Hc. simpl. by rewrite bool_decide_true by lia.
  - apply count_nonzero_slice. rewrite Hr, Hc. simpl.
    intros i j Hij. apply where_bbox_spec in H as [Hin _].
    pose proof (get_nz_inb _ _ _ Hij). apply Hin in Hij. lia.
Qed.

(** C38: The crop is not tight. Its last row is background whenever the buffer
    has a row below the foreground, and its last column likewise. *)
Lemma crop_where_extra g r0 r1 c0 c1 c :
  where_bbox g = Some (r0, r1, c0, c1) -> crop_where g = Some c ->
  (r1 + 2 <= rows g -> rows c = r1 - r0 + 2 /\ forall j, c.[rows c - 1, j] = 0) /\
  (c1 + 2 <= cols g -> cols c = c1 - c0 + 2 /\ forall i, c.[i, cols c - 1] = 0).
Proof.
  intros H Hc. destruct (crop_where_shape _ _ _ _ _ H) as (c' & Hc' & Hr & Hk & Hget & _).
  rewrite Hc in Hc'. injection Hc' as <-.
  pose proof (where_bbox_inside _ _ _ _ _ H). apply where_bbox_spec in H as [Hin _].
  split; intros Hle; (split; [lia|]).
  - intros j. destruct (decide (0 <= j < cols c)) as [Hj|Hj]; [|apply get_out; lia].
    rewrite Hget by lia. destruct (decide (g.[r0 + (rows c - 1), c0 + j] = 0)) as [|Hnz]; [done|].
    apply Hin in Hnz. lia.
  - intros i. destruct (decide (0 <= i < rows c)) as [Hi|Hi]; [|apply get_out; lia].
    rewrite Hget by lia. destruct (decide (g.[r0 + i, c0 + (cols c - 1)] = 0)) as [|Hnz]; [done|].
    apply Hin in Hnz. lia.
Qed.

(** ** Trapezoid *)

Lemma ltb_mul_pos_r a b d : 0 < d -> (a * d <? b * d) = (a <? b).
Proof. intros. apply eq_iff_eq_true. rewrite !Z.ltb_lt. split; intros; nia. Qed.

Section Trapezoid.
Context (M m : Z) (Hm : 0 <= m <= M).

(** The four edges of [point_in_polygon] on the trapezoid's vertices
    [(c, r) = (0, M-m), (0, M+m), (2M+1, 2M+1), (2M+1, 0)], in the order
    the loop visits them. *)
Lemma trap_edge_upper c r :
  0 <= r ->
  pip_crosses 0 (M - m) (M * 2 + 1) 0 c r =
  (r <? M - m) && (c * (M - m) <? (M * 2 + 1) * (M - m - r)).
Proof.
  intros Hr. rewrite pip_crosses_spec.
  replace (((M - m <=? r) && (r <? 0)) || ((0 <=? r) && (r <? M - m))) with (r <? M - m)
    by (zcase; simpl; done || lia).
  destruct (Z.ltb_spec r (M - m)); simpl; [|done].
  replace ((c - 0) * (0 - (M - m)) * (0 - (M - m))) with (c * (M - m) * (M - m)) by ring.
  replace ((M * 2 + 1 - 0) * (r - (M - m)) * (0 - (M - m)))
    with ((M * 2 + 1) * (M - m - r) * (M - m)) by ring.
  apply ltb_mul_pos_r. lia.
Qed.

Lemma trap_edge_left c r :
  0 <= c -> pip_crosses 0 (M + m) 0 (M - m) c r = false.
Proof.
  intros Hc. rewrite pip_crosses_spec. apply andb_false_intro2, Z.ltb_ge. nia.
Qed.

Lemma trap_edge_lower c r :
  r <= M * 2 ->
  pip_crosses (M * 2 + 1) (M * 2 + 1) 0 (M + m) c r =
  (M + m <=? r) && (c * (M + 1 - m) <? (M * 2 + 1) * (r - M - m)).
Proof.
  intros Hr. rewrite pip_crosses_spec.
  replace (((M * 2 + 1 <=? r) && (r <? M + m)) || ((M + m <=? r) && (r <? M * 2 + 1)))
    with (M + m <=? r) by (zcase; simpl; done || lia).
  destruct (Z.leb_spec (M + m) r); simpl; [|done].
  replace ((c - (M * 2 + 1)) * (M + m - (M * 2 + 1)) * (M + m - (M * 2 + 1)))
    with ((c * (M + 1 - m) - (M * 2 + 1) * (M + 1 - m)) * (M + 1 - m)) by ring.
  replace ((0 - (M * 2 + 1)) * (r - (M * 2 + 1)) * (M + m - (M * 2 + 1)))
    with (((M * 2 + 1) * (r - M - m) - (M * 2 + 1) * (M + 1 - m)) * (M + 1 - m)) by ring.
  rewrite ltb_mul_pos_r by lia. apply eq_iff_eq_true. rewrite !Z.ltb_lt. lia.
Qed.

Lemma trap_edge_right c r :
  0 <= r <= M * 2 -> c <= M * 2 ->
  pip_crosses (M * 2 + 1) 0 (M * 2 + 1) (M * 2 + 1) c r = true.
Proof.
  intros Hr Hc. rewrite pip_crosses_spec.
  replace (((0 <=? r) && (r <? M * 2 + 1)) || ((M * 2 + 1 <=? r) && (r <? 0))) with true
    by (zcase; simpl; done || lia).
  simpl. apply Z.ltb_lt. nia.
Qed.

(** Outside the upper side, and below the lower side, as the negations of
    the crossings of those sides. *)
Lemma trap_upper_neg c r :
  0 <= c ->
  negb ((r <? M - m) && (c * (M - m) <? (M * 2 + 1) * (M - m - r))) =
  ((M * 2 + 1) * (M - m - r) <=? c * (M - m)).
Proof.
  intros Hc. destruct (Z.ltb_spec r (M - m)); simpl.
  - apply eq_iff_eq_true. rewrite negb_true_iff, Z.ltb_ge, Z.leb_le. lia.
  - symmetry. apply Z.leb_le. nia.
Qed.

Lemma trap_lower_neg c r :
  0 <= c ->
  negb ((M + m <=? r) && (c * (M + 1 - m) <? (M * 2 + 1) * (r - M - m))) =
  ((M * 2 + 1) * (r - M - m) <=? c * (M + 1 - m)).
Proof.
  intros Hc. destruct (Z.leb_spec (M + m) r); simpl.
  - apply eq_iff_eq_true. rewrite negb_true_iff, Z.ltb_ge, Z.leb_le. lia.
  - symmetry. apply Z.leb_le. nia.
Qed.

(** [point_in_polygon] on the trapezoid is [in_trapezoid]. *)
Lemma pip_trapezoid c r :
  0 <= c <= M * 2 -> 0 <= r <= M * 2 ->
  point_in_polygon (trapezoid_cols M) (trapezoid_rows M m) c r = in_trapezoid M m r c.
Proof.
  intros Hc Hr. unfold point_in_polygon, trapezoid_cols, trapezoid_rows. simpl.
  rewrite trap_edge_upper, trap_edge_left, trap_edge_lower, trap_edge_right by lia.
  unfold in_trapezoid. rewrite <- trap_upper_neg, <- trap_lower_neg by lia.
  destruct (Z.ltb_spec r (M - m)), (Z.leb_spec (M + m) r); simpl; try lia.
  all: by destruct (_ <? _).
Qed.

(** The polygon of the source, drawn into its zero square. *)
Lemma trapezoid_mask :
  exists pts, polygon (trapezoid_rows M m) (trapezoid_cols M) (M * 2 + 1, M * 2 + 1) = Some pts /\
  forall i j, (set_cells (zeros (M * 2 + 1) (M * 2 + 1)) pts 1).[i, j] =
    if bool_decide (0 <= i <= M * 2 /\ 0 <= j <= M * 2) && in_trapezoid M m i j then 1 else 0.
Proof.
  destruct (polygon (trapezoid_rows M m) (trapezoid_cols M) _) as [pts|] eqn:Ep; [|done].
  exists pts. split; [done|]. intros i j.
  pose proof (fun i j => elem_of_polygon _ _ _ _ _ _ _ _ i j
    (eq_refl : list_min (trapezoid_rows M m) = Some _)
    (eq_refl : list_max (trapezoid_rows M m) = Some _)
    (eq_refl : list_min (trapezoid_cols M) = Some _)
    (eq_refl : list_max (trapezoid_cols M) = Some _) Ep) as Hin.
  cbn [fst snd foldl] in Hin.
  rewrite get_set_cells. replace ((zeros _ _).[i, j]) with 0 by (unfold get; by destruct (inb _ _ _)).
  unfold inb. cbn [rows cols zeros].
  case_bool_decide as Hij; simpl.
  - case_bool_decide as Hp.
    + apply Hin in Hp as (Hi & Hj & Hp). simpl in Hi, Hj.
      rewrite bool_decide_true by lia. rewrite <- pip_trapezoid by lia. by rewrite Hp.
    + rewrite bool_decide_true by lia. rewrite <- pip_trapezoid by lia.
      destruct (point_in_polygon _ _ _ _) eqn:E; [|done]. exfalso. apply Hp, Hin. split; [lia|split; [lia|done]].
  - rewrite bool_decide_false by lia. done.
Qed.

Lemma in_trapezoid_left i : in_trapezoid M m i 0 = bool_decide (M - m <= i <= M + m).
Proof.
  unfold in_trapezoid. apply eq_iff_eq_true.
  rewrite andb_true_iff, !Z.leb_le, bool_decide_eq_true. nia.
Qed.

Lemma in_trapezoid_right i : 0 <= i <= M * 2 -> in_trapezoid M m i (M * 2) = (0 <? i) || (m =? M).
Proof.
  intros Hi. unfold in_trapezoid. apply eq_iff_eq_true.
  rewrite andb_true_iff, orb_true_iff, !Z.leb_le, Z.ltb_lt, Z.eqb_eq. nia.
Qed.

Lemma in_trapezoid_top j :
  0 <= j <= M * 2 -> in_trapezoid M m 0 j = (m =? M).
Proof.
  intros Hj. unfold in_trapezoid. apply eq_iff_eq_true.
  rewrite andb_true_iff, !Z.leb_le, Z.eqb_eq. nia.
Qed.

(** The box of [np.where] on the mask: every column, and every row but the
    first when the radii differ. *)
Lemma trapezoid_bbox pts :
  polygon (trapezoid_rows M m) (trapezoid_cols M) (M * 2 + 1, M * 2 + 1) = Some pts ->
  where_bbox (set_cells (zeros (M * 2 + 1) (M * 2 + 1)) pts 1) =
    Some (if m =? M then 0 else 1, M * 2, 0, M * 2).
Proof.
  intros Ep. destruct trapezoid_mask as (pts' & Ep' & Hget).
  rewrite Ep in Ep'. injection Ep' as <-.
  assert (Hc : forall i j, in_trapezoid M m i j = true -> 0 <= i <= M * 2 -> 0 <= j <= M * 2 ->
                           (if m =? M then 0 else 1) <= i).
  { intros i j Ht Hi Hj. destruct (Z.eqb_spec m M); [lia|].
    destruct (Z.eq_dec i 0) as [->|]; [|lia]. rewrite in_trapezoid_top in Ht by lia.
    apply Z.eqb_eq in Ht. lia. }
  apply where_bbox_char; [intros i j| exists (M * 2) | exists (M * 2) | exists M | exists (M * 2)];
    rewrite Hget.
  - case_bool_decide; simpl; [|done]. destruct (in_trapezoid _ _ _ _) eqn:E; [|done].
    intros _. specialize (Hc i j E). lia.
  - rewrite bool_decide_true by (destruct (Z.eqb_spec m M); lia).
    rewrite in_trapezoid_right by (destruct (Z.eqb_spec m M); lia). by destruct (Z.eqb_spec m M).
  - rewrite bool_decide_true by lia. rewrite in_trapezoid_right by lia.
    destruct (Z.eqb_spec m M); [by rewrite orb_true_r|]. rewrite (proj2 (Z.ltb_lt 0 _)); [done|lia].
  - rewrite bool_decide_true by lia. rewrite in_trapezoid_left, bool_decide_true by lia. done.
  - rewrite bool_decide_true by lia. rewrite in_trapezoid_right by lia.
    destruct (Z.eqb_spec m M); [by rewrite orb_true_r|]. rewrite (proj2 (Z.ltb_lt 0 _)); [done|lia].
Qed.

End Trapezoid.

(** C31: [create_trapezoid] (at its rotation angle, which is below 0.03
    degrees) returns the trapezoid between the two slanted sides of its
    polygon, cropped. With different radii the polygon's first row is
    empty, so the mask has [2 max_dim] rows and [2 max_dim + 1] columns.
    With equal radii (a cylinder) it has [2 max_dim + 1] of each. The
    distance between the two centres never enters. *)
Theorem create_trapezoid_spec r1 r2 :
  0 <= r1 -> 0 <= r2 ->
  let M := Z.max r1 r2 in let m := Z.min r1 r2 in
  let top := if m =? M then 0 else 1 in
  exists data, create_trapezoid r1 r2 = Some (data, (M * 2 + 1 - top, M * 2 + 1)) /\
    forall i j, data.[i, j] =
      if bool_decide (0 <= i < M * 2 + 1 - top /\ 0 <= j < M * 2 + 1) && in_trapezoid M m (i + top) j
      then 1 else 0.
Proof.
  intros H1 H2 M m top. assert (Hm : 0 <= m <= M) by lia.
  destruct (trapezoid_mask M m Hm) as (pts & Ep & Hget).
  destruct (crop_where_shape _ _ _ _ _ (trapezoid_bbox M m Hm pts Ep))
    as (c & Hc & Hr & Hk & Hcell & _).
  cbn [rows cols set_cells zeros] in Hr, Hk.
  assert (Hrc : rows c = M * 2 + 1 - top /\ cols c = M * 2 + 1)
    by (subst top; destruct (Z.eqb_spec m M); lia).
  exists (bool_of c). unfold create_trapezoid. fold M m. rewrite Ep. simpl. rewrite Hc. simpl.
  split; [by rewrite (proj1 Hrc), (proj2 Hrc)|]. intros i j. rewrite get_bool_of.
  destruct (decide (0 <= i < rows c /\ 0 <= j < cols c)) as [Hin|Hout].
  - rewrite Hcell, Hget by lia. rewrite !bool_decide_true by (subst top; destruct (Z.eqb_spec m M); lia).
    simpl. subst top. rewrite Z.add_0_l, (Z.add_comm _ i). by destruct (in_trapezoid _ _ _ _).
  - rewrite get_out by done. rewrite bool_decide_false by lia. done.
Qed.

(** The two ends of the trapezoid. The first column (the narrow end) holds
    exactly [2 min_dim + 1] pixels, the rows of the polygon from
    [max_dim - min_dim] to [max_dim + min_dim]. The last column (the wide
    end) is full. *)
Theorem create_trapezoid_ends r1 r2 data dim :
  0 <= r1 -> 0 <= r2 -> create_trapezoid r1 r2 = Some (data, dim) ->
  let M := Z.max r1 r2 in let m := Z.min r1 r2 in
  let top := if m =? M then 0 else 1 in
  (forall i, data.[i, 0] = if bool_decide (M - m - top <= i <= M + m - top) then 1 else 0) /\
  (forall i, 0 <= i < dim.1 -> data.[i, dim.2 - 1] = 1).
Proof.
  intros H1 H2 Hc M m top. assert (Hm : 0 <= m <= M) by lia.
  destruct (create_trapezoid_spec r1 r2 H1 H2) as (data' & Hc' & Hget). fold M m top in Hc', Hget.
  rewrite Hc in Hc'. injection Hc' as -> ->. cbn [fst snd]. split.
  - intros i. rewrite Hget, in_trapezoid_left by done.
    subst top. destruct (Z.eqb_spec m M); repeat case_bool_decide; simpl; done || lia.
  - intros i Hi. rewrite Hget. replace (M * 2 + 1 - 1) with (M * 2) by lia.
    rewrite bool_decide_true by lia. rewrite in_trapezoid_right by (subst top; destruct (Z.eqb_spec m M); lia).
    subst top. destruct (Z.eqb_spec m M); [by rewrite orb_true_r|].
    rewrite (proj2 (Z.ltb_lt 0 _)); [done|lia].
Qed.

(** ** Box *)

Lemma sqrt_sum_ge d0 d1 : 0 <= d0 -> 0 <= d1 -> d0 <= Z.sqrt (d0 ^ 2 + d1 ^ 2).
Proof.
  intros. pose proof (Z.sqrt_spec (d0 ^ 2 + d1 ^ 2)) as [_ Hs]; [nia|].
  destruct (Z.le_gt_cases d0 (Z.sqrt (d0 ^ 2 + d1 ^ 2))) as [|Hlt]; [done|].
  pose proof (Z.sqrt_nonneg (d0 ^ 2 + d1 ^ 2)). nia.
Qed.

Lemma sqrt_ge_2 d0 d1 : 4 <= d0 ^ 2 + d1 ^ 2 -> 2 <= Z.sqrt (d0 ^ 2 + d1 ^ 2).
Proof.
  intros. replace 2 with (Z.sqrt 4) by reflexivity. by apply Z.sqrt_le_mono.
Qed.

Lemma sqrt_lt_2 d0 d1 : 0 <= d0 ^ 2 + d1 ^ 2 < 4 -> Z.sqrt (d0 ^ 2 + d1 ^ 2) < 2.
Proof.
  intros. apply Z.sqrt_lt_square; lia.
Qed.

(** The rows that [box_buffer] fills: the start is at least 1, and the fill
    is non-empty exactly when [d0^2 + d1^2 >= 4]. *)
Lemma box_start_bounds d0 d1 d :
  0 <= d0 -> 0 <= d1 -> (d = d0 \/ d = d1) ->
  let n := box_side d0 d1 in
  1 <= box_start n d /\ (4 <= d0 ^ 2 + d1 ^ 2 -> box_start n d < n) /\
  (d0 ^ 2 + d1 ^ 2 < 4 -> n <= box_start n d).
Proof.
  intros H0 H1 Hd n. unfold n, box_side, box_start.
  pose proof (sqrt_sum_ge d0 d1 H0 H1). pose proof (sqrt_sum_ge d1 d0 H1 H0).
  rewrite (Z.add_comm (d1 ^ 2)) in *. pose proof (Z.sqrt_nonneg (d0 ^ 2 + d1 ^ 2)).
  assert (0 <= d0 ^ 2 + d1 ^ 2) by nia.
  pose proof (sqrt_ge_2 d0 d1). pose proof (sqrt_lt_2 d0 d1).
  set (q := Z.sqrt (d0 ^ 2 + d1 ^ 2)) in *. set (s := d0 ^ 2 + d1 ^ 2) in *.
  destruct Hd; subst d; (split; [dlia|split; intros Hs]);
    [specialize (H5 Hs)|specialize (H6 (conj H4 Hs))|specialize (H5 Hs)|specialize (H6 (conj H4 Hs))];
    dlia.
Qed.

(** The filled window of [box_buffer] and its [np.where] box. *)
Lemma box_window d0 d1 d :
  0 <= d0 -> 0 <= d1 -> (d = d0 \/ d = d1) -> 4 <= d0 ^ 2 + d1 ^ 2 ->
  let n := box_side d0 d1 in
  let s := box_start n d in
  py_slice s (s + d + 1) n = (s, Z.min (s + d + 1) n) /\ 1 <= s < n /\ 0 <= d.
Proof.
  intros H0 H1 Hd Hs n s.
  destruct (box_start_bounds d0 d1 d H0 H1 Hd) as [Ha [Hb _]]. specialize (Hb Hs).
  fold n s in Ha, Hb. rewrite <- Z.add_assoc, py_slice_window by (destruct Hd; lia).
  split; [done|destruct Hd; lia].
Qed.

Lemma box_buffer_bbox d0 d1 :
  0 <= d0 -> 0 <= d1 -> 4 <= d0 ^ 2 + d1 ^ 2 ->
  let n := box_side d0 d1 in
  let s0 := box_start n d0 in
  let s1 := box_start n d1 in
  where_bbox (box_buffer d0 d1) =
    Some (s0, Z.min (s0 + d0 + 1) n - 1, s1, Z.min (s1 + d1 + 1) n - 1).
Proof.
  intros H0 H1 Hs n s0 s1.
  destruct (box_window d0 d1 d0 H0 H1 (or_introl eq_refl) Hs) as (Er & Hr & _).
  destruct (box_window d0 d1 d1 H0 H1 (or_intror eq_refl) Hs) as (Ec & Hc & _).
  fold n s0 s1 in Er, Ec, Hr, Hc.
  change (box_buffer d0 d1) with (fill_rect (zeros n n) s0 (s0 + d0 + 1) s1 (s1 + d1 + 1) 1).
  apply where_bbox_char; [intros i j| exists s1 | exists s1 | exists s0 | exists s0];
    rewrite get_fill_zeros, Er, Ec; simpl; case_bool_decide; lia.
Qed.

(** C30: [create_rectanguloid] at angle 0, for a box whose [d0^2 + d1^2] is at
    least 4. The buffer fills [h] rows and [w] columns (fewer than
    [d0 + 1] and [d1 + 1] when the buffer clips them). The mask keeps one
    more row and one more column where the buffer has room. *)
Theorem create_rectanguloid_spec d0 d1 :
  0 <= d0 -> 0 <= d1 -> 4 <= d0 ^ 2 + d1 ^ 2 ->
  let n := box_side d0 d1 in
  let s0 := box_start n d0 in
  let s1 := box_start n d1 in
  let h := Z.min (s0 + d0 + 1) n - s0 in
  let w := Z.min (s1 + d1 + 1) n - s1 in
  exists data, create_rectanguloid d0 d1 =
      Some (data, (Z.min (h + 1) (n - s0), Z.min (w + 1) (n - s1))) /\
    count_nonzero data = h * w /\
    (forall i j, data.[i, j] = 0 \/ data.[i, j] = 1).
Proof.
  intros H0 H1 Hs n s0 s1 h w.
  destruct (box_window d0 d1 d0 H0 H1 (or_introl eq_refl) Hs) as (Er & Hr & _).
  destruct (box_window d0 d1 d1 H0 H1 (or_intror eq_refl) Hs) as (Ec & Hc & _).
  fold n s0 s1 in Er, Ec, Hr, Hc.
  destruct (crop_where_shape _ _ _ _ _ (box_buffer_bbox d0 d1 H0 H1 Hs))
    as (c & Hcrop & Hrows & Hcols & _ & Hcount).
  exists (bool_of c). unfold create_rectanguloid. rewrite Hcrop. simpl.
  change (box_buffer d0 d1) with (fill_rect (zeros n n) s0 (s0 + d0 + 1) s1 (s1 + d1 + 1) 1)
    in Hrows, Hcols, Hcount.
  simpl in Hrows, Hcols. rewrite Hrows, Hcols. split; [subst h w s0 s1 n; repeat f_equal; lia|split].
  - rewrite count_nonzero_bool_of, Hcount, count_fill_zeros by lia. rewrite Er, Ec. done.
  - intros i j. rewrite get_bool_of. destruct (_ =? 0); auto.
Qed.

(** The error path: a box with [d0^2 + d1^2 < 4] (the dims [(0,0)],
    [(1,0)], [(0,1)] and [(1,1)]) draws nothing into its one-pixel buffer,
    and [.min()] of the empty [np.where] raises. There is no fallback to a
    placeholder. *)
Theorem create_rectanguloid_None d0 d1 :
  0 <= d0 -> 0 <= d1 -> d0 ^ 2 + d1 ^ 2 < 4 -> create_rectanguloid d0 d1 = None.
Proof.
  intros H0 H1 Hs. unfold create_rectanguloid.
  replace (crop_where (box_buffer d0 d1)) with (@None grid); [done|].
  symmetry. apply crop_where_None, any_nz_false. intros i j.
  destruct (box_start_bounds d0 d1 d0 H0 H1 (or_introl eq_refl)) as (_ & _ & Hr).
  specialize (Hr Hs). unfold box_buffer. rewrite get_fill_zeros.
  case_bool_decide as Hb; [|done]. exfalso.
  unfold py_slice, py_index in Hb. simpl in Hb. zcase; simpl in *; lia.
Qed.

(** ** Ellipse *)

(** A pixel strictly inside the ellipse is less than a semi-axis away
    from the centre along that axis. *)
Lemma ellipse_axis_bound x y a b :
  1 <= a -> 1 <= b -> x ^ 2 * b ^ 2 + y ^ 2 * a ^ 2 < a ^ 2 * b ^ 2 -> -a < x < a.
Proof.
  intros Ha Hb H. assert (x ^ 2 * b ^ 2 < a ^ 2 * b ^ 2) by nia.
  assert (x ^ 2 < a ^ 2) by nia. nia.
Qed.

(** The pixel one step inside the end of a semi-axis is drawn. *)
Lemma ellipse_axis_end x a b :
  1 <= a -> 1 <= b -> (x = a - 1 \/ x = 1 - a) -> x ^ 2 * b ^ 2 + 0 ^ 2 * a ^ 2 < a ^ 2 * b ^ 2.
Proof. intros Ha Hb [-> | ->]; nia. Qed.

(** A cell of the ellipse buffer is drawn exactly when it passes the
    ellipse test: no pixel of the ellipse falls outside the buffer. *)
Lemma ellipse_buffer_nz a0 a1 rr cc :
  1 <= a0 -> 1 <= a1 ->
  (ellipse_buffer a0 a1).[rr, cc] <> 0 <->
  (rr - (Z.max a0 a1 + 1)) ^ 2 * a1 ^ 2 + (cc - (Z.max a0 a1 + 1)) ^ 2 * a0 ^ 2 < a0 ^ 2 * a1 ^ 2.
Proof.
  intros H0 H1. set (m := Z.max a0 a1).
  change ((ellipse_buffer a0 a1).[rr, cc]) with
    (if bool_decide (0 <= rr < 2 * m + 1 /\ 0 <= cc < 2 * m + 1)
     then (if in_ellipse (m + 1) (m + 1) a0 a1 rr cc then 1 else 0) else 0).
  unfold in_ellipse. case_bool_decide as Hb; zcase; split; intros He; try lia.
  exfalso. apply Hb. pose proof (ellipse_axis_bound _ _ _ _ H0 H1 He).
  pose proof (ellipse_axis_bound (cc - (m + 1)) (rr - (m + 1)) a1 a0 H1 H0 ltac:(nia)). lia.
Qed.

Lemma ellipse_buffer_bbox a0 a1 :
  1 <= a0 -> 1 <= a1 ->
  let m := Z.max a0 a1 in
  where_bbox (ellipse_buffer a0 a1) = Some (m + 2 - a0, m + a0, m + 2 - a1, m + a1).
Proof.
  intros H0 H1 m. apply where_bbox_char.
  - intros i j Hij. apply ellipse_buffer_nz in Hij; [|lia|lia]. fold m in Hij.
    pose proof (ellipse_axis_bound _ _ _ _ H0 H1 Hij).
    pose proof (ellipse_axis_bound (j - (m + 1)) (i - (m + 1)) a1 a0 H1 H0 ltac:(nia)). lia.
  - exists (m + 1). apply ellipse_buffer_nz; [lia|lia|]. fold m.
    replace (m + 2 - a0 - (m + 1)) with (1 - a0) by lia. replace (m + 1 - (m + 1)) with 0 by lia. nia.
  - exists (m + 1). apply ellipse_buffer_nz; [lia|lia|]. fold m.
    replace (m + a0 - (m + 1)) with (a0 - 1) by lia. replace (m + 1 - (m + 1)) with 0 by lia. nia.
  - exists (m + 1). apply ellipse_buffer_nz; [lia|lia|]. fold m.
    replace (m + 2 - a1 - (m + 1)) with (1 - a1) by lia. replace (m + 1 - (m + 1)) with 0 by lia. nia.
  - exists (m + 1). apply ellipse_buffer_nz; [lia|lia|]. fold m.
    replace (m + a1 - (m + 1)) with (a1 - 1) by lia. replace (m + 1 - (m + 1)) with 0 by lia. nia.
Qed.

(** [create_ellipse] at rotation 0 with semi-axes [a0, a1 >= 1]. The drawn
    ellipse spans [2*a0 - 1] rows and [2*a1 - 1] columns. The crop is tight
    only along the longer axis: along a strictly shorter axis, the mask
    keeps one more row (or column), and that row (or column) is background. *)
Theorem create_ellipse_spec a0 a1 :
  1 <= a0 -> 1 <= a1 ->
  let m := Z.max a0 a1 in
  exists data, create_ellipse a0 a1 =
      Some (data, (Z.min (2 * a0) (m + a0 - 1), Z.min (2 * a1) (m + a1 - 1))) /\
    (forall i j, data.[i, j] = 0 \/ data.[i, j] = 1) /\
    (a0 < a1 -> forall j, data.[2 * a0 - 1, j] = 0) /\
    (a1 < a0 -> forall i, data.[i, 2 * a1 - 1] = 0).
Proof.
  intros H0 H1 m. pose proof (ellipse_buffer_bbox a0 a1 H0 H1) as Hbb. fold m in Hbb.
  destruct (crop_where_shape _ _ _ _ _ Hbb) as (c & Hcrop & Hrows & Hcols & _ & _).
  pose proof (crop_where_extra _ _ _ _ _ _ Hbb Hcrop) as [Hr Hc].
  change (rows (ellipse_buffer a0 a1)) with (2 * m + 1) in Hrows, Hr.
  change (cols (ellipse_buffer a0 a1)) with (2 * m + 1) in Hcols, Hc.
  exists (bool_of c). unfold create_ellipse. rewrite Hcrop. simpl.
  split; [rewrite Hrows, Hcols; repeat f_equal; lia|split; [|split]].
  - intros i j. rewrite get_bool_of. destruct (_ =? 0); auto.
  - intros Hlt j. destruct Hr as [Hrc Hz]; [lia|].
    rewrite get_bool_of. replace (2 * a0 - 1) with (rows c - 1) by lia. by rewrite Hz.
  - intros Hlt i. destruct Hc as [Hcc Hz]; [lia|].
    rewrite get_bool_of. replace (2 * a1 - 1) with (cols c - 1) by lia. by rewrite Hz.
Qed.

(** ** The constructor *)

(** Every creator returns a 0/1 mask together with its shape. *)
Lemma create_shape_mask k gm data dim sh :
  create_shape k gm = Some (data, dim, sh) ->
  dim = (rows data, cols data) /\ (forall i j, data.[i, j] = 0 \/ data.[i, j] = 1).
Proof.
  intros Hc. assert (H01 : forall g i j, (bool_of g).[i, j] = 0 \/ (bool_of g).[i, j] = 1).
  { intros g i j. rewrite get_bool_of. destruct (_ =? 0); auto. }
  destruct k, gm; simpl in Hc; try done;
    [unfold create_ellipse in Hc|unfold create_rectanguloid in Hc|unfold create_trapezoid in Hc
    |unfold create_trapezoid in Hc|unfold create_sheet in Hc].
  3,4: destruct (polygon _ _ _); simpl in Hc; [|done].
  1-4: destruct (crop_where _); simpl in Hc; [|done]; injection Hc as <- <- _; auto.
  destruct (_ <=? 0); [done|]. destruct (_ !! 0%nat); simpl in Hc; [|done].
  destruct (py_neg_index _ _); simpl in Hc; [|done]. injection Hc as <- <- _; auto.
Qed.

(** [Object2D.__init__] labels its mask: every cell of [self.data] is the
    background 0 or the object's label, and [self.dim] is the shape of
    [self.data]. *)
Theorem object_init_labels d pose o :
  object_init d pose = Some o ->
  o_dim o = (rows (o_data o), cols (o_data o)) /\
  (forall i j, (o_data o).[i, j] = 0 \/ (o_data o).[i, j] = d_label d) /\
  o_label o = d_label d /\ o_pose o = pose.
Proof.
  unfold object_init. destruct (create_shape (d_shape d) (d_geom d)) as [[[data dim] sh]|] eqn:Hc;
    simpl; [|done].
  intros [= <-]. simpl. apply create_shape_mask in Hc as [-> Hv].
  split; [done|split; [|done]]. intros i j. rewrite get_scale.
  destruct (Hv i j) as [-> | ->]; lia.
Qed.

(** ** Witnesses on concrete shapes *)

(** The 30 x 20 box of the spec's end-to-end example: a 32 x 22 mask with
    31 * 21 = 651 foreground pixels. *)
Lemma create_rectanguloid_spec_witness :
  exists data, create_rectanguloid 30 20 = Some (data, (32, 22)) /\ count_nonzero data = 651.
Proof.
  destruct (create_rectanguloid_spec 30 20) as (data & E & Hc & _); [lia|lia|lia|].
  exists data. split; [rewrite E; reflexivity|rewrite Hc; reflexivity].
Defined.

(** A 10 x 1 box is clipped by its buffer: 10 filled rows, not 11. *)
Lemma create_rectanguloid_clipped :
  exists data, create_rectanguloid 10 1 = Some (data, (10, 3)) /\ count_nonzero data = 20.
Proof.
  destruct (create_rectanguloid_spec 10 1) as (data & E & Hc & _); [lia|lia|lia|].
  exists data. split; [rewrite E; reflexivity|rewrite Hc; reflexivity].
Defined.

Lemma create_rectanguloid_None_witness : create_rectanguloid 1 0 = None.
Proof. apply create_rectanguloid_None; lia. Defined.

(** Semi-axes 5 and 3: a 9 x 6 mask whose last column is background. *)
(** The crop of the ellipse buffer with semi-axes 5 and 3 ends in a
    background column. *)
Lemma crop_where_extra_witness :
  exists c, crop_where (ellipse_buffer 5 3) = Some c /\ cols c = 6 /\ forall i, c.[i, 5] = 0.
Proof.
  assert (Hb : where_bbox (ellipse_buffer 5 3) = Some (2, 10, 4, 8))
    by (rewrite (ellipse_buffer_bbox 5 3) by lia; reflexivity).
  pose proof (crop_where_bbox _ _ _ _ _ Hb) as Hc.
  destruct (crop_where_extra _ _ _ _ _ _ Hb Hc) as [_ Hx].
  change (cols (ellipse_buffer 5 3)) with 11 in Hx.
  destruct Hx as [Hcols Hz]; [lia|].
  eexists. split; [exact Hc|split; [rewrite Hcols; reflexivity|]].
  intros i. rewrite <- (Hz i), Hcols. reflexivity.
Defined.

Lemma create_ellipse_spec_witness :
  exists data, create_ellipse 5 3 = Some (data, (9, 6)) /\ forall i, data.[i, 5] = 0.
Proof.
  destruct (create_ellipse_spec 5 3) as (data & E & _ & _ & Hc); [lia|lia|].
  exists data. split; [rewrite E; reflexivity|]. intros i. apply (Hc ltac:(lia) i).
Defined.

Lemma object_init_labels_witness :
  exists o, object_init (mkDesc B (GBox 30 20) 7 None) (10, 12) = Some o /\
    o_dim o = (32, 22) /\ (forall i j, (o_data o).[i, j] = 0 \/ (o_data o).[i, j] = 7).
Proof.
  destruct (create_rectanguloid_spec 30 20) as (data & E & _ & _); [lia|lia|lia|].
  exists (mkObj B 7 (scale 7 data) (32, 22) (10, 12) None None).
  assert (Ho : object_init (mkDesc B (GBox 30 20) 7 None) (10, 12) =
               Some (mkObj B 7 (scale 7 data) (32, 22) (10, 12) None None)).
  { unfold object_init. cbn [create_shape d_shape d_geom]. rewrite E. reflexivity. }
  split; [exact Ho|split; [reflexivity|]].
  destruct (object_init_labels _ _ _ Ho) as (_ & Hl & _). exact Hl.
Defined.

(** A cone of radii 3 and 1: a 6 x 7 mask whose first column holds the
    three rows 1 .. 3. *)
Lemma create_trapezoid_spec_witness :
  exists data, create_trapezoid 3 1 = Some (data, (6, 7)) /\
    forall i j, data.[i, j] =
      if bool_decide (0 <= i < 6 /\ 0 <= j < 7) && in_trapezoid 3 1 (i + 1) j then 1 else 0.
Proof. exact (create_trapezoid_spec 3 1 ltac:(lia) ltac:(lia)). Defined.

Lemma create_trapezoid_ends_witness :
  exists data, create_trapezoid 3 1 = Some (data, (6, 7)) /\
    (forall i, data.[i, 0] = if bool_decide (1 <= i <= 3) then 1 else 0) /\
    (forall i, 0 <= i < 6 -> data.[i, 6] = 1).
Proof.
  destruct (create_trapezoid_spec 3 1 ltac:(lia) ltac:(lia)) as (data & E & _).
  exists data. split; [exact E|].
  exact (create_trapezoid_ends 3 1 data (6, 7) ltac:(lia) ltac:(lia) E).
Defined.
