(* ===== verification/Canvas.v ===== *)
(** * The occupancy canvas of one slice ([BaggageImage2D] of the source)

    [ws_bag[:, :, slice_no]] is the labelled canvas [ws]. [boundary[:, :,
    slice_no]] is the static wall mask [bnd]. The bag geometry ([size],
    [bb_h] and, when a bag mask is given, its [extents]) fixes the floor and
    the side walls. The operations are [get_overlap], [place_object_in_bag]
    and [_adjust_for_boundaries]. *)

From Stdlib Require Import ZArith Lia.
From stdpp Require Import base list numbers.
From S2P Require Import Prelude Grid Raster.
Open Scope Z_scope.
Open Scope raster_scope.

(** ** State *)

(** The fields of [BaggageImage2D] that the placement rules read. *)
Record bag := mkBag {
  size : Z;                  (* [self.size] *)
  bb_h : Z;                  (* [self.bb_h] *)
  extents : option (Z * Z)   (* [self.extents]; [None] when [self.bag_mask is None] *)
}.

(** One slice of the workspace. *)
Record canvas := mkCanvas {
  ws : grid;    (* [self.ws_bag[:, :, self.slice_no]] *)
  bnd : grid    (* [self.boundary[:, :, self.slice_no]] *)
}.

(** Attribute updates of an [Object2D]. *)
Definition set_pose (o : obj) (p : Z * Z) : obj :=
  mkObj (o_shape o) (o_label o) (o_data o) (o_dim o) p (o_lqd o) (o_sheet o).
Definition set_dim_data (o : obj) (dim : Z * Z) (data : grid) : obj :=
  mkObj (o_shape o) (o_label o) data dim (o_pose o) (o_lqd o) (o_sheet o).
Definition set_data (o : obj) (data : grid) : obj :=
  mkObj (o_shape o) (o_label o) data (o_dim o) (o_pose o) (o_lqd o) (o_sheet o).

(** ** [get_overlap] *)

(** [bag_data = ws.copy(); bag_data[np.where(boundary)] = 0] *)
Definition bag_data (cv : canvas) : grid :=
  mkGrid (rows (ws cv)) (cols (ws cv))
    (fun i j => if (bnd cv).[i, j] =? 0 then (ws cv).[i, j] else 0).

(** [obj_loc = bag_data[p0 : p0 + h, p1 : p1 + w]];
    [obj_int = data[:obj_loc.shape[0], :obj_loc.shape[1]] * obj_loc.astype(bool)];
    [out_flag = np.any(obj_int)]. *)
Definition get_overlap (cv : canvas) (o : obj) : bool * grid :=
  let '(p0, p1) := o_pose o in
  let d := o_data o in
  let obj_loc := slice (bag_data cv) p0 (p0 + rows d) p1 (p1 + cols d) in
  let obj_int := mul (slice d 0 (rows obj_loc) 0 (cols obj_loc)) (bool_of obj_loc) in
  (any_nz obj_int, obj_int).

(** ** [place_object_in_bag] *)

(** [s_shape = ws[p0 : p0 + h, p1 : p1 + w].shape];
    [b_data = data[:s_shape[0], :s_shape[1]]];
    [ws[p0 : p0 + h, p1 : p1 + w][nz] = b_data[nz]]. *)
Definition place_object_in_bag (cv : canvas) (o : obj) : canvas :=
  let '(p0, p1) := o_pose o in
  let w := ws cv in
  let d := o_data o in
  let r := py_slice p0 (p0 + rows d) (rows w) in
  let c := py_slice p1 (p1 + cols d) (cols w) in
  let b := slice d 0 (snd r - fst r) 0 (snd c - fst c) in
  mkCanvas (write_nz w (fst r) (fst c) b) (bnd cv).

(** ** [_adjust_for_boundaries] *)

(** [lower_bound] and [upper_bound]. *)
Definition lower_bound (bg : bag) : Z * Z :=
  match extents bg with
  | None => (size bg / 2 - bb_h bg, size bg / 2 - bb_h bg)
  | Some (e0, e1) => (size bg / 2 - e0 / 2, size bg / 2 - e1 / 2)
  end.
Definition upper_bound (bg : bag) : Z * Z :=
  match extents bg with
  | None => (size bg / 2 + bb_h bg, size bg / 2 + bb_h bg)
  | Some (e0, e1) => (size bg / 2 + e0 / 2, size bg / 2 + e1 / 2)
  end.

(** The row axis: [if pose[0] <= lo: ...; data = data[-dim[0]:, :]] and then
    [if pose[0] + dim[0] >= up: ...; data = data[:dim[0], :]]. *)
Definition adjust_rows (lo up : Z) (o : obj) : obj :=
  let o :=
    if (o_pose o).1 <=? lo then
      let dim0 := (o_dim o).1 - (lo - (o_pose o).1) in
      let d := o_data o in
      set_pose (set_dim_data o (dim0, (o_dim o).2) (slice d (- dim0) (rows d) 0 (cols d)))
               (lo, (o_pose o).2)
    else o in
  if up <=? (o_pose o).1 + (o_dim o).1 then
    let dim0 := (o_dim o).1 - ((o_pose o).1 + (o_dim o).1 - up) in
    let d := o_data o in
    set_dim_data o (dim0, (o_dim o).2) (slice d 0 dim0 0 (cols d))
  else o.

(** The column axis, the same two steps on [pose[1]] and [dim[1]]. *)
Definition adjust_cols (lo up : Z) (o : obj) : obj :=
  let o :=
    if (o_pose o).2 <=? lo then
      let dim1 := (o_dim o).2 - (lo - (o_pose o).2) in
      let d := o_data o in
      set_pose (set_dim_data o ((o_dim o).1, dim1) (slice d 0 (rows d) (- dim1) (cols d)))
               ((o_pose o).1, lo)
    else o in
  if up <=? (o_pose o).2 + (o_dim o).2 then
    let dim1 := (o_dim o).2 - ((o_pose o).2 + (o_dim o).2 - up) in
    let d := o_data o in
    set_dim_data o ((o_dim o).1, dim1) (slice d 0 (rows d) 0 dim1)
  else o.

Definition adjust_for_boundaries (bg : bag) (o : obj) : obj :=
  adjust_cols (lower_bound bg).2 (upper_bound bg).2
    (adjust_rows (lower_bound bg).1 (upper_bound bg).1 o).

(** ** Concrete canvases *)

(** A 10 x 10 slice: an object of label 7 in rows and columns 2..4 and a
    wall along the last row; a 3 x 3 object of label 2 at a given pose. *)
Definition canvas_ex : canvas :=
  mkCanvas (fill_rect (zeros 10 10) 2 5 2 5 7) (fill_rect (zeros 10 10) 9 10 0 10 1).
Definition obj_ex (p : Z * Z) : obj :=
  mkObj B 2 (fill_rect (zeros 3 3) 0 3 0 3 2) (3, 3) p None None.
Definition bag_ex : bag := mkBag 20 5 None.

(** ** [get_overlap] *)

Lemma get_bag_data cv i j :
  (bag_data cv).[i, j] = if (bnd cv).[i, j] =? 0 then (ws cv).[i, j] else 0.
Proof.
  unfold bag_data. rewrite get_on. destruct (inb (ws cv) i j) eqn:Hb; [done|].
  assert (Hw : (ws cv).[i, j] = 0) by (unfold get; by rewrite Hb).
  rewrite Hw. by destruct (_ =? 0).
Qed.

Lemma wf_bag_data cv : wf_grid (ws cv) -> wf_grid (bag_data cv).
Proof. done. Qed.

(** The intersection that [get_overlap] returns is, cell by cell, the
    object's data where the canvas holds non-wall foreground at the
    object's pose, and 0 elsewhere. *)
Lemma get_overlap_cell cv o i j :
  wf_grid (ws cv) -> wf_grid (o_data o) -> 0 <= (o_pose o).1 -> 0 <= (o_pose o).2 ->
  (get_overlap cv o).2.[i, j] =
  (o_data o).[i, j] * (if (bag_data cv).[(o_pose o).1 + i, (o_pose o).2 + j] =? 0 then 0 else 1).
Proof.
  intros Hw Hd. unfold get_overlap. destruct (o_pose o) as [p0 p1]. cbn [fst snd]. intros H0 H1.
  set (d := o_data o). fold d in Hd. destruct Hd as [Hh Hl].
  remember (slice (bag_data cv) p0 (p0 + rows d) p1 (p1 + cols d)) as loc eqn:Eloc.
  assert (Hloc : forall x y, loc.[x, y] =
    if bool_decide (0 <= x < rows d /\ 0 <= y < cols d) then (bag_data cv).[p0 + x, p1 + y] else 0)
    by (intros; subst loc; apply get_slice_window; [apply Hw|lia..]).
  assert (Hrl : rows loc = snd (py_slice p0 (p0 + rows d) (rows (ws cv))) -
                           fst (py_slice p0 (p0 + rows d) (rows (ws cv)))) by (subst; reflexivity).
  assert (Hcl : cols loc = snd (py_slice p1 (p1 + cols d) (cols (ws cv))) -
                           fst (py_slice p1 (p1 + cols d) (cols (ws cv)))) by (subst; reflexivity).
  pose proof (window_extent p0 (rows d) (rows (ws cv)) H0 Hh ltac:(apply Hw)) as (Hk & _ & Hout0 & _).
  pose proof (window_extent p1 (cols d) (cols (ws cv)) H1 Hl ltac:(apply Hw)) as (Hk' & _ & Hout1 & _).
  rewrite <- Hrl in Hk, Hout0. rewrite <- Hcl in Hk', Hout1. clear Hrl Hcl Eloc.
  rewrite get_mul, get_bool_of, Hloc. unfold inb. rewrite rows_slice, cols_slice.
  rewrite !py_slice_prefix by lia. cbn [fst snd].
  rewrite get_slice_prefix by (try split; lia).
  repeat case_bool_decide; try lia.
  destruct (decide (d.[i, j] = 0)) as [->|Hnz]; [lia|].
  apply get_nz_inb in Hnz. rewrite (get_out (bag_data cv)); [simpl; lia|]. simpl.
  destruct (Z.le_gt_cases (rows loc) i).
  - specialize (Hout0 i ltac:(lia)). lia.
  - assert (cols loc <= j) by lia. specialize (Hout1 j ltac:(lia)). lia.
Qed.

Lemma get_overlap_flag cv o : (get_overlap cv o).1 = any_nz (get_overlap cv o).2.
Proof. unfold get_overlap. by destruct (o_pose o). Qed.

(** C4: [get_overlap] reports an overlap exactly when a foreground pixel of the
    object lies on a canvas cell that holds foreground and is not a wall
    cell. Wall cells never count. *)
Theorem get_overlap_spec cv o :
  wf_grid (ws cv) -> wf_grid (o_data o) -> 0 <= (o_pose o).1 -> 0 <= (o_pose o).2 ->
  (get_overlap cv o).1 = true <->
  exists i j, (o_data o).[i, j] <> 0 /\
    (ws cv).[(o_pose o).1 + i, (o_pose o).2 + j] <> 0 /\
    (bnd cv).[(o_pose o).1 + i, (o_pose o).2 + j] = 0.
Proof.
  intros Hw Hd H0 H1. rewrite get_overlap_flag, any_nz_spec.
  split; intros (i & j & H); exists i, j;
    [rewrite get_overlap_cell in H by done|rewrite get_overlap_cell by done];
    rewrite get_bag_data in *;
    destruct (Z.eqb_spec ((bnd cv).[(o_pose o).1 + i, (o_pose o).2 + j]) 0);
    destruct (Z.eqb_spec ((ws cv).[(o_pose o).1 + i, (o_pose o).2 + j]) 0);
    simpl in *; try lia; repeat split; try lia;
    (destruct (Z.eqb_spec 0 0) || idtac); simpl in *; lia.
Qed.

(** ** [place_object_in_bag] *)

(** The window that [place_object_in_bag] writes reads, at a canvas cell,
    the object pixel that lies over that cell. *)
Lemma place_window_read d p0 p1 n m i j :
  wf_grid d -> 0 <= p0 -> 0 <= p1 -> 0 <= i < n -> 0 <= j < m ->
  let r := py_slice p0 (p0 + rows d) n in
  let c := py_slice p1 (p1 + cols d) m in
  (slice d 0 (snd r - fst r) 0 (snd c - fst c)).[i - fst r, j - fst c] = d.[i - p0, j - p1].
Proof.
  intros [Hh Hl] H0 H1 Hi Hj r c.
  pose proof (window_extent p0 (rows d) n H0 Hh ltac:(lia)) as (Hk & Hin0 & Hout0 & Hs0).
  pose proof (window_extent p1 (cols d) m H1 Hl ltac:(lia)) as (Hk' & Hin1 & Hout1 & Hs1).
  fold r in Hk, Hin0, Hout0, Hs0. fold c in Hk', Hin1, Hout1, Hs1.
  rewrite get_slice_prefix by (try split; lia). case_bool_decide as Hw.
  - assert (p0 < n) by (specialize (Hin0 0 ltac:(lia)); lia).
    assert (p1 < m) by (specialize (Hin1 0 ltac:(lia)); lia).
    rewrite Hs0, Hs1 by lia. done.
  - destruct (decide (d.[i - p0, j - p1] = 0)) as [|Hnz]; [done|exfalso].
    apply get_nz_inb in Hnz. rewrite Hs0, Hs1 in Hw by lia. apply Hw.
    destruct (Z.lt_ge_cases (i - p0) (snd r - fst r)) as [|Hge0];
      [|specialize (Hout0 (i - p0) ltac:(lia)); lia].
    destruct (Z.lt_ge_cases (j - p1) (snd c - fst c)) as [|Hge1];
      [|specialize (Hout1 (j - p1) ltac:(lia)); lia].
    lia.
Qed.

(** C5: [place_object_in_bag] overwrites every canvas cell under a foreground
    pixel of the object with that pixel, whatever the cell held: a wall cell
    or another object's label alike. Every other cell is kept, and the wall
    mask does not change. *)
Theorem place_object_in_bag_spec cv o :
  wf_grid (ws cv) -> wf_grid (o_data o) -> 0 <= (o_pose o).1 -> 0 <= (o_pose o).2 ->
  bnd (place_object_in_bag cv o) = bnd cv /\
  rows (ws (place_object_in_bag cv o)) = rows (ws cv) /\
  cols (ws (place_object_in_bag cv o)) = cols (ws cv) /\
  forall i j, (ws (place_object_in_bag cv o)).[i, j] =
    let v := (o_data o).[i - (o_pose o).1, j - (o_pose o).2] in
    if v =? 0 then (ws cv).[i, j] else if inb (ws cv) i j then v else 0.
Proof.
  intros Hw Hd. unfold place_object_in_bag. destruct (o_pose o) as [p0 p1]. cbn [fst snd].
  intros H0 H1. split; [done|split; [done|split; [done|]]]. intros i j. cbn [ws].
  rewrite get_write_nz. destruct (inb (ws cv) i j) eqn:Hb.
  - unfold inb in Hb. apply bool_decide_eq_true in Hb.
    rewrite place_window_read by (apply Hw || lia || done). done.
  - assert (Hz : (ws cv).[i, j] = 0) by (unfold get; by rewrite Hb).
    rewrite Hz. by destruct (_ =? 0).
Qed.

(** The spec's invariant holds only for a placement that [get_overlap] has
    cleared: then every non-wall foreground cell keeps its label. *)
Theorem place_keeps_foreground cv o :
  wf_grid (ws cv) -> wf_grid (o_data o) -> 0 <= (o_pose o).1 -> 0 <= (o_pose o).2 ->
  (get_overlap cv o).1 = false ->
  forall i j, (ws cv).[i, j] <> 0 -> (bnd cv).[i, j] = 0 ->
    (ws (place_object_in_bag cv o)).[i, j] = (ws cv).[i, j].
Proof.
  intros Hw Hd H0 H1 Hov i j Hnz Hb.
  destruct (place_object_in_bag_spec cv o Hw Hd H0 H1) as (_ & _ & _ & ->). cbv zeta.
  destruct (Z.eqb_spec ((o_data o).[i - (o_pose o).1, j - (o_pose o).2]) 0) as [|Hd']; [done|].
  exfalso. assert (Ht : (get_overlap cv o).1 = true); [|congruence].
  apply get_overlap_spec; [done..|]. exists (i - (o_pose o).1), (j - (o_pose o).2).
  by rewrite !Zplus_minus.
Qed.

(** ** [_adjust_for_boundaries] *)

(** One axis of the trim on an object that straddles or lies inside the
    interval [[lo, up]]: afterwards the object lies inside it, its [dim] is
    still the shape of its data and positive, and every kept pixel stays at
    its canvas position. *)
Lemma adjust_rows_spec lo up o :
  wf_grid (o_data o) -> (o_dim o).1 = rows (o_data o) -> 0 < (o_dim o).1 ->
  lo < up -> (o_pose o).1 < up -> lo < (o_pose o).1 + (o_dim o).1 ->
  let o' := adjust_rows lo up o in
  lo <= (o_pose o').1 /\ (o_pose o').1 + (o_dim o').1 <= up /\ 0 < (o_dim o').1 /\
  (o_dim o').1 = rows (o_data o') /\ cols (o_data o') = cols (o_data o) /\
  (o_pose o').2 = (o_pose o).2 /\ (o_dim o').2 = (o_dim o).2 /\
  (o_pose o).1 <= (o_pose o').1 /\ (o_pose o').1 + (o_dim o').1 <= (o_pose o).1 + (o_dim o).1 /\
  (forall i j, 0 <= i < rows (o_data o') -> 0 <= j < cols (o_data o') ->
     (o_data o').[i, j] = (o_data o).[i + (o_pose o').1 - (o_pose o).1, j]).
Proof.
  intros [Hh Hl] Hd Hpos Hlu Hp Hq. unfold adjust_rows.
  destruct o as [k lab d [d0 d1] [p0 p1] lq]. cbn [o_pose o_dim o_data fst snd] in *. subst d0.
  (* the first step: [pose[0] <= lo] *)
  set (o1 := if p0 <=? lo then _ else _).
  assert (H1 : lo <= (o_pose o1).1 < up /\ p0 <= (o_pose o1).1 /\ (o_pose o1).1 + (o_dim o1).1 = p0 + rows d /\
               0 < (o_dim o1).1 /\
               (o_dim o1).1 = rows (o_data o1) /\ cols (o_data o1) = cols d /\
               (o_pose o1).2 = p1 /\ (o_dim o1).2 = d1 /\
               forall i j, 0 <= i < rows (o_data o1) -> 0 <= j < cols d ->
                 (o_data o1).[i, j] = d.[i + (o_pose o1).1 - p0, j]).
  { subst o1. destruct (Z.leb_spec p0 lo); cbn [o_pose o_dim o_data fst snd set_pose set_dim_data].
    - rewrite rows_slice, cols_slice, py_slice_suffix, py_slice_all by lia. cbn [fst snd].
      repeat split; try lia. intros i j Hi Hj. rewrite get_slice_in; rewrite ?py_slice_suffix, ?py_slice_all by lia;
        cbn [fst snd]; [f_equal; lia|lia|lia].
    - repeat split; try lia. intros i j Hi Hj. f_equal. lia. }
  clearbody o1. destruct H1 as (Hlo & Hmono & Hsum & Hpos1 & Hdim & Hcols & Hp1 & Hd1 & Hget).
  (* the second step: [pose[0] + dim[0] >= up] *)
  destruct (Z.leb_spec up ((o_pose o1).1 + (o_dim o1).1)); cbn [o_pose o_dim o_data fst snd set_dim_data].
  - destruct (wf_slice (o_data o1) 0 ((o_dim o1).1 - ((o_pose o1).1 + (o_dim o1).1 - up)) 0 (cols (o_data o1)))
      as [_ _]; [split; lia|].
    rewrite rows_slice, cols_slice, py_slice_prefix, py_slice_all by lia. cbn [fst snd].
    repeat split; try lia. intros i j Hi Hj. rewrite get_slice_in;
      rewrite ?py_slice_prefix, ?py_slice_all by lia; cbn [fst snd]; [|lia|lia].
    rewrite Hget by lia. done.
  - repeat split; try lia. intros i j Hi Hj. rewrite Hget by lia. done.
Qed.

Lemma adjust_cols_spec lo up o :
  wf_grid (o_data o) -> (o_dim o).2 = cols (o_data o) -> 0 < (o_dim o).2 ->
  lo < up -> (o_pose o).2 < up -> lo < (o_pose o).2 + (o_dim o).2 ->
  let o' := adjust_cols lo up o in
  lo <= (o_pose o').2 /\ (o_pose o').2 + (o_dim o').2 <= up /\ 0 < (o_dim o').2 /\
  (o_dim o').2 = cols (o_data o') /\ rows (o_data o') = rows (o_data o) /\
  (o_pose o').1 = (o_pose o).1 /\ (o_dim o').1 = (o_dim o).1 /\
  (o_pose o).2 <= (o_pose o').2 /\ (o_pose o').2 + (o_dim o').2 <= (o_pose o).2 + (o_dim o).2 /\
  (forall i j, 0 <= i < rows (o_data o') -> 0 <= j < cols (o_data o') ->
     (o_data o').[i, j] = (o_data o).[i, j + (o_pose o').2 - (o_pose o).2]).
Proof.
  intros [Hh Hl] Hd Hpos Hlu Hp Hq. unfold adjust_cols.
  destruct o as [k lab d [d0 d1] [p0 p1] lq]. cbn [o_pose o_dim o_data fst snd] in *. subst d1.
  set (o1 := if p1 <=? lo then _ else _).
  assert (H1 : lo <= (o_pose o1).2 < up /\ p1 <= (o_pose o1).2 /\ (o_pose o1).2 + (o_dim o1).2 = p1 + cols d /\
               0 < (o_dim o1).2 /\
               (o_dim o1).2 = cols (o_data o1) /\ rows (o_data o1) = rows d /\
               (o_pose o1).1 = p0 /\ (o_dim o1).1 = d0 /\
               forall i j, 0 <= i < rows d -> 0 <= j < cols (o_data o1) ->
                 (o_data o1).[i, j] = d.[i, j + (o_pose o1).2 - p1]).
  { subst o1. destruct (Z.leb_spec p1 lo); cbn [o_pose o_dim o_data fst snd set_pose set_dim_data].
    - rewrite rows_slice, cols_slice, py_slice_suffix, py_slice_all by lia. cbn [fst snd].
      repeat split; try lia. intros i j Hi Hj. rewrite get_slice_in; rewrite ?py_slice_suffix, ?py_slice_all by lia;
        cbn [fst snd]; [f_equal; lia|lia|lia].
    - repeat split; try lia. intros i j Hi Hj. f_equal. lia. }
  clearbody o1. destruct H1 as (Hlo & Hmono & Hsum & Hpos1 & Hdim & Hrows & Hp0 & Hd0 & Hget).
  destruct (Z.leb_spec up ((o_pose o1).2 + (o_dim o1).2)); cbn [o_pose o_dim o_data fst snd set_dim_data].
  - rewrite rows_slice, cols_slice, py_slice_prefix, py_slice_all by lia. cbn [fst snd].
    repeat split; try lia. intros i j Hi Hj. rewrite get_slice_in;
      rewrite ?py_slice_prefix, ?py_slice_all by lia; cbn [fst snd]; [|lia|lia].
    rewrite Hget by lia. done.
  - repeat split; try lia. intros i j Hi Hj. rewrite Hget by lia. done.
Qed.

(** C32: [_adjust_for_boundaries] on an object whose [dim] is the positive shape
    of its data and which overlaps the container's window: afterwards the
    object lies inside [[lower_bound, upper_bound]] on both axes. [dim] is
    still the positive shape of the data, and the trim moves no kept pixel
    on the canvas. *)
Theorem adjust_for_boundaries_fits bg o :
  wf_grid (o_data o) -> o_dim o = (rows (o_data o), cols (o_data o)) ->
  0 < rows (o_data o) -> 0 < cols (o_data o) ->
  (lower_bound bg).1 < (upper_bound bg).1 -> (lower_bound bg).2 < (upper_bound bg).2 ->
  (o_pose o).1 < (upper_bound bg).1 -> (lower_bound bg).1 < (o_pose o).1 + rows (o_data o) ->
  (o_pose o).2 < (upper_bound bg).2 -> (lower_bound bg).2 < (o_pose o).2 + cols (o_data o) ->
  let o' := adjust_for_boundaries bg o in
  (lower_bound bg).1 <= (o_pose o').1 /\ (o_pose o').1 + (o_dim o').1 <= (upper_bound bg).1 /\
  (lower_bound bg).2 <= (o_pose o').2 /\ (o_pose o').2 + (o_dim o').2 <= (upper_bound bg).2 /\
  o_dim o' = (rows (o_data o'), cols (o_data o')) /\
  0 < rows (o_data o') /\ 0 < cols (o_data o') /\
  (forall i j, 0 <= i < rows (o_data o') -> 0 <= j < cols (o_data o') ->
     (o_data o').[i, j] =
     (o_data o).[i + (o_pose o').1 - (o_pose o).1, j + (o_pose o').2 - (o_pose o).2]).
Proof.
  intros Hwf Hdim Hr Hc Hlu0 Hlu1 Hp0 Hq0 Hp1 Hq1 o'.
  set (lo := lower_bound bg) in *. set (up := upper_bound bg) in *.
  assert (Hd0 : (o_dim o).1 = rows (o_data o)) by (rewrite Hdim; reflexivity).
  assert (Hd1 : (o_dim o).2 = cols (o_data o)) by (rewrite Hdim; reflexivity).
  pose proof (adjust_rows_spec lo.1 up.1 o Hwf Hd0 ltac:(lia) Hlu0 Hp0 ltac:(lia)) as R.
  cbv zeta in R. set (o1 := adjust_rows lo.1 up.1 o) in *.
  destruct R as (Ra & Rb & Rc & Rd & Re & Rf & Rg & Rh & Ri & Rget).
  subst o'. change (adjust_for_boundaries bg o) with (adjust_cols lo.2 up.2 o1).
  clearbody o1 lo up.
  assert (Hwf1 : wf_grid (o_data o1)) by (destruct Hwf; split; lia).
  pose proof (adjust_cols_spec lo.2 up.2 o1 Hwf1 ltac:(lia) ltac:(lia) Hlu1 ltac:(lia) ltac:(lia)) as C.
  cbv zeta in C. set (o2 := adjust_cols lo.2 up.2 o1) in *. clearbody o2.
  destruct C as (Ca & Cb & Cc & Cd & Ce & Cf & Cg & Ch & Ci & Cget).
  repeat split; try lia.
  - destruct (o_dim o2) as [x y] eqn:E2. cbn [fst snd] in *. f_equal; lia.
  - intros i j Hi Hj. rewrite Cget, Rget by lia. f_equal; lia.
Qed.

(** The row trim when the object ends exactly on the lower bound
    ([pose[0] + dim[0] = lower_bound[0]]): [dim[0]] becomes 0, but
    [data[-0:, :]] is the whole array, so the data keeps all its rows and the
    object is moved onto the lower bound instead of being emptied. *)
Theorem adjust_rows_zero_dim lo up o :
  (o_dim o).1 = rows (o_data o) -> (o_pose o).1 + (o_dim o).1 = lo -> 0 < (o_dim o).1 -> lo < up ->
  let o' := adjust_rows lo up o in
  (o_dim o').1 = 0 /\ o_data o' = slice (o_data o) 0 (rows (o_data o)) 0 (cols (o_data o)) /\
  (o_pose o').1 = lo.
Proof.
  intros Hd Hend Hpos Hlu o'. subst o'. unfold adjust_rows.
  destruct o as [k lab d [d0 d1] [p0 p1] lq]. cbn [o_pose o_dim o_data fst snd] in *.
  destruct (Z.leb_spec p0 lo); [|lia]. unfold set_pose, set_dim_data. cbn [o_pose o_dim o_data fst snd].
  destruct (Z.leb_spec up (lo + (d0 - (lo - p0)))); [lia|].
  cbn [o_pose o_dim o_data fst snd]. repeat split; try lia. f_equal. lia.
Qed.

(** ** Witnesses *)

(** An object whose corner covers the label-7 block is reported. *)
Lemma get_overlap_spec_witness : (get_overlap canvas_ex (obj_ex (4, 4))).1 = true.
Proof.
  apply (get_overlap_spec canvas_ex (obj_ex (4, 4)));
    [split; vm_compute; congruence..|vm_compute; congruence|vm_compute; congruence|].
  exists 0, 0. vm_compute. repeat split; congruence.
Defined.

(** Placed over the corner of the label-7 block, the object overwrites the
    foreground cell (4, 4), which held 7, with its own label 2. *)
Lemma place_object_in_bag_spec_witness :
  (ws canvas_ex).[4, 4] = 7 /\ (ws (place_object_in_bag canvas_ex (obj_ex (4, 4)))).[4, 4] = 2.
Proof.
  split; [vm_compute; reflexivity|].
  destruct (place_object_in_bag_spec canvas_ex (obj_ex (4, 4)))
    as (_ & _ & _ & ->); [split; vm_compute; congruence..|vm_compute; congruence|vm_compute; congruence|].
  vm_compute. reflexivity.
Defined.

(** An object that ends on row 5 of [bag_ex] keeps its three rows. *)
Lemma adjust_rows_zero_dim_witness :
  (o_dim (adjust_rows 5 15 (obj_ex (2, 8)))).1 = 0 /\
  rows (o_data (adjust_rows 5 15 (obj_ex (2, 8)))) = 3.
Proof.
  destruct (adjust_rows_zero_dim 5 15 (obj_ex (2, 8))) as (H1 & H2 & _);
    [reflexivity|reflexivity|vm_compute; reflexivity|vm_compute; reflexivity|].
  split; [exact H1|rewrite H2; reflexivity].
Defined.

(** A clear placement away from the block keeps its label at (2, 2). *)
Lemma place_keeps_foreground_witness :
  (ws (place_object_in_bag canvas_ex (obj_ex (6, 6)))).[2, 2] = 7.
Proof.
  rewrite (place_keeps_foreground canvas_ex (obj_ex (6, 6)));
    [vm_compute; reflexivity|split; vm_compute; congruence..|vm_compute; congruence|vm_compute; congruence
    |vm_compute; reflexivity|vm_compute; congruence|vm_compute; reflexivity].
Defined.

(** In a bag of size 20 with [bb_h = 5] the window is [[5, 15]]: an
    object at (3, 13) is trimmed on the top and on the right into it. *)
Lemma adjust_for_boundaries_fits_witness :
  (o_pose (adjust_for_boundaries bag_ex (obj_ex (3, 13)))).2 +
  (o_dim (adjust_for_boundaries bag_ex (obj_ex (3, 13)))).2 <= (upper_bound bag_ex).2.
Proof.
  pose proof (adjust_for_boundaries_fits bag_ex (obj_ex (3, 13)))
    as H; cbv zeta in H. apply H; [split; vm_compute; congruence|reflexivity|vm_compute; reflexivity..].
Defined.
