(* ===== verification/Components.v ===== *)
(** * Connected components of an overlap mask

    [run_shape_grammar_overlap] calls [skimage.measure.label] on the binary
    intersection and keeps the component with the most pixels. The resolver
    depends on the labeller only through the class [Labeller] and its laws
    [LabellerLaws]: the components partition the foreground cells, and none
    is empty. [merge_labeller] is an executable instance. It scans the cells
    in raster order and merges every component that an incoming cell touches
    (8-connectivity, the default of [label] on a 2-D image). The first
    component it touches keeps its position, so the components stay ordered
    by their first cell, as [label] numbers them. *)

From Stdlib Require Import ZArith Lia.
From stdpp Require Import base list numbers.
From S2P Require Import Prelude Grid.
Open Scope Z_scope.

(** ** Interface *)

(** The labeller: the foreground cells, in raster order, to the list of
    components in label order (component [x - 1] holds the cells of label
    [x]). *)
Class Labeller := label_components : list (Z * Z) -> list (list (Z * Z)).

Class LabellerLaws (L : Labeller) := {
  label_partition cells : NoDup cells -> concat (label_components cells) ≡ₚ cells;
  label_nonempty cells k : k ∈ label_components cells -> k <> []
}.

(** ** Selection of the largest component *)

Section Select.
Context `{L : Labeller}.

(** [pix_cnt = [... for x in range(1, obj_int_bin.max() + 1)]];
    [max_ind = np.argmax(pix_cnt) + 1]. [np.argmax] of an empty list raises:
    [None]. *)
Definition largest_component (g : grid) : option (list (Z * Z)) :=
  let comps := label_components (nz_cells g) in
  let pix_cnt := map (fun k => Z.of_nat (length k)) comps in
  if decide (comps = []) then None else comps !! argmax pix_cnt.

(** [vrows, vcols = np.where(obj_int_bin)] and their extremes. *)
Definition cells_bbox (l : list (Z * Z)) : option (Z * Z * Z * Z) :=
  r0 ← list_min (fst <$> l); r1 ← list_max (fst <$> l);
  c0 ← list_min (snd <$> l); c1 ← list_max (snd <$> l);
  Some (r0, r1, c0, c1).

End Select.

(** ** An executable labeller *)

(** 8-adjacency (a cell is adjacent to itself). *)
Definition adjacent8 (a b : Z * Z) : bool :=
  (Z.abs (a.1 - b.1) <=? 1) && (Z.abs (a.2 - b.2) <=? 1).

Definition touches (c : Z * Z) (k : list (Z * Z)) : bool := existsb (adjacent8 c) k.

(** Adding a cell: the first component it touches absorbs the cell and every
    later component the cell touches; a cell that touches none starts a new
    last component. *)
Fixpoint add_cell (c : Z * Z) (comps : list (list (Z * Z))) : list (list (Z * Z)) :=
  match comps with
  | [] => [[c]]
  | k :: ks =>
      if touches c k
      then (k ++ c :: concat (filter (fun k' => touches c k' = true) ks))
             :: filter (fun k' => touches c k' = false) ks
      else k :: add_cell c ks
  end.

Definition label_cells (cells : list (Z * Z)) : list (list (Z * Z)) :=
  foldl (fun comps c => add_cell c comps) [] cells.

#[export] Instance merge_labeller : Labeller := label_cells.

(** ** Laws of [merge_labeller] *)

Lemma concat_filter_split (P : list (Z * Z) -> bool) (l : list (list (Z * Z))) :
  concat (filter (fun k => P k = true) l) ++ concat (filter (fun k => P k = false) l) ≡ₚ concat l.
Proof.
  induction l as [|k l IH]; [done|]. rewrite !filter_cons.
  destruct (P k); repeat case_decide; try done; cbn [concat].
  - by rewrite <- (assoc_L app), IH.
  - rewrite Permutation_app_comm, <- (assoc_L app). apply Permutation_app_head.
    by rewrite Permutation_app_comm.
Qed.

Lemma add_cell_perm c comps : concat (add_cell c comps) ≡ₚ c :: concat comps.
Proof.
  induction comps as [|k ks IH]; cbn [add_cell]; [done|].
  destruct (touches c k); cbn [concat].
  - rewrite <- (assoc_L app). cbn [app]. rewrite concat_filter_split.
    by rewrite Permutation_middle.
  - by rewrite IH, Permutation_middle.
Qed.

Lemma label_cells_perm_gen cells comps :
  concat (foldl (fun comps c => add_cell c comps) comps cells) ≡ₚ cells ++ concat comps.
Proof.
  revert comps. induction cells as [|c cs IH]; intros comps; [done|]. cbn [foldl].
  by rewrite IH, add_cell_perm, <- Permutation_middle.
Qed.

Lemma add_cell_nonempty c comps :
  Forall (fun k => k <> []) comps -> Forall (fun k => k <> []) (add_cell c comps).
Proof.
  induction comps as [|k ks IH]; intros Hne; cbn [add_cell]; [by repeat constructor|].
  inversion Hne as [|? ? Hk Hks]; subst. destruct (touches c k).
  - constructor; [by destruct k|]. apply Forall_forall. intros x Hx.
    apply list_elem_of_In, list_elem_of_filter in Hx as [_ Hx].
    apply list_elem_of_In in Hx. by eapply Forall_forall in Hks.
  - constructor; [done|]. by apply IH.
Qed.

Lemma label_cells_nonempty_gen cells comps :
  Forall (fun k => k <> []) comps ->
  Forall (fun k => k <> []) (foldl (fun comps c => add_cell c comps) comps cells).
Proof.
  revert comps. induction cells as [|c cs IH]; intros comps H; [done|]. cbn [foldl].
  by apply IH, add_cell_nonempty.
Qed.

#[export] Instance merge_labeller_laws : LabellerLaws merge_labeller.
Proof.
  split.
  - intros cells _. unfold label_components, merge_labeller, label_cells.
    by rewrite label_cells_perm_gen, app_nil_r.
  - intros cells k Hk. unfold label_components, merge_labeller, label_cells in Hk.
    apply list_elem_of_In in Hk. revert k Hk. apply Forall_forall.
    by apply label_cells_nonempty_gen.
Qed.

(** ** The bounding box of a set of cells *)

Lemma cells_bbox_spec l r0 r1 c0 c1 :
  cells_bbox l = Some (r0, r1, c0, c1) ->
  (forall p, p ∈ l -> r0 <= p.1 <= r1 /\ c0 <= p.2 <= c1) /\
  (exists p, p ∈ l /\ p.1 = r0) /\ (exists p, p ∈ l /\ p.1 = r1) /\
  (exists p, p ∈ l /\ p.2 = c0) /\ (exists p, p ∈ l /\ p.2 = c1).
Proof.
  unfold cells_bbox.
  destruct (list_min (fst <$> l)) as [a|] eqn:Ha; simpl; [|done].
  destruct (list_max (fst <$> l)) as [b|] eqn:Hb; simpl; [|done].
  destruct (list_min (snd <$> l)) as [c|] eqn:Hc; simpl; [|done].
  destruct (list_max (snd <$> l)) as [d|] eqn:Hd; simpl; [|done].
  intros [= <- <- <- <-].
  apply list_min_spec in Ha as [Ha Ha'], Hc as [Hc Hc'].
  apply list_max_spec in Hb as [Hb Hb'], Hd as [Hd Hd'].
  rewrite Forall_forall in Ha', Hb', Hc', Hd'.
  repeat match goal with H : In _ _ |- _ => apply list_elem_of_In, list_elem_of_fmap in H end.
  split; [|split; [|split; [|split]]].
  - intros p Hp.
    assert (Hi : In p.1 (fst <$> l)) by (apply list_elem_of_In, list_elem_of_fmap; eauto).
    assert (Hj : In p.2 (snd <$> l)) by (apply list_elem_of_In, list_elem_of_fmap; eauto).
    specialize (Ha' _ Hi). specialize (Hb' _ Hi). specialize (Hc' _ Hj). specialize (Hd' _ Hj). lia.
  - destruct Ha as (p & -> & Hp). eauto.
  - destruct Hb as (p & -> & Hp). eauto.
  - destruct Hc as (p & -> & Hp). eauto.
  - destruct Hd as (p & -> & Hp). eauto.
Qed.

Lemma cells_bbox_None l : cells_bbox l = None <-> l = [].
Proof. destruct l as [|[i j] l]; simpl; [done|]. split; [done|congruence]. Qed.

(** [np.where] of a grid is the bounding box of its non-zero cells. *)
Lemma where_bbox_cells g : where_bbox g = cells_bbox (nz_cells g).
Proof. done. Qed.

Section SelectLaws.
Context {L : Labeller} {LL : LabellerLaws L}.

(** On a mask with a foreground cell, the selection succeeds: it returns
    the first component of maximal size, a non-empty set of foreground
    cells. *)
Lemma largest_component_spec g :
  any_nz g = true ->
  exists k, largest_component g = Some k /\ k <> [] /\
    (forall p, p ∈ k -> p ∈ nz_cells g) /\
    k ∈ label_components (nz_cells g) /\
    (forall k', k' ∈ label_components (nz_cells g) -> (length k' <= length k)%nat).
Proof.
  intros Hnz. unfold largest_component.
  set (comps := label_components (nz_cells g)).
  assert (Hperm : concat comps ≡ₚ nz_cells g) by apply label_partition, NoDup_nz_cells.
  destruct (decide (comps = [])) as [Hc|Hc].
  { exfalso. rewrite Hc in Hperm. simpl in Hperm. apply Permutation_nil in Hperm.
    unfold any_nz in Hnz. by rewrite Hperm in Hnz. }
  assert (Hpc : map (fun k => Z.of_nat (length k)) comps <> []) by (by destruct comps).
  destruct (argmax_spec _ Hpc) as (m & Hm & Hmax & _).
  apply list_lookup_fmap_Some in Hm as (k & -> & Hk). rewrite Hk.
  exists k. split; [done|]. split; [by eapply label_nonempty, list_elem_of_lookup_2|].
  split; [|split; [by eapply list_elem_of_lookup_2|]].
  - intros p Hp. rewrite <- Hperm. apply list_elem_of_In, in_concat. exists k.
    split; [apply list_elem_of_In; by eapply list_elem_of_lookup_2|by apply list_elem_of_In].
  - intros k' Hk'. apply list_elem_of_lookup in Hk' as [i Hi].
    specialize (Hmax i (Z.of_nat (length k'))). rewrite list_lookup_fmap, Hi in Hmax.
    specialize (Hmax eq_refl). lia.
Qed.

End SelectLaws.
