(* ===== verification/Overlap.v ===== *)
(** * The collision resolver ([run_shape_grammar_overlap])

    The loop of [BaggageImage2D.run_shape_grammar_overlap] ends in one of
    three ways. While the object overlaps the canvas, it labels the
    intersection and picks the largest component. It shifts the pose by
    that component's bounding box on each enabled axis. It stops early at
    the floor. From the third iteration on, it compares the pose with
    [pose_list[-2]] to detect an oscillation. It stops after 10 iterations.

    The pose is a numpy array. [pose_list = [bag_obj.pose]] and
    [pose_list.append(bag_obj.pose)] store references to that one array,
    and [bag_obj.pose[k] -= ...] mutates it in place. The model therefore
    keeps a heap of pose arrays ([heap]), the address of [bag_obj.pose]
    ([pose_ref]) and the addresses held by [pose_list]. The oscillation test
    reads [pose_list[-2]] through the heap. [resolve_ref] is the loop
    without the store, with the escape firing from the third iteration on;
    [run_overlap_equiv] shows the two resolvers are the same function. *)

From Stdlib Require Import ZArith Lia.
From stdpp Require Import base list numbers gmap.
From S2P Require Import Prelude Grid Raster Canvas Components.
Open Scope Z_scope.

(** ** State *)

Record rstate := mkRS {
  heap : gmap nat (Z * Z);   (* the pose arrays by address: [pose[0], pose[1]] *)
  pose_ref : nat;            (* the address of [bag_obj.pose] *)
  pose_list : list nat;      (* [pose_list], the addresses it holds *)
  row_shift : bool;          (* [row_shift] *)
  col_shift : bool;          (* [col_shift] *)
  lat_osc : bool;            (* [self.LATERAL_OSC_FLAG] *)
  ol_ctr : Z                 (* [ol_ctr] *)
}.

(** [bag_obj.pose], read through the heap. *)
Definition cur_pose (st : rstate) : Z * Z := default (0, 0) (heap st !! pose_ref st).

(** [bag_obj.pose[0] = ...; bag_obj.pose[1] = ...] (in place). *)
Definition write_pose (st : rstate) (p : Z * Z) : rstate :=
  mkRS (<[pose_ref st := p]> (heap st)) (pose_ref st) (pose_list st)
       (row_shift st) (col_shift st) (lat_osc st) (ol_ctr st).

(** [pose_list.append(bag_obj.pose)]: the reference, not a copy. *)
Definition push_pose (st : rstate) : rstate :=
  mkRS (heap st) (pose_ref st) (pose_list st ++ [pose_ref st])
       (row_shift st) (col_shift st) (lat_osc st) (ol_ctr st).

(** [col_shift = False; row_shift = False; self.LATERAL_OSC_FLAG = True] *)
Definition freeze (st : rstate) : rstate :=
  mkRS (heap st) (pose_ref st) (pose_list st) false false true (ol_ctr st).

(** [ol_ctr += 1] *)
Definition incr_ctr (st : rstate) : rstate :=
  mkRS (heap st) (pose_ref st) (pose_list st)
       (row_shift st) (col_shift st) (lat_osc st) (ol_ctr st + 1).

(** ** One iteration *)

(** The shift on one axis, from the component's extent [lo..hi] in the
    intersection's frame and the last index [maxd] of that frame. *)
Definition axis_shift (enabled : bool) (lo hi maxd : Z) : Z :=
  if enabled then
    if (lo =? 0) && (hi =? maxd) then 0
    else if hi =? maxd then - (hi - lo + 1)
    else if lo =? 0 then hi - lo + 1
    else 0
  else 0.

(** [ground_y = self.size // 2 + self.bb_h] (also when a bag mask is
    given). *)
Definition resolver_ground_y (bg : bag) : Z := size bg / 2 + bb_h bg.

(** [bag_obj.pose[0] -= / += bbox_dim[0]+1] under [if row_shift], then the
    same on the columns under [if col_shift]. *)
Definition shift_pose (st : rstate) (oi : grid) (r0 r1 c0 c1 : Z) : Z * Z :=
  let p := cur_pose st in
  (p.1 + axis_shift (row_shift st) r0 r1 (rows oi - 1),
   p.2 + axis_shift (col_shift st) c0 c1 (cols oi - 1)).

(** [if ol_ctr >= 2: prev_pose = pose_list[-2]; osc_cond = ...; if osc_cond:
    bag_obj.pose[0] -= bbox_dim[0]+1; ...]. [prev_pose] is read through the
    heap at the time of the comparison. *)
Definition osc_check (st : rstate) (bbox_dim0 : Z) : option rstate :=
  if 2 <=? ol_ctr st then
    a ← py_neg_index (pose_list st) 2;
    prev ← heap st !! a;
    let q := cur_pose st in
    Some (if (q.1 =? prev.1) && (q.2 =? prev.2)
          then freeze (write_pose st (q.1 - (bbox_dim0 + 1), q.2))
          else st)
  else Some st.

Inductive iter_out := Ground (st : rstate) | Next (st : rstate).

Section Resolver.
Context `{L : Labeller}.

(** The body of [while OVERLAP_FLAG], up to the recomputation of the
    overlap. [None] is a Python exception. *)
Definition overlap_iter (bg : bag) (o : obj) (st : rstate) (oi : grid) : option iter_out :=
  k ← largest_component oi;
  '(r0, r1, c0, c1) ← cells_bbox k;
  let st := write_pose st (shift_pose st oi r0 r1 c0 c1) in
  if resolver_ground_y bg <=? (cur_pose st).1 + (o_dim o).1 then Some (Ground st) else
  st ← osc_check (push_pose st) (r1 - r0);
  Some (Next (incr_ctr st)).

(** [while OVERLAP_FLAG: ...; OVERLAP_FLAG, obj_int = self.get_overlap(bag_obj);
    if ol_ctr == 10: break]. The counter ends the loop after 10 iterations,
    so [fuel = 10] is enough ([resolve_loop_fuel]). *)
Fixpoint resolve_loop (fuel : nat) (bg : bag) (cv : canvas) (o : obj) (st : rstate) (oi : grid)
  : option rstate :=
  match fuel with
  | O => Some st
  | Datatypes.S f =>
      r ← overlap_iter bg o st oi;
      match r with
      | Ground st' => Some st'
      | Next st' =>
          let '(flag, oi') := get_overlap cv (set_pose o (cur_pose st')) in
          if ol_ctr st' =? 10 then Some st'
          else if flag then resolve_loop f bg cv o st' oi' else Some st'
      end
  end.

(** [ol_ctr = 0; pose_list = [bag_obj.pose]], with the pose array at
    address 0. *)
Definition init_rstate (o : obj) (rs cs lat : bool) : rstate :=
  mkRS {[0%nat := o_pose o]} 0%nat [0%nat] rs cs lat 0.

(** [run_shape_grammar_overlap(bag_obj, fix_obj=False, row_shift, col_shift)]:
    the object with its final pose, and [self.LATERAL_OSC_FLAG]. *)
Definition run_overlap (bg : bag) (cv : canvas) (o : obj) (rs cs lat : bool) : option (obj * bool) :=
  let '(flag, oi) := get_overlap cv o in
  if flag then
    st ← resolve_loop 10 bg cv o (init_rstate o rs cs lat) oi;
    Some (set_pose o (cur_pose st), lat_osc st)
  else Some (o, lat).

(** With [fix_obj=True] the object is also placed in the bag. *)
Definition run_shape_grammar_overlap (bg : bag) (cv : canvas) (o : obj)
    (fix_obj rs cs lat : bool) : option (canvas * obj * bool) :=
  '(o', lat') ← run_overlap bg cv o rs cs lat;
  Some (if fix_obj then place_object_in_bag cv o' else cv, o', lat').

End Resolver.

(** ** A reference resolver without the store of pose arrays *)

(** The observable state of the loop: the pose, the two shift flags,
    [LATERAL_OSC_FLAG] and [ol_ctr]. *)
Record rview := mkRV { v_pose : Z * Z; v_rs : bool; v_cs : bool; v_lat : bool; v_ctr : Z }.

Definition view (st : rstate) : rview :=
  mkRV (cur_pose st) (row_shift st) (col_shift st) (lat_osc st) (ol_ctr st).

Definition iter_view (r : iter_out) : bool * rview :=
  match r with Ground st => (true, view st) | Next st => (false, view st) end.

Section Reference.
Context `{L : Labeller}.

(** One iteration as it behaves: the oscillation escape fires whenever
    [ol_ctr >= 2], since [pose_list[-2]] is the current pose array. The
    flag tells whether the floor test stopped the loop. *)
Definition ref_iter (bg : bag) (o : obj) (v : rview) (oi : grid) : option (bool * rview) :=
  k ← largest_component oi;
  '(r0, r1, c0, c1) ← cells_bbox k;
  let p := ((v_pose v).1 + axis_shift (v_rs v) r0 r1 (rows oi - 1),
            (v_pose v).2 + axis_shift (v_cs v) c0 c1 (cols oi - 1)) in
  if resolver_ground_y bg <=? p.1 + (o_dim o).1
  then Some (true, mkRV p (v_rs v) (v_cs v) (v_lat v) (v_ctr v))
  else Some (false, if 2 <=? v_ctr v
                    then mkRV (p.1 - (r1 - r0 + 1), p.2) false false true (v_ctr v + 1)
                    else mkRV p (v_rs v) (v_cs v) (v_lat v) (v_ctr v + 1)).

Fixpoint resolve_ref (fuel : nat) (bg : bag) (cv : canvas) (o : obj) (v : rview) (oi : grid)
  : option rview :=
  match fuel with
  | O => Some v
  | Datatypes.S f =>
      match ref_iter bg o v oi with
      | None => None
      | Some (true, v') => Some v'
      | Some (false, v') =>
          let '(flag, oi') := get_overlap cv (set_pose o (v_pose v')) in
          if v_ctr v' =? 10 then Some v'
          else if flag then resolve_ref f bg cv o v' oi' else Some v'
      end
  end.

(** [run_shape_grammar_overlap(bag_obj, fix_obj=False, ...)] on the
    reference loop. *)
Definition run_ref (bg : bag) (cv : canvas) (o : obj) (rs cs lat : bool) : option (obj * bool) :=
  let '(flag, oi) := get_overlap cv o in
  if flag then
    v ← resolve_ref 10 bg cv o (mkRV (o_pose o) rs cs lat 0) oi;
    Some (set_pose o (v_pose v), v_lat v)
  else Some (o, lat).

End Reference.

(** ** The aliasing invariant *)

(** At the head of every iteration, [pose_list] holds [ol_ctr + 1]
    references, all to the array of [bag_obj.pose], and that array is
    allocated. *)
Definition aliased (st : rstate) : Prop :=
  Forall (fun a => a = pose_ref st) (pose_list st) /\ is_Some (heap st !! pose_ref st) /\
  length (pose_list st) = (Z.to_nat (ol_ctr st) + 1)%nat /\ 0 <= ol_ctr st.

(** The escape has fired: [LATERAL_OSC_FLAG] is set and both shifts are
    off. *)
Definition frozen (st : rstate) : Prop :=
  lat_osc st = true /\ row_shift st = false /\ col_shift st = false.

(** ** Example states *)

(** Two label blocks, rows 0..2 and 5..11 of a 12 x 12 slice, with a
    3 x 3 object between them at (2, 4): it overlaps the upper block with
    its first row and the lower block with its last row after one step
    down, so the row shift alternates between +1 and -1. *)
Definition cv_osc : canvas :=
  mkCanvas (fill_rect (fill_rect (zeros 12 12) 0 3 0 12 7) 5 12 0 12 8) (zeros 12 12).
Definition obj_osc : obj := mkObj B 2 (fill_rect (zeros 3 3) 0 3 0 3 2) (3, 3) (2, 4) None None.
Definition bag_osc : bag := mkBag 40 10 None.

(** A slice of a bag of size 20 with [bb_h = 5] (floor at row 15, walls
    from row 15 on) and a block in rows 10..12: a 3 x 3 object at (11, 4)
    overlaps it with its first two rows and is shifted down by 2, across
    the floor. *)
Definition cv_floor : canvas :=
  mkCanvas (fill_rect (fill_rect (zeros 20 20) 10 13 0 20 7) 15 20 0 20 1)
           (fill_rect (zeros 20 20) 15 20 0 20 1).
Definition obj_floor : obj := mkObj B 2 (fill_rect (zeros 3 3) 0 3 0 3 2) (3, 3) (11, 4) None None.
Definition bag_floor : bag := mkBag 20 5 None.

Lemma cur_pose_write st p : cur_pose (write_pose st p) = p.
Proof. unfold cur_pose, write_pose. simpl. by rewrite lookup_insert_eq. Qed.

Lemma aliased_write st p : aliased st -> aliased (write_pose st p).
Proof.
  intros (Hf & _ & Hl & Hc). unfold write_pose. repeat split; simpl; try done.
  by rewrite lookup_insert_eq.
Qed.

Lemma aliased_init o rs cs lat : aliased (init_rstate o rs cs lat).
Proof. repeat split; simpl; try done. by constructor. Qed.

#[export] Hint Resolve aliased_write aliased_init : raster.

Lemma osc_check_early st d : ol_ctr st < 2 -> osc_check st d = Some st.
Proof. intros H. unfold osc_check. by destruct (Z.leb_spec 2 (ol_ctr st)); [lia|]. Qed.

(** The aliasing: from the third iteration on, [pose_list[-2]] is the
    array of [bag_obj.pose] itself, so [osc_cond] holds and the escape
    fires, whatever poses the earlier iterations had. *)
Lemma osc_check_aliased st d :
  aliased st -> 2 <= ol_ctr st ->
  osc_check (push_pose st) d =
  Some (freeze (write_pose (push_pose st) ((cur_pose st).1 - (d + 1), (cur_pose st).2))).
Proof.
  intros (Hf & [q Hq] & Hl & Hc) H2. unfold osc_check. simpl.
  destruct (Z.leb_spec 2 (ol_ctr st)); [|lia].
  destruct (py_neg_index_Some (pose_list st ++ [pose_ref st]) 2) as (a & Ha & Hin);
    [rewrite length_app; simpl; lia|]. rewrite Ha. simpl.
  assert (a = pose_ref st) as ->.
  { apply elem_of_app in Hin as [Hin|Hin%list_elem_of_singleton]; [|done].
    rewrite Forall_forall in Hf. by apply Hf. }
  rewrite Hq. unfold cur_pose. simpl. rewrite Hq. simpl. by rewrite !Z.eqb_refl.
Qed.

Lemma osc_check_shape st d st' :
  osc_check st d = Some st' ->
  pose_ref st' = pose_ref st /\ pose_list st' = pose_list st /\ ol_ctr st' = ol_ctr st /\
  (is_Some (heap st !! pose_ref st) -> is_Some (heap st' !! pose_ref st')) /\
  (frozen st' \/ (row_shift st' = row_shift st /\ col_shift st' = col_shift st /\
                  lat_osc st' = lat_osc st)).
Proof.
  unfold osc_check. destruct (2 <=? ol_ctr st); [|intros [= <-]; by repeat split; auto].
  destruct (py_neg_index _ _); simpl; [|done]. destruct (heap st !! _); simpl; [|done].
  destruct (_ && _); intros [= <-]; simpl; repeat split; auto.
  - intros _. by rewrite lookup_insert_eq.
  - by left.
Qed.

(** ** One iteration *)

Section Iteration.
Context {L : Labeller}.

(** The two ways an iteration ends: at the floor with the shifted pose
    kept, or with the pose list extended, the oscillation test run and the
    counter incremented. *)
Lemma overlap_iter_inv bg o st oi r :
  overlap_iter bg o st oi = Some r ->
  exists k r0 r1 c0 c1, largest_component oi = Some k /\ cells_bbox k = Some (r0, r1, c0, c1) /\
    let p := shift_pose st oi r0 r1 c0 c1 in
    (resolver_ground_y bg <= p.1 + (o_dim o).1 /\ r = Ground (write_pose st p)) \/
    (p.1 + (o_dim o).1 < resolver_ground_y bg /\
     exists st2, osc_check (push_pose (write_pose st p)) (r1 - r0) = Some st2 /\
                 r = Next (incr_ctr st2)).
Proof.
  unfold overlap_iter. destruct (largest_component oi) as [k|]; simpl; [|done].
  destruct (cells_bbox k) as [[[[r0 r1] c0] c1]|] eqn:Hb; simpl; [|done].
  intros Hr. exists k, r0, r1, c0, c1. split; [done|]. split; [done|].
  rewrite cur_pose_write in Hr. unfold shift_pose in *. cbn [fst snd] in *.
  match type of Hr with context [if ?c then _ else _] => destruct c eqn:Eg end.
  - apply Z.leb_le in Eg. left. split; [lia|]. congruence.
  - apply Z.leb_gt in Eg. right. split; [lia|]. destruct (osc_check _ _) as [st2|]; simpl in Hr; [|done].
    exists st2. split; [done|]. congruence.
Qed.

Lemma overlap_iter_next bg o st oi st' :
  aliased st -> overlap_iter bg o st oi = Some (Next st') ->
  aliased st' /\ ol_ctr st' = ol_ctr st + 1 /\
  (2 <= ol_ctr st -> frozen st') /\ (frozen st -> frozen st').
Proof.
  intros Ha Hr. apply overlap_iter_inv in Hr as (k & r0 & r1 & c0 & c1 & _ & _ & [[_ ?]|[_ (st2 & Hosc & Hr)]]);
    [done|]. injection Hr as Hr. subst st'.
  set (p := shift_pose st oi r0 r1 c0 c1) in *.
  pose proof (osc_check_shape _ _ _ Hosc) as (Href & Hlist & Hctr & Hsome & Hfl).
  destruct (aliased_write st p Ha) as (Hf & Hs & Hl & Hc).
  unfold push_pose in *; simpl in *. split; [|split; [|split]].
  - unfold incr_ctr. repeat split; simpl.
    + rewrite Hlist, Href. apply Forall_app. split; [done|]. by constructor.
    + by apply Hsome.
    + rewrite Hlist, length_app, Hl, Hctr. simpl. lia.
    + lia.
  - unfold incr_ctr. simpl. lia.
  - intros H2. rewrite (osc_check_aliased (write_pose st p)) in Hosc by (done || simpl; lia).
    injection Hosc as <-. by repeat split.
  - intros (Hl' & Hr' & Hc'). unfold frozen, incr_ctr. simpl.
    destruct Hfl as [(?&?&?)|(E1 & E2 & E3)]; [by repeat split|].
    rewrite E1, E2, E3. by repeat split.
Qed.

Lemma overlap_iter_next_ctr bg o st oi st' :
  overlap_iter bg o st oi = Some (Next st') -> ol_ctr st' = ol_ctr st + 1.
Proof.
  intros Hr. apply overlap_iter_inv in Hr as (k & r0 & r1 & c0 & c1 & _ & _ & [[_ ?]|[_ (st2 & Hosc & Hr)]]);
    [done|]. injection Hr as Hr. subst st'.
  destruct (osc_check_shape _ _ _ Hosc) as (_ & _ & Hc & _). unfold incr_ctr. simpl. by rewrite Hc.
Qed.

Lemma overlap_iter_ground bg o st oi st' :
  overlap_iter bg o st oi = Some (Ground st') ->
  exists p, st' = write_pose st p /\ resolver_ground_y bg <= p.1 + (o_dim o).1.
Proof.
  intros Hr. apply overlap_iter_inv in Hr as (k & r0 & r1 & c0 & c1 & _ & _ & [[? Hr]|[_ (st2 & _ & ?)]]);
    [|done]. injection Hr as Hr. subst st'. eauto.
Qed.

End Iteration.

Section Laws.
Context {L : Labeller} {LL : LabellerLaws L}.

Lemma overlap_iter_eq bg o st oi k r0 r1 c0 c1 :
  largest_component oi = Some k -> cells_bbox k = Some (r0, r1, c0, c1) ->
  overlap_iter bg o st oi =
    let st1 := write_pose st (shift_pose st oi r0 r1 c0 c1) in
    if resolver_ground_y bg <=? (shift_pose st oi r0 r1 c0 c1).1 + (o_dim o).1
    then Some (Ground st1)
    else st2 ← osc_check (push_pose st1) (r1 - r0); Some (Next (incr_ctr st2)).
Proof.
  intros Hk Hb. unfold overlap_iter. rewrite Hk. simpl. rewrite Hb. simpl.
  by rewrite cur_pose_write.
Qed.

Lemma component_bbox oi :
  any_nz oi = true ->
  exists k r0 r1 c0 c1, largest_component oi = Some k /\ cells_bbox k = Some (r0, r1, c0, c1) /\
    0 <= r0 <= r1 /\ r1 < rows oi /\ 0 <= c0 <= c1 /\ c1 < cols oi.
Proof.
  intros Hnz. destruct (largest_component_spec oi Hnz) as (k & Hk & Hne & Hsub & _).
  destruct (cells_bbox k) as [[[[r0 r1] c0] c1]|] eqn:Hb; [|by apply cells_bbox_None in Hb].
  exists k, r0, r1, c0, c1. do 2 (split; [done|]).
  destruct (cells_bbox_spec _ _ _ _ _ Hb) as (Hin & (p & Hp & <-) & (q & Hq & <-) & (u & Hu & <-) & (v & Hv & <-)).
  destruct (Hin p Hp), (Hin u Hu).
  apply Hsub in Hp, Hq, Hu, Hv. destruct p, q, u, v.
  apply elem_of_nz_cells in Hp, Hq, Hu, Hv. simpl in *. lia.
Qed.

End Laws.

(** ** The loop *)

Section Loop.
Context {L : Labeller}.

Lemma frozen_write st p : frozen st -> frozen (write_pose st p).
Proof. done. Qed.

Lemma resolve_loop_frozen_gen n bg cv o st oi st' :
  aliased st -> (3 <= ol_ctr st -> frozen st) ->
  resolve_loop n bg cv o st oi = Some st' -> 3 <= ol_ctr st' -> frozen st'.
Proof.
  revert st oi. induction n as [|n IH]; intros st oi Ha Hinv; simpl; [by intros [= <-]|].
  destruct (overlap_iter bg o st oi) as [[st1|st1]|] eqn:Hi; simpl; [| |done].
  - intros [= <-]. apply overlap_iter_ground in Hi as (p & -> & _). done.
  - destruct (overlap_iter_next _ _ _ _ _ Ha Hi) as (Ha1 & Hc1 & H2 & Hfz).
    assert (Hinv1 : 3 <= ol_ctr st1 -> frozen st1) by (intros; apply H2; lia).
    destruct (get_overlap cv (set_pose o (cur_pose st1))) as [flag oi'].
    destruct (ol_ctr st1 =? 10); [by intros [= <-]|].
    destruct flag; [by apply IH|by intros [= <-]].
Qed.

Lemma resolve_loop_fuel_gen bg cv o n m st oi :
  0 <= ol_ctr st < 10 -> (Z.to_nat (10 - ol_ctr st) <= n)%nat -> (Z.to_nat (10 - ol_ctr st) <= m)%nat ->
  resolve_loop n bg cv o st oi = resolve_loop m bg cv o st oi.
Proof.
  revert m st oi. induction n as [|n IH]; intros m st oi Hc Hn Hm; [lia|].
  destruct m as [|m]; [lia|]. simpl.
  destruct (overlap_iter bg o st oi) as [[st1|st1]|] eqn:Hi; simpl; [done| |done].
  apply overlap_iter_next_ctr in Hi.
  destruct (get_overlap cv (set_pose o (cur_pose st1))) as [flag oi'].
  destruct (Z.eqb_spec (ol_ctr st1) 10); [done|]. destruct flag; [|done].
  apply IH; lia.
Qed.

Lemma resolve_loop_ctr n bg cv o st oi st' :
  0 <= ol_ctr st < 10 -> resolve_loop n bg cv o st oi = Some st' -> ol_ctr st <= ol_ctr st' <= 10.
Proof.
  revert st oi. induction n as [|n IH]; intros st oi Hc; simpl; [intros [= <-]; lia|].
  destruct (overlap_iter bg o st oi) as [[st1|st1]|] eqn:Hi; simpl; [| |done].
  - intros [= <-]. apply overlap_iter_ground in Hi as (p & -> & _). simpl. lia.
  - apply overlap_iter_next_ctr in Hi.
    destruct (get_overlap cv (set_pose o (cur_pose st1))) as [flag oi'].
    destruct (Z.eqb_spec (ol_ctr st1) 10); [intros [= <-]; lia|].
    destruct flag; [|intros [= <-]; lia].
    intros Hr. specialize (IH st1 oi' ltac:(lia) Hr). lia.
Qed.

End Loop.

Section Claims.
Context {L : Labeller} {LL : LabellerLaws L}.

Lemma cur_pose_incr_freeze st : cur_pose (incr_ctr (freeze st)) = cur_pose st.
Proof. done. Qed.

Lemma cur_pose_incr_push st : cur_pose (incr_ctr (push_pose st)) = cur_pose st.
Proof. done. Qed.

Lemma overlap_iter_Some bg o st oi :
  aliased st -> any_nz oi = true -> exists r, overlap_iter bg o st oi = Some r.
Proof.
  intros Ha Hnz. destruct (component_bbox oi Hnz) as (k & r0 & r1 & c0 & c1 & Hk & Hb & _).
  rewrite (overlap_iter_eq bg o st oi k r0 r1 c0 c1 Hk Hb). cbv zeta.
  destruct (_ <=? _); [eauto|].
  destruct (Z.lt_ge_cases (ol_ctr st) 2).
  - rewrite osc_check_early by (simpl; lia). simpl. eauto.
  - rewrite osc_check_aliased by (auto with raster || (simpl; lia)). simpl. eauto.
Qed.

Lemma resolve_loop_Some n bg cv o st oi :
  aliased st -> any_nz oi = true -> exists st', resolve_loop n bg cv o st oi = Some st'.
Proof.
  revert st oi. induction n as [|n IH]; intros st oi Ha Hnz; simpl; [eauto|].
  destruct (overlap_iter_Some bg o st oi Ha Hnz) as [[st1|st1] Hi]; rewrite Hi; simpl; [eauto|].
  destruct (overlap_iter_next _ _ _ _ _ Ha Hi) as (Ha1 & _).
  pose proof (get_overlap_flag cv (set_pose o (cur_pose st1))) as Hfl.
  destruct (get_overlap cv (set_pose o (cur_pose st1))) as [flag oi'].
  destruct (ol_ctr st1 =? 10); [eauto|]. simpl in Hfl. subst flag.
  destruct (any_nz oi') eqn:E; [by apply IH|eauto].
Qed.

(** C1: one iteration of the resolver on every branch. The largest
    component of the intersection has a bounding box. The pose is shifted
    by it on the enabled axes. If the shifted object reaches the floor
    ([ground_y = size // 2 + bb_h]), the loop stops with that shifted pose
    kept. Otherwise, in the first two iterations the shifted pose stands.
    From the third on, because [pose_list] aliases [bag_obj.pose], the
    oscillation escape always fires: the object moves up by the
    component's height plus one, and both shifts are frozen. *)
Theorem overlap_iter_spec bg o st oi :
  aliased st -> any_nz oi = true ->
  exists k r0 r1 c0 c1,
    largest_component oi = Some k /\ cells_bbox k = Some (r0, r1, c0, c1) /\
    let p := shift_pose st oi r0 r1 c0 c1 in
    if resolver_ground_y bg <=? p.1 + (o_dim o).1
    then overlap_iter bg o st oi = Some (Ground (write_pose st p))
    else exists st', overlap_iter bg o st oi = Some (Next st') /\ aliased st' /\
      ol_ctr st' = ol_ctr st + 1 /\
      if 2 <=? ol_ctr st
      then frozen st' /\ cur_pose st' = (p.1 - (r1 - r0 + 1), p.2)
      else cur_pose st' = p /\ row_shift st' = row_shift st /\ col_shift st' = col_shift st /\
           lat_osc st' = lat_osc st.
Proof.
  intros Ha Hnz. destruct (component_bbox oi Hnz) as (k & r0 & r1 & c0 & c1 & Hk & Hb & _).
  exists k, r0, r1, c0, c1. do 2 (split; [done|]). cbv zeta.
  pose proof (overlap_iter_eq bg o st oi k r0 r1 c0 c1 Hk Hb) as Heq. cbv zeta in Heq.
  set (p := shift_pose st oi r0 r1 c0 c1) in *.
  destruct (_ <=? _); [exact Heq|].
  destruct (Z.leb_spec 2 (ol_ctr st)) as [H2|H2].
  - rewrite osc_check_aliased in Heq by (auto with raster || (simpl; lia)). simpl in Heq.
    eexists. split; [exact Heq|].
    destruct (overlap_iter_next _ _ _ _ _ Ha Heq) as (Ha' & Hc' & Hfz & _).
    do 2 (split; [done|]). split; [by apply Hfz|].
    rewrite cur_pose_incr_freeze, !cur_pose_write. done.
  - rewrite osc_check_early in Heq by (simpl; lia). simpl in Heq.
    eexists. split; [exact Heq|].
    destruct (overlap_iter_next _ _ _ _ _ Ha Heq) as (Ha' & Hc' & _).
    do 2 (split; [done|]). rewrite cur_pose_incr_push, cur_pose_write. done.
Qed.


(** C2: the aliasing, over the whole loop. If the resolver has run a third
    iteration (the counter reached 3 without an exit at the floor), the
    oscillation escape has fired: [LATERAL_OSC_FLAG] is set and both shifts
    are off, whether or not the pose ever repeated. *)
Theorem resolve_loop_escape n bg cv o rs cs lat oi st :
  resolve_loop n bg cv o (init_rstate o rs cs lat) oi = Some st -> 3 <= ol_ctr st ->
  lat_osc st = true /\ row_shift st = false /\ col_shift st = false.
Proof.
  intros Hr H3. apply (resolve_loop_frozen_gen n bg cv o (init_rstate o rs cs lat) oi st); [apply aliased_init|simpl; lia|done|done].
Qed.

(** C17: termination. The counter stops the loop after at most 10
    iterations: any fuel of 10 or more gives the same result as 10, and
    the counter ends between 0 and 10. *)
Theorem resolve_loop_fuel n bg cv o rs cs lat oi :
  (10 <= n)%nat ->
  resolve_loop n bg cv o (init_rstate o rs cs lat) oi = resolve_loop 10 bg cv o (init_rstate o rs cs lat) oi /\
  (forall st, resolve_loop 10 bg cv o (init_rstate o rs cs lat) oi = Some st -> 0 <= ol_ctr st <= 10).
Proof.
  intros Hn. split.
  - apply resolve_loop_fuel_gen; simpl; lia.
  - intros st Hr. apply resolve_loop_ctr in Hr; simpl in *; lia.
Qed.

(** the shift rule on one axis. There is no shift exactly when the
    component spans the whole axis of the intersection or touches neither
    edge. Otherwise the object moves so that its span [q .. q + maxd] ends
    just before the component's first row or starts just after its last. *)
Theorem axis_shift_spec lo hi maxd p :
  0 <= lo <= hi /\ hi <= maxd ->
  (axis_shift true lo hi maxd = 0 <-> (lo = 0 /\ hi = maxd) \/ (0 < lo /\ hi < maxd)) /\
  (axis_shift true lo hi maxd <> 0 ->
   let q := p + axis_shift true lo hi maxd in q + maxd = p + lo - 1 \/ q = p + hi + 1).
Proof.
  intros H. unfold axis_shift.
  destruct (Z.eqb_spec lo 0), (Z.eqb_spec hi maxd); simpl; split; try split; intros; lia.
Qed.

(** C37: the resolver raises no exception. For a lawful labeller,
    [run_shape_grammar_overlap] returns the object with only its pose
    changed. *)
Theorem run_overlap_total bg cv o rs cs lat :
  exists o' lat', run_overlap bg cv o rs cs lat = Some (o', lat') /\
    o_data o' = o_data o /\ o_dim o' = o_dim o /\ o_label o' = o_label o /\ o_shape o' = o_shape o.
Proof.
  unfold run_overlap. pose proof (get_overlap_flag cv o) as Hfl.
  destruct (get_overlap cv o) as [flag oi]. simpl in Hfl. subst flag.
  destruct (any_nz oi) eqn:E; [|by eauto 10].
  destruct (resolve_loop_Some 10 bg cv o (init_rstate o rs cs lat) oi (aliased_init _ _ _ _) E)
    as [st ->].
  simpl. by eauto 10.
Qed.

(** an object that does not overlap is left where it is; with
    [fix_obj] it is placed at its pose. *)
Theorem run_shape_grammar_overlap_clear bg cv o rs cs lat :
  (get_overlap cv o).1 = false ->
  run_shape_grammar_overlap bg cv o true rs cs lat = Some (place_object_in_bag cv o, o, lat) /\
  run_shape_grammar_overlap bg cv o false rs cs lat = Some (cv, o, lat).
Proof.
  intros H. unfold run_shape_grammar_overlap, run_overlap.
  destruct (get_overlap cv o) as [flag oi]. simpl in H. by subst flag.
Qed.

End Claims.

Section Equivalence.
Context {L : Labeller}.

Lemma overlap_iter_view bg o st oi :
  aliased st -> option_map iter_view (overlap_iter bg o st oi) = ref_iter bg o (view st) oi.
Proof.
  intros Ha. unfold overlap_iter, ref_iter.
  destruct (largest_component oi) as [k|]; cbn [mbind option_bind]; [|done].
  destruct (cells_bbox k) as [[[[r0 r1] c0] c1]|]; cbn [mbind option_bind]; [|done].
  rewrite cur_pose_write.
  change (v_pose (view st)) with (cur_pose st). change (v_rs (view st)) with (row_shift st).
  change (v_cs (view st)) with (col_shift st). change (v_lat (view st)) with (lat_osc st).
  change (v_ctr (view st)) with (ol_ctr st).
  change ((cur_pose st).1 + axis_shift (row_shift st) r0 r1 (rows oi - 1),
          (cur_pose st).2 + axis_shift (col_shift st) c0 c1 (cols oi - 1))
    with (shift_pose st oi r0 r1 c0 c1).
  set (p := shift_pose st oi r0 r1 c0 c1).
  destruct (resolver_ground_y bg <=? p.1 + (o_dim o).1).
  { cbn. unfold view. by rewrite cur_pose_write. }
  destruct (Z.leb_spec 2 (ol_ctr st)) as [H2|H2].
  - rewrite osc_check_aliased by (auto with raster || (simpl; lia)). cbn [mbind option_bind option_map iter_view].
    unfold view. rewrite cur_pose_incr_freeze. unfold cur_pose at 1. simpl. rewrite lookup_insert_eq. simpl.
    rewrite cur_pose_write. done.
  - rewrite osc_check_early by (simpl; lia). cbn [mbind option_bind option_map iter_view].
    unfold view. rewrite cur_pose_incr_push, cur_pose_write. done.
Qed.


(** From an aliased state, the loop with its store of pose arrays and
    the reference loop take the same steps. *)
Lemma resolve_loop_equiv n bg cv o st oi :
  aliased st ->
  option_map view (resolve_loop n bg cv o st oi) = resolve_ref n bg cv o (view st) oi.
Proof.
  revert st oi. induction n as [|n IH]; intros st oi Ha; [done|].
  cbn [resolve_loop resolve_ref]. rewrite <- overlap_iter_view by done.
  destruct (overlap_iter bg o st oi) as [[st'|st']|] eqn:E; cbn [mbind option_bind option_map iter_view]; [done| |done].
  destruct (overlap_iter_next bg o st oi st' Ha E) as (Ha' & _).
  change (v_pose (view st')) with (cur_pose st'). change (v_ctr (view st')) with (ol_ctr st').
  destruct (get_overlap cv (set_pose o (cur_pose st'))) as [flag oi'].
  destruct (ol_ctr st' =? 10); [done|]. destruct flag; [by apply IH|done].
Qed.
(** C12: Equivalence: [run_shape_grammar_overlap] with its aliased
    [pose_list] is the reference resolver in which the oscillation escape
    fires at every iteration from the third on. Both give the same final
    pose and [LATERAL_OSC_FLAG], and both raise together. *)
Theorem run_overlap_equiv bg cv o rs cs lat :
  run_overlap bg cv o rs cs lat = run_ref bg cv o rs cs lat.
Proof.
  unfold run_overlap, run_ref. destruct (get_overlap cv o) as [[] oi]; [|done].
  pose proof (resolve_loop_equiv 10 bg cv o (init_rstate o rs cs lat) oi (aliased_init o rs cs lat)) as H.
  replace (view (init_rstate o rs cs lat)) with (mkRV (o_pose o) rs cs lat 0) in H by done.
  rewrite <- H. by destruct (resolve_loop 10 bg cv o (init_rstate o rs cs lat) oi).
Qed.

End Equivalence.

(** ** Witnesses *)

(** The object at (11, 4) has its bottom at 14, above the floor at 15.
    The resolver shifts it down by 2 and stops there, with its bottom row
    past the floor. *)
Lemma overlap_iter_spec_witness :
  (o_pose obj_floor).1 + (o_dim obj_floor).1 < resolver_ground_y bag_floor /\
  exists st', overlap_iter bag_floor obj_floor (init_rstate obj_floor true true false)
                (get_overlap cv_floor obj_floor).2 = Some (Ground st') /\
              resolver_ground_y bag_floor < (cur_pose st').1 + (o_dim obj_floor).1.
Proof.
  split; [vm_compute; reflexivity|].
  destruct (overlap_iter_spec bag_floor obj_floor (init_rstate obj_floor true true false)
              (get_overlap cv_floor obj_floor).2 (aliased_init _ _ _ _) ltac:(vm_compute; reflexivity))
    as (k & r0 & r1 & c0 & c1 & Hk & Hb & H).
  vm_compute in Hk. injection Hk as <-. vm_compute in Hb. injection Hb as <- <- <- <-.
  cbv zeta in H.
  match type of H with (if ?c then _ else _) =>
    assert (Ec : c = true) by (vm_compute; reflexivity); rewrite Ec in H end.
  eexists. split; [exact H|]. rewrite cur_pose_write. vm_compute. reflexivity.
Defined.

(** Between two blocks the row shift alternates (+1, -1, +1). The pose
    array is aliased, so the third iteration escapes even though the pose
    differs from the previous iteration's; the loop ends after 5
    iterations with the flag set. *)
Lemma resolve_loop_escape_witness :
  match resolve_loop 10 bag_osc cv_osc obj_osc (init_rstate obj_osc true true false)
          (get_overlap cv_osc obj_osc).2 with
  | Some st => lat_osc st = true /\ ol_ctr st = 5
  | None => False
  end.
Proof.
  destruct (resolve_loop 10 bag_osc cv_osc obj_osc _ _) as [st|] eqn:E;
    [|vm_compute in E; discriminate].
  assert (Hc : ol_ctr st = 5) by (pose proof E as E'; vm_compute in E'; injection E' as <-; reflexivity).
  split; [|exact Hc]. apply (resolve_loop_escape 10 bag_osc cv_osc obj_osc true true false _ st E). lia.
Defined.

Lemma resolve_loop_fuel_witness :
  resolve_loop 12 bag_osc cv_osc obj_osc (init_rstate obj_osc true true false) (get_overlap cv_osc obj_osc).2 =
  resolve_loop 10 bag_osc cv_osc obj_osc (init_rstate obj_osc true true false) (get_overlap cv_osc obj_osc).2.
Proof.
  destruct (resolve_loop_fuel 12 bag_osc cv_osc obj_osc true true false (get_overlap cv_osc obj_osc).2)
    as [H _]; [lia|exact H].
Defined.

(** A component in rows 0..1 of a 3-row intersection moves the object down
    by 2, to start just after the component's last row. *)
Lemma axis_shift_spec_witness :
  let q := 11 + axis_shift true 0 1 2 in q + 2 = 11 + 0 - 1 \/ q = 11 + 1 + 1.
Proof.
  destruct (axis_shift_spec 0 1 2 11) as [_ H]; [lia|]. apply H. vm_compute. discriminate.
Defined.

Lemma run_shape_grammar_overlap_clear_witness :
  run_shape_grammar_overlap bag_ex canvas_ex (obj_ex (6, 6)) true true true false =
  Some (place_object_in_bag canvas_ex (obj_ex (6, 6)), obj_ex (6, 6), false).
Proof.
  destruct (run_shape_grammar_overlap_clear bag_ex canvas_ex (obj_ex (6, 6)) true true false)
    as [H _]; [vm_compute; reflexivity|exact H].
Defined.

(** With the merge labeller, the oscillating example returns an object. *)
Lemma run_overlap_total_witness :
  exists o' lat', run_overlap bag_osc cv_osc obj_osc true true false = Some (o', lat') /\
    o_data o' = o_data obj_osc.
Proof.
  destruct (run_overlap_total (LL := merge_labeller_laws) bag_osc cv_osc obj_osc true true false)
    as (o' & lat' & H & Hd & _). eauto.
Defined.
