(* ===== verification/Gravity.v ===== *)
(** * The gravity rule ([run_shape_grammar_overlap_and_gravity])

    The object is dropped by [z_inc] rows per outer step, at most 50 steps.
    When it reaches the floor it is clamped there, settled by one
    column-only resolver call, placed, and the loop stops. While it
    overlaps, the resolver runs in an inner loop. A stall or a lateral
    oscillation ends the descent. Afterwards [_adjust_for_boundaries] trims
    the object and it is placed.

    The sheet branch ([bag_obj.shape == 'S']) is a parameter of the
    section, [sheet_branch], which also receives the drop counter;
    [Sheet.sheet_rule] instantiates it. The descent is also given as a
    state machine, the step relation [descends] indexed by the number of
    steps, which the executable loop refines ([drop_loop_refines]): each
    step adds one to [drop_ctr]. *)

From Stdlib Require Import ZArith Lia.
From stdpp Require Import base list numbers gmap.
From S2P Require Import Prelude Grid Raster Canvas Components Overlap.
Open Scope Z_scope.

(** [ground_y]: the floor row of the container. *)
Definition gravity_ground_y (bg : bag) : Z :=
  match extents bg with
  | None => size bg / 2 + bb_h bg
  | Some (e0, _) => size bg / 2 + e0 / 2
  end.

(** The outcome of one outer step: the descent goes on with the object,
    the counter [ol_ctr] and [drop_ctr], or it stops ([break]) with the
    canvas and the object. *)
Inductive drop_out :=
  | Continue (o : obj) (ol_ctr drop_ctr : Z)
  | Stop (cv : canvas) (o : obj).

Section Gravity.
Context {L : Labeller}.

(** The sheet branch: [None] is an exception, [Some None] goes on, and
    [Some (Some (cv', o'))] is [generate_sheet_curve], [inflate_sheet],
    [place_object_in_bag] and [break]. *)
Variable sheet_branch : bag -> canvas -> obj -> Z -> option (option (canvas * obj)).

(** [while OVERLAP_FLAG: ol_ctr += 1; bag_obj = run_shape_grammar_overlap(...);
    OVERLAP_FLAG, temp = get_overlap(bag_obj); osc_cond = ...;
    if ol_ctr > 10: ol_ctr = 0; OVERLAP_FLAG = False; break]. The result is
    the object, [LATERAL_OSC_FLAG], [ol_ctr] and [osc_cond]. *)
Fixpoint inner_loop (fuel : nat) (bg : bag) (cv : canvas) (o : obj) (lat : bool) (ol_ctr : Z)
    (prev_pose : Z * Z) : option (obj * bool * Z * bool) :=
  match fuel with
  | O => Some (o, lat, ol_ctr, false)
  | Datatypes.S f =>
      let ol_ctr := ol_ctr + 1 in
      '(o', lat') ← run_overlap bg cv o true true lat;
      let flag := (get_overlap cv o').1 in
      let osc := ((o_pose o').1 =? prev_pose.1) && ((o_pose o').2 =? prev_pose.2) in
      if 10 <? ol_ctr then Some (o', lat', 0, osc)
      else if flag then inner_loop f bg cv o' lat' ol_ctr prev_pose
      else Some (o', lat', ol_ctr, osc)
  end.

(** One step of [while drop_ctr < 50], from [drop_ctr += 1] on. *)
Definition drop_step (bg : bag) (cv : canvas) (o : obj) (z_inc ol_ctr drop_ctr : Z) : option drop_out :=
  let lat := false in
  let drop_ctr := drop_ctr + 1 in
  let prev_pose := o_pose o in
  let o := set_pose o ((o_pose o).1 + z_inc, (o_pose o).2) in
  if decide (o_shape o = S) then
    r ← sheet_branch bg cv o drop_ctr;
    Some (match r with
          | Some (cv', o') => Stop cv' o'
          | None => Continue o ol_ctr drop_ctr
          end)
  else
    let ground_y := gravity_ground_y bg in
    if ground_y <=? (o_pose o).1 + (o_dim o).1 then
      let o := set_pose o (ground_y - (o_dim o).1, (o_pose o).2) in
      if (get_overlap cv o).1 then
        '(o', _) ← run_overlap bg cv o false true lat;
        Some (Stop (place_object_in_bag cv o') o')
      else Some (Stop cv o)
    else if (get_overlap cv o).1 then
      '(o', lat', ol_ctr', osc) ← inner_loop 11 bg cv o lat ol_ctr prev_pose;
      if osc || lat' then Some (Stop cv o') else Some (Continue o' ol_ctr' drop_ctr)
    else Some (Continue o ol_ctr drop_ctr).

(** [while drop_ctr < 50: ...]. Each step increments [drop_ctr], so 50
    steps of fuel are enough ([drop_loop_fuel]). *)
Fixpoint drop_loop (fuel : nat) (bg : bag) (cv : canvas) (o : obj) (z_inc ol_ctr drop_ctr : Z)
    : option (canvas * obj) :=
  match fuel with
  | O => Some (cv, o)
  | Datatypes.S f =>
      if drop_ctr <? 50 then
        r ← drop_step bg cv o z_inc ol_ctr drop_ctr;
        match r with
        | Stop cv' o' => Some (cv', o')
        | Continue o' c' d' => drop_loop f bg cv o' z_inc c' d'
        end
      else Some (cv, o)
  end.

(** [run_shape_grammar_overlap_and_gravity(bag_obj, z_inc)]: the canvas
    after the final [_adjust_for_boundaries] and [place_object_in_bag], and
    the object as the caller's [bag_obj] holds it afterwards. *)
Definition run_gravity (bg : bag) (cv : canvas) (o : obj) (z_inc : Z) : option (canvas * obj) :=
  '(cv', o') ← drop_loop 50 bg cv o z_inc 0 0;
  let o'' := adjust_for_boundaries bg o' in
  Some (place_object_in_bag cv' o'', o'').

(** The descent as a state machine: a state is the object with [ol_ctr]
    and [drop_ctr], and a step is one pass of [while drop_ctr < 50] that
    does not [break]. *)
Inductive descends (bg : bag) (cv : canvas) (z_inc : Z)
    : nat -> obj -> Z -> Z -> obj -> Z -> Z -> Prop :=
  | descends_refl o c d : descends bg cv z_inc 0 o c d o c d
  | descends_step k o c d o1 c1 d1 o2 c2 d2 :
      d < 50 -> drop_step bg cv o z_inc c d = Some (Continue o1 c1 d1) ->
      descends bg cv z_inc k o1 c1 d1 o2 c2 d2 -> descends bg cv z_inc (Datatypes.S k) o c d o2 c2 d2.

End Gravity.

(** ** Example slices *)

(** A bag of size 20 with [bb_h = 5]: the container is rows and columns
    5..14, and the wall mask (label 1 on the canvas) covers the rest. *)
Definition walls_ex : grid :=
  fill_rect (fill_rect (fill_rect (fill_rect (zeros 20 20) 15 20 0 20 1) 0 5 0 20 1) 0 20 0 5 1)
            0 20 15 20 1.
Definition bag_wall : bag := mkBag 20 5 None.
(** A block of label 7 on the floor in columns 12..13. *)
Definition cv_wall : canvas := mkCanvas (fill_rect walls_ex 12 15 12 14 7) walls_ex.
Definition cv_empty : canvas := mkCanvas walls_ex walls_ex.
Definition obj_wall : obj := mkObj B 2 (fill_rect (zeros 3 3) 0 3 0 3 2) (3, 3) (2, 12) None None.
(** A sheet branch that never stops the descent. *)
Definition no_sheet : bag -> canvas -> obj -> Z -> option (option (canvas * obj)) := fun _ _ _ _ => None.

(** ** Lemmas *)

Section GravityLemmas.
Context {L : Labeller}.
Variable sheet_branch : bag -> canvas -> obj -> Z -> option (option (canvas * obj)).

Lemma set_pose_set_pose o p q : set_pose (set_pose o p) q = set_pose o q.
Proof. done. Qed.

Lemma drop_step_continue_ctr bg cv o z c d o' c' d' :
  drop_step sheet_branch bg cv o z c d = Some (Continue o' c' d') -> d' = d + 1.
Proof.
  unfold drop_step. case_decide.
  - destruct (sheet_branch _ _ _ _) as [[[? ?]|]|]; simpl; congruence.
  - destruct (_ <=? _).
    + destruct (get_overlap _ _).1; [destruct (run_overlap _ _ _ _ _ _) as [[? ?]|]|]; simpl; congruence.
    + destruct (get_overlap _ _).1; [|congruence].
      destruct (inner_loop _ _ _ _ _ _ _) as [[[[? ?] ?] ?]|]; simpl; [|done].
      destruct (_ || _); congruence.
Qed.

Lemma inner_loop_fuel_gen n m bg cv o lat c p :
  0 <= c <= 10 -> (Z.to_nat (11 - c) <= n)%nat -> (Z.to_nat (11 - c) <= m)%nat ->
  inner_loop n bg cv o lat c p = inner_loop m bg cv o lat c p.
Proof.
  revert m o lat c. induction n as [|n IH]; intros m o lat c Hc Hn Hm; [lia|].
  destruct m as [|m]; [lia|]. simpl.
  destruct (run_overlap bg cv o true true lat) as [[o' lat']|]; simpl; [|done].
  destruct (Z.ltb_spec 10 (c + 1)); [done|].
  destruct (get_overlap cv o').1; [apply IH; lia|done].
Qed.

Lemma inner_loop_ctr n bg cv o lat c p o' lat' c' osc :
  0 <= c <= 10 -> inner_loop n bg cv o lat c p = Some (o', lat', c', osc) -> 0 <= c' <= 10.
Proof.
  revert o lat c. induction n as [|n IH]; intros o lat c Hc; simpl; [congruence|].
  destruct (run_overlap bg cv o true true lat) as [[o1 lat1]|]; simpl; [|done].
  destruct (Z.ltb_spec 10 (c + 1)); [intros [= _ _ <- _]; lia|].
  destruct (get_overlap cv o1).1; [apply IH; lia|intros [= _ _ <- _]; lia].
Qed.

Lemma drop_loop_fuel_gen n m bg cv o z c d :
  0 <= d <= 50 -> (Z.to_nat (50 - d) <= n)%nat -> (Z.to_nat (50 - d) <= m)%nat ->
  drop_loop sheet_branch n bg cv o z c d = drop_loop sheet_branch m bg cv o z c d.
Proof.
  revert m o c d. induction n as [|n IH]; intros m o c d Hd Hn Hm.
  - destruct m as [|m]; [done|]. simpl. destruct (Z.ltb_spec d 50); [lia|done].
  - destruct m as [|m]; simpl; destruct (Z.ltb_spec d 50); try done; [lia|].
    destruct (drop_step sheet_branch bg cv o z c d) as [[o' c' d'|cv' o']|] eqn:E; simpl; try done.
    apply drop_step_continue_ctr in E. subst d'. apply IH; lia.
Qed.

(** No overlap is reported on a canvas without non-wall foreground. *)
Lemma get_overlap_empty cv o :
  wf_grid (ws cv) -> wf_grid (o_data o) -> 0 <= (o_pose o).1 -> 0 <= (o_pose o).2 ->
  (forall i j, (bag_data cv).[i, j] = 0) -> (get_overlap cv o).1 = false.
Proof.
  intros Hw Hd H0 H1 Hz. destruct (get_overlap cv o).1 eqn:E; [|done].
  apply get_overlap_spec in E as (i & j & _ & Hws & Hb); [|done..].
  specialize (Hz ((o_pose o).1 + i) ((o_pose o).2 + j)). rewrite get_bag_data, Hb in Hz.
  simpl in Hz. congruence.
Qed.

Lemma drop_loop_empty n bg cv o z c d :
  o_shape o <> S -> wf_grid (ws cv) -> wf_grid (o_data o) -> (forall i j, (bag_data cv).[i, j] = 0) ->
  0 <= (o_pose o).1 -> 0 <= (o_pose o).2 -> 0 < z -> (o_dim o).1 <= gravity_ground_y bg ->
  0 <= d < 50 -> gravity_ground_y bg - ((o_pose o).1 + (o_dim o).1) <= (50 - d) * z ->
  (Z.to_nat (50 - d) <= n)%nat ->
  drop_loop sheet_branch n bg cv o z c d =
  Some (cv, set_pose o (gravity_ground_y bg - (o_dim o).1, (o_pose o).2)).
Proof.
  revert o d. induction n as [|n IH]; intros o d Hs Hw Hd Hz H0 H1 Hzi Hdim Hdr Hreach Hn; [lia|].
  cbn [drop_loop]. destruct (Z.ltb_spec d 50); [|lia]. unfold drop_step. cbv zeta.
  rewrite decide_False by done. cbn [o_pose o_dim fst snd set_pose].
  destruct (Z.leb_spec (gravity_ground_y bg) ((o_pose o).1 + z + (o_dim o).1)).
  - rewrite get_overlap_empty by (done || (simpl; lia)). done.
  - rewrite get_overlap_empty by (done || (simpl; lia)). simpl.
    rewrite (IH (set_pose o ((o_pose o).1 + z, (o_pose o).2)) (d + 1)); simpl; try done; try lia.
    nia.
Qed.

Lemma set_pose_id o : set_pose o (o_pose o) = o.
Proof. by destruct o. Qed.

Lemma run_overlap_pose bg cv o rs cs lat o' lat' :
  run_overlap bg cv o rs cs lat = Some (o', lat') -> o' = set_pose o (o_pose o').
Proof.
  unfold run_overlap. destruct (get_overlap cv o) as [[] oi].
  - destruct (resolve_loop _ _ _ _ _ _); simpl; [|done]. by intros [= <- _].
  - intros [= <- _]. by rewrite set_pose_id.
Qed.

Lemma inner_loop_pose n bg cv o lat c p o' lat' c' osc :
  inner_loop n bg cv o lat c p = Some (o', lat', c', osc) -> o' = set_pose o (o_pose o').
Proof.
  revert o lat c. induction n as [|n IH]; intros o lat c; cbn [inner_loop].
  - intros [= <- _ _ _]. by rewrite set_pose_id.
  - destruct (run_overlap bg cv o true true lat) as [[o1 lat1]|] eqn:E; cbn [mbind option_bind]; [|done].
    apply run_overlap_pose in E. destruct (10 <? c + 1); [intros [= <- _ _ _]; done|].
    destruct (get_overlap cv o1).1; [|intros [= <- _ _ _]; done].
    intros H%IH. rewrite H, E. done.
Qed.

(** A step of the descent that does not [break] only moves the object and
    counts the drop. *)
Lemma drop_step_continue_pose bg cv o z c d o' c' d' :
  drop_step sheet_branch bg cv o z c d = Some (Continue o' c' d') ->
  o' = set_pose o (o_pose o') /\ d' = d + 1.
Proof.
  intros H. split; [|by eapply drop_step_continue_ctr].
  unfold drop_step in H. case_decide.
  - destruct (sheet_branch _ _ _ _) as [[[? ?]|]|]; simpl in H;
      first [discriminate | by injection H as <- _ _].
  - destruct (_ <=? _).
    + destruct (get_overlap _ _).1; [destruct (run_overlap _ _ _ _ _ _) as [[? ?]|]|]; simpl in H; discriminate.
    + destruct (get_overlap _ _).1; [|simpl in H; by injection H as <- _ _].
      destruct (inner_loop _ _ _ _ _ _ _) as [[[[o1 lat1] c1] osc]|] eqn:E; simpl in H; [|done].
      apply inner_loop_pose in E. destruct (osc || lat1); [done|]. injection H as <- _ _.
      rewrite E. done.
Qed.

(** The invariant of the state machine, by rule induction: along a
    descent the object keeps everything but its pose, and [drop_ctr] grows
    by one per step without passing 50. *)
Lemma descends_inv bg cv z k o c d o1 c1 d1 :
  descends sheet_branch bg cv z k o c d o1 c1 d1 ->
  o1 = set_pose o (o_pose o1) /\ d1 = d + Z.of_nat k /\ ((0 < k)%nat -> d1 <= 50).
Proof.
  induction 1 as [o c d|k o c d o1 c1 d1 o2 c2 d2 Hd Hs _ (IH1 & IH2 & IH3)].
  - split; [by rewrite set_pose_id|lia].
  - apply drop_step_continue_pose in Hs as [Ho1 ->]. split; [|destruct k; lia].
    rewrite IH1 at 1. rewrite Ho1. apply set_pose_set_pose.
Qed.

End GravityLemmas.

(** ** Properties *)

Section GravityClaims.
Context {L : Labeller}.
Variable sheet_branch : bag -> canvas -> obj -> Z -> option (option (canvas * obj)).

(** C25: the descent terminates. The outer loop stops after at most 50
    steps: any fuel of 50 or more gives the same result. The inner loop
    starts from the counter [ol_ctr = c], which is not reset between outer
    steps, and makes at most [11 - c] resolver calls. *)
Theorem gravity_fuel bg cv o z n lat c p :
  (50 <= n)%nat -> 0 <= c <= 10 ->
  drop_loop sheet_branch n bg cv o z c 0 = drop_loop sheet_branch 50 bg cv o z c 0 /\
  (forall m, (Z.to_nat (11 - c) <= m)%nat ->
   inner_loop m bg cv o lat c p = inner_loop (Z.to_nat (11 - c)) bg cv o lat c p).
Proof.
  intros Hn Hc. split.
  - apply drop_loop_fuel_gen; lia.
  - intros m Hm. apply inner_loop_fuel_gen; lia.
Qed.

(** C6: an object dropped into a container without other objects comes to
    rest on the floor. Its pose becomes [ground_y - dim[0]], so its lowest
    row is just above the floor row. It is then trimmed to the container
    and placed. This holds provided 50 drops of [z_inc] reach the floor
    and the object is not a sheet. *)
Theorem gravity_rests_on_floor bg cv o z :
  o_shape o <> S -> wf_grid (ws cv) -> wf_grid (o_data o) ->
  (forall i j, (bag_data cv).[i, j] = 0) ->
  0 <= (o_pose o).1 -> 0 <= (o_pose o).2 -> 0 < z -> (o_dim o).1 <= gravity_ground_y bg ->
  gravity_ground_y bg - ((o_pose o).1 + (o_dim o).1) <= 50 * z ->
  run_gravity sheet_branch bg cv o z =
  let o' := adjust_for_boundaries bg (set_pose o (gravity_ground_y bg - (o_dim o).1, (o_pose o).2)) in
  Some (place_object_in_bag cv o', o').
Proof.
  intros. unfold run_gravity. rewrite drop_loop_empty; try done; lia.
Qed.

(** C3: the floor case with an overlap places the object twice. It is
    clamped to the floor and settled by a column-only resolver call, then
    placed untrimmed ([#TODO: remove]). After the loop it is trimmed by
    [_adjust_for_boundaries] and placed again. Pixels of the first
    placement that the trim removes stay on the canvas. *)
Theorem gravity_floor_overlap bg cv o z o1 lat1 :
  o_shape o <> S ->
  gravity_ground_y bg <= (o_pose o).1 + z + (o_dim o).1 ->
  (get_overlap cv (set_pose o (gravity_ground_y bg - (o_dim o).1, (o_pose o).2))).1 = true ->
  run_overlap bg cv (set_pose o (gravity_ground_y bg - (o_dim o).1, (o_pose o).2)) false true false =
    Some (o1, lat1) ->
  run_gravity sheet_branch bg cv o z =
  Some (place_object_in_bag (place_object_in_bag cv o1) (adjust_for_boundaries bg o1),
        adjust_for_boundaries bg o1).
Proof.
  intros Hs Hg Hov Hr. unfold run_gravity. cbn [drop_loop]. unfold drop_step. cbv zeta.
  rewrite decide_False by done. cbn [o_pose o_dim fst snd set_pose].
  destruct (Z.leb_spec (gravity_ground_y bg) ((o_pose o).1 + z + (o_dim o).1)); [|lia].
  change (set_pose (set_pose o ((o_pose o).1 + z, (o_pose o).2))
            (gravity_ground_y bg - (o_dim o).1, (o_pose o).2))
    with (set_pose o (gravity_ground_y bg - (o_dim o).1, (o_pose o).2)).
  rewrite Hov, Hr. done.
Qed.

(** C13: Refinement: every run of the executable descent is [k] steps of
    the state machine [descends] followed by its exit, where every step
    adds exactly one to [drop_ctr] ([d1 = d + k]) and the run takes at most
    the fuel. The exit is the fuel running out or [drop_ctr] reaching 50,
    with the canvas untouched, or a [break] step taken with
    [drop_ctr < 50]. Along the run the object keeps everything but its
    pose. *)
Theorem drop_loop_refines n bg cv o z c d cv' o' :
  drop_loop sheet_branch n bg cv o z c d = Some (cv', o') ->
  exists k o1 c1 d1, descends sheet_branch bg cv z k o c d o1 c1 d1 /\ (k <= n)%nat /\
    o1 = set_pose o (o_pose o1) /\ d1 = d + Z.of_nat k /\
    (((cv', o') = (cv, o1) /\ (k = n \/ 50 <= d1)) \/
     ((k < n)%nat /\ d1 < 50 /\ drop_step sheet_branch bg cv o1 z c1 d1 = Some (Stop cv' o'))).
Proof.
  intros H. enough (exists k o1 c1 d1, descends sheet_branch bg cv z k o c d o1 c1 d1 /\ (k <= n)%nat /\
    (((cv', o') = (cv, o1) /\ (k = n \/ 50 <= d1)) \/
     ((k < n)%nat /\ d1 < 50 /\ drop_step sheet_branch bg cv o1 z c1 d1 = Some (Stop cv' o'))))
    as (k & o1 & c1 & d1 & Hdesc & Hk & Hexit).
  { exists k, o1, c1, d1. destruct (descends_inv sheet_branch bg cv z k o c d o1 c1 d1 Hdesc) as (? & ? & _).
    auto. }
  revert o c d H. induction n as [|n IH]; intros o c d H; cbn [drop_loop] in H.
  - injection H as <- <-. exists 0%nat, o, c, d. split; [constructor|]. split; [lia|left; split; [done|by left]].
  - destruct (Z.ltb_spec d 50) as [Hd|Hd];
      [|injection H as <- <-; exists 0%nat, o, c, d; split; [constructor|split; [lia|left; split; [done|right; lia]]]].
    destruct (drop_step sheet_branch bg cv o z c d) as [[o1 c1 d1|cv1 o1]|] eqn:E; cbn [mbind option_bind] in H;
      [|injection H as <- <-; exists 0%nat, o, c, d; split; [constructor|split; [lia|right; split; [lia|done]]]|done].
    destruct (IH _ _ _ H) as (k & o2 & c2 & d2 & Hdesc & Hk & Hexit).
    exists (Datatypes.S k), o2, c2, d2. split; [by eapply descends_step|]. split; [lia|].
    destruct Hexit as [[? [->|?]]|(? & ? & ?)]; [left; split; [done|by left]|left; split; [done|by right]|].
    right. split; [lia|done].
Qed.

End GravityClaims.

(** ** Witnesses *)

Lemma gravity_fuel_witness :
  drop_loop no_sheet 60 bag_wall cv_wall obj_wall 50 0 0 = drop_loop no_sheet 50 bag_wall cv_wall obj_wall 50 0 0.
Proof.
  destruct (gravity_fuel (L := merge_labeller) no_sheet bag_wall cv_wall obj_wall 50 60 false 0 (0, 0))
    as [H _]; [lia|lia|exact H].
Defined.

(** In the empty container the object falls from row 2 to row 12: its
    rows 12..14 lie on the floor row 15. *)
Lemma gravity_rests_on_floor_witness :
  run_gravity (L := merge_labeller) no_sheet bag_wall cv_empty obj_wall 50 =
  Some (place_object_in_bag cv_empty (adjust_for_boundaries bag_wall (set_pose obj_wall (12, 12))),
        adjust_for_boundaries bag_wall (set_pose obj_wall (12, 12))).
Proof.
  rewrite (gravity_rests_on_floor no_sheet bag_wall cv_empty obj_wall 50).
  1: reflexivity.
  1: discriminate.
  1, 2: split; vm_compute; congruence.
  1: intros i j; rewrite get_bag_data; unfold cv_empty; cbn [bnd ws]; by destruct (Z.eqb_spec (walls_ex.[i, j]) 0).
  all: vm_compute; congruence.
Defined.

(** The object lands on the floor against the block in columns 12..13.
    The column-only settle moves it to columns 14..16, and it is placed
    there. The trim keeps only column 14. The final canvas still holds the
    object's label at (13, 16), a wall cell beyond the container's upper
    column bound 15. *)
Lemma gravity_floor_overlap_witness :
  exists cv' o', run_gravity (L := merge_labeller) no_sheet bag_wall cv_wall obj_wall 50 = Some (cv', o') /\
    (ws cv').[13, 16] = 2 /\ (bnd cv_wall).[13, 16] = 1 /\ (upper_bound bag_wall).2 <= 16.
Proof.
  do 2 eexists. split.
  - apply (gravity_floor_overlap no_sheet bag_wall cv_wall obj_wall 50
             (set_pose obj_wall (12, 14)) false);
      [discriminate|vm_compute; congruence|vm_compute; reflexivity|vm_compute; reflexivity].
  - vm_compute. repeat split; congruence.
Defined.

Lemma drop_loop_refines_witness :
  exists cv' o', drop_loop (L := merge_labeller) no_sheet 50 bag_wall cv_empty obj_wall 5 0 0 = Some (cv', o') /\
  exists k o1 c1 d1, descends (L := merge_labeller) no_sheet bag_wall cv_empty 5 k obj_wall 0 0 o1 c1 d1 /\
    o1 = set_pose obj_wall (o_pose o1) /\ d1 = Z.of_nat k.
Proof.
  destruct (Some_of_check (drop_loop (L := merge_labeller) no_sheet 50 bag_wall cv_empty obj_wall 5 0 0)
              ltac:(vm_compute; reflexivity)) as [[cv' o'] E].
  exists cv', o'. split; [exact E|].
  destruct (drop_loop_refines no_sheet 50 bag_wall cv_empty obj_wall 5 0 0 cv' o' E)
    as (k & o1 & c1 & d1 & Hd & _ & Hp & Hle & _).
  exists k, o1, c1, d1. split; [exact Hd|]. split; [exact Hp|exact Hle].
Defined.
