(* ===== verification/Liquid.v ===== *)
(** * The liquid container rule ([Object2D.apply_liquid_container_rule])

    The container's mask is eroded by a disk of radius [cntr_thickness].
    skimage's [binary_erosion] treats cells outside the image as
    foreground ([border_value=True]). The eroded cells are marked void
    ([-1]). Those from row [e_fill] down get the liquid label, where
    [e_fill = int((1 - lqd_level) * (e_row.max() - e_row.min()))] is
    counted from row 0 of the mask. Any exception leaves the data
    unchanged ([except: pass]). The level is an exact rational; the
    rounding of the Python float product is not modelled. *)

From Stdlib Require Import ZArith QArith Lia.
From stdpp Require Import base list numbers.
From S2P Require Import Prelude Grid Raster.
Open Scope Z_scope.

(** [int(x)] of a Python number: truncation towards zero. *)
Definition py_int (q : Q) : Z := Z.quot (Qnum q) (Zpos (Qden q)).

(** [disk(radius)]: the offsets [(dy, dx)] in [[-r, r]^2] with
    [dy^2 + dx^2 <= r^2]. *)
Definition disk_offsets (r : Z) : list (Z * Z) :=
  seqZ (- r) (2 * r + 1) ≫= fun dy =>
    (fun dx => (dy, dx)) <$> filter (fun dx => dy * dy + dx * dx <= r * r) (seqZ (- r) (2 * r + 1)).

(** [binary_erosion(img, selem=disk(r))] with [border_value=True]: a cell
    stays when every cell of the disk around it is foreground or lies
    outside the image. *)
Definition erode (g : grid) (r : Z) : grid :=
  mkGrid (rows g) (cols g) (fun i j =>
    if forallb (fun '(dy, dx) =>
                  if inb g (i + dy) (j + dx) then negb (g.[i + dy, j + dx] =? 0) else true)
               (disk_offsets r)
    then 1 else 0).

(** [bin_data = self.data.copy() // self.label]: numpy's floor division
    of an integer array, which gives 0 for a zero divisor (with a
    [RuntimeWarning], not an exception), as [Z.div] does. *)
Definition bin_data (d : grid) (label : Z) : grid :=
  mkGrid (rows d) (cols d) (fun i j => d.[i, j] / label).

(** [e_row.min()] and [e_row.max()] ([ValueError] on an empty cavity). *)
Definition row_extent (g : grid) : option (Z * Z) :=
  rmin ← list_min (fst <$> nz_cells g); rmax ← list_max (fst <$> nz_cells g); Some (rmin, rmax).

(** [e_fill = int((1 - self.lqd_level) * (e_row.max() - e_row.min()))] *)
Definition e_fill_of (level : Q) (rmin rmax : Z) : Z :=
  py_int ((1 - level) * inject_Z (rmax - rmin)).

(** The body of the [try] block: the new [self.data], or [None] for an
    exception. *)
Definition liquid_data (d : grid) (label : Z) (lp : lqd_param) : option grid :=
  let er := erode (bin_data d label) (cntr_thickness lp) in
  '(rmin, rmax) ← row_extent er;
  let e_fill := e_fill_of (lqd_level lp) rmin rmax in
  let fill := fill_rect er 0 e_fill 0 (cols er) 0 in
  Some (mkGrid (rows d) (cols d) (fun i j =>
          if fill.[i, j] =? 0 then (if er.[i, j] =? 0 then d.[i, j] else -1) else lqd_label lp)).

(** [apply_liquid_container_rule]: [except: pass] keeps the data. Without
    liquid parameters the attribute reads raise, which is caught too. *)
Definition apply_liquid_container_rule (o : obj) : obj :=
  match o_lqd o with
  | Some lp =>
      match liquid_data (o_data o) (o_label o) lp with
      | Some d' => mkObj (o_shape o) (o_label o) d' (o_dim o) (o_pose o) (o_lqd o) (o_sheet o)
      | None => o
      end
  | None => o
  end.

(** A container mask as [create_rectanguloid] returns it when the buffer
    does not clip: an [h x w] block of the label, with the crop's extra
    background row and column. *)
Definition rect_mask (h w label : Z) : grid := fill_rect (zeros (h + 1) (w + 1)) 0 h 0 w label.

(** The eroded mask of [bin_data]. *)
Definition cavity (d : grid) (label r : Z) : grid := erode (bin_data d label) r.

(** ** Erosion *)

Lemma elem_of_disk_offsets r dy dx :
  (dy, dx) ∈ disk_offsets r <-> -r <= dy <= r /\ -r <= dx <= r /\ dy * dy + dx * dx <= r * r.
Proof.
  unfold disk_offsets. rewrite list_elem_of_bind. split.
  - intros (dy' & Hin & Hdy). apply list_elem_of_fmap in Hin as (dx' & [= -> ->] & Hdx).
    apply list_elem_of_filter in Hdx as [Hr Hdx]. apply elem_of_seqZ in Hdx, Hdy. lia.
  - intros (Hdy & Hdx & Hr). exists dy. split; [|apply elem_of_seqZ; lia].
    apply list_elem_of_fmap. exists dx. split; [done|].
    apply list_elem_of_filter. split; [done|]. apply elem_of_seqZ. lia.
Qed.

(** A cell survives the erosion exactly when it lies in the image and every
    cell of the disk around it that lies in the image is foreground. *)
Lemma erode_nz g r i j :
  (erode g r).[i, j] <> 0 <->
  (0 <= i < rows g /\ 0 <= j < cols g) /\
  forall dy dx, (dy, dx) ∈ disk_offsets r ->
    0 <= i + dy < rows g -> 0 <= j + dx < cols g -> g.[i + dy, j + dx] <> 0.
Proof.
  unfold get at 1. unfold erode. unfold inb at 1. cbn [rows cols cell].
  case_bool_decide as Hb; [|split; [done|intros [? _]; done]].
  match goal with |- context [forallb ?f ?l] => destruct (forallb f l) eqn:E end.
  - split; [intros _; split; [done|]|done]. intros dy dx Hin Hi Hj.
    rewrite forallb_forall in E. specialize (E (dy, dx) (proj1 (list_elem_of_In _ _) Hin)).
    simpl in E. unfold inb in E. rewrite bool_decide_true in E by lia.
    by apply negb_true_iff, Z.eqb_neq in E.
  - split; [done|]. intros [_ Hall]. exfalso. apply not_true_iff_false in E. apply E.
    apply forallb_forall. intros [dy dx] Hin. apply list_elem_of_In in Hin.
    unfold inb. case_bool_decide; [|done]. apply negb_true_iff, Z.eqb_neq. apply Hall; [done|lia..].
Qed.

Lemma e_fill_of_one level rmin rmax : (level == 1)%Q -> e_fill_of level rmin rmax = 0.
Proof.
  destruct level as [n d]. unfold Qeq, e_fill_of, py_int. simpl. intros H.
  match goal with |- Z.quot ?a _ = 0 => replace a with 0 by nia end. done.
Qed.

Lemma e_fill_of_nonneg level rmin rmax : (level <= 1)%Q -> rmin <= rmax -> 0 <= e_fill_of level rmin rmax.
Proof.
  destruct level as [n d]. unfold Qle, e_fill_of, py_int. simpl. intros Hl Hr.
  apply Z.quot_pos; nia.
Qed.

Lemma row_extent_spec g rmin rmax :
  row_extent g = Some (rmin, rmax) -> forall i j, g.[i, j] <> 0 -> rmin <= i <= rmax.
Proof.
  unfold row_extent. destruct (list_min _) as [a|] eqn:Ha; simpl; [|done].
  destruct (list_max _) as [b|] eqn:Hb; simpl; [|done]. intros [= <- <-] i j Hij.
  apply list_min_spec in Ha as [_ Ha]. apply list_max_spec in Hb as [_ Hb].
  rewrite Forall_forall in Ha, Hb.
  assert (Hi : In i (fst <$> nz_cells g)).
  { apply list_elem_of_In, list_elem_of_fmap. exists (i, j). split; [done|].
    by apply elem_of_nz_cells_get. }
  specialize (Ha i Hi). specialize (Hb i Hi). lia.
Qed.

Lemma row_extent_None g : row_extent g = None <-> any_nz g = false.
Proof.
  unfold row_extent, any_nz. destruct (nz_cells g) as [|p l]; simpl; [done|].
  split; [done|congruence].
Qed.

Lemma rows_cavity d label r : rows (cavity d label r) = rows d.
Proof. done. Qed.

Lemma cols_cavity d label r : cols (cavity d label r) = cols d.
Proof. done. Qed.

Lemma cavity_out d label r i j :
  ~ (0 <= i < rows d /\ 0 <= j < cols d) -> (cavity d label r).[i, j] = 0.
Proof. intros H. by apply get_out. Qed.

(** The rule, cell by cell, when the cavity is not empty and the fill line
    [e_fill] is not negative: cavity cells above row [e_fill] become [-1],
    cavity cells from row [e_fill] on get the liquid label, and every other
    cell keeps its value. *)
Lemma liquid_data_cells d label lp rmin rmax :
  label <> 0 -> row_extent (cavity d label (cntr_thickness lp)) = Some (rmin, rmax) ->
  0 <= e_fill_of (lqd_level lp) rmin rmax ->
  exists d', liquid_data d label lp = Some d' /\ rows d' = rows d /\ cols d' = cols d /\
  forall i j, d'.[i, j] =
    if (cavity d label (cntr_thickness lp)).[i, j] =? 0 then d.[i, j]
    else if i <? e_fill_of (lqd_level lp) rmin rmax then -1 else lqd_label lp.
Proof.
  intros Hl Hext He. unfold liquid_data.
  fold (cavity d label (cntr_thickness lp)). rewrite Hext. simpl.
  eexists. split; [reflexivity|]. do 2 (split; [done|]). intros i j.
  rewrite get_on. destruct (inb d i j) eqn:Hb.
  - unfold inb in Hb. apply bool_decide_eq_true in Hb.
    rewrite get_fill_rect. unfold inb. rewrite bool_decide_true by (simpl; lia).
    rewrite py_slice_prefix, py_slice_all by (simpl; lia). cbn [fst snd].
    fold (cavity d label (cntr_thickness lp)). rewrite rows_cavity, cols_cavity.
    set (c := (cavity d label (cntr_thickness lp)).[i, j]).
    case_bool_decide; destruct (Z.ltb_spec i (e_fill_of (lqd_level lp) rmin rmax)); try lia;
      destruct (Z.eqb_spec c 0); simpl; done.
  - unfold inb in Hb. apply bool_decide_eq_false in Hb.
    rewrite cavity_out by done. simpl. symmetry. by apply get_out.
Qed.

(** ** The rectangular container *)

Lemma rect_mask_bin h w label a b :
  0 < label -> 0 <= h -> 0 <= w ->
  (mkGrid (rows (rect_mask h w label)) (cols (rect_mask h w label))
     (fun i j => (rect_mask h w label).[i, j] / label)).[a, b] <> 0 <->
  0 <= a < h /\ 0 <= b < w.
Proof.
  intros Hl Hh Hw. rewrite get_on. unfold inb. cbn [rect_mask fill_rect rows cols zeros].
  case_bool_decide as Hb.
  - unfold rect_mask. rewrite get_fill_zeros, !py_slice_prefix by lia. cbn [fst snd].
    case_bool_decide.
    + rewrite Z.div_same by lia. lia.
    + rewrite Zdiv_0_l. lia.
  - lia.
Qed.

Lemma cavity_rect h w label r i j :
  0 < label -> 0 <= r -> 0 <= h -> 0 <= w ->
  (cavity (rect_mask h w label) label r).[i, j] <> 0 <-> 0 <= i < h - r /\ 0 <= j < w - r.
Proof.
  intros Hl Hr Hh Hw. unfold cavity, bin_data. rewrite erode_nz. cbn [rect_mask fill_rect rows cols zeros].
  split.
  - intros [Hin Hall]. simpl in Hin. split.
    + destruct (Z.lt_ge_cases i (h - r)); [lia|exfalso].
      specialize (Hall (h - i) 0 ltac:(apply elem_of_disk_offsets; nia) ltac:(simpl; lia) ltac:(simpl; lia)).
      apply rect_mask_bin in Hall; lia.
    + destruct (Z.lt_ge_cases j (w - r)); [lia|exfalso].
      specialize (Hall 0 (w - j) ltac:(apply elem_of_disk_offsets; nia) ltac:(simpl; lia) ltac:(simpl; lia)).
      apply rect_mask_bin in Hall; lia.
  - intros [Hi Hj]. split; [lia|]. intros dy dx Hin%elem_of_disk_offsets Hdy Hdx.
    apply rect_mask_bin; lia.
Qed.

Lemma in_fst_nz_cells g i : In i (fst <$> nz_cells g) <-> exists j, g.[i, j] <> 0.
Proof.
  rewrite <- list_elem_of_In, list_elem_of_fmap. split.
  - intros ([i' j] & -> & Hp). exists j. by apply (elem_of_nz_cells_get g (i', j)).
  - intros (j & Hj). exists (i, j). split; [done|]. by apply (elem_of_nz_cells_get g (i, j)).
Qed.

Lemma row_extent_rect h w label r :
  0 < label -> 0 <= r < h -> r < w ->
  row_extent (cavity (rect_mask h w label) label r) = Some (0, h - r - 1).
Proof.
  intros Hl Hr Hw. unfold row_extent.
  set (g := cavity (rect_mask h w label) label r).
  assert (Hmin : list_min (fst <$> nz_cells g) = Some 0).
  { apply list_min_spec. split.
    - apply in_fst_nz_cells. exists 0. apply cavity_rect; lia.
    - apply Forall_forall. intros i (j & Hj)%in_fst_nz_cells. apply cavity_rect in Hj; lia. }
  assert (Hmax : list_max (fst <$> nz_cells g) = Some (h - r - 1)).
  { apply list_max_spec. split.
    - apply in_fst_nz_cells. exists 0. apply cavity_rect; lia.
    - apply Forall_forall. intros i (j & Hj)%in_fst_nz_cells. apply cavity_rect in Hj; lia. }
  by rewrite Hmin, Hmax.
Qed.

(** ** Properties *)

(** C26: the liquid rule on a rectangular container ([rect_mask], an
    [h x w] block with the crop's background row and column). The cavity
    is the first [h - r] rows and [w - r] columns of the block. The
    erosion treats cells outside the image as foreground, so the wall is
    removed only along the bottom and the right, next to the background
    row and column; the top and left sides of the container keep no wall.
    Cavity rows above [e_fill], counted from row 0, become [-1]; the
    others get the liquid label. *)
Theorem liquid_rect_cavity h w label lp :
  0 < label -> 0 <= cntr_thickness lp < h -> cntr_thickness lp < w -> (lqd_level lp <= 1)%Q ->
  let r := cntr_thickness lp in
  let e := e_fill_of (lqd_level lp) 0 (h - r - 1) in
  exists d', liquid_data (rect_mask h w label) label lp = Some d' /\
  forall i j, d'.[i, j] =
    if bool_decide (0 <= i < h - r /\ 0 <= j < w - r) then (if i <? e then -1 else lqd_label lp)
    else (rect_mask h w label).[i, j].
Proof.
  intros Hl Hr Hw Hlev r e.
  destruct (liquid_data_cells (rect_mask h w label) label lp 0 (h - r - 1))
    as (d' & Hd & _ & _ & Hcell); [lia|by apply row_extent_rect; lia|apply e_fill_of_nonneg; [done|lia]|].
  exists d'. split; [done|]. intros i j. rewrite Hcell. fold r e.
  case_bool_decide as Hb.
  - destruct (Z.eqb_spec ((cavity (rect_mask h w label) label r).[i, j]) 0) as [E|E]; [|done].
    exfalso. revert E. apply cavity_rect; lia.
  - destruct (Z.eqb_spec ((cavity (rect_mask h w label) label r).[i, j]) 0) as [E|E]; [done|].
    exfalso. apply cavity_rect in E; lia.
Qed.

(** at level 1 the whole cavity becomes liquid, and every other cell
    keeps its value. *)
Theorem liquid_level_one d label lp rmin rmax :
  label <> 0 -> (lqd_level lp == 1)%Q ->
  row_extent (cavity d label (cntr_thickness lp)) = Some (rmin, rmax) ->
  exists d', liquid_data d label lp = Some d' /\
  forall i j, d'.[i, j] =
    if (cavity d label (cntr_thickness lp)).[i, j] =? 0 then d.[i, j] else lqd_label lp.
Proof.
  intros Hl Hlev Hext.
  destruct (liquid_data_cells d label lp rmin rmax) as (d' & Hd & _ & _ & Hcell);
    [done|done|rewrite e_fill_of_one by done; lia|].
  exists d'. split; [done|]. intros i j. rewrite Hcell, e_fill_of_one by done.
  destruct (Z.eqb_spec ((cavity d label (cntr_thickness lp)).[i, j]) 0) as [|E]; [done|].
  apply get_nz_inb in E. destruct (Z.ltb_spec i 0); [lia|done].
Qed.

(** With label 0, [bin_data] is all zeros, so a disk of radius at least
    0 erodes every cell. *)
Lemma cavity_label0 d r : 0 <= r -> any_nz (cavity d 0 r) = false.
Proof.
  intros Hr. apply any_nz_false. intros i j. unfold cavity, erode, get at 1.
  destruct (inb _ i j) eqn:Hb; [|done]. cbn [cell].
  destruct (forallb _ _) eqn:E; [|done]. exfalso.
  apply forallb_forall with (x := (0, 0)) in E; [|apply list_elem_of_In, elem_of_disk_offsets; lia].
  rewrite !Z.add_0_r in E. unfold bin_data, get, inb in E. cbn [rows cols cell] in E.
  unfold inb, bin_data in Hb. cbn [rows cols] in Hb. rewrite Hb, Z.div_0_r in E. discriminate.
Qed.

(** the best-effort fallback. When the eroded cavity is empty
    ([e_row.max()] raises [ValueError]), the container keeps its data.
    With label 0 ([//] gives zeros) and a radius at least 0 the cavity is
    empty. *)
Theorem liquid_fallback o lp :
  o_lqd o = Some lp ->
  ((o_label o = 0 /\ 0 <= cntr_thickness lp) \/ any_nz (cavity (o_data o) (o_label o) (cntr_thickness lp)) = false) ->
  apply_liquid_container_rule o = o.
Proof.
  intros Hlq Hcase. unfold apply_liquid_container_rule. rewrite Hlq.
  assert (Hempty : any_nz (cavity (o_data o) (o_label o) (cntr_thickness lp)) = false)
    by (destruct Hcase as [[-> ?]|?]; [by apply cavity_label0|done]).
  unfold liquid_data. fold (cavity (o_data o) (o_label o) (cntr_thickness lp)).
  apply row_extent_None in Hempty. by rewrite Hempty.
Qed.

(** ** Witnesses *)

(** A 7 x 5 block of label 5 with wall thickness 1 and level 1/2: the
    cavity is rows 0..5 and columns 0..3, and its top-left cell (0, 0)
    becomes void. *)
Lemma liquid_rect_cavity_witness :
  exists d', liquid_data (rect_mask 7 5 5) 5 (mkLqd 1 (1 # 2) 9) = Some d' /\ d'.[0, 0] = -1 /\ d'.[5, 0] = 9.
Proof.
  destruct (liquid_rect_cavity 7 5 5 (mkLqd 1 (1 # 2) 9)) as (d' & Hd & Hc);
    [lia|simpl; lia|simpl; lia|vm_compute; discriminate|].
  exists d'. split; [done|]. rewrite !Hc. vm_compute. split; reflexivity.
Defined.

Lemma liquid_level_one_witness :
  exists d', liquid_data (rect_mask 7 5 5) 5 (mkLqd 1 1 9) = Some d' /\ d'.[0, 0] = 9.
Proof.
  destruct (liquid_level_one (rect_mask 7 5 5) 5 (mkLqd 1 1 9) 0 5) as (d' & Hd & Hc);
    [lia|reflexivity|vm_compute; reflexivity|].
  exists d'. split; [done|]. rewrite Hc. vm_compute. reflexivity.
Defined.

(** A wall thickness of 3 empties the cavity of a 3 x 3 box. *)
Lemma liquid_fallback_witness :
  apply_liquid_container_rule (mkObj B 5 (rect_mask 3 3 5) (4, 4) (0, 0) (Some (mkLqd 3 (1 # 2) 9)) None) =
  mkObj B 5 (rect_mask 3 3 5) (4, 4) (0, 0) (Some (mkLqd 3 (1 # 2) 9)) None.
Proof.
  apply (liquid_fallback _ (mkLqd 3 (1 # 2) 9)); [reflexivity|right; vm_compute; reflexivity].
Defined.
