(* ===== verification/Sheet.v ===== *)
(** * Deformable sheets ([run_midpoint_recursion], [generate_sheet_curve],
      [inflate_sheet] and the sheet branch of the gravity rule)

    A sheet is a thick curve. While it falls, only its two end points
    ([curve_pts], in object coordinates) are tested. When it stops, the
    segment between them is bent: [run_midpoint_recursion] splits every
    segment whose pixels ([skimage.draw.line]) touch the canvas at its
    midpoint, moved to the nearest free row of its column. The pieces are
    drawn into a mask cut to their bounding box. [inflate_sheet] then
    dilates that mask with a disk and removes the cells that overlap the
    canvas.

    Python exceptions are values of [result]: numpy's [IndexError], the
    [ValueError] of [argmin] on an empty array, the [AttributeError] of an
    object without [curve_pts], the [NameError] of an unbound [COLL_FLAG],
    the [RecursionError] of a recursion deeper than its fuel, and the
    [KeyError] of a missing dictionary key (raised in [Export]). *)

From Stdlib Require Import ZArith Lia.
From stdpp Require Import base list numbers sets.
From S2P Require Import Prelude Result Grid Raster Canvas Components Overlap Gravity Liquid.
Open Scope Z_scope.

(** ** numpy indexing *)

(** An integer index into an axis of length [n]: negative indices count
    from the end, anything else out of range is an [IndexError]. *)
Definition np_idx (i n : Z) : result Z :=
  if (- n <=? i) && (i <? n) then Ok (if i <? 0 then i + n else i) else Err IndexError.

(** [a[r, c]] *)
Definition np_get (g : grid) (p : Z * Z) : result Z :=
  i ← np_idx p.1 (rows g); j ← np_idx p.2 (cols g); Ok g.[i, j].

(** [a[r, c] = v] *)
Definition np_set (g : grid) (p : Z * Z) (v : Z) : result grid :=
  i ← np_idx p.1 (rows g); j ← np_idx p.2 (cols g);
  Ok (mkGrid (rows g) (cols g) (fun a b => if (a =? i) && (b =? j) then v else g.[a, b])).

(** [a[rr, cc] = v] for the index arrays of a point list. *)
Definition np_set_all (g : grid) (pts : list (Z * Z)) (v : Z) : result grid :=
  foldl (fun acc p => g' ← acc; np_set g' p v) (Ok g) pts.

(** ** [skimage.draw.line] *)

(** The inner [while d >= 0: r += sr; d -= 2*dc], in closed form: it runs
    [d / (2*dc) + 1] times when [d >= 0]. *)
Definition line_inner (r d sr dc : Z) : Z * Z :=
  if 0 <=? d then let k := d / (2 * dc) + 1 in (r + k * sr, d - k * (2 * dc)) else (r, d).

(** [for i in range(dc)]: record the point, step the minor axis, then
    [c += sc; d += 2*dr]. A steep line records [(c, r)]. *)
Fixpoint line_loop (n : nat) (steep : bool) (r c sr sc dr dc d : Z) : list (Z * Z) :=
  match n with
  | O => []
  | Datatypes.S n' =>
      (if steep then (c, r) else (r, c)) ::
      let '(r', d') := line_inner r d sr dc in
      line_loop n' steep r' (c + sc) sr sc dr dc (d' + 2 * dr)
  end.

(** [line(r0, c0, r1, c1)] of [skimage.draw] (Bresenham): the swap of the
    axes for a steep line, the loop, and [rr[dc] = r1; cc[dc] = c1]. *)
Definition line (r0 c0 r1 c1 : Z) : list (Z * Z) :=
  let sc := if 0 <? c1 - c0 then 1 else -1 in
  let sr := if 0 <? r1 - r0 then 1 else -1 in
  let dr := Z.abs (r1 - r0) in
  let dc := Z.abs (c1 - c0) in
  if dc <? dr
  then line_loop (Z.to_nat dr) true c0 r0 sc sr dc dr (2 * dc - dr) ++ [(r1, c1)]
  else line_loop (Z.to_nat dc) false r0 c0 sr sc dr dc (2 * dr - dc) ++ [(r1, c1)].

Definition seg_line (s : (Z * Z) * (Z * Z)) : list (Z * Z) :=
  line s.1.1 s.1.2 s.2.1 s.2.2.

(** ** The midpoint recursion *)

(** [np.where(ws[:, c] == 0)[0]]: the free rows of column [j]. *)
Definition free_rows (g : grid) (j : Z) : list Z :=
  filter (fun i => g.[i, j] = 0) (seqZ 0 (rows g)).

(** [row_ind[argmin(abs(row_ind - r))]] over the free rows of column [c]:
    the free row nearest to [r], the upper one on a tie. The column index
    raises like any numpy index, and [argmin] of an empty column raises
    [ValueError]. *)
Definition nearest_free (g : grid) (c r : Z) : result Z :=
  j ← np_idx c (cols g);
  match free_rows g j with
  | [] => Err ValueError
  | fr => of_option IndexError (fr !! argmin ((fun i => Z.abs (i - r)) <$> fr))
  end.

(** [np.average(pts, axis=0).astype(int)] of two integer points, per
    coordinate: the float mean truncated towards zero. *)
Definition trunc_avg (a b : Z) : Z := Z.quot (a + b) 2.

(** [np.any(ws[line_pts])] *)
Definition line_overlap (g : grid) (p q : Z * Z) : result bool :=
  vals ← mapM (np_get g) (line p.1 p.2 q.1 q.2);
  Ok (existsb (fun v => negb (v =? 0)) vals).

Definition seg : Type := (Z * Z) * (Z * Z).

(** [run_midpoint_recursion(simplex_pts)] for the simplex [(p, q)]. The
    result is the list of segments that [dstack] stacks, in order; the
    second half is [(q, mid)], as [pt_set_2] is. Each call consumes one unit
    of [fuel], the interpreter's recursion depth. *)
Fixpoint midpoint_rec (fuel : nat) (g : grid) (p q : Z * Z) : result (list seg) :=
  match fuel with
  | O => Err RecursionError
  | Datatypes.S f =>
      ov ← line_overlap g p q;
      if (ov : bool) then
        let mc := trunc_avg p.2 q.2 in
        r ← nearest_free g mc (trunc_avg p.1 q.1);
        let m := (r, mc) in
        if bool_decide (m = p) || bool_decide (m = q) then Ok [(p, q)]
        else l1 ← midpoint_rec f g p m; l2 ← midpoint_rec f g q m; Ok (l1 ++ l2)
      else Ok [(p, q)]
  end.

(** ** [generate_sheet_curve] *)

(** [np.clip(x, lo, hi)] *)
Definition np_clip (x lo hi : Z) : Z := Z.min (Z.max x lo) hi.

(** One pass of the end point loop: an occupied end point moves to the
    nearest free row of its column. *)
Definition relocate (g : grid) (p : Z * Z) : result (Z * Z) :=
  v ← np_get g p;
  if 0 <? v then r ← nearest_free g p.2 p.1; Ok (r, p.2) else Ok p.

(** The end points of the curve in canvas coordinates,
    [np.clip(curve_pts + pose, 0, 2*bb_h - 1)]. *)
Definition sheet_ends (bg : bag) (pose : Z * Z) (cp : (Z * Z) * (Z * Z)) : (Z * Z) * (Z * Z) :=
  let hi := 2 * bb_h bg - 1 in
  let glob (x : Z * Z) := (np_clip (x.1 + pose.1) 0 hi, np_clip (x.2 + pose.2) 0 hi) in
  (glob cp.1, glob cp.2).

(** The curve in canvas coordinates: the relocated end points, their
    midpoint, and the two recursions [fin_curve_pts_1], [fin_curve_pts_2]
    stacked. *)
Definition sheet_curve (fuel : nat) (bg : bag) (g : grid) (pose : Z * Z)
    (cp : (Z * Z) * (Z * Z)) : result (list seg) :=
  let ends := sheet_ends bg pose cp in
  a ← relocate g ends.1; b ← relocate g ends.2;
  let m := (trunc_avg a.1 b.1, trunc_avg a.2 b.2) in
  l1 ← midpoint_rec fuel g a m; l2 ← midpoint_rec fuel g b m; Ok (l1 ++ l2).

(** The entries of [fin_curve_pts]: both end points of every segment. *)
Definition seg_points (l : list seg) : list (Z * Z) := l ≫= fun s => [s.1; s.2].

(** [fin_curve_pts[:, 0] -= cpt_row_min; fin_curve_pts[:, 1] -= cpt_col_min] *)
Definition rebase (o : Z * Z) (l : list seg) : list seg :=
  (fun s : seg => ((s.1.1 - o.1, s.1.2 - o.2), (s.2.1 - o.1, s.2.2 - o.2))) <$> l.

(** [for k in range(...): bin_data[line(...)] = 1] *)
Definition draw_segments (g : grid) (l : list seg) : result grid :=
  foldl (fun acc s => g' ← acc; np_set_all g' (seg_line s) 1) (Ok g) l.

(** [generate_sheet_curve(bag_obj)] on the canvas [ws_bag[:, :, slice_no]]:
    the new pose is the corner of the curve's bounding box and the new data
    the curve drawn in it. [curve_pts] and [dim] are left as they were. *)
Definition generate_sheet_curve (fuel : nat) (bg : bag) (g : grid) (o : obj) : result obj :=
  sa ← of_option AttributeError (o_sheet o);
  fin ← sheet_curve fuel bg g (o_pose o) (curve_pts sa);
  let pts := seg_points fin in
  rmin ← of_option ValueError (list_min (fst <$> pts));
  rmax ← of_option ValueError (list_max (fst <$> pts));
  cmin ← of_option ValueError (list_min (snd <$> pts));
  cmax ← of_option ValueError (list_max (snd <$> pts));
  data ← draw_segments (zeros (rmax - rmin + 1) (cmax - cmin + 1)) (rebase (rmin, cmin) fin);
  Ok (set_data (set_pose o (rmin, cmin)) data).

(** ** [inflate_sheet] *)

(** [binary_dilation(img, disk(r))] with scipy's default [border_value=0]:
    a cell is set when some cell of the disk around it is a foreground cell
    of the image. The disk is symmetric, so the reflection of the structuring
    element does not matter. *)
Definition dilate (g : grid) (r : Z) : grid :=
  mkGrid (rows g) (cols g) (fun i j =>
    if existsb (fun '(dy, dx) => inb g (i + dy) (j + dx) && negb (g.[i + dy, j + dx] =? 0))
               (disk_offsets r)
    then 1 else 0).

(** [inflate_sheet(bag_obj)]: dilate the boolean mask in its own array,
    zero the cells of [get_overlap]'s intersection, and label the rest. *)
Definition inflate_sheet (cv : canvas) (o : obj) : result obj :=
  sa ← of_option AttributeError (o_sheet o);
  let d := dilate (bool_of (o_data o)) (s_axes sa).1 in
  let ov := (get_overlap cv (set_data o d)).2 in
  let d' := mkGrid (rows d) (cols d) (fun i j => if ov.[i, j] =? 0 then d.[i, j] else 0) in
  Ok (set_data o (scale (o_label o) (bool_of d'))).

(** ** The sheet branch of the gravity rule *)

Definition set_sheet (o : obj) (sa : sheet_attr) : obj :=
  mkObj (o_shape o) (o_label o) (o_data o) (o_dim o) (o_pose o) (o_lqd o) (Some sa).

(** [COLL_FLAG = ws[tuple(curve_pts[0])] > 0 or ws[tuple(curve_pts[1])] > 0],
    read at the object coordinates of the end points. *)
Definition sheet_coll (g : grid) (cp : (Z * Z) * (Z * Z)) : result bool :=
  v0 ← np_get g cp.1;
  if 0 <? v0 then Ok true else v1 ← np_get g cp.2; Ok (0 <? v1).

(** [SHEET_GROUND_FLAG or COLL_FLAG] at drop [drop_ctr] (counted from 1).
    The [try] block swallows an [IndexError]; [COLL_FLAG] then keeps its
    value from the previous drop. That value is [False], since a [True]
    would have ended the loop, and it is unbound at the first drop, where
    reading it raises [NameError]. [or] does not read it when the sheet is
    at the floor. *)
Definition sheet_stop (bg : bag) (cv : canvas) (o : obj) (drop_ctr : Z) : result bool :=
  sa ← of_option AttributeError (o_sheet o);
  let ground_y := gravity_ground_y bg in
  if (ground_y <=? (o_pose o).1 + (curve_pts sa).1.1) || (ground_y <=? (o_pose o).1 + (curve_pts sa).2.1)
  then Ok true
  else match sheet_coll (ws cv) (curve_pts sa) with
       | Ok c => Ok c
       | Err _ => if drop_ctr =? 1 then Err NameError else Ok false
       end.

(** [ground_diff = max(x_dist - ground_y)], clamped at 0, taken off every
    end point below the floor. *)
Definition lift_ends (ground_y : Z) (pose : Z * Z) (cp : (Z * Z) * (Z * Z)) : (Z * Z) * (Z * Z) :=
  let '(a, b) := cp in
  let x0 := pose.1 + a.1 in
  let x1 := pose.1 + b.1 in
  let gd := Z.max (x0 - ground_y) (x1 - ground_y) in
  let gd := if gd <=? 0 then 0 else gd in
  ((if ground_y <? x0 then a.1 - gd else a.1, a.2), (if ground_y <? x1 then b.1 - gd else b.1, b.2)).

(** The sheet branch of one drop: [Some (cv', o')] is the canvas after
    [place_object_in_bag] and the inflated sheet, then [break]; [None]
    continues the descent. *)
Definition sheet_step (fuel : nat) (bg : bag) (cv : canvas) (o : obj) (drop_ctr : Z)
    : result (option (canvas * obj)) :=
  stop ← sheet_stop bg cv o drop_ctr;
  if (stop : bool) then
    sa ← of_option AttributeError (o_sheet o);
    let o1 := set_sheet o (mkSheetAttr (lift_ends (gravity_ground_y bg) (o_pose o) (curve_pts sa)) (s_axes sa)) in
    o2 ← generate_sheet_curve fuel bg (ws cv) o1;
    o3 ← inflate_sheet cv o2;
    Ok (Some (place_object_in_bag cv o3, o3))
  else Ok None.

(** The interpreter's default recursion limit. *)
Definition recursion_limit : nat := 1000.

(** The sheet branch that [drop_step] takes: an exception is [None]. *)
Definition sheet_rule (bg : bag) (cv : canvas) (o : obj) (drop_ctr : Z) : option (option (canvas * obj)) :=
  to_option (sheet_step recursion_limit bg cv o drop_ctr).

(** ** Example slices *)

(** A bag of size 20 with [bb_h = 5] and walls of thickness 2: the
    container is rows and columns 5..14, the wall ring 3..16, and the
    corner of the canvas is free. A block of label 7 stands on the floor in
    columns 12..13. *)
Definition ring_ex : grid := fill_rect (fill_rect (zeros 20 20) 3 17 3 17 1) 5 15 5 15 0.
Definition bag_ring : bag := mkBag 20 5 None.
Definition cv_ring : canvas := mkCanvas (fill_rect (scale 3 ring_ex) 12 15 12 14 7) ring_ex.

(** A sheet of length 6 and thickness 2 with label 8, as [object_init]
    builds it, at pose [p]. *)
Definition sheet_ex (p : Z * Z) : obj :=
  mkObj S 8 (fill_rect (zeros 1 6) 0 1 0 6 8) (1, 6) p None (Some (mkSheetAttr ((0, 0), (0, 5)) (2, 6))).

(** ** Predicates of the proofs *)

(** A cell inside the canvas, and a free cell of the canvas. *)
Definition in_canvas (g : grid) (p : Z * Z) : Prop := 0 <= p.1 < rows g /\ 0 <= p.2 < cols g.
Definition free_cell (g : grid) (p : Z * Z) : Prop := g.[p.1, p.2] = 0.

(** The measure of the recursion on a canvas of [R] rows: the column span
    first, then twice the row span, plus one when the columns differ by
    one and the end point in the left column lies below the other. The
    extra unit orders the one split that keeps both spans: the row above
    wins the [argmin] tie. *)
Definition row_measure (p q : Z * Z) : Z :=
  2 * Z.abs (p.1 - q.1) +
  (if Z.abs (p.2 - q.2) =? 1
   then (if p.2 <? q.2 then (if q.1 <? p.1 then 1 else 0) else (if p.1 <? q.1 then 1 else 0))
   else 0).

Definition mid_measure (R : Z) (p q : Z * Z) : Z :=
  Z.abs (p.2 - q.2) * (2 * R + 2) + row_measure p q.

(** The pixels of a list of segments. *)
Definition curve_pixels (l : list seg) : list (Z * Z) := l ≫= seg_line.

(** ** Lemmas on [line] *)

Lemma line_inner_once r d sr dc :
  0 <= d < 2 * dc -> line_inner r d sr dc = (r + sr, d - 2 * dc).
Proof.
  intros Hd. unfold line_inner. destruct (Z.leb_spec 0 d); [|lia].
  rewrite Z.div_small by lia. f_equal; lia.
Qed.

Lemma line_inner_neg r d sr dc : d < 0 -> line_inner r d sr dc = (r, d).
Proof. intros Hd. unfold line_inner. destruct (Z.leb_spec 0 d); [lia|done]. Qed.

(** The invariant of the loop: after [i] iterations the minor axis has
    moved [k <= dr] times and [d = 2 dr (i + 1) - dc - 2 dc k < 2 dc], so
    the inner [while] runs at most once. *)
Lemma line_loop_pts n steep r0 c0 sr sc dr dc : forall i k r c d p,
  0 <= dr <= dc -> i + Z.of_nat n = dc -> 0 <= i -> 0 <= k <= dr ->
  r = r0 + sr * k -> c = c0 + sc * i ->
  d = 2 * dr * (i + 1) - dc - 2 * dc * k -> d < 2 * dc ->
  p ∈ line_loop n steep r c sr sc dr dc d ->
  exists k' i', 0 <= k' <= dr /\ 0 <= i' < dc /\
    p = (if steep then (c0 + sc * i', r0 + sr * k') else (r0 + sr * k', c0 + sc * i')).
Proof.
  induction n as [|n IH]; intros i k r c d p Hdr Hn Hi Hk -> -> Hd Hd2 Hp; simpl in Hp.
  - by apply not_elem_of_nil in Hp.
  - apply elem_of_cons in Hp as [->|Hp]; [exists k, i; split; [lia|split; [lia|done]]|].
    destruct (Z.leb_spec 0 d) as [Hpos|Hneg].
    + rewrite line_inner_once in Hp by lia.
      assert (k + 1 <= dr) by nia.
      apply (IH (i + 1) (k + 1) (r0 + sr * k + sr) (c0 + sc * i + sc) (d - 2 * dc + 2 * dr) p ltac:(lia) ltac:(lia) ltac:(lia) ltac:(lia)
               ltac:(lia) ltac:(lia) ltac:(lia) ltac:(lia) Hp).
    + rewrite line_inner_neg in Hp by lia.
      apply (IH (i + 1) k (r0 + sr * k) (c0 + sc * i + sc) (d + 2 * dr) p ltac:(lia) ltac:(lia) ltac:(lia) ltac:(lia)
               ltac:(lia) ltac:(lia) ltac:(lia) ltac:(lia) Hp).
Qed.

(** Every pixel of [line r0 c0 r1 c1] lies in the bounding box of its end
    points. *)
Lemma line_bbox r0 c0 r1 c1 p :
  p ∈ line r0 c0 r1 c1 ->
  Z.min r0 r1 <= p.1 <= Z.max r0 r1 /\ Z.min c0 c1 <= p.2 <= Z.max c0 c1.
Proof.
  unfold line. intros Hp.
  destruct (Z.ltb_spec (Z.abs (c1 - c0)) (Z.abs (r1 - r0)));
    apply elem_of_app in Hp as [Hp|Hp%list_elem_of_singleton]; try (subst p; simpl; lia).
  - eapply (line_loop_pts _ _ c0 r0 _ _ _ _ 0 0) in Hp as (k & i & Hk & Hi & ->);
      try (rewrite ?Z2Nat.id; lia).
    simpl. destruct (Z.ltb_spec 0 (r1 - r0)), (Z.ltb_spec 0 (c1 - c0)); lia.
  - destruct (Z.eq_dec (Z.abs (c1 - c0)) 0) as [E|E].
    { rewrite E in Hp. by apply not_elem_of_nil in Hp. }
    eapply (line_loop_pts _ _ r0 c0 _ _ _ _ 0 0) in Hp as (k & i & Hk & Hi & ->);
      try (rewrite ?Z2Nat.id; lia).
    simpl. destruct (Z.ltb_spec 0 (r1 - r0)), (Z.ltb_spec 0 (c1 - c0)); lia.
Qed.

(** Both end points are drawn. *)
Lemma line_ends r0 c0 r1 c1 :
  (r0, c0) ∈ line r0 c0 r1 c1 /\ (r1, c1) ∈ line r0 c0 r1 c1.
Proof.
  unfold line. split; [|destruct (_ <? _); apply elem_of_app; right; by left].
  destruct (Z.ltb_spec (Z.abs (c1 - c0)) (Z.abs (r1 - r0))) as [Hs|Hs].
  - destruct (Z.to_nat (Z.abs (r1 - r0))) eqn:E; [lia|]. apply elem_of_app; left. simpl. by left.
  - destruct (Z.to_nat (Z.abs (c1 - c0))) eqn:E.
    + apply elem_of_app; right. assert (r1 = r0 /\ c1 = c0) as [-> ->] by lia. by left.
    + apply elem_of_app; left. simpl. by left.
Qed.

(** ** Lemmas on results and numpy indexing *)

(** Split every [Ok]-valued bind of the context. *)
Ltac res_inv :=
  repeat match goal with
  | H : (_ ≫= _) = Ok _ |- _ => apply bind_Ok in H as (? & ? & H)
  | H : Ok _ = Ok _ |- _ => injection H as H
  | H : of_option _ ?o = Ok _ |- _ => destruct o eqn:?; simpl in H; [injection H as H|discriminate H]
  end.

Lemma np_idx_in i n : 0 <= i < n -> np_idx i n = Ok i.
Proof. intros. unfold np_idx. zcase; simpl; try lia; done. Qed.

Lemma np_idx_Ok i n k : np_idx i n = Ok k -> 0 <= k < n.
Proof. unfold np_idx. zcase; simpl; intros; simplify_eq; lia. Qed.

Lemma np_idx_not_rec i n : np_idx i n <> Err RecursionError.
Proof. unfold np_idx. by destruct (_ && _). Qed.

Lemma np_get_in g i j : 0 <= i < rows g -> 0 <= j < cols g -> np_get g (i, j) = Ok g.[i, j].
Proof. intros. unfold np_get. simpl. by rewrite !np_idx_in. Qed.

#[export] Hint Resolve np_idx_not_rec : raster.

Lemma elem_of_free_rows g j i : i ∈ free_rows g j <-> 0 <= i < rows g /\ g.[i, j] = 0.
Proof. unfold free_rows. rewrite list_elem_of_filter, elem_of_seqZ. lia. Qed.

(** [nearest_free] returns a free row of the column, at least as near to
    [r] as every free row. *)
Lemma nearest_free_spec g c r x :
  0 <= c < cols g -> nearest_free g c r = Ok x ->
  x ∈ free_rows g c /\ forall y, y ∈ free_rows g c -> Z.abs (x - r) <= Z.abs (y - r).
Proof.
  intros Hc Hx. unfold nearest_free in Hx. rewrite np_idx_in in Hx by done.
  cbn [mbind result_bind] in Hx.
  destruct (free_rows g c) as [|f fr] eqn:Hfr; [discriminate|]. rewrite <- Hfr in Hx.
  destruct (argmin_spec ((fun i => Z.abs (i - r)) <$> free_rows g c)) as (m & Hm & Hle & _).
  { by rewrite Hfr. }
  rewrite list_lookup_fmap in Hm.
  destruct (free_rows g c !! _) as [x'|] eqn:Hx'; [|discriminate]. cbn in Hx, Hm. simplify_eq.
  rewrite <- Hfr.
  split; [by eapply list_elem_of_lookup_2|].
  intros y Hy. apply list_elem_of_lookup in Hy as [k Hk].
  apply (Hle k). by rewrite list_lookup_fmap, Hk.
Qed.

Lemma nearest_free_not_rec g c r : nearest_free g c r <> Err RecursionError.
Proof.
  unfold nearest_free. destruct (np_idx c (cols g)) as [j|e] eqn:E; simpl.
  - destruct (free_rows g j); [done|]. by destruct (_ !! _).
  - intros [= ->]. by apply (np_idx_not_rec c (cols g)).
Qed.

Lemma mapM_Ok {A B} (f : A -> result B) (h : A -> B) (l : list A) :
  (forall x, x ∈ l -> f x = Ok (h x)) -> mapM f l = Ok (h <$> l).
Proof.
  induction l as [|x l IH]; intros Hf; [done|]. simpl.
  rewrite (Hf x) by (by left). simpl. rewrite IH; [done|]. intros y Hy. apply Hf. by right.
Qed.

Lemma line_in_canvas g p q x :
  in_canvas g p -> in_canvas g q -> x ∈ line p.1 p.2 q.1 q.2 -> in_canvas g x.
Proof. unfold in_canvas. intros Hp Hq Hx%line_bbox. lia. Qed.

(** Between two cells of the canvas, the overlap test does not raise. It
    is [true] when a pixel of the line is occupied. *)
Lemma line_overlap_in g p q :
  in_canvas g p -> in_canvas g q ->
  line_overlap g p q = Ok (existsb (fun x => negb (g.[x.1, x.2] =? 0)) (line p.1 p.2 q.1 q.2)).
Proof.
  intros Hp Hq. unfold line_overlap.
  rewrite (mapM_Ok _ (fun x => g.[x.1, x.2])).
  - simpl. f_equal. induction (line p.1 p.2 q.1 q.2); simpl; [done|]. by f_equal.
  - intros [i j] Hx. destruct (line_in_canvas g p q (i, j)) as [Hi Hj]; try done.
    by apply np_get_in.
Qed.

(** ** Termination of the midpoint recursion *)

Lemma lex_measure_lt W x1 y1 x2 y2 :
  0 <= x1 -> 0 <= y1 < W -> 0 <= y2 -> x1 < x2 \/ x1 = x2 /\ y1 < y2 ->
  x1 * W + y1 < x2 * W + y2.
Proof. intros ? ? ? [H|[-> H]]; nia. Qed.

(** The relocated midpoint [m] of a split simplex [(p, q)] is as near to
    the truncated mean row as an end point in its column, and differs
    from both end points. Then both halves [(p, m)] and [(q, m)] are
    smaller in [mid_measure]. *)
Lemma mid_measure_lt R r0 c0 r1 c1 r :
  0 <= r0 < R -> 0 <= r1 < R -> 0 <= r < R -> 0 <= c0 -> 0 <= c1 ->
  (c0 = trunc_avg c0 c1 -> Z.abs (r - trunc_avg r0 r1) <= Z.abs (r0 - trunc_avg r0 r1)) ->
  (c1 = trunc_avg c0 c1 -> Z.abs (r - trunc_avg r0 r1) <= Z.abs (r1 - trunc_avg r0 r1)) ->
  (r, trunc_avg c0 c1) <> (r0, c0) -> (r, trunc_avg c0 c1) <> (r1, c1) ->
  mid_measure R (r0, c0) (r, trunc_avg c0 c1) < mid_measure R (r0, c0) (r1, c1) /\
  mid_measure R (r1, c1) (r, trunc_avg c0 c1) < mid_measure R (r0, c0) (r1, c1).
Proof.
  intros Hr0 Hr1 Hr Hc0 Hc1 H0 H1 Hp Hq. unfold mid_measure, row_measure, trunc_avg in *. simpl.
  rewrite !Z.quot_div_nonneg in * by lia.
  assert (Ha : 2 * ((r0 + r1) / 2) <= r0 + r1 <= 2 * ((r0 + r1) / 2) + 1) by dlia.
  assert (Hm : 2 * ((c0 + c1) / 2) <= c0 + c1 <= 2 * ((c0 + c1) / 2) + 1) by dlia.
  set (a := (r0 + r1) / 2) in *. set (mc := (c0 + c1) / 2) in *. clearbody a mc.
  assert (Hp' : r <> r0 \/ mc <> c0) by (destruct (Z.eq_dec r r0); [subst; right; congruence|auto]).
  assert (Hq' : r <> r1 \/ mc <> c1) by (destruct (Z.eq_dec r r1); [subst; right; congruence|auto]).
  clear Hp Hq.
  assert (Hcase : c0 = c1 /\ mc = c0 \/ c0 = c1 + 1 /\ mc = c1 \/ c1 = c0 + 1 /\ mc = c0 \/
                  Z.abs (c0 - mc) < Z.abs (c0 - c1) /\ Z.abs (c1 - mc) < Z.abs (c0 - c1))
    by (clear - Hm Hc0 Hc1; lia).
  destruct Hcase as [[-> ->]|[[-> ->]|[[-> ->]|[Hl0 Hl1]]]].
  - specialize (H0 eq_refl). specialize (H1 eq_refl).
    split; apply lex_measure_lt; zcase; lia.
  - specialize (H1 eq_refl). clear H0.
    split; apply lex_measure_lt; zcase; lia.
  - specialize (H0 eq_refl). clear H1.
    split; apply lex_measure_lt; zcase; lia.
  - clear H0 H1. split; apply lex_measure_lt; zcase; lia.
Qed.

Lemma mid_measure_nonneg R p q : 0 <= R -> 0 <= mid_measure R p q.
Proof. intros. unfold mid_measure, row_measure. zcase; nia. Qed.

Lemma bind_not_rec {A B} (r : result A) (f : A -> result B) :
  r <> Err RecursionError -> (forall a, f a <> Err RecursionError) ->
  (r ≫= f) <> Err RecursionError.
Proof. intros H Hf. destruct r as [a|e]; cbn [mbind result_bind]; [apply Hf|congruence]. Qed.

Lemma trunc_avg_between a b : 0 <= a -> 0 <= b -> Z.min a b <= trunc_avg a b <= Z.max a b.
Proof. intros. unfold trunc_avg. rewrite Z.quot_div_nonneg by lia. dlia. Qed.

(** C7: Between two free cells of the canvas, the recursion
    never exhausts a depth above [mid_measure]. It ends in a list of
    segments, or in the [ValueError] of a column without a free cell. *)
Theorem midpoint_rec_terminates g n p q :
  in_canvas g p -> in_canvas g q -> free_cell g p -> free_cell g q ->
  mid_measure (rows g) p q < Z.of_nat n ->
  midpoint_rec n g p q <> Err RecursionError.
Proof.
  revert p q. induction n as [|n IH]; intros [r0 c0] [r1 c1] Hp Hq Fp Fq Hn.
  { pose proof (mid_measure_nonneg (rows g) (r0, c0) (r1, c1)). unfold in_canvas in Hp. lia. }
  cbn [midpoint_rec]. rewrite line_overlap_in by done. cbn [mbind result_bind].
  destruct (existsb _ _); [|done].
  unfold in_canvas, free_cell in *; simpl in *.
  pose proof (trunc_avg_between c0 c1 ltac:(lia) ltac:(lia)) as Hmc.
  destruct (nearest_free g (trunc_avg c0 c1) (trunc_avg r0 r1)) as [r|e] eqn:Hr; cbn [mbind result_bind];
    [|intros [= ->]; by apply (nearest_free_not_rec g (trunc_avg c0 c1) (trunc_avg r0 r1))].
  apply nearest_free_spec in Hr as [Hrf Hnear]; [|lia].
  apply elem_of_free_rows in Hrf as [Hrr Hrz].
  destruct (bool_decide _ || bool_decide _) eqn:Hb; [done|].
  apply orb_false_iff in Hb as [Hb0 Hb1]. apply bool_decide_eq_false in Hb0, Hb1.
  destruct (mid_measure_lt (rows g) r0 c0 r1 c1 r) as [Hlt0 Hlt1]; try lia; try done.
  - intros Hc. apply Hnear, elem_of_free_rows. rewrite <- Hc. lia.
  - intros Hc. apply Hnear, elem_of_free_rows. rewrite <- Hc. lia.
  - apply bind_not_rec; [apply IH; simpl; lia|]. intros l1.
    apply bind_not_rec; [apply IH; simpl; lia|]. done.
Qed.

(** ** Drawing *)

Lemma line_loop_shift n steep r c sr sc dr dc d u v :
  line_loop n steep (r + u) (c + v) sr sc dr dc d =
  (fun x => if steep then (x.1 + v, x.2 + u) else (x.1 + u, x.2 + v)) <$>
    line_loop n steep r c sr sc dr dc d.
Proof.
  revert r c d. induction n as [|n IH]; intros r c d; [done|]. cbn [line_loop fmap list_fmap].
  f_equal; [by destruct steep|].
  unfold line_inner. destruct (0 <=? d).
  - rewrite <- IH. f_equal; lia.
  - rewrite <- IH. f_equal; lia.
Qed.

(** [line] commutes with a translation of its end points. *)
Lemma line_shift r0 c0 r1 c1 a b :
  line (r0 - a) (c0 - b) (r1 - a) (c1 - b) = (fun x => (x.1 - a, x.2 - b)) <$> line r0 c0 r1 c1.
Proof.
  unfold line. replace (r1 - a - (r0 - a)) with (r1 - r0) by lia.
  replace (c1 - b - (c0 - b)) with (c1 - c0) by lia.
  destruct (_ <? _); rewrite fmap_app; simpl; f_equal.
  - replace (c0 - b) with (c0 + - b) by lia. replace (r0 - a) with (r0 + - a) by lia.
    rewrite line_loop_shift. apply list_fmap_ext. intros _ [x y] _. simpl. f_equal; lia.
  - replace (c0 - b) with (c0 + - b) by lia. replace (r0 - a) with (r0 + - a) by lia.
    rewrite line_loop_shift. apply list_fmap_ext. intros _ [x y] _. simpl. f_equal; lia.
Qed.

Lemma np_set_in g i j v :
  in_canvas g (i, j) ->
  exists g', np_set g (i, j) v = Ok g' /\ rows g' = rows g /\ cols g' = cols g /\
    forall a b, g'.[a, b] = if bool_decide ((a, b) = (i, j)) then v else g.[a, b].
Proof.
  intros [Hi Hj]. simpl in Hi, Hj. unfold np_set. simpl. rewrite !np_idx_in by done. cbn [mbind result_bind].
  eexists. split; [done|]. split; [done|split; [done|]]. intros a b.
  destruct (decide ((a, b) = (i, j))) as [Hab|Hab].
  - injection Hab as -> ->. rewrite bool_decide_true by done.
    unfold get, inb; simpl. rewrite bool_decide_true by lia. by rewrite !Z.eqb_refl.
  - rewrite bool_decide_false by done. unfold get, inb; simpl.
    case_bool_decide; [|done].
    destruct (Z.eqb_spec a i), (Z.eqb_spec b j); subst; simpl; congruence.
Qed.

Lemma np_set_all_spec g pts v :
  (forall p, p ∈ pts -> in_canvas g p) ->
  exists g', np_set_all g pts v = Ok g' /\ rows g' = rows g /\ cols g' = cols g /\
    forall a b, g'.[a, b] = if bool_decide ((a, b) ∈ pts) then v else g.[a, b].
Proof.
  unfold np_set_all. revert g. induction pts as [|[i j] pts IH]; intros g Hin.
  { exists g. split; [done|]. split; [done|split; [done|]]. intros a b.
    rewrite bool_decide_false; [done|apply not_elem_of_nil]. }
  destruct (np_set_in g i j v) as (g1 & E1 & Hr1 & Hc1 & Hg1); [apply Hin; by left|].
  cbn [foldl]. cbn [mbind result_bind]. rewrite E1.
  destruct (IH g1) as (g' & E & Hr & Hc & Hg).
  { intros p Hp. unfold in_canvas. rewrite Hr1, Hc1. apply Hin. by right. }
  exists g'. split; [done|]. split; [lia|split; [lia|]]. intros a b. rewrite Hg, Hg1.
  repeat case_bool_decide; rewrite ?elem_of_cons in *; tauto.
Qed.

(** Drawing segments into a grid that holds all their pixels sets exactly
    those pixels. *)
Lemma draw_segments_spec g l :
  (forall p, p ∈ curve_pixels l -> in_canvas g p) ->
  exists g', draw_segments g l = Ok g' /\ rows g' = rows g /\ cols g' = cols g /\
    forall a b, g'.[a, b] = if bool_decide ((a, b) ∈ curve_pixels l) then 1 else g.[a, b].
Proof.
  unfold draw_segments, curve_pixels. revert g. induction l as [|s l IH]; intros g Hin.
  { exists g. split; [done|]. split; [done|split; [done|]]. intros a b.
    rewrite bool_decide_false; [done|apply not_elem_of_nil]. }
  cbn [foldl]. cbn [mbind result_bind].
  destruct (np_set_all_spec g (seg_line s) 1) as (g1 & E1 & Hr1 & Hc1 & Hg1).
  { intros p Hp. apply Hin. rewrite list_elem_of_bind. exists s. split; [done|by left]. }
  rewrite E1. destruct (IH g1) as (g' & E & Hr & Hc & Hg).
  { intros p Hp. unfold in_canvas. rewrite Hr1, Hc1. apply Hin. simpl. apply elem_of_app. by right. }
  exists g'. split; [done|]. split; [lia|split; [lia|]]. intros a b. rewrite Hg, Hg1.
  cbn [mbind list_bind]. repeat case_bool_decide; rewrite ?elem_of_app in *; tauto.
Qed.

(** ** [generate_sheet_curve] *)

Lemma midpoint_rec_nonempty n g p q l : midpoint_rec n g p q = Ok l -> l <> [].
Proof.
  revert p q l. induction n as [|n IH]; intros p q l H; [discriminate|].
  cbn [midpoint_rec] in H.
  destruct (line_overlap g p q) as [[]|]; cbn [mbind result_bind] in H;
    [|by injection H as <-|discriminate].
  destruct (nearest_free _ _ _) as [r|]; cbn [mbind result_bind] in H; [|discriminate].
  destruct (_ || _); [by injection H as <-|].
  destruct (midpoint_rec n g p _) as [l1|] eqn:E1; cbn [mbind result_bind] in H; [|discriminate].
  destruct (midpoint_rec n g q _) as [l2|]; cbn [mbind result_bind] in H; [|discriminate].
  injection H as <-. apply IH in E1. by destruct l1.
Qed.

Lemma sheet_curve_nonempty fuel bg g pose cp fin : sheet_curve fuel bg g pose cp = Ok fin -> fin <> [].
Proof.
  unfold sheet_curve. intros H. cbv zeta in H.
  destruct (relocate g (sheet_ends bg pose cp).1) as [a|]; cbn [mbind result_bind] in H; [|discriminate].
  destruct (relocate g (sheet_ends bg pose cp).2) as [b|]; cbn [mbind result_bind] in H; [|discriminate].
  destruct (midpoint_rec fuel g a _) as [l1|] eqn:E1; cbn [mbind result_bind] in H; [|discriminate].
  destruct (midpoint_rec fuel g b _) as [l2|]; cbn [mbind result_bind] in H; [|discriminate].
  injection H as <-. apply midpoint_rec_nonempty in E1. by destruct l1.
Qed.

Lemma curve_pixels_rebase o l x :
  x ∈ curve_pixels (rebase o l) <-> (x.1 + o.1, x.2 + o.2) ∈ curve_pixels l.
Proof.
  unfold curve_pixels, rebase. rewrite list_fmap_bind, !list_elem_of_bind.
  split; intros (s & Hx & Hs); exists s; split; try done; unfold compose, seg_line in *; simpl in *.
  - rewrite line_shift in Hx. apply list_elem_of_fmap in Hx as ([y1 y2] & -> & Hy). simpl.
    by replace (y1 - o.1 + o.1, y2 - o.2 + o.2) with (y1, y2) by (f_equal; lia).
  - rewrite line_shift. apply list_elem_of_fmap. exists (x.1 + o.1, x.2 + o.2).
    split; [destruct x; simpl; f_equal; lia|done].
Qed.

Lemma elem_of_seg_points l s : s ∈ l -> s.1 ∈ seg_points l /\ s.2 ∈ seg_points l.
Proof.
  intros Hs. unfold seg_points. rewrite !list_elem_of_bind.
  split; exists s; (split; [|done]); [by left|by right; left].
Qed.

(** A pixel of the curve lies between the extremes of the segments' end
    points. *)
Lemma curve_pixels_bounds l x rmin rmax cmin cmax :
  (forall y, y ∈ seg_points l -> rmin <= y.1 <= rmax /\ cmin <= y.2 <= cmax) ->
  x ∈ curve_pixels l -> rmin <= x.1 <= rmax /\ cmin <= x.2 <= cmax.
Proof.
  intros Hb Hx. unfold curve_pixels in Hx. apply list_elem_of_bind in Hx as (s & Hx & Hs).
  apply line_bbox in Hx. destruct (elem_of_seg_points l s Hs) as [H1 H2].
  apply Hb in H1, H2. lia.
Qed.

Lemma seg_points_extremes l rmin rmax cmin cmax :
  list_min (fst <$> seg_points l) = Some rmin -> list_max (fst <$> seg_points l) = Some rmax ->
  list_min (snd <$> seg_points l) = Some cmin -> list_max (snd <$> seg_points l) = Some cmax ->
  forall y, y ∈ seg_points l -> rmin <= y.1 <= rmax /\ cmin <= y.2 <= cmax.
Proof.
  intros H1 H2 H3 H4 y Hy.
  apply list_min_spec in H1 as [_ H1], H3 as [_ H3]. apply list_max_spec in H2 as [_ H2], H4 as [_ H4].
  rewrite Forall_forall in H1, H2, H3, H4.
  assert (y.1 ∈ fst <$> seg_points l) by (apply list_elem_of_fmap; eauto).
  assert (y.2 ∈ snd <$> seg_points l) by (apply list_elem_of_fmap; eauto).
  specialize (H1 y.1). specialize (H2 y.1). specialize (H3 y.2). specialize (H4 y.2). tauto.
Qed.

(** C8: [generate_sheet_curve] does not raise once the curve is
    computed. It moves the pose to the corner of the curve's bounding box,
    and the mask in object coordinates, shifted by the new pose, is exactly
    the set of pixels of the curve in canvas coordinates. *)
Theorem generate_sheet_curve_roundtrip fuel bg g o sa fin :
  o_sheet o = Some sa ->
  sheet_curve fuel bg g (o_pose o) (curve_pts sa) = Ok fin ->
  exists o', generate_sheet_curve fuel bg g o = Ok o' /\
    (forall x, x ∈ curve_pixels fin -> (o_pose o').1 <= x.1 /\ (o_pose o').2 <= x.2) /\
    (forall i j, (o_data o').[i, j] =
       if bool_decide ((i + (o_pose o').1, j + (o_pose o').2) ∈ curve_pixels fin) then 1 else 0).
Proof.
  intros Hsa Hfin. unfold generate_sheet_curve. rewrite Hsa. cbn [of_option mbind result_bind].
  rewrite Hfin. cbn [mbind result_bind].
  apply sheet_curve_nonempty in Hfin.
  assert (Hne : seg_points fin <> []) by (destruct fin as [|s fin]; [done|by destruct s]).
  destruct (list_min (fst <$> seg_points fin)) as [rmin|] eqn:H1;
    [|apply list_min_None, fmap_nil_inv in H1; contradiction].
  destruct (list_max (fst <$> seg_points fin)) as [rmax|] eqn:H2;
    [|apply list_max_None, fmap_nil_inv in H2; contradiction].
  destruct (list_min (snd <$> seg_points fin)) as [cmin|] eqn:H3;
    [|apply list_min_None, fmap_nil_inv in H3; contradiction].
  destruct (list_max (snd <$> seg_points fin)) as [cmax|] eqn:H4;
    [|apply list_max_None, fmap_nil_inv in H4; contradiction].
  cbn [of_option mbind result_bind].
  pose proof (seg_points_extremes _ _ _ _ _ H1 H2 H3 H4) as Hb.
  destruct (draw_segments_spec (zeros (rmax - rmin + 1) (cmax - cmin + 1)) (rebase (rmin, cmin) fin))
    as (d & -> & _ & _ & Hd).
  { intros p Hp%curve_pixels_rebase. apply (curve_pixels_bounds _ _ _ _ _ _ Hb) in Hp.
    unfold in_canvas; simpl in *. lia. }
  cbn [mbind result_bind]. eexists. split; [done|]. simpl. split.
  - intros x Hx. apply (curve_pixels_bounds _ _ _ _ _ _ Hb) in Hx. lia.
  - intros i j. rewrite Hd.
    assert (Hz : (zeros (rmax - rmin + 1) (cmax - cmin + 1)).[i, j] = 0)
      by (unfold get; by destruct (inb _ _ _)).
    rewrite Hz. pose proof (curve_pixels_rebase (rmin, cmin) fin (i, j)) as Hr. simpl in Hr.
    repeat case_bool_decide; tauto.
Qed.

(** ** [inflate_sheet] *)

Lemma dilate_center g r i j : 0 <= r -> g.[i, j] <> 0 -> (dilate g r).[i, j] = 1.
Proof.
  intros Hr Hg. pose proof (get_nz_inb g i j Hg) as Hin. unfold dilate. rewrite get_on.
  unfold inb at 1. rewrite bool_decide_true by lia.
  replace (existsb _ _) with true; [done|]. symmetry. apply existsb_exists.
  exists (0, 0). split; [apply list_elem_of_In, elem_of_disk_offsets; lia|].
  rewrite !Z.add_0_r. unfold inb. rewrite bool_decide_true by lia. simpl.
  by destruct (Z.eqb_spec g.[i, j] 0).
Qed.

Lemma dilate_01 g r i j : (dilate g r).[i, j] = 0 \/ (dilate g r).[i, j] = 1.
Proof. unfold dilate. rewrite get_on. destruct (inb _ _ _); [destruct (existsb _ _)|]; auto. Qed.

Lemma inflate_sheet_data cv o o' :
  inflate_sheet cv o = Ok o' ->
  exists sa, o_sheet o = Some sa /\
    o' = set_data o (scale (o_label o) (bool_of
           (let d := dilate (bool_of (o_data o)) (s_axes sa).1 in
            mkGrid (rows d) (cols d) (fun i j =>
              if (get_overlap cv (set_data o d)).2.[i, j] =? 0 then d.[i, j] else 0)))).
Proof.
  unfold inflate_sheet. destruct (o_sheet o) as [sa|]; cbn [of_option mbind result_bind]; [|discriminate].
  intros [= <-]. eauto.
Qed.

(** C29: [inflate_sheet] keeps the pose and the array shape of the
    curve's mask. A cell of the result is foreground exactly when the disk
    of radius [axes[0]] around it meets the curve and the canvas holds no
    non-wall foreground under it. *)
Theorem inflate_sheet_spec cv o o' sa :
  wf_grid (ws cv) -> wf_grid (o_data o) -> 0 <= (o_pose o).1 -> 0 <= (o_pose o).2 ->
  o_label o <> 0 -> o_sheet o = Some sa ->
  inflate_sheet cv o = Ok o' ->
  o_pose o' = o_pose o /\ rows (o_data o') = rows (o_data o) /\ cols (o_data o') = cols (o_data o) /\
  forall i j, (o_data o').[i, j] <> 0 <->
    (dilate (bool_of (o_data o)) (s_axes sa).1).[i, j] <> 0 /\
    (bag_data cv).[(o_pose o).1 + i, (o_pose o).2 + j] = 0.
Proof.
  intros Hw Hd H0 H1 Hl Hsa Hinf. apply inflate_sheet_data in Hinf as (sa' & Hsa' & ->).
  rewrite Hsa in Hsa'. injection Hsa' as <-. cbn zeta. simpl.
  set (d := dilate (bool_of (o_data o)) (s_axes sa).1).
  split; [done|split; [done|split; [done|]]]. intros i j.
  rewrite get_scale, get_bool_of. rewrite get_on.
  rewrite get_overlap_cell by (try done; apply Hd).
  simpl. fold d. unfold inb.
  destruct (dilate_01 (bool_of (o_data o)) (s_axes sa).1 i j) as [Hz|Ho]; try fold d in Hz; try fold d in Ho.
  - rewrite Hz, Z.mul_0_l, Z.eqb_refl.
    replace (if bool_decide _ then 0 else 0) with 0 by (by destruct (bool_decide _)).
    rewrite Z.eqb_refl, Z.mul_0_r. tauto.
  - rewrite Ho. assert (0 <= i < rows d /\ 0 <= j < cols d) as Hin
      by (apply get_nz_inb; lia).
    rewrite bool_decide_true by done. rewrite Z.mul_1_l.
    destruct (Z.eqb_spec ((bag_data cv).[(o_pose o).1 + i, (o_pose o).2 + j]) 0) as [E|E];
      cbn -[Z.mul]; split; intros; try lia; tauto.
Qed.

(** C9: The inflated sheet never overlaps the non-wall content of
    the canvas, so placing it never overwrites an object. *)
Theorem inflate_sheet_no_overlap cv o o' sa :
  wf_grid (ws cv) -> wf_grid (o_data o) -> 0 <= (o_pose o).1 -> 0 <= (o_pose o).2 ->
  o_label o <> 0 -> o_sheet o = Some sa ->
  inflate_sheet cv o = Ok o' -> (get_overlap cv o').1 = false.
Proof.
  intros Hw Hd H0 H1 Hl Hsa Hinf.
  destruct (inflate_sheet_spec cv o o' sa) as (Hp & Hr & Hc & Hcell); try done.
  rewrite get_overlap_flag, any_nz_false. intros i j.
  rewrite get_overlap_cell; [|done|unfold wf_grid; rewrite Hr, Hc; apply Hd|rewrite Hp; lia..].
  rewrite Hp. destruct (decide ((o_data o').[i, j] = 0)) as [->|Hnz]; [done|].
  apply Hcell in Hnz as [_ ->]. simpl. lia.
Qed.

(** ** Where the curve can lie *)

Lemma relocate_col g p a : relocate g p = Ok a -> a.2 = p.2.
Proof.
  unfold relocate. intros H. res_inv. destruct (0 <? x); cbn iota in H.
  - destruct (nearest_free _ _ _); cbn [mbind result_bind] in H; [|discriminate].
    by injection H as <-.
  - by injection H as <-.
Qed.

(** Every segment of the recursion stays between the columns of its end
    points: a midpoint keeps the truncated mean column. *)
Lemma midpoint_rec_cols n g p q l :
  0 <= p.2 -> 0 <= q.2 -> midpoint_rec n g p q = Ok l ->
  forall s, s ∈ l -> Z.min p.2 q.2 <= s.1.2 <= Z.max p.2 q.2 /\ Z.min p.2 q.2 <= s.2.2 <= Z.max p.2 q.2.
Proof.
  revert p q l. induction n as [|n IH]; intros p q l Hp Hq H; [discriminate|].
  cbn [midpoint_rec] in H.
  destruct (line_overlap g p q) as [[]|]; cbn [mbind result_bind] in H;
    [|injection H as <-; intros s ->%list_elem_of_singleton; simpl; lia|discriminate].
  destruct (nearest_free _ _ _) as [r|]; cbn [mbind result_bind] in H; [|discriminate].
  pose proof (trunc_avg_between p.2 q.2 Hp Hq) as Hm.
  destruct (_ || _); [injection H as <-; intros s ->%list_elem_of_singleton; simpl; lia|].
  destruct (midpoint_rec n g p _) as [l1|] eqn:E1; cbn [mbind result_bind] in H; [|discriminate].
  destruct (midpoint_rec n g q _) as [l2|] eqn:E2; cbn [mbind result_bind] in H; [|discriminate].
  injection H as <-. intros s [Hs|Hs]%elem_of_app.
  - eapply IH in E1; [|done|simpl; lia|exact Hs]. simpl in E1. lia.
  - eapply IH in E2; [|done|simpl; lia|exact Hs]. simpl in E2. lia.
Qed.

(** C10: [np.clip(curve_pts, 0, 2*bb_h - 1)] clips the columns as
    well, in the canvas frame. Every pixel of a generated curve lies in
    columns [0 .. 2*bb_h - 1], whatever the pose. The container spans
    columns [size//2 - bb_h .. size//2 + bb_h - 1], so a sheet can never
    reach its right part. *)
Theorem sheet_curve_cols_clipped fuel bg g pose cp fin :
  1 <= bb_h bg -> sheet_curve fuel bg g pose cp = Ok fin ->
  forall x, x ∈ curve_pixels fin -> 0 <= x.2 <= 2 * bb_h bg - 1.
Proof.
  intros Hb H x Hx. unfold sheet_curve in H. cbv zeta in H.
  destruct (relocate g (sheet_ends bg pose cp).1) as [a|] eqn:Ea; cbn [mbind result_bind] in H; [|discriminate].
  destruct (relocate g (sheet_ends bg pose cp).2) as [b|] eqn:Eb; cbn [mbind result_bind] in H; [|discriminate].
  apply relocate_col in Ea, Eb. unfold sheet_ends, np_clip in Ea, Eb. simpl in Ea, Eb.
  pose proof (trunc_avg_between a.2 b.2 ltac:(lia) ltac:(lia)) as Hm.
  destruct (midpoint_rec fuel g a _) as [l1|] eqn:E1; cbn [mbind result_bind] in H; [|discriminate].
  destruct (midpoint_rec fuel g b _) as [l2|] eqn:E2; cbn [mbind result_bind] in H; [|discriminate].
  injection H as <-. unfold curve_pixels in Hx. apply list_elem_of_bind in Hx as (s & Hx & Hs).
  apply line_bbox in Hx. apply elem_of_app in Hs as [Hs|Hs].
  - eapply midpoint_rec_cols in E1; [|lia|simpl; lia|exact Hs]. simpl in E1. lia.
  - eapply midpoint_rec_cols in E2; [|lia|simpl; lia|exact Hs]. simpl in E2. lia.
Qed.

(** ** The descent of a sheet *)

(** C34: Above the floor, the stop test of a sheet does not depend
    on its pose. [COLL_FLAG] reads the canvas at the object coordinates of
    [curve_pts], not at [pose + curve_pts]. *)
Theorem sheet_stop_ignores_pose bg cv o sa p p' d :
  o_sheet o = Some sa ->
  p.1 + (curve_pts sa).1.1 < gravity_ground_y bg -> p.1 + (curve_pts sa).2.1 < gravity_ground_y bg ->
  p'.1 + (curve_pts sa).1.1 < gravity_ground_y bg -> p'.1 + (curve_pts sa).2.1 < gravity_ground_y bg ->
  sheet_stop bg cv (set_pose o p) d = sheet_stop bg cv (set_pose o p') d.
Proof.
  intros Hsa H1 H2 H3 H4. unfold sheet_stop. simpl. rewrite Hsa. cbn [of_option mbind result_bind].
  do 4 (rewrite (proj2 (Z.leb_gt _ _)) by lia). done.
Qed.

(** C11: In [drop_step] with [sheet_rule], a sheet above the
    floor whose end points read free at their object coordinates falls on
    by [z_inc], whatever the canvas holds under it. *)
Theorem sheet_falls_through {L : Labeller} bg cv o sa z c d :
  o_shape o = S -> o_sheet o = Some sa ->
  (o_pose o).1 + z + (curve_pts sa).1.1 < gravity_ground_y bg ->
  (o_pose o).1 + z + (curve_pts sa).2.1 < gravity_ground_y bg ->
  sheet_coll (ws cv) (curve_pts sa) = Ok false ->
  drop_step sheet_rule bg cv o z c d = Some (Continue (set_pose o ((o_pose o).1 + z, (o_pose o).2)) c (d + 1)).
Proof.
  intros Hs Hsa H1 H2 Hc. unfold drop_step. simpl. rewrite decide_True by done.
  unfold sheet_rule, sheet_step, sheet_stop. simpl. rewrite Hsa. cbn [of_option mbind result_bind].
  do 2 (rewrite (proj2 (Z.leb_gt _ _)) by lia). rewrite Hc. done.
Qed.

Lemma sheet_stop_ground bg cv o sa d :
  o_sheet o = Some sa ->
  gravity_ground_y bg <= (o_pose o).1 + (curve_pts sa).1.1 \/
  gravity_ground_y bg <= (o_pose o).1 + (curve_pts sa).2.1 ->
  sheet_stop bg cv o d = Ok true.
Proof.
  intros Hsa Hg. unfold sheet_stop. rewrite Hsa. cbn [of_option mbind result_bind].
  destruct Hg as [Hg|Hg]; [rewrite (proj2 (Z.leb_le _ _ ) Hg)|rewrite (proj2 (Z.leb_le _ _ ) Hg), orb_true_r]; done.
Qed.

(** A drop of a sheet ends the descent (placement or exception) or moves
    the sheet down by [z_inc] while no end point reaches the floor. *)
Lemma sheet_drop_step {L : Labeller} bg cv o sa z c d :
  o_shape o = S -> o_sheet o = Some sa ->
  drop_step sheet_rule bg cv o z c d = None \/
  (exists cv' o', drop_step sheet_rule bg cv o z c d = Some (Stop cv' o')) \/
  (drop_step sheet_rule bg cv o z c d = Some (Continue (set_pose o ((o_pose o).1 + z, (o_pose o).2)) c (d + 1)) /\
   (o_pose o).1 + z + (curve_pts sa).1.1 < gravity_ground_y bg /\
   (o_pose o).1 + z + (curve_pts sa).2.1 < gravity_ground_y bg).
Proof.
  intros Hs Hsa. unfold drop_step. simpl. rewrite decide_True by done.
  unfold sheet_rule, to_option.
  destruct (sheet_step recursion_limit bg cv (set_pose o ((o_pose o).1 + z, (o_pose o).2)) (d + 1))
    as [[[cv' o']|]|e] eqn:E; cbn [mbind option_bind]; eauto.
  right; right. split; [done|].
  destruct (Z_lt_le_dec ((o_pose o).1 + z + (curve_pts sa).1.1) (gravity_ground_y bg)) as [H1|H1];
  [destruct (Z_lt_le_dec ((o_pose o).1 + z + (curve_pts sa).2.1) (gravity_ground_y bg)) as [H2|H2]; [done|]|].
  all: unfold sheet_step in E; rewrite sheet_stop_ground with (sa := sa) in E by (done || (simpl; lia));
    cbn [mbind result_bind] in E; simpl in E; rewrite Hsa in E; cbn [of_option mbind result_bind] in E;
    destruct (generate_sheet_curve _ _ _ _); cbn [mbind result_bind] in E; try discriminate;
    destruct (inflate_sheet _ _); discriminate.
Qed.

(** C35: Liveness: a sheet that reaches the floor after [k >= 1] drops of
    [z_inc] lands within those [k] drops. Its descent gives the same result
    with any fuel of at least [k] steps. *)
Theorem sheet_lands {L : Labeller} bg cv o sa z c d k :
  o_shape o = S -> o_sheet o = Some sa -> (1 <= k)%nat ->
  gravity_ground_y bg <= (o_pose o).1 + Z.of_nat k * z + (curve_pts sa).1.1 ->
  forall n, (k <= n)%nat -> drop_loop sheet_rule n bg cv o z c d = drop_loop sheet_rule k bg cv o z c d.
Proof.
  revert o d. induction k as [|k IH]; intros o d Hs Hsa Hk Hg n Hn; [lia|].
  destruct n as [|n]; [lia|]. cbn [drop_loop].
  destruct (d <? 50); [|done].
  destruct (sheet_drop_step bg cv o sa z c d Hs Hsa) as [->|[(cv' & o' & ->)|(-> & H1 & H2)]]; [done|done|].
  cbn [mbind option_bind]. destruct k as [|k]; [lia|].
  apply IH; simpl; try done; lia.
Qed.

(** ** Witnesses *)

(** Evaluating only the constructor of a result keeps [vm_compute] away
    from the grid closures it carries. *)
Lemma midpoint_rec_terminates_witness :
  in_canvas (ws cv_ring) (13, 6) /\ in_canvas (ws cv_ring) (13, 14) /\
  free_cell (ws cv_ring) (13, 6) /\ free_cell (ws cv_ring) (13, 14) /\
  mid_measure (rows (ws cv_ring)) (13, 6) (13, 14) < Z.of_nat 400 /\
  midpoint_rec 400 (ws cv_ring) (13, 6) (13, 14) <> Err RecursionError.
Proof.
  assert (Hr : rows (ws cv_ring) = 20 /\ cols (ws cv_ring) = 20) by (split; reflexivity).
  assert (H1 : in_canvas (ws cv_ring) (13, 6)) by (unfold in_canvas; simpl; lia).
  assert (H2 : in_canvas (ws cv_ring) (13, 14)) by (unfold in_canvas; simpl; lia).
  assert (H3 : free_cell (ws cv_ring) (13, 6)) by (vm_compute; reflexivity).
  assert (H4 : free_cell (ws cv_ring) (13, 14)) by (vm_compute; reflexivity).
  assert (H5 : mid_measure (rows (ws cv_ring)) (13, 6) (13, 14) < Z.of_nat 400) by (vm_compute; reflexivity).
  refine (conj H1 (conj H2 (conj H3 (conj H4 (conj H5 _))))).
  exact (midpoint_rec_terminates _ 400 _ _ H1 H2 H3 H4 H5).
Defined.

Lemma generate_sheet_curve_roundtrip_witness :
  exists fin, sheet_curve 400 bag_ring (ws cv_ring) (2, 7) ((0, 0), (0, 5)) = Ok fin /\
  exists o', generate_sheet_curve 400 bag_ring (ws cv_ring) (sheet_ex (2, 7)) = Ok o' /\
    forall x, x ∈ curve_pixels fin -> (o_pose o').1 <= x.1 /\ (o_pose o').2 <= x.2.
Proof.
  destruct (ok_of_check (sheet_curve 400 bag_ring (ws cv_ring) (2, 7) ((0, 0), (0, 5))) ltac:(vm_compute; reflexivity)) as [fin E].
  exists fin. split; [exact E|].
  destruct (generate_sheet_curve_roundtrip 400 bag_ring (ws cv_ring) (sheet_ex (2, 7)) _ fin eq_refl E)
    as (o' & Ho' & Hb & _).
  exists o'. split; [exact Ho'|exact Hb].
Defined.

Lemma inflate_sheet_spec_witness :
  exists o', inflate_sheet cv_ring (sheet_ex (12, 9)) = Ok o' /\
    o_pose o' = (12, 9) /\ rows (o_data o') = 1 /\
    ((o_data o').[0, 3] <> 0 <->
     (dilate (bool_of (o_data (sheet_ex (12, 9)))) 2).[0, 3] <> 0 /\ (bag_data cv_ring).[12, 12] = 0).
Proof.
  destruct (ok_of_check (inflate_sheet cv_ring (sheet_ex (12, 9))) ltac:(vm_compute; reflexivity)) as [o' E].
  exists o'. split; [exact E|].
  destruct (inflate_sheet_spec cv_ring (sheet_ex (12, 9)) o' (mkSheetAttr ((0, 0), (0, 5)) (2, 6)))
    as (Hp & Hr & _ & Hc); [split; simpl; lia|split; simpl; lia|simpl; lia|simpl; lia|done|done|done|].
  split; [exact Hp|split; [rewrite Hr; reflexivity|exact (Hc 0 3)]].
Defined.

Lemma inflate_sheet_no_overlap_witness :
  (get_overlap cv_ring (sheet_ex (12, 9))).1 = true /\
  exists o', inflate_sheet cv_ring (sheet_ex (12, 9)) = Ok o' /\ (get_overlap cv_ring o').1 = false.
Proof.
  split; [vm_compute; reflexivity|].
  destruct (ok_of_check (inflate_sheet cv_ring (sheet_ex (12, 9))) ltac:(vm_compute; reflexivity)) as [o' E].
  exists o'. split; [exact E|].
  apply (inflate_sheet_no_overlap cv_ring (sheet_ex (12, 9)) o' (mkSheetAttr ((0, 0), (0, 5)) (2, 6)));
    try (split; simpl; lia); done.
Defined.

Lemma sheet_curve_cols_clipped_witness :
  exists fin, sheet_curve 400 bag_ring (ws cv_ring) (9, 8) ((6, 0), (6, 5)) = Ok fin /\
    forall x, x ∈ curve_pixels fin -> 0 <= x.2 <= 2 * bb_h bag_ring - 1.
Proof.
  destruct (ok_of_check (sheet_curve 400 bag_ring (ws cv_ring) (9, 8) ((6, 0), (6, 5))) ltac:(vm_compute; reflexivity)) as [fin E].
  exists fin. split; [exact E|]. apply (sheet_curve_cols_clipped 400 bag_ring (ws cv_ring) (9, 8) ((6, 0), (6, 5)) fin); [simpl; lia|exact E].
Defined.

Lemma sheet_stop_ignores_pose_witness :
  sheet_stop bag_ring cv_ring (set_pose (sheet_ex (0, 0)) (2, 7)) 2 =
  sheet_stop bag_ring cv_ring (set_pose (sheet_ex (0, 0)) (12, 8)) 2.
Proof.
  apply (sheet_stop_ignores_pose _ _ _ (mkSheetAttr ((0, 0), (0, 5)) (2, 6))); [reflexivity|vm_compute; reflexivity..].
Defined.

Lemma sheet_falls_through_witness :
  drop_step (L := merge_labeller) sheet_rule bag_ring cv_ring (sheet_ex (2, 8)) 10 0 0 =
  Some (Continue (set_pose (sheet_ex (2, 8)) (12, 8)) 0 1).
Proof.
  apply (sheet_falls_through bag_ring cv_ring (sheet_ex (2, 8)) (mkSheetAttr ((0, 0), (0, 5)) (2, 6)));
    [reflexivity|reflexivity|vm_compute; reflexivity..].
Defined.

Lemma sheet_lands_witness :
  drop_loop (L := merge_labeller) sheet_rule 50 bag_ring cv_ring (sheet_ex (2, 8)) 10 0 0 =
  drop_loop (L := merge_labeller) sheet_rule 2 bag_ring cv_ring (sheet_ex (2, 8)) 10 0 0.
Proof.
  apply (sheet_lands bag_ring cv_ring (sheet_ex (2, 8)) (mkSheetAttr ((0, 0), (0, 5)) (2, 6)));
    [reflexivity|reflexivity|lia|vm_compute; congruence|lia].
Defined.
