(* ===== verification/Session.v ===== *)
(** * A slice session ([BaggageImage2D.__init__], [add_object], [create_baggage_image])

    [__init__] builds the bag geometry and, for each slice, the wall mask
    ([boundary]) and the initial canvas ([ws_bag = bb_label * boundary]).
    [create_baggage_image] then works slice by slice. It places each
    object through [add_object], with the gravity rule or a direct stamp,
    in the shuffled order. Next it applies the liquid rule to every
    liquid-bearing object and places that object again. Finally it clears
    the negative (void) labels.

    The random spawn poses and the shuffle are inputs: [run_slice] takes the
    objects already cloned, posed and in placement order; [Bag.slice_step]
    draws them and runs [slice_body] on a slice of the 3-D [ws_bag]. Here
    [bag_init] covers the case [bag_b is None], [prior_image is None]; the
    prior image is [Bag.bag3_init], and the bag template [bag_b] is not
    modelled. *)

From Stdlib Require Import ZArith QArith Lia.
From stdpp Require Import base list numbers gmap.
From S2P Require Import Prelude Grid Raster Canvas Components Overlap Gravity Liquid.
Open Scope Z_scope.

(** ** Construction *)

(** [self.bb_label] *)
Definition bb_label : Z := 3.

(** The bag geometry, [self.size = max(2*self.bb_h + 2*self.bb_t,
    self.img_vol[2])]. With [gantry_dia is None], the constructor reads
    [self.img_vol] before assigning it ([AttributeError]): [None]. *)
Definition bag_init (img_vol : Z * Z * Z) (gantry_dia : option Z) (bb_h bb_t : Z) : option bag :=
  match gantry_dia with
  | None => None
  | Some _ => Some (mkBag (Z.max (2 * bb_h + 2 * bb_t) img_vol.2) bb_h None)
  end.

(** Whether index [z] lies in the Python slice [s:e] of an axis of
    length [n]. *)
Definition in_window (z s e n : Z) : bool :=
  bool_decide ((py_slice s e n).1 <= z < (py_slice s e n).2).

(** Slice [z] of [bag_bound]: the cube [[a, b)^3] set to 1, then the
    cube [[c, d)^3] set back to 0, with [a, b = size//2 -/+ (bb_h + bb_t)]
    and [c, d = size//2 -/+ bb_h]. *)
Definition bound_slice (size bb_h bb_t z : Z) : grid :=
  let a := size / 2 - bb_h - bb_t in
  let b := size / 2 + bb_h + bb_t in
  let c := size / 2 - bb_h in
  let d := size / 2 + bb_h in
  let g := zeros size size in
  let g := if in_window z a b size then fill_rect g a b a b 1 else g in
  if in_window z c d size then fill_rect g c d c d 0 else g.

(** [v_bag += self.bb_label * bag_bound; self.boundary = bag_bound;
    self.ws_bag = v_bag], slice [z]. *)
Definition canvas_init (size bb_h bb_t z : Z) : canvas :=
  let bnd := bound_slice size bb_h bb_t z in mkCanvas (scale bb_label bnd) bnd.

(** ** [add_object] *)

(** [a[r0:r1, c0:c1] = src] with numpy broadcasting: each axis of [src]
    must have the window's length or length 1, otherwise [ValueError]. *)
Definition assign_window (g : grid) (r0 r1 c0 c1 : Z) (src : grid) : option grid :=
  let r := py_slice r0 r1 (rows g) in
  let c := py_slice c0 c1 (cols g) in
  if bool_decide ((rows src = r.2 - r.1 \/ rows src = 1) /\ (cols src = c.2 - c.1 \/ cols src = 1))
  then Some (mkGrid (rows g) (cols g) (fun i j =>
         if bool_decide (r.1 <= i < r.2 /\ c.1 <= j < c.2)
         then src.[if rows src =? 1 then 0 else i - r.1, if cols src =? 1 then 0 else j - c.1]
         else g.[i, j]))
  else None.

(** [self.ws_bag[self.ws_bag < 0] = 0] *)
Definition clear_negative (g : grid) : grid :=
  mkGrid (rows g) (cols g) (fun i j => if g.[i, j] <? 0 then 0 else g.[i, j]).

Section Session.
Context {L : Labeller}.
Variable sheet_branch : bag -> canvas -> obj -> Z -> option (option (canvas * obj)).

(** [add_object(bag_obj, with_overlap_rule, with_gravity_rule)]: the canvas
    and the object afterwards. *)
Definition add_object (bg : bag) (cv : canvas) (o : obj) (with_overlap_rule with_gravity_rule : bool)
    : option (canvas * obj) :=
  if with_gravity_rule then run_gravity sheet_branch bg cv o 50
  else if with_overlap_rule then
    '(cv', o', _) ← run_shape_grammar_overlap bg cv o true true true false;
    Some (cv', o')
  else
    let '(p0, p1) := o_pose o in
    w ← assign_window (ws cv) p0 (p0 + (o_dim o).1 / 2) p1 (p1 + (o_dim o).2 / 2) (o_data o);
    Some (mkCanvas w (bnd cv), o).

(** [for k, bag_obj in enumerate(current_obj_list): self.add_object(bag_obj,
    with_overlap_rule=False, with_gravity_rule=with_shape_grammar)]. *)
Definition place_all (bg : bag) (cv : canvas) (objs : list obj) (with_shape_grammar : bool)
    : option (canvas * list obj) :=
  foldl (fun acc o =>
           '(cv, done_objs) ← acc;
           '(cv', o') ← add_object bg cv o false with_shape_grammar;
           Some (cv', done_objs ++ [o']))
        (Some (cv, [])) objs.

(** [for bag_obj in current_obj_list: if bag_obj.lqd_flag:
    bag_obj.apply_liquid_container_rule(); self.place_object_in_bag(bag_obj)]. *)
Definition liquid_pass (cv : canvas) (objs : list obj) : canvas :=
  foldl (fun cv o =>
           match o_lqd o with
           | Some _ => place_object_in_bag cv (apply_liquid_container_rule o)
           | None => cv
           end) cv objs.

(** The body of one pass of [for slice_no in ...]: the placement loop
    and the liquid loop on the slice's canvas, for objects already cloned,
    posed and shuffled. *)
Definition slice_body (bg : bag) (cv : canvas) (objs : list obj) (with_shape_grammar : bool)
    : option canvas :=
  '(cv', objs') ← place_all bg cv objs with_shape_grammar;
  Some (liquid_pass cv' objs').

(** One slice of [create_baggage_image] followed by the final
    [ws_bag[ws_bag < 0] = 0] on that slice. [Bag.slice_loop_refines] shows
    that the whole loop, which clears once at the end, agrees with it on
    every slice. *)
Definition run_slice (bg : bag) (cv : canvas) (objs : list obj) (with_shape_grammar : bool)
    : option canvas :=
  cv' ← slice_body bg cv objs with_shape_grammar;
  Some (mkCanvas (clear_negative (ws cv')) (bnd cv')).

End Session.

(** ** Lemmas *)

Lemma in_window_in z s e n : 0 <= s <= e -> e <= n -> in_window z s e n = bool_decide (s <= z < e).
Proof. intros. unfold in_window. by rewrite py_slice_in. Qed.

(** The wall mask of a slice through the container's interior: the ring of
    thickness [bb_t] around the [2 bb_h] square. *)
Lemma get_bound_slice size bb_h bb_t z i j :
  0 <= bb_h -> 0 <= bb_t -> 2 * (bb_h + bb_t) <= size ->
  size / 2 - bb_h <= z < size / 2 + bb_h ->
  (bound_slice size bb_h bb_t z).[i, j] =
  if bool_decide ((size / 2 - bb_h - bb_t <= i < size / 2 + bb_h + bb_t /\
                   size / 2 - bb_h - bb_t <= j < size / 2 + bb_h + bb_t) /\
                  ~ (size / 2 - bb_h <= i < size / 2 + bb_h /\ size / 2 - bb_h <= j < size / 2 + bb_h))
  then 1 else 0.
Proof.
  intros Hh Ht Hs Hz. unfold bound_slice. cbv zeta.
  rewrite !in_window_in by dlia. rewrite !bool_decide_true by dlia.
  rewrite get_fill_rect. unfold inb. cbn [fill_rect zeros rows cols].
  rewrite !py_slice_in by dlia. cbn [fst snd].
  case_bool_decide as Hb.
  - case_bool_decide as Hin.
    + case_bool_decide; [exfalso; dlia|done].
    + rewrite get_fill_zeros, !py_slice_in by dlia. cbn [fst snd].
      repeat case_bool_decide; try done; exfalso; dlia.
  - case_bool_decide; [|done]. exfalso. dlia.
Qed.

Lemma place_object_in_bag_bnd cv o : bnd (place_object_in_bag cv o) = bnd cv.
Proof. unfold place_object_in_bag. by destruct (o_pose o). Qed.

Lemma get_clear_negative g i j : (clear_negative g).[i, j] = if g.[i, j] <? 0 then 0 else g.[i, j].
Proof.
  unfold clear_negative. rewrite get_on. destruct (inb g i j) eqn:Hb; [done|].
  assert (g.[i, j] = 0) as -> by (unfold get; by rewrite Hb). done.
Qed.

Section SessionLemmas.
Context {L : Labeller}.
Variable sheet_branch : bag -> canvas -> obj -> Z -> option (option (canvas * obj)).
(** The sheet fitter writes only the labels. *)
Hypothesis sheet_bnd : forall bg cv o d cv' o',
  sheet_branch bg cv o d = Some (Some (cv', o')) -> bnd cv' = bnd cv.

Lemma drop_step_bnd bg cv o z c d cv' o' :
  drop_step sheet_branch bg cv o z c d = Some (Stop cv' o') -> bnd cv' = bnd cv.
Proof.
  unfold drop_step. case_decide.
  - destruct (sheet_branch _ _ _ _) as [[[cv1 o1]|]|] eqn:E; simpl; [|congruence|done].
    intros [= <- _]. by apply sheet_bnd in E.
  - destruct (_ <=? _).
    + destruct (get_overlap _ _).1.
      * destruct (run_overlap _ _ _ _ _ _) as [[? ?]|]; simpl; [|done].
        intros [= <- _]. apply place_object_in_bag_bnd.
      * by intros [= <- _].
    + destruct (get_overlap _ _).1; [|congruence].
      destruct (inner_loop _ _ _ _ _ _ _) as [[[[? ?] ?] ?]|]; simpl; [|done].
      destruct (_ || _); congruence.
Qed.

Lemma drop_loop_bnd n bg cv o z c d cv' o' :
  drop_loop sheet_branch n bg cv o z c d = Some (cv', o') -> bnd cv' = bnd cv.
Proof.
  revert o c d. induction n as [|n IH]; intros o c d; simpl; [congruence|].
  destruct (d <? 50); [|congruence].
  destruct (drop_step sheet_branch bg cv o z c d) as [[o1 c1 d1|cv1 o1]|] eqn:E; simpl; [apply IH| |done].
  intros [= <- <-]. by apply drop_step_bnd in E.
Qed.

Lemma add_object_bnd bg cv o ov gr cv' o' :
  add_object sheet_branch bg cv o ov gr = Some (cv', o') -> bnd cv' = bnd cv.
Proof.
  unfold add_object. destruct gr.
  - unfold run_gravity. destruct (drop_loop _ _ _ _ _ _ _ _) as [[cv1 o1]|] eqn:E; simpl; [|done].
    intros [= <- _]. rewrite place_object_in_bag_bnd. by apply drop_loop_bnd in E.
  - destruct ov.
    + unfold run_shape_grammar_overlap. destruct (run_overlap _ _ _ _ _ _) as [[o1 l1]|]; simpl; [|done].
      intros [= <- _]. apply place_object_in_bag_bnd.
    + destruct (o_pose o) as [p0 p1]. destruct (assign_window _ _ _ _ _ _); simpl; [|done].
      by intros [= <- _].
Qed.

Lemma place_all_bnd bg cv objs sg cv' objs' :
  place_all sheet_branch bg cv objs sg = Some (cv', objs') -> bnd cv' = bnd cv.
Proof.
  unfold place_all.
  assert (Hacc : forall cvA accA, Some (cv, @nil obj) = Some (cvA, accA) -> bnd cvA = bnd cv)
    by (by intros ? ? [= <- _]).
  revert Hacc. generalize (Some (cv, @nil obj)) as acc.
  induction objs as [|o objs IH]; intros acc Hacc; simpl; [destruct acc as [[? ?]|]; [|done]; by apply Hacc|].
  apply IH. intros cvA accA.
  destruct acc as [[cv1 acc1]|]; simpl; [|done].
  destruct (add_object sheet_branch bg cv1 o false sg) as [[cv2 o2]|] eqn:E2; simpl; [|done].
  intros [= <- _]. apply add_object_bnd in E2. rewrite E2. by apply (Hacc cv1 acc1).
Qed.

Lemma liquid_pass_bnd cv objs : bnd (liquid_pass cv objs) = bnd cv.
Proof.
  unfold liquid_pass. revert cv. induction objs as [|o objs IH]; intros cv; simpl; [done|].
  rewrite IH. destruct (o_lqd o); [apply place_object_in_bag_bnd|done].
Qed.

End SessionLemmas.

(** ** Properties *)

Section SessionClaims.
Context {L : Labeller}.
Variable sheet_branch : bag -> canvas -> obj -> Z -> option (option (canvas * obj)).
Hypothesis sheet_bnd : forall bg cv o d cv' o',
  sheet_branch bg cv o d = Some (Some (cv', o')) -> bnd cv' = bnd cv.

(** C33: the container the constructor builds agrees with the geometry the
    placement rules use. In a slice through the container, the wall mask
    is the ring of thickness [bb_t] around the [2 bb_h] square, and the
    canvas holds [bb_label] on it. The floor row [ground_y] of the gravity
    rule and of the resolver is the first wall row below the square, and
    [_adjust_for_boundaries] clamps to the square. *)
Theorem container_geometry img_vol gd bb_h bb_t bg z :
  0 <= bb_h -> 1 <= bb_t -> bag_init img_vol (Some gd) bb_h bb_t = Some bg ->
  size bg / 2 - bb_h <= z < size bg / 2 + bb_h ->
  let cv := canvas_init (size bg) bb_h bb_t z in
  let c := size bg / 2 - bb_h in
  let d := size bg / 2 + bb_h in
  (forall i j, (bnd cv).[i, j] =
     if bool_decide ((c - bb_t <= i < d + bb_t /\ c - bb_t <= j < d + bb_t) /\
                     ~ (c <= i < d /\ c <= j < d)) then 1 else 0) /\
  (forall i j, (ws cv).[i, j] = bb_label * (bnd cv).[i, j]) /\
  gravity_ground_y bg = d /\ resolver_ground_y bg = d /\
  lower_bound bg = (c, c) /\ upper_bound bg = (d, d) /\
  (forall j, c <= j < d -> (bnd cv).[d, j] = 1).
Proof.
  intros Hh Ht Hinit Hz cv c d. injection Hinit as <-. cbn [size] in *.
  assert (Hs : 2 * (bb_h + bb_t) <= Z.max (2 * bb_h + 2 * bb_t) img_vol.2) by lia.
  assert (Hb : forall i j, (bnd cv).[i, j] =
     if bool_decide ((c - bb_t <= i < d + bb_t /\ c - bb_t <= j < d + bb_t) /\
                     ~ (c <= i < d /\ c <= j < d)) then 1 else 0).
  { intros i j. cbn [cv canvas_init bnd]. rewrite get_bound_slice by (done || lia).
    done. }
  split; [done|]. split; [intros; apply get_scale|].
  do 4 (split; [done|]). intros j Hj. rewrite Hb. rewrite bool_decide_true by lia. done.
Qed.

(** C39: the direct stamp of [add_object] (both rules off) raises for every
    object at least two rows high. It writes [bag_obj.data] of shape [dim]
    into a window of [dim // 2] rows, which numpy cannot broadcast. *)
Theorem add_object_stamp_raises bg cv o :
  wf_grid (ws cv) -> o_dim o = (rows (o_data o), cols (o_data o)) -> 2 <= rows (o_data o) ->
  0 <= (o_pose o).1 ->
  add_object sheet_branch bg cv o false false = None.
Proof.
  intros [Hr Hc] Hdim H2 Hp. unfold add_object. destruct (o_pose o) as [p0 p1]. simpl in Hp.
  rewrite Hdim. cbn [fst snd]. unfold assign_window. rewrite bool_decide_false; [done|].
  intros [[Hrow|Hrow] _]; [|lia].
  pose proof (py_slice_len p0 (p0 + rows (o_data o) / 2) (rows (ws cv)) ltac:(dlia) Hr). simpl in *. dlia.
Qed.

(** a slice session keeps the wall mask and leaves no negative label on
    the canvas (the void marker [-1] of the liquid rule is cleared). *)
Theorem run_slice_walls bg cv objs sg cv' :
  run_slice sheet_branch bg cv objs sg = Some cv' ->
  bnd cv' = bnd cv /\ forall i j, 0 <= (ws cv').[i, j].
Proof.
  unfold run_slice, slice_body. destruct (place_all sheet_branch bg cv objs sg) as [[cv1 objs1]|] eqn:E; simpl; [|done].
  intros [= <-]. cbn [bnd ws]. split.
  - rewrite liquid_pass_bnd. by eapply place_all_bnd.
  - intros i j. rewrite get_clear_negative. destruct (Z.ltb_spec ((ws (liquid_pass cv1 objs1)).[i, j]) 0); lia.
Qed.

End SessionClaims.

(** ** Witnesses *)

Definition obj_box (label : Z) (p : Z * Z) : obj :=
  mkObj B label (scale label (fill_rect (zeros 3 3) 0 2 0 2 1)) (3, 3) p None None.

Lemma container_geometry_witness :
  gravity_ground_y (mkBag 20 5 None) = 15 /\ (bnd (canvas_init 20 5 2 10)).[15, 10] = 1.
Proof.
  destruct (container_geometry (30, 30, 20) 30 5 2 (mkBag 20 5 None) 10)
    as (_ & _ & Hg & _ & _ & _ & Hf); [lia|lia|reflexivity|simpl; dlia|].
  split; [exact Hg|]. apply Hf. simpl. dlia.
Defined.

Lemma add_object_stamp_raises_witness :
  add_object (L := merge_labeller) no_sheet (mkBag 20 5 None) (canvas_init 20 5 2 10) (obj_box 2 (6, 6)) false false = None.
Proof.
  apply add_object_stamp_raises; [split; vm_compute; congruence|reflexivity|vm_compute; congruence|vm_compute; congruence].
Defined.

Lemma run_slice_walls_witness :
  exists cv', run_slice (L := merge_labeller) no_sheet (mkBag 20 5 None) (canvas_init 20 5 2 10)
                [obj_box 4 (6, 6); obj_box 6 (6, 7)] true = Some cv' /\
              bnd cv' = bnd (canvas_init 20 5 2 10).
Proof.
  destruct (Some_of_check (run_slice (L := merge_labeller) no_sheet (mkBag 20 5 None) (canvas_init 20 5 2 10)
                [obj_box 4 (6, 6); obj_box 6 (6, 7)] true) ltac:(vm_compute; reflexivity)) as [cv' E].
  exists cv'. split; [done|].
  apply (run_slice_walls no_sheet) in E as [Hb _]; [exact Hb|].
  intros ? ? ? ? ? ? H. discriminate H.
Defined.
