(* ===== verification/Export.v ===== *)
(** * The metadata of [create_baggage_image] (the [param_file] loop)

    After the last slice, [create_baggage_image] writes, for every object
    of [obj_list], its geometry in the coordinates of [virtual_bag] into
    its shape dictionary and appends the dictionary to [param_file]:
    [center] for the shapes [E], [B], [S] and [M], [base] and [apex]
    shifted by the bag offset for [Y] and [C].

    Two Python aliasings decide what this code does, and the model keeps
    them:
    - [curr_obj = bag_obj.obj_dict.copy()] is a shallow copy: the new
      dictionary shares its [geom] dictionary with [bag_obj.obj_dict] (and
      with the shape list's dictionary that [Object2D.__init__] copied,
      shallowly too). The [geom] dictionaries are a heap ([heap]) and an
      object or an entry of [param_file] holds a location into it.
    - [param_file = self.bg_sf_list] is not a copy: the loop appends to
      [self.bg_sf_list] itself, and [self.param_file] is that same list.
      The state holds the one list ([xs_bg_sf_list]).

    The code is written in [ST], the state and exception monad [SE] of
    [Result] on this state: an exception leaves the state as it was when
    the exception was raised, as Python does. *)

From Stdlib Require Import ZArith Lia.
From stdpp Require Import base list gmap strings numbers.
From S2P Require Import Prelude Result Raster Sheet.
Open Scope Z_scope.

Module Metadata.

(** ** Data *)

Abbreviation loc := positive.

(** A numpy vector of integers. *)
Abbreviation vec := (list Z).

(** The entries of a [geom] dictionary that the export reads and writes. *)
Abbreviation gdict := (gmap string vec).

(** The [geom] dictionaries, by their identity. *)
Abbreviation heap := (gmap loc gdict).

(** An object of [obj_list] as the export reads it: [bag_obj.shape],
    [bag_obj.pose], [bag_obj.dim] and the [geom] dictionary of
    [bag_obj.obj_dict]. *)
Record xobj := mkX {
  x_shape : shape_kind;
  x_pose : vec;
  x_dim : vec;
  x_geom : loc
}.

(** [curr_obj = bag_obj.obj_dict.copy()]: a fresh outer dictionary whose
    [geom] is the object's own [geom] dictionary. *)
Record entry := mkEntry {
  e_shape : shape_kind;
  e_geom : loc
}.

Record xstate := mkXS {
  xs_heap : heap;
  xs_bg_sf_list : list entry   (* [self.bg_sf_list], alias [param_file] *)
}.

(** ** The state and exception monad *)

Abbreviation ST := (SE xstate).


(** ** numpy and dictionaries *)

(** [d[k]]: [KeyError] when [k] is absent. *)
Definition dict_get (d : gdict) (k : string) : result vec := of_option KeyError (d !! k).

(** [v[i]] of a vector. *)
Definition vget (v : vec) (i : Z) : result Z :=
  j ← np_idx i (Z.of_nat (length v)); of_option IndexError (v !! Z.to_nat j).

(** An elementwise operation of two vectors with numpy's broadcasting:
    equal lengths, or one of length 1; [ValueError] otherwise. *)
Definition vzip (f : Z -> Z -> Z) (u v : vec) : result vec :=
  if decide (length u = length v) then Ok (zip_with f u v)
  else if decide (length u = 1%nat) then Ok (f (hd 0 u) <$> v)
  else if decide (length v = 1%nat) then Ok ((fun a => f a (hd 0 v)) <$> u)
  else Err ValueError.

(** The [geom] dictionary at [l]. *)
Definition read_geom (l : loc) : ST gdict := se_gets (fun s => default ∅ (xs_heap s !! l)).

(** [geom[k] = v] in the dictionary at [l]. *)
Definition geom_set (h : heap) (l : loc) (k : string) (v : vec) : heap :=
  <[l := <[k := v]> (default ∅ (h !! l))]> h.

Definition write_geom (l : loc) (k : string) (v : vec) : ST unit :=
  se_modify (fun s => mkXS (geom_set (xs_heap s) l k v) (xs_bg_sf_list s)).

(** [param_file.append(curr_obj)] *)
Definition append (e : entry) : ST unit :=
  se_modify (fun s => mkXS (xs_heap s) (xs_bg_sf_list s ++ [e])).

(** ** The loop body *)

(** The entry of [param_file] for [bag_obj]. *)
Definition entry_of (x : xobj) : entry := mkEntry (x_shape x) (x_geom x).

(** [array([img_ctr[0] - size//2 + pose[0] + dim[0]//2,
            img_ctr[1] - size//2 + pose[1] + dim[1]//2])] *)
Definition center_of (img_ctr : vec) (size : Z) (x : xobj) : result vec :=
  c0 ← vget img_ctr 0; p0 ← vget (x_pose x) 0; d0 ← vget (x_dim x) 0;
  c1 ← vget img_ctr 1; p1 ← vget (x_pose x) 1; d1 ← vget (x_dim x) 1;
  Ok [c0 - size / 2 + p0 + d0 / 2; c1 - size / 2 + p1 + d1 / 2].

(** [array(list(img_ctr)) - size//2 + bag_obj.pose]: the offset of the
    object's frame in [virtual_bag]. *)
Definition bag_offset (img_ctr : vec) (size : Z) (x : xobj) : result vec :=
  vzip Z.add ((fun a => a - size / 2) <$> img_ctr) (x_pose x).

(** [geom[k] = array(list(img_ctr)) - size//2 + pose + geom[k]]: the
    offset first, then the read of [geom[k]], then the sum. *)
Definition shift_key (img_ctr : vec) (size : Z) (x : xobj) (k : string) : ST unit :=
  off ← se_lift (bag_offset img_ctr size x);
  g ← read_geom (x_geom x);
  v ← se_lift (dict_get g k);
  w ← se_lift (vzip Z.add off v);
  write_geom (x_geom x) k w.

(** [bag_obj.shape in ['E', 'B', 'S', 'M']] *)
Definition center_shape (k : shape_kind) : bool :=
  match k with E | B | S | M => true | Y | C => false end.

(** One iteration of [for bag_obj in obj_list]. The second test,
    [bag_obj.shape in ['Y', 'C']], holds whenever the first fails, and the
    [else] branch ([AttributeError]) is unreachable: [shape_kind] has only
    the six shapes that [Object2D] builds. *)
Definition export_one (img_ctr : vec) (size : Z) (x : xobj) : ST unit :=
  if center_shape (x_shape x) then
    c ← se_lift (center_of img_ctr size x);
    write_geom (x_geom x) "center" c;;
    append (entry_of x)
  else
    shift_key img_ctr size x "base";;
    shift_key img_ctr size x "apex";;
    append (entry_of x).

Fixpoint export_loop (img_ctr : vec) (size : Z) (xs : list xobj) : ST unit :=
  match xs with
  | [] => mret ()
  | x :: xs' => export_one img_ctr size x;; export_loop img_ctr size xs'
  end.

(** [param_file = self.bg_sf_list; for ...; self.param_file = param_file;
    param_dict['obj_list'] = param_file]: the list of [param_dict]. *)
Definition create_metadata (img_ctr : vec) (size : Z) (xs : list xobj) : ST (list entry) :=
  export_loop img_ctr size xs;; se_gets xs_bg_sf_list.

(** ** Frame conditions

    [frames l m]: [m] leaves the [geom] dictionary at [l] as it was.
    [list_frames m]: [m] leaves [self.bg_sf_list] as it was.
    [appends e m]: [m] appends [e] to [self.bg_sf_list] when it returns and
    leaves it as it was when it raises. *)

Abbreviation frames l := (se_keeps (fun s : xstate => xs_heap s !! l)).

Abbreviation list_frames := (se_keeps xs_bg_sf_list).

Definition appends {A} (e : entry) (m : ST A) : Prop :=
  forall s s' r, m s = (s', r) ->
  xs_bg_sf_list s' = xs_bg_sf_list s ++ match r with Ok _ => [e] | Err _ => [] end.

(** ** Example objects: a cone whose [geom] holds [base] and [apex], a box,
    and a cylinder whose [geom] has no [base]. *)

Definition g_cone : gdict := <["apex" := [0; 0; 40]]> (<["base" := [0; 0; 0]]> ∅).
Definition x_cone : xobj := mkX C [10; 20; 30] [41; 41] 1%positive.
Definition x_box : xobj := mkX B [10; 20; 30] [32; 22] 2%positive.
Definition x_nobase : xobj := mkX Y [10; 20; 30] [41; 41] 3%positive.
Definition s_ex : xstate := mkXS (<[1%positive := g_cone]> (<[2%positive := ∅]> (<[3%positive := ∅]> ∅))) [].

(** ** Lemmas *)

Lemma vget_lookup v i a : 0 <= i -> v !! Z.to_nat i = Some a -> vget v i = Ok a.
Proof.
  intros Hi Ha. pose proof (lookup_lt_Some _ _ _ Ha).
  unfold vget, np_idx. replace ((- _ <=? i) && (i <? _)) with true by (symmetry; apply andb_true_intro; lia).
  cbn [mbind result_bind]. replace (i <? 0) with false by lia. by rewrite Ha.
Qed.
Lemma vget_0 a v : vget (a :: v) 0 = Ok a.
Proof. by apply vget_lookup. Qed.
Lemma vget_1 a b v : vget (a :: b :: v) 1 = Ok b.
Proof. by apply vget_lookup. Qed.

Lemma vzip_eq f u v : length u = length v -> vzip f u v = Ok (zip_with f u v).
Proof. intros H. unfold vzip. by rewrite decide_True. Qed.

Lemma frames_append l e : frames l (append e).
Proof. by intros s s' r' [= <- _]. Qed.
Lemma frames_write l l' k v : l <> l' -> frames l (write_geom l' k v).
Proof. intros Hl s s' r' [= <- _]. cbn [xs_heap]. unfold geom_set. rewrite lookup_insert_ne; congruence. Qed.

Create HintDb export_frames.
#[export] Hint Resolve se_keeps_bind se_keeps_lift se_keeps_gets se_keeps_ret frames_append frames_write : export_frames.

Lemma frames_export_one ic size l x : l <> x_geom x -> frames l (export_one ic size x).
Proof.
  intros Hl. unfold export_one, shift_key, read_geom.
  destruct (center_shape _); repeat (apply se_keeps_bind; [|intros ?]); auto with export_frames.
Qed.

Lemma frames_export_loop ic size l xs : l ∉ x_geom <$> xs -> frames l (export_loop ic size xs).
Proof.
  induction xs as [|x xs IH]; simpl; intros Hl; [apply se_keeps_ret|].
  rewrite not_elem_of_cons in Hl. destruct Hl.
  apply se_keeps_bind; [by apply frames_export_one|]. intros []. by apply IH.
Qed.

Lemma appends_bind {A B} e (m : ST A) (f : A -> ST B) :
  list_frames m -> (forall a, appends e (f a)) -> appends e (m ≫= f).
Proof.
  intros Hm Hf s s' r. rewrite se_bind_eq.
  destruct (m s) as [s1 [a|e']] eqn:E; intros Hr.
  - rewrite (Hf a _ _ _ Hr). by rewrite (Hm _ _ _ E).
  - injection Hr as <- <-. rewrite (Hm _ _ _ E). by rewrite app_nil_r.
Qed.

Lemma list_frames_write l k v : list_frames (write_geom l k v).
Proof. by intros s s' r' [= <- _]. Qed.
Lemma appends_append e : appends e (append e).
Proof. by intros s s' r' [= <- <-]. Qed.

#[export] Hint Resolve appends_bind list_frames_write appends_append : export_frames.

Lemma export_one_appends ic size x : appends (entry_of x) (export_one ic size x).
Proof.
  unfold export_one, shift_key, read_geom.
  destruct (center_shape _); repeat (apply appends_bind || apply se_keeps_bind; [|intros ?]);
    auto with export_frames.
Qed.

Lemma export_loop_app ic size xs ys s :
  export_loop ic size (xs ++ ys) s = (export_loop ic size xs ≫= fun _ => export_loop ic size ys) s.
Proof.
  revert s. induction xs as [|x xs IH]; intros s; [done|].
  simpl. rewrite se_bind_assoc, !se_bind_eq.
  destruct (export_one ic size x s) as [s1 [[]|e]]; [apply IH|done].
Qed.

Lemma export_loop_ok_list ic size xs s s' :
  export_loop ic size xs s = (s', Ok ()) -> xs_bg_sf_list s' = xs_bg_sf_list s ++ (entry_of <$> xs).
Proof.
  revert s. induction xs as [|x xs IH]; intros s; simpl.
  - intros [= <-]. by rewrite app_nil_r.
  - rewrite se_bind_eq. destruct (export_one ic size x s) as [s1 [[]|e]] eqn:E; [|done].
    intros H. rewrite (IH _ H), (export_one_appends _ _ _ _ _ _ E). by rewrite <- app_assoc.
Qed.

(** C36: An exception in the loop (a [KeyError] of a [geom] without [base],
    a [ValueError] of vectors numpy cannot broadcast, an [IndexError] of a
    short pose) aborts it, but the dictionaries of the objects before the
    failing one stay appended to [self.bg_sf_list], which [param_file]
    aliases, and their [geom] writes stay done. *)
Theorem export_loop_error_keeps_prefix ic size xs y ys s s1 s2 e :
  export_loop ic size xs s = (s1, Ok ()) -> export_one ic size y s1 = (s2, Err e) ->
  export_loop ic size (xs ++ y :: ys) s = (s2, Err e) /\
  xs_bg_sf_list s2 = xs_bg_sf_list s ++ (entry_of <$> xs).
Proof.
  intros H1 H2. rewrite export_loop_app, se_bind_eq, H1. simpl. rewrite se_bind_eq, H2.
  split; [done|]. rewrite (export_one_appends _ _ _ _ _ _ H2), app_nil_r.
  exact (export_loop_ok_list _ _ _ _ _ H1).
Qed.


(** For the shapes [E], [B], [S] and [M] the loop body writes
    [geom['center'] = img_ctr[:2] - size//2 + pose[:2] + dim//2] into the
    object's own [geom] dictionary (floor division) and appends the
    object's dictionary to [param_file]; nothing else changes. *)
Theorem export_one_center ic size x s c0 c1 ic' p0 p1 pr d0 d1 dr :
  center_shape (x_shape x) = true ->
  ic = c0 :: c1 :: ic' -> x_pose x = p0 :: p1 :: pr -> x_dim x = d0 :: d1 :: dr ->
  export_one ic size x s =
    (mkXS (geom_set (xs_heap s) (x_geom x) "center"
             [c0 - size / 2 + p0 + d0 / 2; c1 - size / 2 + p1 + d1 / 2])
          (xs_bg_sf_list s ++ [entry_of x]), Ok ()).
Proof.
  intros Hk -> Hp Hd. unfold export_one. rewrite Hk, se_bind_eq.
  unfold se_lift, center_of. rewrite Hp, Hd, !vget_0, !vget_1. reflexivity.
Qed.

Lemma shift_key_run ic size x s g k b off :
  bag_offset ic size x = Ok off -> length b = length off ->
  xs_heap s !! x_geom x = Some g -> g !! k = Some b ->
  shift_key ic size x k s =
    (mkXS (<[x_geom x := <[k := zip_with Z.add off b]> g]> (xs_heap s)) (xs_bg_sf_list s), Ok ()).
Proof.
  intros Ho Hb Hg Hk. unfold shift_key, se_lift, read_geom, se_gets.
  rewrite se_bind_eq, Ho. cbv beta iota.
  rewrite se_bind_eq, Hg. cbv beta iota. simpl default.
  rewrite se_bind_eq. unfold dict_get. rewrite Hk. unfold of_option. cbv beta iota.
  rewrite se_bind_eq, vzip_eq by done. cbv beta iota.
  unfold write_geom, se_modify, geom_set. by rewrite Hg.
Qed.

(** For the shapes [Y] and [C] the loop body adds the offset
    [img_ctr - size//2 + pose] to [geom['base']] and to [geom['apex']] in
    place, in the object's own [geom] dictionary, and appends the object's
    dictionary to [param_file]. *)
Theorem export_one_shift ic size x s g b a off :
  center_shape (x_shape x) = false -> bag_offset ic size x = Ok off ->
  length b = length off -> length a = length off ->
  xs_heap s !! x_geom x = Some g -> g !! "base" = Some b -> g !! "apex" = Some a ->
  export_one ic size x s =
    (mkXS (<[x_geom x := <["apex" := zip_with Z.add off a]> (<["base" := zip_with Z.add off b]> g)]>
             (xs_heap s))
          (xs_bg_sf_list s ++ [entry_of x]), Ok ()).
Proof.
  intros Hk Ho Hb Ha Hg Hbase Hapex. unfold export_one. rewrite Hk.
  rewrite se_bind_eq, (shift_key_run _ _ _ _ _ _ _ _ Ho Hb Hg Hbase). cbv beta iota.
  rewrite se_bind_eq, (shift_key_run _ _ _ _ (<["base" := zip_with Z.add off b]> g) _ a _ Ho Ha).
  - unfold append, se_modify. cbn [xs_heap xs_bg_sf_list]. by rewrite insert_insert_eq.
  - cbn [xs_heap]. by rewrite lookup_insert_eq.
  - by rewrite lookup_insert_ne.
Qed.

Lemma create_metadata_one ic size x s s' :
  export_one ic size x s = (s', Ok ()) ->
  create_metadata ic size [x] s = (s', Ok (xs_bg_sf_list s')).
Proof. intros H. unfold create_metadata. simpl. rewrite !se_bind_eq, H. reflexivity. Qed.

Lemma length_zip_add (off v : vec) : length v = length off -> length (zip_with Z.add off v) = length off.
Proof. intros H. rewrite length_zip_with. lia. Qed.

(** C16: The shallow copy [obj_dict.copy()] shares [geom], so the shift of a
    cone or cylinder is not idempotent: a second [create_baggage_image]
    on the same [obj_list] shifts [base] and [apex] by the offset a second
    time (also in the dictionaries the first call returned, which are the
    same), and appends the object's dictionary to [self.bg_sf_list] again. *)
Theorem create_metadata_twice ic size x s g b a off :
  center_shape (x_shape x) = false -> bag_offset ic size x = Ok off ->
  length b = length off -> length a = length off ->
  xs_heap s !! x_geom x = Some g -> g !! "base" = Some b -> g !! "apex" = Some a ->
  (create_metadata ic size [x] ≫= fun _ => create_metadata ic size [x]) s =
    (mkXS (<[x_geom x := <["apex" := zip_with Z.add off (zip_with Z.add off a)]>
             (<["base" := zip_with Z.add off (zip_with Z.add off b)]> g)]> (xs_heap s))
          (xs_bg_sf_list s ++ [entry_of x; entry_of x]),
     Ok (xs_bg_sf_list s ++ [entry_of x; entry_of x])).
Proof.
  intros Hk Ho Hb Ha Hg Hbase Hapex.
  rewrite se_bind_eq, (create_metadata_one _ _ _ _ _ (export_one_shift _ _ _ _ _ _ _ _ Hk Ho Hb Ha Hg Hbase Hapex)).
  cbv beta iota. erewrite create_metadata_one.
  2: { eapply (export_one_shift _ _ _ _ _ (zip_with Z.add off b) (zip_with Z.add off a));
       [done|done|by apply length_zip_add|by apply length_zip_add|
        cbn [xs_heap]; apply lookup_insert_eq|
        by rewrite lookup_insert_ne, lookup_insert_eq|by rewrite lookup_insert_eq]. }
  cbn [xs_heap xs_bg_sf_list]. rewrite (insert_insert_ne _ "base" "apex") by done.
  by rewrite !insert_insert_eq, <- app_assoc.
Qed.

(** The loop writes only into the [geom] dictionaries of the objects of
    [obj_list]: every other dictionary (those of the background entries of
    [bg_sf_list] among them) is left as it was, whether the loop returns or
    raises. *)
Theorem export_loop_frame ic size xs s s' r l :
  l ∉ x_geom <$> xs -> export_loop ic size xs s = (s', r) -> xs_heap s' !! l = xs_heap s !! l.
Proof. intros Hl. apply (frames_export_loop _ _ _ _ Hl). Qed.

(** ** Witnesses *)

Lemma create_metadata_twice_witness :
  (create_metadata [100; 100; 100] 64 [x_cone] ≫= fun _ => create_metadata [100; 100; 100] 64 [x_cone]) s_ex =
  (mkXS (<[1%positive := <["apex" := [156; 176; 236]]> (<["base" := [156; 176; 196]]> g_cone)]> (xs_heap s_ex))
        [entry_of x_cone; entry_of x_cone],
   Ok [entry_of x_cone; entry_of x_cone]).
Proof. apply (create_metadata_twice [100; 100; 100] 64 x_cone s_ex g_cone [0; 0; 0] [0; 0; 40] [78; 88; 98]); reflexivity. Defined.

Lemma export_one_shift_witness :
  export_one [100; 100; 100] 64 x_cone s_ex =
  (mkXS (<[1%positive := <["apex" := [78; 88; 138]]> (<["base" := [78; 88; 98]]> g_cone)]> (xs_heap s_ex))
        [entry_of x_cone], Ok ()).
Proof. apply (export_one_shift [100; 100; 100] 64 x_cone s_ex g_cone [0; 0; 0] [0; 0; 40] [78; 88; 98]); reflexivity. Defined.

Lemma export_one_center_witness :
  export_one [100; 100; 100] 64 x_box s_ex =
  (mkXS (geom_set (xs_heap s_ex) 2%positive "center" [94; 99]) [entry_of x_box], Ok ()).
Proof. apply (export_one_center [100; 100; 100] 64 x_box s_ex 100 100 [100] 10 20 [30] 32 22 []); reflexivity. Defined.

Lemma export_loop_error_keeps_prefix_witness :
  export_loop [100; 100; 100] 64 [x_box; x_nobase; x_cone] s_ex =
    (mkXS (geom_set (xs_heap s_ex) 2%positive "center" [94; 99]) [entry_of x_box], Err KeyError) /\
  [entry_of x_box] = xs_bg_sf_list s_ex ++ (entry_of <$> [x_box]).
Proof.
  apply (export_loop_error_keeps_prefix [100; 100; 100] 64 [x_box] x_nobase [x_cone] s_ex
           (mkXS (geom_set (xs_heap s_ex) 2%positive "center" [94; 99]) [entry_of x_box])); reflexivity.
Defined.

Lemma export_loop_frame_witness :
  xs_heap (export_loop [100; 100; 100] 64 [x_box; x_cone] s_ex).1 !! 3%positive = xs_heap s_ex !! 3%positive.
Proof.
  apply (export_loop_frame [100; 100; 100] 64 [x_box; x_cone] s_ex _
           (export_loop [100; 100; 100] 64 [x_box; x_cone] s_ex).2).
  - vm_compute. intros H. repeat (apply elem_of_cons in H as [H|H]; [done|]). by apply not_elem_of_nil in H.
  - by destruct (export_loop _ _ _ _).
Defined.

End Metadata.
