(* ===== verification/Sampler.v ===== *)
(** * The random object sampler ([create_random_object_list])

    [create_random_object_list] draws the objects of a bag. For every
    label [i] from [start_label = bb_label + 1] to [end_label - 1] it draws
    a material, a shape letter and the shape's float parameters. It may
    make the object a liquid container, whose liquid takes the next label
    from [self.lqd_count] (starting at [end_label]). It draws a spawn pose
    at the top of the bag and builds the [Object2D]. Then two adjustments
    may replace the object: a cap on the number of target materials, and a
    budget of metal pixels. A last loop adds target objects until there
    are [num_range[0]] of them.

    Randomness is an interface: the class [Rng] gives numpy's global
    generator (one stream behind [np.random] and [random], which
    [from numpy import *] binds to [numpy.random]), and [RngLaws] states
    what the sampler relies on. [rand()] lies in [0, 1), and a weighted
    [choice] returns an index with a positive weight. The theorems hold
    for every generator with these laws. [rdm.shuffle], Python's own
    [random], is a section variable that permutes.

    [Object2D] itself (the rasterizers, on float parameters) and
    [skimage.transform.rescale] are section variables too. The model
    keeps the SL dictionary, the pose and the label that the sampler reads
    and writes. The floats that the code draws are rationals; [int()]
    truncates toward zero and [//] floors. The examples that instantiate
    the theorems run on a fixed generator [fixed_rng], which satisfies the
    laws, and on the configuration [example_conf]. *)

From Stdlib Require Import ZArith Lia QArith Qround.
From stdpp Require Import base list numbers strings.
From S2P Require Import Prelude Result Grid Raster Session.
Open Scope Z_scope.
Open Scope raster_scope.

(** ** The generator *)

Class Rng (G : Type) := {
  rng_rand : G -> Q * G;                 (* [np.random.rand()], [random.random()] *)
  rng_choice : G -> list Q -> nat * G    (* the index of [choice(a, p=weights)] *)
}.

Class RngLaws (G : Type) `{!Rng G} := {
  rand_range : forall g q g', rng_rand g = (q, g') -> (0 <= q /\ q < 1)%Q;
  choice_pos : forall g ws k g', rng_choice g ws = (k, g') ->
    Exists (fun w => 0 < w)%Q ws -> exists w, ws !! k = Some w /\ (0 < w)%Q
}.

(** ** Data *)

(** [c_geom], the float parameters of each shape. [center] (a constant
    [array([0, 0, 0])]) and the custom mask read from disk are left out. *)
Inductive cgeom :=
  | GeomE (axes rot : list Q)
  | GeomB (dim rot : list Q)
  | GeomY (base apex : list Q) (radius : Q)
  | GeomC (base apex : list Q) (radius1 radius2 : Q)
  | GeomS (dim rot : list Q)
  | GeomM (dim rot : list Q) (scale : Q) (src : string).

(** [lqd_param] of the SL dictionary. *)
Record lqd_p := mkLqdP {
  lp_level : Q;
  lp_material : string;
  lp_thickness : Z;
  lp_label : Z
}.

(** The SL dictionary that [slh.create_sim_object] builds. *)
Record sdict := mkSD {
  sd_shape : shape_kind;
  sd_geom : cgeom;
  sd_material : string;
  sd_label : Z;
  sd_lqd : option lqd_p    (* [lqd_flag] and [lqd_param] *)
}.

(** An [Object2D]: its dictionary, pose, data and [label] attribute. The
    label is a rational because the metal adjustment overwrites it with a
    float. *)
Record sobj := mkSObj {
  so_dict : sdict;
  so_pose : list Z;
  so_data : grid;
  so_label : Q
}.

(** [number_of_objects]: a number, or a list to choose from. *)
Inductive nobj := NScalar (n : Z) | NList (l : list Z).

(** The arguments of [create_random_object_list] and the attributes of
    [self] that it reads ([mu_handler.metals],
    [mu_handler.curr_targets_list], [size], [bb_h]). *)
Record sconf := mkSConf {
  sc_material_list : list string;
  sc_liquid_list : list string;
  sc_material_pdf : list Q;
  sc_liquid_pdf : list Q;
  sc_lqd_prob : Q;
  sc_sheet_prob : Q;
  sc_dim_range : Z * Z;
  sc_number_of_objects : nobj;
  sc_spawn_sheets : bool;
  sc_spawn_liquids : bool;
  sc_sheet_dim_list : list Z;
  sc_custom_objects : option (list string);
  sc_custom_obj_prob : Q;
  sc_metal_amt : option Z;         (* [metal_dict['metal_amt']] *)
  sc_metal_size : option (Z * Z);  (* [metal_dict['metal_size']] *)
  sc_num_range : option (Z * Z);   (* [target_dict['num_range']] *)
  sc_is_liquid : bool;             (* [target_dict['is_liquid']] *)
  sc_metals : list string;
  sc_targets : list string;
  sc_size : Z;
  sc_bb_h : Z
}.

(** The material lists of lines 752-762. *)
Record mlists := mkML {
  ml_target : list string;
  ml_lqd_target : list string;
  ml_lqd_non_target : list string;
  ml_non_target : list string;
  ml_non_target_m : list string
}.

Definition material_lists (cf : sconf) : mlists :=
  let non_metal := filter (fun x => x ∉ sc_metals cf) (sc_material_list cf) in
  mkML (filter (fun x => x ∈ sc_targets cf) non_metal)
       (filter (fun x => x ∈ sc_targets cf) (sc_liquid_list cf))
       (filter (fun x => x ∉ sc_targets cf) (sc_liquid_list cf))
       (filter (fun x => x ∉ sc_targets cf) non_metal)
       (filter (fun x => x ∉ sc_targets cf) (sc_material_list cf)).

(** [int(x)] of a float: truncation toward zero. *)
Definition py_int_q (x : Q) : Z := Z.quot (Qnum x) (Zpos (Qden x)).

(** [x // 2] of a float: the floor, as a float. *)
Definition floor_div2 (x : Q) : Q := inject_Z (Qfloor (x / 2)).

(** ** Float arrays

    [skimage.transform.rescale] returns floats. The metal adjustment counts
    and indexes such arrays. *)

Record fgrid := mkFGrid { f_rows : Z; f_cols : Z; f_cell : Z -> Z -> Q }.

Definition fget (g : fgrid) (i j : Z) : Q :=
  if bool_decide (0 <= i < f_rows g /\ 0 <= j < f_cols g) then f_cell g i j else 0%Q.

(** The cells of [g] that [p] accepts, in raster order. *)
Definition f_cells (p : Q -> bool) (g : fgrid) : list (Z * Z) :=
  seqZ 0 (f_rows g) ≫= fun i =>
    (fun j => (i, j)) <$> filter (fun j => p (fget g i j) = true) (seqZ 0 (f_cols g)).

(** [count_nonzero(a)] *)
Definition f_count_nonzero (g : fgrid) : Z :=
  Z.of_nat (length (f_cells (fun q => negb (Qeq_bool q 0)) g)).

(** [a > 0], a boolean array, as floats. *)
Definition f_pos (g : fgrid) : fgrid :=
  mkFGrid (f_rows g) (f_cols g) (fun i j => if Qlt_le_dec 0 (fget g i j) then 1%Q else 0%Q).

(** [curr_obj.data > 0] *)
Definition f_of_grid (g : grid) : fgrid :=
  mkFGrid (rows g) (cols g) (fun i j => if 0 <? g.[i, j] then 1%Q else 0%Q).

(** [a[r, c]] of a float array. *)
Definition f_index (g : fgrid) (r c : Z) : result Q :=
  if bool_decide (- f_rows g <= r < f_rows g /\ - f_cols g <= c < f_cols g)
  then Ok (fget g (if r <? 0 then r + f_rows g else r) (if c <? 0 then c + f_cols g else c))
  else Err IndexError.

(** ** A fixed generator and a configuration for the examples

    [rand()] always gives 1/2 and [choice] the first index of positive
    weight; both laws hold. *)

Fixpoint first_pos (ws : list Q) : nat :=
  match ws with
  | [] => O
  | w :: ws' => if Qlt_le_dec 0 w then O else Datatypes.S (first_pos ws')
  end.

#[export] Instance fixed_rng : Rng nat := {
  rng_rand g := ((1#2)%Q, Datatypes.S g);
  rng_choice g ws := (first_pos ws, Datatypes.S g)
}.

Lemma first_pos_spec ws :
  Exists (fun w => 0 < w)%Q ws -> exists w, ws !! first_pos ws = Some w /\ (0 < w)%Q.
Proof.
  induction ws as [|w ws IH]; intros Hex; [inversion Hex|]. cbn.
  destruct (Qlt_le_dec 0 w) as [Hw|Hw]; [by exists w|].
  apply IH. inversion Hex as [? ? Hw'|]; [|done]. exfalso. apply (Qlt_not_le _ _ Hw' Hw).
Qed.

#[export] Instance fixed_rng_laws : RngLaws nat.
Proof.
  split.
  - intros g q g' [= <- _]. split; [discriminate|reflexivity].
  - intros g ws k g' [= <- _]. apply first_pos_spec.
Qed.

(** A bag of side 100 with a box of half height 30; [steel] is a metal and
    [tnt] a target liquid. *)
Definition example_conf : sconf := {|
  sc_material_list := ["steel"; "glass"; "explosive"]%string;
  sc_liquid_list := ["water"; "tnt"]%string;
  sc_material_pdf := [1#3; 1#3; 1#3];
  sc_liquid_pdf := [1#2; 1#2];
  sc_lqd_prob := 0;
  sc_sheet_prob := 0;
  sc_dim_range := (5, 10);
  sc_number_of_objects := NScalar 0;
  sc_spawn_sheets := false;
  sc_spawn_liquids := true;
  sc_sheet_dim_list := [2];
  sc_custom_objects := None;
  sc_custom_obj_prob := 0;
  sc_metal_amt := Some 300;
  sc_metal_size := None;
  sc_num_range := Some (1, 2);
  sc_is_liquid := true;
  sc_metals := ["steel"]%string;
  sc_targets := ["explosive"; "tnt"]%string;
  sc_size := 100;
  sc_bb_h := 30
|}.

(** [Object2D] that gives a one-pixel mask, the identity for [rescale]
    and [shuffle], and a steel box of 20 by 20 pixels. *)
Definition example_object2d (d : sdict) (p : list Z) : result grid := Ok (mkGrid 1 1 (fun _ _ => 1)).
Definition example_rescale (g : fgrid) (k : Q) : fgrid := g.
Definition example_shuffle (l : list sobj) : list sobj := l.
Definition example_steel : sobj :=
  mkSObj (mkSD B (GeomB [] []) "steel" 4 None) [40; 50; 60] (mkGrid 20 20 (fun _ _ => 1)) 1.

Section Sampler.
Context {G : Type} `{!Rng G}.

(** [sktr.rescale(image, scale)] *)
Variable rescale : fgrid -> Q -> fgrid.

(** The data of [Object2D(obj_dict, obj_pose)]: the labelled mask. *)
Variable object2d : sdict -> list Z -> result grid.

(** [rdm.shuffle] *)
Variable shuffle : list sobj -> list sobj.

(** ** State *)

Record sstate := mkSS {
  ss_rng : G;
  ss_lqd_count : Z;         (* [self.lqd_count] *)
  ss_target_counter : Z;    (* [target_counter] *)
  ss_metal_amt : option Z;  (* [orig_metal_amt] *)
  ss_obj_list : list sobj   (* [obj_list] *)
}.

Abbreviation SM := (SE sstate).

Definition set_rng (s : sstate) (g : G) : sstate :=
  mkSS g (ss_lqd_count s) (ss_target_counter s) (ss_metal_amt s) (ss_obj_list s).

(** Everything of the state but the generator. *)
Definition ss_rest (s : sstate) : Z * Z * option Z * list sobj :=
  (ss_lqd_count s, ss_target_counter s, ss_metal_amt s, ss_obj_list s).

(** The counter, the metal budget and the object list. *)
Definition ss_tl (s : sstate) : Z * option Z * list sobj :=
  (ss_target_counter s, ss_metal_amt s, ss_obj_list s).

(** [np.random.rand()] and [random.random()] *)
Definition rand : SM Q := fun s => let '(q, g) := rng_rand (ss_rng s) in (set_rng s g, Ok q).

(** [np.random.rand(n)] *)
Fixpoint rand_n (n : nat) : SM (list Q) :=
  match n with
  | O => mret []
  | Datatypes.S n' => q ← rand; qs ← rand_n n'; mret (q :: qs)
  end.

(** numpy's checks on [p]: no negative entry, and a sum within
    [sqrt(eps) = 2^-26] of 1. *)
Definition p_bad (ps : list Q) : bool :=
  existsb (fun q => negb (Qle_bool 0%Q q)) ps ||
  let t := fold_right Qplus 0%Q ps in
  negb (Qle_bool (1 - (1 # 67108864))%Q t && Qle_bool t (1 + (1 # 67108864))%Q).

(** [choice(a)] and [choice(a, p=p)]: [ValueError] on an empty [a], a
    [p] of another length, a negative [p] or one that does not sum to 1. *)
Definition np_choice {A} (a : list A) (p : option (list Q)) : SM A :=
  let ws := default (repeat 1%Q (length a)) p in
  if bool_decide (a = []) || negb (length ws =? length a)%nat || default false (p_bad <$> p)
  then se_lift (Err ValueError)
  else fun s => let '(k, g) := rng_choice (ss_rng s) ws in (set_rng s g, of_option ValueError (a !! k)).

(** ** The draws of one object *)

Variable cf : sconf.

(** [custom_obj_prob = 0.0 if custom_objects is None else custom_obj_prob] *)
Definition custom_prob : Q :=
  match sc_custom_objects cf with None => 0%Q | Some _ => sc_custom_obj_prob cf end.

(** [cshape = np.random.choice(...)]: the letters and weights of the main
    loop ([w] = 0.35, 0.25, 0.20, 0.20) or of the loop that adds targets
    ([w] = 0.25 four times). *)
Definition draw_shape (w : list Q) : SM shape_kind :=
  let sp := sc_sheet_prob cf in let cp := custom_prob in
  if sc_spawn_sheets cf then
    np_choice [E; B; Y; C; S; M] (Some (((fun a => a * (1 - sp - cp))%Q <$> w) ++ [sp; cp]))
  else
    np_choice [E; B; Y; C; M] (Some [((1#4) * (1 - cp))%Q; ((1#4) * (1 - cp))%Q;
                                      ((1#4) * (1 - cp))%Q; ((1#4) * (1 - cp))%Q; cp]).

Definition main_weights : list Q := [35#100; 25#100; 20#100; 20#100].
Definition extra_weights : list Q := [1#4; 1#4; 1#4; 1#4].

(** [rand(3) * a + b] *)
Definition vaff (qs : list Q) (a b : Q) : list Q := (fun q => q * a + b)%Q <$> qs.

(** [min_dim], [max_dim] and [diff_dim] of one object. *)
Record dims := mkDims { dm_min : Z; dm_max : Z; dm_diff : Z }.

(** The metal sizes for a metal when [metal_size] is given, else the
    sampler's [dim_range]. *)
Definition object_dims (c_mat : string) : dims :=
  match sc_metal_size cf with
  | Some (a, b) => if bool_decide (c_mat ∈ sc_metals cf) then mkDims a b (b - a)
                   else mkDims (sc_dim_range cf).1 (sc_dim_range cf).2
                               ((sc_dim_range cf).2 - (sc_dim_range cf).1)
  | None => mkDims (sc_dim_range cf).1 (sc_dim_range cf).2 ((sc_dim_range cf).2 - (sc_dim_range cf).1)
  end.

(** [c_geom] for each shape letter, drawn in the order of the source. *)
Definition sample_geom (cshape : shape_kind) (dm : dims) : SM cgeom :=
  let mn := inject_Z (dm_min dm) in let mx := inject_Z (dm_max dm) in
  let df := inject_Z (dm_diff dm) in
  match cshape with
  | E => axes ← rand_n 3; rot ← rand_n 3; mret (GeomE (vaff axes df mn) (vaff rot 90 0))
  | B => dim ← rand_n 3; rot ← rand_n 3; mret (GeomB (vaff dim df mn) (vaff rot 90 0))
  | Y => base ← rand_n 3; apex ← rand_n 3; r ← rand;
         mret (GeomY (vaff base df mn) (vaff apex df (mn + mx)%Q) (floor_div2 (r * df) + mn)%Q)
  | C => base ← rand_n 3; apex ← rand_n 3; r1 ← rand; r2 ← rand;
         mret (GeomC (vaff base df mn) (vaff apex df (mn + mn)%Q)
                     (floor_div2 (r1 * df) + mn)%Q (floor_div2 (r2 * df) + mn)%Q)
  | S => dim ← rand_n 3; d0 ← np_choice (sc_sheet_dim_list cf) None; rot ← rand_n 3;
         mret (GeomS (<[0%nat := inject_Z d0]> (vaff dim (mx * (1#2))%Q mx)) (vaff rot 90 0))
  | M => dim ← rand_n 3; rot ← rand_n 3; sc ← rand;
         src ← (match sc_custom_objects cf with
                | Some l => np_choice l None
                | None => se_lift (Err ValueError)
                end);
         mret (GeomM (vaff dim df mn) (vaff rot 90 0) (sc * 1 + (1#2))%Q src)
  end.

(** [pose_range = (size//2 - bb_h, size//2 + bb_h - min_dim*2)] *)
Definition pose_range : Z * Z :=
  (sc_size cf / 2 - sc_bb_h cf, sc_size cf / 2 + sc_bb_h cf - (sc_dim_range cf).1 * 2).

Definition pose_diff : Z := pose_range.2 - pose_range.1.

(** [c_pose = array([int(pose_range[0] + max_dim),
                     int(rand() * pose_diff + pose_range[0]),
                     int(rand() * pose_diff + pose_range[0])])] *)
Definition draw_pose (max_dim : Z) : SM (list Z) :=
  q1 ← rand; q2 ← rand;
  mret [pose_range.1 + max_dim;
        py_int_q (q1 * inject_Z pose_diff + inject_Z pose_range.1)%Q;
        py_int_q (q2 * inject_Z pose_diff + inject_Z pose_range.1)%Q].

(** ** Counters and the object list *)

(** [self.lqd_count += 1], returning the label it held. *)
Definition next_lqd_label : SM Z := fun s =>
  (mkSS (ss_rng s) (ss_lqd_count s + 1) (ss_target_counter s) (ss_metal_amt s) (ss_obj_list s),
   Ok (ss_lqd_count s)).

(** [target_counter += 1] *)
Definition incr_target : SM unit := se_modify (fun s =>
  mkSS (ss_rng s) (ss_lqd_count s) (ss_target_counter s + 1) (ss_metal_amt s) (ss_obj_list s)).

(** [orig_metal_amt = a] *)
Definition set_metal_amt (a : Z) : SM unit := se_modify (fun s =>
  mkSS (ss_rng s) (ss_lqd_count s) (ss_target_counter s) (Some a) (ss_obj_list s)).

(** [obj_list.append(curr_obj)] *)
Definition append_obj (o : sobj) : SM unit := se_modify (fun s =>
  mkSS (ss_rng s) (ss_lqd_count s) (ss_target_counter s) (ss_metal_amt s) (ss_obj_list s ++ [o])).

(** ** Building objects *)

(** [slh.create_sim_object(geom, shape, obj_material, label, lqd_flag, lqd_param)] *)
Definition create_sim_object (geom : cgeom) (shape : shape_kind) (mat : string) (label : Z)
    (lqd : option lqd_p) : sdict :=
  mkSD shape geom mat label lqd.

(** [Object2D(obj_dict, obj_pose)]: [self.label = obj_dict['label']]. *)
Definition make_obj (d : sdict) (pose : list Z) : SM sobj :=
  data ← se_lift (object2d d pose); mret (mkSObj d pose data (inject_Z (sd_label d))).

Inductive mtype := MNonmetal | MTarget | MNontarget.

(** [change_object_material(material_type, contains_liquid)], a closure
    that reads [i], [c_pose], [cshape] and [c_geom] of the enclosing
    function. [ip] holds [i] and [c_pose]; [None] when the loop that binds
    them never ran, and reading them raises [NameError]. *)
Definition change_object_material (ml : mlists) (material_type : mtype) (contains_liquid : bool)
    (ip : option (Z * list Z)) (cshape : shape_kind) (c_geom : cgeom) : SM (sdict * sobj) :=
  curr_mat ← (match material_type with
              | MTarget => if contains_liquid then np_choice (ml_non_target ml) None
                           else np_choice (ml_target ml) None
              | _ => np_choice (ml_non_target ml) None
              end);
  d ← (if contains_liquid then
         lqd_material ← np_choice (if sc_is_liquid cf then ml_lqd_target ml
                                   else ml_lqd_non_target ml) None;
         level ← rand; th ← np_choice (sc_sheet_dim_list cf) None; lbl ← next_lqd_label;
         curr_mat' ← (if bool_decide (curr_mat ∈ ml_target ml)
                      then np_choice (ml_non_target_m ml) None else mret curr_mat);
         '(i, _) ← se_lift (of_option NameError ip);
         mret (create_sim_object c_geom cshape curr_mat' i
                 (Some (mkLqdP (level * (1#2) + (2#5))%Q lqd_material th lbl)))
       else
         '(i, _) ← se_lift (of_option NameError ip);
         mret (create_sim_object c_geom cshape curr_mat i None));
  '(_, c_pose) ← se_lift (of_option NameError ip);
  o ← make_obj d c_pose;
  mret (d, o).

(** The liquid branch of the main loop: [lqd_param] with the next liquid
    label, the cap on target liquids, and a container whose material is
    not a target. It returns the new [c_mat] and [obj_dict]. *)
Definition liquid_dict (ml : mlists) (i : Z) (c_mat : string) (cshape : shape_kind) (c_geom : cgeom)
    : SM (string * sdict) :=
  level ← rand; lm ← np_choice (sc_liquid_list cf) (Some (sc_liquid_pdf cf));
  th ← np_choice (sc_sheet_dim_list cf) None; lbl ← next_lqd_label;
  lm' ← (if bool_decide (lm ∈ ml_lqd_target ml) then
           cnt ← se_gets ss_target_counter;
           match sc_num_range cf with
           | Some (_, hi) => if cnt =? hi then np_choice (ml_lqd_non_target ml) None
                             else incr_target;; mret lm
           | None => incr_target;; mret lm
           end
         else mret lm);
  c_mat' ← (if bool_decide (c_mat ∈ ml_target ml) then np_choice (ml_non_target_m ml) None
            else mret c_mat);
  mret (c_mat', create_sim_object c_geom cshape c_mat' i
                  (Some (mkLqdP (level * (1#2) + (2#5))%Q lm' th lbl))).

(** [while orig_metal_amt < obj_amt and cnt < 5: bin_data =
    sktr.rescale(bin_data > 0, 0.8); obj_amt = count_nonzero(bin_data)],
    with the loop's own bound 5 as fuel. *)
Fixpoint shrink_loop (fuel : nat) (amt : Z) (bin : fgrid) (obj_amt cnt : Z) : fgrid * Z :=
  match fuel with
  | O => (bin, obj_amt)
  | Datatypes.S f =>
      if (amt <? obj_amt) && (cnt <? 5) then
        let b := rescale (f_pos bin) (4#5) in shrink_loop f amt b (f_count_nonzero b) (cnt + 1)
      else (bin, obj_amt)
  end.

(** The metal adjustment of a metal object when [metal_amt] is given:
    replace it when the budget [a] is exhausted, charge it when it fits,
    otherwise shrink a copy of its mask until it fits. The shrunk mask is
    charged to the budget, but only one of its pixels is kept, as the
    object's [label]. *)
Definition metal_adjust (ml : mlists) (i : Z) (c_pose : list Z) (cshape : shape_kind)
    (c_geom : cgeom) (a : Z) (o : sobj) : SM sobj :=
  let obj_amt := count_nonzero (so_data o) in
  let replace := p ← change_object_material ml MNonmetal false (Some (i, c_pose)) cshape c_geom;
                 mret p.2 in
  if a <=? 225 then replace
  else if obj_amt <=? a then set_metal_amt (a - obj_amt);; mret o
  else if bool_decide (is_Some (sd_lqd (so_dict o))) then replace
  else
    let '(bin, amt') := shrink_loop 5 a (f_of_grid (so_data o)) obj_amt 0 in
    if amt' <? 225 then replace
    else
      set_metal_amt (a - amt');;
      let pos := f_cells (fun q => if Qlt_le_dec 0 q then true else false) bin in
      r1 ← se_lift (of_option ValueError (list_max (fst <$> pos)));
      r0 ← se_lift (of_option ValueError (list_min (fst <$> pos)));
      c1 ← se_lift (of_option ValueError (list_max (snd <$> pos)));
      c0 ← se_lift (of_option ValueError (list_min (snd <$> pos)));
      v ← se_lift (f_index bin (r1 - r0) (c1 - c0));
      mret (mkSObj (so_dict o) (so_pose o) (so_data o) (so_label o * v)%Q).

(** The dictionary of the pass: with [liquid_option], the liquid branch;
    otherwise [create_sim_object] without liquid. *)
Definition obj_dict_of (ml : mlists) (i : Z) (c_mat : string) (cshape : shape_kind) (c_geom : cgeom)
    (liquid_option : bool) : SM (string * sdict) :=
  if liquid_option then liquid_dict ml i c_mat cshape c_geom
  else mret (c_mat, create_sim_object c_geom cshape c_mat i None).

(** "Adjusting for too many targets": a target material drawn when the
    counter has reached [num_range[1]] is replaced by
    [change_object_material('nontarget', is_liquid)]. *)
Definition target_cap (ml : mlists) (i : Z) (c_pose : list Z) (cshape : shape_kind) (c_geom : cgeom)
    (c_mat : string) (o : sobj) : SM sobj :=
  cnt ← se_gets ss_target_counter;
  match sc_num_range cf with
  | Some (_, hi) =>
      if (cnt =? hi) && bool_decide (c_mat ∈ ml_target ml) then
        p ← change_object_material ml MNontarget (sc_is_liquid cf) (Some (i, c_pose)) cshape c_geom;
        mret p.2
      else mret o
  | None => mret o
  end.

(** "Adjusting for Metal Objects": [metal_adjust] for a metal when
    [metal_amt] is given. *)
Definition metal_step (ml : mlists) (i : Z) (c_pose : list Z) (cshape : shape_kind) (c_geom : cgeom)
    (c_mat : string) (o : sobj) : SM sobj :=
  amt ← se_gets ss_metal_amt;
  match amt with
  | Some a => if bool_decide (c_mat ∈ sc_metals cf) then metal_adjust ml i c_pose cshape c_geom a o
              else mret o
  | None => mret o
  end.

(** [if curr_obj.obj_dict['material'] in target_list: target_counter += 1] *)
Definition count_target (ml : mlists) (o : sobj) : SM unit :=
  if bool_decide (sd_material (so_dict o) ∈ ml_target ml) then incr_target else mret ().

(** One pass of [for i in range(self.start_label, self.end_label)]. It
    returns the object's [min_dim], [max_dim], [diff_dim] and [c_pose],
    which outlive the loop. *)
Definition main_iter (ml : mlists) (i : Z) : SM (dims * list Z) :=
  c_mat ← np_choice (sc_material_list cf) (Some (sc_material_pdf cf));
  let dm := object_dims c_mat in
  cshape ← draw_shape main_weights;
  c_geom ← sample_geom cshape dm;
  lopt ← np_choice [true; false] (Some [sc_lqd_prob cf; (1 - sc_lqd_prob cf)%Q]);
  let liquid_option := lopt && bool_decide (cshape <> S) && bool_decide (cshape <> M)
                       && sc_spawn_liquids cf in
  c_pose ← draw_pose (dm_max dm);
  '(c_mat, d) ← obj_dict_of ml i c_mat cshape c_geom liquid_option;
  o ← make_obj d c_pose;
  o ← target_cap ml i c_pose cshape c_geom c_mat o;
  o ← metal_step ml i c_pose cshape c_geom c_mat o;
  append_obj o;;
  count_target ml o;;
  mret (dm, c_pose).

(** The main loop from label [i], [n] passes. It returns the variables
    that the passes leave bound: the last [min_dim], [max_dim],
    [diff_dim], [i] and [c_pose]. *)
Fixpoint main_loop (ml : mlists) (i : Z) (n : nat) (last : option (dims * (Z * list Z)))
    : SM (option (dims * (Z * list Z))) :=
  match n with
  | O => mret last
  | Datatypes.S n' => '(dm, c_pose) ← main_iter ml i; main_loop ml (i + 1) n' (Some (dm, (i, c_pose)))
  end.

(** One pass of [while target_counter < num_range[0]]: a new shape and
    geometry with the [min_dim], [max_dim] and [diff_dim] that the main
    loop left, [change_object_material('target', is_liquid)] with its [i]
    and [c_pose], the append and the count. *)
Definition extra_pass (ml : mlists) (dm : dims) (ip : option (Z * list Z)) : SM unit :=
  cshape ← draw_shape extra_weights;
  c_geom ← sample_geom cshape dm;
  p ← change_object_material ml MTarget (sc_is_liquid cf) ip cshape c_geom;
  append_obj p.2;; incr_target.

(** The loop. Every pass adds one to the counter, so [lo - target_counter]
    passes are enough. *)
Fixpoint extra_loop (ml : mlists) (fuel : nat) (lo : Z) (dm : dims) (ip : option (Z * list Z))
    : SM unit :=
  match fuel with
  | O => mret ()
  | Datatypes.S f =>
      cnt ← se_gets ss_target_counter;
      if cnt <? lo then extra_pass ml dm ip;; extra_loop ml f lo dm ip else mret ()
  end.

(** The attributes of [self] that the sampler sets. *)
Record sattrs := mkSAttrs {
  sa_pose_range : Z * Z;
  sa_pose_diff : Z;
  sa_start_label : Z;
  sa_end_label : Z
}.

(** [create_random_object_list]: the locals [target_counter = 0],
    [obj_list = []] and [orig_metal_amt], the labels, the two loops and
    the shuffle. *)
Definition create_random_object_list : SM (list sobj * sattrs) :=
  let ml := material_lists cf in
  let dm0 := mkDims (sc_dim_range cf).1 (sc_dim_range cf).2 ((sc_dim_range cf).2 - (sc_dim_range cf).1) in
  n ← (match sc_number_of_objects cf with NScalar n => mret n | NList l => np_choice l None end);
  let start_label := bb_label + 1 in
  let end_label := start_label + n in
  se_modify (fun s => mkSS (ss_rng s) end_label 0 (sc_metal_amt cf) []);;
  last ← main_loop ml start_label (Z.to_nat n) None;
  let dm := match last with Some (dm, _) => dm | None => dm0 end in
  let ip := snd <$> last in
  (match sc_num_range cf with
   | Some (lo, _) => cnt ← se_gets ss_target_counter;
                     if cnt <? lo then extra_loop ml (Z.to_nat (lo - cnt)) lo dm ip else mret ()
   | None => mret ()
   end);;
  l ← se_gets ss_obj_list;
  mret (shuffle l, mkSAttrs pose_range pose_diff start_label end_label).

(** ** Footprints: what each step changes *)

Lemma rest_rand : se_keeps ss_rest rand.
Proof. intros s s' r. unfold rand. destruct (rng_rand _). by intros [= <- _]. Qed.

Lemma rest_rand_n n : se_keeps ss_rest (rand_n n).
Proof. induction n; simpl; eauto using rest_rand with se_keeps. Qed.

Lemma rest_np_choice {A} (a : list A) p : se_keeps ss_rest (np_choice a p).
Proof.
  unfold np_choice. case_match; [apply se_keeps_lift|].
  intros s s' r. destruct (rng_choice _ _). by intros [= <- _].
Qed.

#[local] Hint Resolve rest_rand rest_rand_n rest_np_choice : se_keeps.

Lemma rest_draw_shape w : se_keeps ss_rest (draw_shape w).
Proof. unfold draw_shape. case_match; auto with se_keeps. Qed.

Lemma rest_sample_geom k dm : se_keeps ss_rest (sample_geom k dm).
Proof.
  unfold sample_geom. destruct k; repeat (apply se_keeps_bind; [|intros ?]); auto with se_keeps.
  case_match; auto with se_keeps.
Qed.

Lemma rest_draw_pose m : se_keeps ss_rest (draw_pose m).
Proof. unfold draw_pose. eauto 6 with se_keeps. Qed.

Lemma rest_make_obj d p : se_keeps ss_rest (make_obj d p).
Proof. unfold make_obj. eauto with se_keeps. Qed.

#[local] Hint Resolve rest_draw_shape rest_sample_geom rest_draw_pose rest_make_obj : se_keeps.

(** The parts of the state that a step keeps when it keeps [ss_rest]. *)
Lemma rest_keeps {A} (m : SM A) s s' r :
  se_keeps ss_rest m -> m s = (s', r) ->
  ss_lqd_count s' = ss_lqd_count s /\ ss_target_counter s' = ss_target_counter s /\
  ss_metal_amt s' = ss_metal_amt s /\ ss_obj_list s' = ss_obj_list s.
Proof. intros Hk Hm. specialize (Hk _ _ _ Hm). unfold ss_rest in Hk. by simplify_eq. Qed.

Lemma np_choice_elem {A} (a : list A) p s s' x :
  np_choice a p s = (s', Ok x) -> x ∈ a.
Proof.
  unfold np_choice. case_match; [done|]. destruct (rng_choice _ _) as [k g].
  intros [= _ Hx]. destruct (a !! k) eqn:E; simplify_eq/=. by eapply list_elem_of_lookup_2.
Qed.

Lemma next_lqd_label_spec s s' l :
  next_lqd_label s = (s', Ok l) ->
  l = ss_lqd_count s /\ ss_lqd_count s' = ss_lqd_count s + 1 /\
  ss_target_counter s' = ss_target_counter s /\ ss_metal_amt s' = ss_metal_amt s /\
  ss_obj_list s' = ss_obj_list s.
Proof. by intros [= <- <-]. Qed.

Lemma make_obj_spec d p s s' o :
  make_obj d p s = (s', Ok o) ->
  s' = s /\ so_dict o = d /\ so_pose o = p /\ so_label o = inject_Z (sd_label d).
Proof.
  unfold make_obj. intros H. se_inv. repeat split.
Qed.

(** Apply [rest_keeps] to every step of the context that keeps [ss_rest]. *)
Ltac rest_steps :=
  repeat match goal with
  | H : ?m ?s = (?s', _) |- _ =>
      let K := fresh "K" in
      assert (K : se_keeps ss_rest m) by (repeat case_match; auto with se_keeps);
      apply (rest_keeps _ _ _ _ K) in H as (? & ? & ? & ?); clear K
  end.


Lemma change_object_material_spec ml mt cl i p cshape g s s' d o :
  change_object_material ml mt cl (Some (i, p)) cshape g s = (s', Ok (d, o)) ->
  so_dict o = d /\ so_pose o = p /\ sd_label d = i /\ sd_shape d = cshape /\
  ss_target_counter s' = ss_target_counter s /\ ss_obj_list s' = ss_obj_list s /\
  ss_metal_amt s' = ss_metal_amt s /\
  (if cl then exists lp, sd_lqd d = Some lp /\ lp_label lp = ss_lqd_count s /\
                ss_lqd_count s' = ss_lqd_count s + 1 /\
                lp_material lp ∈ (if sc_is_liquid cf then ml_lqd_target ml else ml_lqd_non_target ml)
   else sd_lqd d = None /\ ss_lqd_count s' = ss_lqd_count s).
Proof.
  unfold change_object_material. intros H. se_inv.
  apply make_obj_spec in H3 as (-> & Hd & Hp & _). subst d.
  destruct cl; se_inv.
  - match goal with
    | Hc : np_choice (if sc_is_liquid cf then _ else _) None _ = _ |- _ =>
        pose proof (np_choice_elem _ _ _ _ _ Hc)
    end.
    match goal with
    | Hl : next_lqd_label _ = _ |- _ => apply next_lqd_label_spec in Hl as (-> & ? & ? & ? & ?)
    end.
    rest_steps. match goal with Hd : _ = so_dict o |- _ => rewrite <- Hd end.
    cbn. split_and!; try done; try congruence. eexists. split_and!; try done; cbn; lia.
  - rest_steps. match goal with Hd : _ = so_dict o |- _ => rewrite <- Hd end.
    cbn. split_and!; try done; congruence.
Qed.

Lemma tl_of_rest {A} (m : SM A) : se_keeps ss_rest m -> se_keeps ss_tl m.
Proof. intros Hk s s' r Hm. specialize (Hk _ _ _ Hm). unfold ss_rest in Hk. unfold ss_tl. injection Hk. congruence. Qed.

Lemma tl_next_lqd_label : se_keeps ss_tl next_lqd_label.
Proof. by intros s s' r [= <- _]. Qed.

#[local] Hint Resolve tl_of_rest tl_next_lqd_label : se_keeps.

Lemma tl_change_object_material ml mt cl ip cshape g :
  se_keeps ss_tl (change_object_material ml mt cl ip cshape g).
Proof.
  unfold change_object_material.
  repeat first [apply se_keeps_bind; [|intros ?] | case_match]; auto with se_keeps.
Qed.

(** Split the first step of a run: it returns or it raises. *)
Ltac se_step :=
  rewrite se_bind_eq;
  match goal with
  | |- context [match ?m ?s with _ => _ end] =>
      let E := fresh "E" in destruct (m s) as [? [?|?]] eqn:E
  end.


Lemma tl_keeps {A} (m : SM A) s s' r :
  se_keeps ss_tl m -> m s = (s', r) ->
  ss_target_counter s' = ss_target_counter s /\ ss_obj_list s' = ss_obj_list s.
Proof. intros Hk Hm. specialize (Hk _ _ _ Hm). unfold ss_tl in Hk. injection Hk. done. Qed.

Lemma extra_pass_Ok ml dm i p s s' u :
  extra_pass ml dm (Some (i, p)) s = (s', Ok u) ->
  exists o, ss_obj_list s' = ss_obj_list s ++ [o] /\ sd_label (so_dict o) = i /\
            so_pose o = p /\ ss_target_counter s' = ss_target_counter s + 1.
Proof.
  unfold extra_pass. intros H. se_inv. rest_steps.
  match goal with a : (sdict * sobj)%type |- _ => destruct a as [d o] end.
  match goal with E : change_object_material _ _ _ _ _ _ _ = _ |- _ =>
    apply change_object_material_spec in E as (Hd & Hp & Hl & _ & Hc & Ho & _) end.
  unfold append_obj, incr_target, se_modify in *. simplify_eq/=.
  exists o. split_and!; congruence.
Qed.

(** A raising pass appends nothing and counts nothing: the raise comes
    before the append. *)
Lemma extra_pass_Err ml dm ip s s' e :
  extra_pass ml dm ip s = (s', Err e) ->
  ss_target_counter s' = ss_target_counter s /\ ss_obj_list s' = ss_obj_list s.
Proof.
  assert (K : se_keeps_err ss_tl (extra_pass ml dm ip)).
  { unfold extra_pass.
    do 3 (apply se_keeps_err_bind; [solve [auto using tl_change_object_material with se_keeps]|intros ?]).
    by apply se_keeps_err_modify_bind. }
  intros H. specialize (K _ _ _ H). unfold ss_tl in K. by simplify_eq.
Qed.

Lemma extra_pass_counter ml dm ip s s' u :
  extra_pass ml dm ip s = (s', Ok u) -> ss_target_counter s' = ss_target_counter s + 1.
Proof.
  unfold extra_pass. intros H. se_inv. rest_steps.
  match goal with E : change_object_material _ _ _ _ _ _ _ = _ |- _ =>
    apply (tl_keeps _ _ _ _ (tl_change_object_material _ _ _ _ _ _)) in E as [? ?] end.
  unfold append_obj, incr_target, se_modify in *. simplify_eq/=. congruence.
Qed.

(** C20: The loop that adds target objects gives every object it adds the
    label [i] and the pose [c_pose] that the main loop left bound: the
    label and the spawn pose of the last object of the main loop. It adds
    one to [target_counter] per object, whether it returns or raises. *)
Theorem extra_loop_reuses_label ml fuel lo dm i p s s' r :
  extra_loop ml fuel lo dm (Some (i, p)) s = (s', r) ->
  exists new, ss_obj_list s' = ss_obj_list s ++ new /\
    Forall (fun o => sd_label (so_dict o) = i /\ so_pose o = p) new /\
    ss_target_counter s' = ss_target_counter s + Z.of_nat (length new).
Proof.
  assert (Hnil : forall s1 : sstate, ss_obj_list s1 = ss_obj_list s ->
            ss_target_counter s1 = ss_target_counter s ->
            exists new, ss_obj_list s1 = ss_obj_list s ++ new /\
              Forall (fun o => sd_label (so_dict o) = i /\ so_pose o = p) new /\
              ss_target_counter s1 = ss_target_counter s + Z.of_nat (length new))
    by (intros s1 H1 H2; exists []; rewrite app_nil_r; split_and!; [done|apply List.Forall_nil|simpl; lia]).
  revert s Hnil. induction fuel as [|f IH]; intros s Hnil; simpl; [intros [= <- _]; by apply Hnil|].
  rewrite se_bind_eq. unfold se_gets. cbv beta iota.
  destruct (ss_target_counter s <? lo); [|intros [= <- _]; by apply Hnil].
  se_step; [|intros [= <- _]; apply extra_pass_Err in E as [? ?]; by apply Hnil].
  apply extra_pass_Ok in E as (o & Ho & Hl & Hp & Hc).
  intros Hrun. apply IH in Hrun as (new & Hn & Hf & Hc');
    [|intros s1 H1 H2; exists []; rewrite app_nil_r; split_and!; [done|apply List.Forall_nil|simpl; lia]].
  exists (o :: new). rewrite Hn, Ho, <- app_assoc. split_and!; [done| |cbn [length]; lia].
  constructor; [done|exact Hf].
Qed.

(** C27: The loop that adds targets stops by its own condition: with the
    [lo - target_counter] passes that [create_random_object_list] gives
    it, one more pass of fuel changes nothing, and when it returns the
    counter has reached [num_range[0]]. *)
Theorem extra_loop_fuel ml lo dm ip f s :
  (Z.to_nat (lo - ss_target_counter s) <= f)%nat ->
  extra_loop ml (Datatypes.S f) lo dm ip s = extra_loop ml f lo dm ip s /\
  (forall s' u, extra_loop ml f lo dm ip s = (s', Ok u) -> lo <= ss_target_counter s').
Proof.
  revert s. induction f as [|f IH]; intros s Hf.
  - assert (Hc : (ss_target_counter s <? lo) = false) by (apply Z.ltb_ge; lia).
    cbn [extra_loop]. rewrite se_bind_eq. unfold se_gets. cbn. rewrite Hc.
    split; [done|]. intros s' u [= <- _]. lia.
  - cbn [extra_loop]. rewrite !(se_bind_eq (se_gets _)). unfold se_gets. cbv beta iota.
    destruct (ss_target_counter s <? lo) eqn:Hc.
    + apply Z.ltb_lt in Hc. rewrite !se_bind_eq.
      destruct (extra_pass ml dm ip s) as [s1 [u|e]] eqn:Ep; [|done].
      apply extra_pass_counter in Ep.
      destruct (IH s1) as [IH1 IH2]; [rewrite Ep; lia|].
      split; [exact IH1|exact IH2].
    + apply Z.ltb_ge in Hc. split; [done|]. intros s' u [= <- _]. lia.
Qed.

(** C18: The shrinking branch of the metal adjustment does not shrink the
    object. When the budget [a] is above 225 pixels but below the
    object's [obj_amt], the object holds no liquid and five rescales by
    0.8 bring the copy [bin_data] to [amt'] pixels, with [amt'] at least
    225, the budget is charged [amt'] but the object keeps its data. It
    still has [obj_amt > a] metal pixels. Only its [label] changes: it is
    multiplied by one pixel of the shrunk copy. *)
Theorem metal_adjust_shrink_keeps_data ml i p cshape g a o s s' o' :
  225 < a -> a < count_nonzero (so_data o) -> sd_lqd (so_dict o) = None ->
  225 <= (shrink_loop 5 a (f_of_grid (so_data o)) (count_nonzero (so_data o)) 0).2 ->
  metal_adjust ml i p cshape g a o s = (s', Ok o') ->
  so_data o' = so_data o /\ a < count_nonzero (so_data o') /\
  so_dict o' = so_dict o /\ so_pose o' = so_pose o /\
  (exists v, so_label o' = (so_label o * v)%Q) /\
  ss_metal_amt s' = Some (a - (shrink_loop 5 a (f_of_grid (so_data o)) (count_nonzero (so_data o)) 0).2) /\
  ss_obj_list s' = ss_obj_list s /\ ss_target_counter s' = ss_target_counter s.
Proof.
  intros Ha Hamt Hl Hsh. unfold metal_adjust.
  rewrite (proj2 (Z.leb_gt _ _) Ha), (proj2 (Z.leb_gt _ _) Hamt), Hl.
  destruct (shrink_loop _ _ _ _ _) as [bin amt'] eqn:E. cbn in Hsh |- *.
  rewrite (proj2 (Z.ltb_ge _ _) Hsh). intros H. se_inv.
  unfold set_metal_amt, se_modify in *. simplify_eq/=. split_and!; eauto.
Qed.

(** ** Spawn poses *)

Lemma rand_in_range `{!RngLaws G} s s' q : rand s = (s', Ok q) -> (0 <= q /\ q < 1)%Q.
Proof. unfold rand. destruct (rng_rand _) eqn:E. intros [= _ <-]. exact (rand_range _ _ _ E). Qed.

(** [int()] of a nonnegative float is its floor. *)
Lemma py_int_q_floor x : (0 <= x)%Q -> py_int_q x = Qfloor x.
Proof.
  destruct x as [n d]. unfold py_int_q, Qfloor, Qle. cbn. intros H.
  apply Z.quot_div_nonneg; lia.
Qed.

Lemma py_int_q_range q lo d :
  0 <= lo -> 0 < d -> (0 <= q /\ q < 1)%Q ->
  lo <= py_int_q (q * inject_Z d + inject_Z lo)%Q < lo + d.
Proof.
  intros Hlo Hd [Hq0 Hq1].
  assert (Hd' : (0 < inject_Z d)%Q) by (change 0%Q with (inject_Z 0); rewrite <- Zlt_Qlt; exact Hd).
  assert (H0 : (0 <= q * inject_Z d)%Q) by (apply Qmult_le_0_compat; [exact Hq0|apply Qlt_le_weak, Hd']).
  assert (H1 : (q * inject_Z d < inject_Z d)%Q)
    by (rewrite <- (Qmult_1_l (inject_Z d)) at 2; apply Qmult_lt_r; [exact Hd'|exact Hq1]).
  rewrite py_int_q_floor.
  2: { apply (Qle_trans _ (inject_Z lo)); [change 0%Q with (inject_Z 0); rewrite <- Zle_Qle; lia|].
       rewrite <- (Qplus_0_l (inject_Z lo)) at 1. apply Qplus_le_l, H0. }
  split.
  - rewrite <- (Qfloor_Z lo) at 1. apply Qfloor_resp_le.
    rewrite <- (Qplus_0_l (inject_Z lo)) at 1. apply Qplus_le_l, H0.
  - rewrite Zlt_Qlt. eapply Qle_lt_trans; [apply Qfloor_le|].
    rewrite inject_Z_plus, Qplus_comm. apply Qplus_lt_r, H1.
Qed.

(** C28: [c_pose] puts the object at row [pose_range[0] + max_dim], the
    top of the bag's box, and draws its other two coordinates in
    [[pose_range[0], pose_range[1])] when the box has a positive width
    and a nonnegative start. *)
Theorem draw_pose_bounds `{!RngLaws G} m s s' pose :
  0 <= pose_range.1 -> 0 < pose_diff ->
  draw_pose m s = (s', Ok pose) ->
  exists y x, pose = [pose_range.1 + m; y; x] /\
    pose_range.1 <= y < pose_range.2 /\ pose_range.1 <= x < pose_range.2.
Proof.
  intros Hlo Hd H. unfold draw_pose in H. se_inv.
  repeat match goal with E : rand _ = (_, Ok ?q) |- _ =>
    apply rand_in_range in E; pose proof (py_int_q_range q _ _ Hlo Hd E); clear E end.
  eexists _, _. split; [done|]. unfold pose_diff, pose_range in *; cbn in *. lia.
Qed.

(** ** The cap on targets *)

Lemma non_target_not_target x :
  x ∈ ml_non_target (material_lists cf) \/ x ∈ ml_non_target_m (material_lists cf) ->
  x ∉ ml_target (material_lists cf).
Proof.
  cbn. rewrite !list_elem_of_filter. intros [[Hx _]|[Hx _]] [Ht _]; contradiction.
Qed.

(** A container that [change_object_material] makes takes its material
    from [non_target_list], or from [non_target_list_m] when it drew a
    target. *)
Lemma change_object_material_container ml mt i p cshape g s s' d o :
  change_object_material ml mt true (Some (i, p)) cshape g s = (s', Ok (d, o)) ->
  sd_material d ∈ ml_non_target ml \/ sd_material d ∈ ml_non_target_m ml.
Proof.
  unfold change_object_material. intros H. se_inv.
  match goal with E : make_obj _ _ _ = _ |- _ => apply make_obj_spec in E as (_ & Hd & _) end.
  cbn. destruct mt; case_bool_decide; se_inv;
    repeat match goal with
    | E : np_choice _ _ _ = (_, Ok _) |- _ => apply np_choice_elem in E
    end; auto.
Qed.

(** C19: When the target count has reached [num_range[1]] and [is_liquid]
    is set, the replacement [change_object_material('nontarget', True)]
    makes a container whose liquid is a target material, while the
    container's own material is not a target. The main loop counts only
    the container's material, so this target goes uncounted and the bag
    can hold more than [num_range[1]] targets. *)
Theorem cap_replacement_hides_target i p cshape g s s' d o :
  sc_is_liquid cf = true ->
  change_object_material (material_lists cf) MNontarget true (Some (i, p)) cshape g s = (s', Ok (d, o)) ->
  (sd_material (so_dict o) ∉ ml_target (material_lists cf)) /\
  (exists lp, sd_lqd (so_dict o) = Some lp /\ lp_material lp ∈ sc_targets cf) /\
  ss_target_counter s' = ss_target_counter s.
Proof.
  intros Hl H. pose proof (change_object_material_container _ _ _ _ _ _ _ _ _ _ H) as Hm.
  apply change_object_material_spec in H as (-> & _ & _ & _ & Hc & _ & _ & lp & Hlp & _ & _ & Hmat).
  rewrite Hl in Hmat. split_and!; [by apply non_target_not_target| |done].
  exists lp. split; [done|]. cbn in Hmat. by apply list_elem_of_filter in Hmat as [? _].
Qed.

(** ** The exceptions of the draws *)

Lemma raises_rand P : se_raises P rand.
Proof. intros s s' e. unfold rand. by destruct (rng_rand _). Qed.

Lemma raises_rand_n P n : se_raises P (rand_n n).
Proof. induction n; simpl; eauto using raises_rand with se_keeps. Qed.

Lemma raises_np_choice {A} P (a : list A) p : P ValueError -> se_raises P (np_choice a p).
Proof.
  intros HP. unfold np_choice. case_match; [by apply se_raises_lift; intros ? [= <-]|].
  intros s s' e. destruct (rng_choice _ _) as [k g]. intros [= _ Hr].
  by destruct (a !! k); simplify_eq/=.
Qed.

Lemma raises_next_lqd_label P : se_raises P next_lqd_label.
Proof. by intros s s' e [= _ Hr]. Qed.

#[local] Hint Resolve raises_rand raises_rand_n raises_np_choice raises_next_lqd_label
  se_raises_lift_Err : se_keeps.

Ltac raises_auto :=
  repeat first [ solve [auto with se_keeps]
               | apply se_raises_bind_Err; cbn [of_option]; solve [auto]
               | apply se_raises_bind; [|intros ?]
               | case_match ].

Lemma raises_draw_shape P w : P ValueError -> se_raises P (draw_shape w).
Proof. intros. unfold draw_shape. raises_auto. Qed.

Lemma raises_sample_geom P k dm : P ValueError -> se_raises P (sample_geom k dm).
Proof. intros. unfold sample_geom. destruct k; raises_auto. Qed.

#[local] Hint Resolve raises_draw_shape raises_sample_geom : se_keeps.

Ltac fails_auto :=
  repeat first [ apply se_fails_lift_Err; solve [auto]
               | progress cbn [of_option]
               | apply se_fails_bind; [solve [raises_auto] | intros ?]
               | case_match ].

(** Without [i] and [c_pose], [change_object_material] cannot return: it
    raises the [NameError] of reading them, or the [ValueError] of an
    earlier draw. *)
Lemma change_object_material_unbound ml mt cl cshape g :
  se_fails (fun e => e = NameError \/ e = ValueError)
    (change_object_material ml mt cl None cshape g).
Proof. unfold change_object_material. fails_auto. Qed.

(** A pass of the target loop that runs without [i] and [c_pose] raises. *)
Lemma extra_pass_unbound ml dm :
  se_fails (fun e => e = NameError \/ e = ValueError) (extra_pass ml dm None).
Proof.
  unfold extra_pass. apply se_fails_bind; [raises_auto|intros k].
  apply se_fails_bind; [raises_auto|intros g].
  apply se_fails_bind_l, change_object_material_unbound.
Qed.

(** C21: With [number_of_objects = 0] and a target minimum [num_range[0]]
    above zero, [create_random_object_list] never returns. The main loop
    never binds [i] and [c_pose], the loop that adds targets runs, and
    [change_object_material] reads them: a [NameError], unless a draw
    before it raised a [ValueError]. *)
Theorem create_random_object_list_no_objects s lo hi :
  sc_number_of_objects cf = NScalar 0 -> sc_num_range cf = Some (lo, hi) -> 0 < lo ->
  exists e, (create_random_object_list s).2 = Err e /\ (e = NameError \/ e = ValueError).
Proof.
  intros Hn Hr Hlo. unfold create_random_object_list. rewrite Hn, Hr.
  cbv [mbind SE_bind se_modify se_gets mret SE_ret]. simpl.
  rewrite (proj2 (Z.ltb_lt 0 lo) Hlo).
  destruct (Z.to_nat (lo - 0)) as [|f] eqn:E; [lia|].
  cbn [extra_loop]. rewrite se_bind_eq. unfold se_gets. simpl.
  rewrite (proj2 (Z.ltb_lt 0 lo) Hlo), se_bind_eq.
  match goal with |- context [extra_pass ?ml ?dm None ?s1] =>
    destruct (extra_pass_unbound ml dm s1) as (e & He & HP);
    destruct (extra_pass ml dm None s1) as [s2 [u|e']] end; simplify_eq/=.
  by exists e.
Qed.

End Sampler.

(** ** Examples *)

Lemma extra_loop_reuses_label_witness :
  let '(s', r) := extra_loop example_object2d example_conf (material_lists example_conf) 2 1
                    (mkDims 5 10 5) (Some (7, [40; 50; 60])) (mkSS 0%nat 10 0 None []) in
  exists new, ss_obj_list s' = [] ++ new /\
    Forall (fun o => sd_label (so_dict o) = 7 /\ so_pose o = [40; 50; 60]) new /\
    ss_target_counter s' = 0 + Z.of_nat (length new).
Proof.
  destruct (extra_loop _ _ _ _ _ _ _ _) as [s' r] eqn:E.
  exact (extra_loop_reuses_label _ _ _ _ _ _ _ _ _ _ _ E).
Defined.

Lemma extra_loop_fuel_witness :
  (Z.to_nat (1 - 0) <= 1)%nat /\
  extra_loop example_object2d example_conf (material_lists example_conf) 2 1 (mkDims 5 10 5)
    (Some (7, [40; 50; 60])) (mkSS 0%nat 10 0 None []) =
  extra_loop example_object2d example_conf (material_lists example_conf) 1 1 (mkDims 5 10 5)
    (Some (7, [40; 50; 60])) (mkSS 0%nat 10 0 None []).
Proof.
  split; [simpl; lia|].
  apply (extra_loop_fuel example_object2d example_conf _ 1 _ _ 1 (mkSS 0%nat 10 0 None [])).
  simpl. lia.
Defined.

Lemma metal_adjust_shrink_keeps_data_witness :
  match metal_adjust example_rescale example_object2d example_conf (material_lists example_conf)
          4 [40; 50; 60] B (GeomB [] []) 300 example_steel (mkSS 0%nat 10 0 (Some 300) []) with
  | (s', Ok o') => so_data o' = so_data example_steel /\ 300 < count_nonzero (so_data o')
  | (_, Err _) => False
  end.
Proof.
  destruct (metal_adjust _ _ _ _ _ _ _ _ _ _ _) as [s' [o'|e]] eqn:E; [|vm_compute in E; discriminate].
  destruct (metal_adjust_shrink_keeps_data example_rescale example_object2d example_conf
              (material_lists example_conf) 4 [40; 50; 60] B (GeomB [] []) 300 example_steel
              (mkSS 0%nat 10 0 (Some 300) []) s' o' ltac:(lia) ltac:(vm_compute; reflexivity) eq_refl
              ltac:(vm_compute; discriminate) E) as (? & ? & _).
  split; assumption.
Defined.

Lemma draw_pose_bounds_witness :
  match draw_pose example_conf 10 (mkSS 0%nat 10 0 None []) with
  | (_, Ok pose) => exists y x, pose = [30; y; x] /\ 20 <= y < 70 /\ 20 <= x < 70
  | (_, Err _) => False
  end.
Proof.
  destruct (draw_pose _ _ _) as [s' [pose|e]] eqn:E; [|vm_compute in E; discriminate].
  exact (draw_pose_bounds example_conf 10 _ _ _ ltac:(vm_compute; discriminate)
           ltac:(vm_compute; reflexivity) E).
Defined.

Lemma cap_replacement_hides_target_witness :
  match change_object_material example_object2d example_conf (material_lists example_conf)
          MNontarget true (Some (7, [40; 50; 60])) E (GeomE [] []) (mkSS 0%nat 10 2 None []) with
  | (s', Ok (_, o)) =>
      (sd_material (so_dict o) ∉ ml_target (material_lists example_conf)) /\
      (exists lp, sd_lqd (so_dict o) = Some lp /\ lp_material lp ∈ sc_targets example_conf) /\
      ss_target_counter s' = 2
  | (_, Err _) => False
  end.
Proof.
  destruct (change_object_material _ _ _ _ _ _ _ _ _) as [s' [[d o]|e]] eqn:Ec;
    [|vm_compute in Ec; discriminate].
  exact (cap_replacement_hides_target example_object2d example_conf _ _ _ _ _ _ _ _ eq_refl Ec).
Defined.

Lemma create_random_object_list_no_objects_witness :
  exists e, (create_random_object_list example_rescale example_object2d example_shuffle
               example_conf (mkSS 0%nat 10 0 None [])).2 = Err e /\ (e = NameError \/ e = ValueError).
Proof.
  apply (create_random_object_list_no_objects example_rescale example_object2d example_shuffle
           example_conf _ 1 2); [reflexivity|reflexivity|lia].
Defined.
