(* ===== verification/Bag.v ===== *)
(** * The baggage pipeline: [BaggageImage2D.__init__] in 3-D and [create_baggage_image]

    The constructor builds three volumes: the wall mask [boundary] (a
    hollow cube, plus the non-zero cells of a prior image),
    [ws_bag = bb_label * boundary], and [virtual_bag], the bag image
    [full_bag_img] repeated along the third axis ([bag3_init]).

    [create_baggage_image] then runs, for every slice [z] of [virtual_bag]:
    - a deep copy of the object list;
    - a new spawn pose for every copy, drawn from numpy's generator like
      the sampler's [c_pose] ([repose_all]);
    - [rdm.shuffle], a section variable indexed by the slice;
    - the placement and liquid loops of [Session.slice_body] on slice [z]
      of [ws_bag] and [boundary], written back into [ws_bag]
      ([slice_step], [slice_loop]).
    After the loop come the prior image, the single
    [ws_bag[ws_bag < 0] = 0], the copy of the central cube of [ws_bag]
    into [virtual_bag] (with or without a bag mask), and the product with
    the gantry cavity ([create_baggage_image]). The [param_file] loop that
    follows is [Export.Metadata.create_metadata].

    The state is passed explicitly: the generator and the two volumes
    that change. The generator state at the start of slice [z] is
    [slice_gen objs z g], the [z]-th iterate of the re-posing. The attributes that the loop only reads are a record
    [bconf]. *)

From Stdlib Require Import ZArith Lia QArith.
From stdpp Require Import base list numbers.
From S2P Require Import Prelude Grid Volume Raster Canvas Components Gravity Liquid Session Sampler.
Open Scope Z_scope.
Open Scope raster_scope.

(** ** The constructor in 3-D *)

(** [bag_bound] with [bag_b is None]: the cube [[a, b)^3] set to 1, then
    the cube [[c, d)^3] set back to 0, in a zero cube of side [size]. *)
Definition bound_vol (size bb_h bb_t : Z) : vol :=
  let a := size / 2 - bb_h - bb_t in let b := size / 2 + bb_h + bb_t in
  let c := size / 2 - bb_h in let d := size / 2 + bb_h in
  vfill_box (vfill_box (vzeros (size, size, size)) a b a b a b 1) c d c d c d 0.

Record bag3 := mkBag3 {
  b3_bnd : vol;    (* [self.boundary] *)
  b3_ws : vol;     (* [self.ws_bag] *)
  b3_vbag : vol    (* [self.virtual_bag] *)
}.

(** [bag_bound[prior_image.nonzero()] = 1], [v_bag += bb_label * bag_bound],
    and [virtual_bag = full_bag_img[:, :, newaxis] * np.ones(img_vol)]. *)
Definition bag3_init (size bb_h bb_t : Z) (img_vol : Z * Z * Z) (prior : option vol)
    (full_bag_img : grid) : option bag3 :=
  let bnd0 := bound_vol size bb_h bb_t in
  bnd ← (match prior with Some p => vcopy_nz bnd0 (vbool p) | None => Some bnd0 end);
  vbag ← vmul_plane (vones img_vol) full_bag_img;
  Some (mkBag3 bnd (vscale bb_label bnd) vbag).

(** Whether [(x, y, z)] lies in the cube [[lo, hi)^3], and whether the
    prior image is non-zero there: the terms in which the constructor's
    theorem states the walls. *)
Definition in_cube (lo hi x y z : Z) : bool := bool_decide (lo <= x < hi /\ lo <= y < hi /\ lo <= z < hi).
Definition prior_at (prior : option vol) (x y z : Z) : bool :=
  match prior with Some p => negb (p.{x, y, z} =? 0) | None => false end.

(** ** The pipeline *)

(** The attributes that [create_baggage_image] reads: the bag geometry of
    the rules, [boundary], [img_ctr], [prior_image], [bag_mask],
    [gantry_cavity], and [pose_range], [pose_diff] and [max_dim] set by
    [create_random_object_list]. *)
Record bconf := mkBConf {
  bc_bag : bag;
  bc_bnd : vol;
  bc_img_ctr : Z * Z * Z;
  bc_prior : option vol;
  bc_bag_mask : option grid;
  bc_gantry : grid;
  bc_pose_range : Z * Z;
  bc_pose_diff : Z;
  bc_max_dim : Z
}.

Section Pipeline.
Context {G : Type} `{!Rng G} {L : Labeller}.
Variable sheet_branch : bag -> canvas -> obj -> Z -> option (option (canvas * obj)).

(** [rdm.shuffle(current_obj_list)] in slice [z]. *)
Variable shuffle : Z -> list obj -> list obj.

Variable bc : bconf.

(** [x.pose = array([int(pose_range[0] + max_dim),
                     int(rand() * pose_diff + pose_range[0]),
                     int(rand() * pose_diff + pose_range[0])])]: the
    third coordinate is drawn and not used in 2-D. *)
Definition repose (g : G) (o : obj) : obj * G :=
  let '(q1, g1) := rng_rand g in
  let '(_, g2) := rng_rand g1 in
  (set_pose o ((bc_pose_range bc).1 + bc_max_dim bc,
               py_int_q (q1 * inject_Z (bc_pose_diff bc) + inject_Z (bc_pose_range bc).1)%Q), g2).

(** [current_obj_list = [ccfunc(x) for x in obj_list]] and the loop that
    poses every copy, in list order. *)
Fixpoint repose_all (g : G) (objs : list obj) : list obj * G :=
  match objs with
  | [] => ([], g)
  | o :: objs' =>
      let '(o', g1) := repose g o in
      let '(rest, g2) := repose_all g1 objs' in (o' :: rest, g2)
  end.

(** The generator state at the start of pass [n] of the slice loop. A
    pass draws from numpy's generator only the poses of its copies;
    [rdm.shuffle] draws from Python's [random], which is [shuffle]. *)
Definition slice_gen (objs : list obj) (n : nat) (g : G) : G :=
  Nat.iter n (fun g => (repose_all g objs).2) g.

(** Slice [z] of [ws_bag] and [boundary], the canvas of the rules. *)
Definition slice_canvas (ws : vol) (z : Z) : canvas :=
  mkCanvas (vslice ws z) (vslice (bc_bnd bc) z).

(** One pass of [for slice_no in range(virtual_bag.shape[2])]. *)
Definition slice_step (objs : list obj) (sg : bool) (z : Z) (g : G) (ws : vol) : option (G * vol) :=
  let '(cur, g') := repose_all g objs in
  cv ← slice_body sheet_branch (bc_bag bc) (slice_canvas ws z) (shuffle z cur) sg;
  Some (g', vset_slice ws z (Canvas.ws cv)).

(** The slices [z .. z + n - 1]. *)
Fixpoint slice_loop (objs : list obj) (sg : bool) (n : nat) (z : Z) (g : G) (ws : vol)
    : option (G * vol) :=
  match n with
  | O => Some (g, ws)
  | Datatypes.S n' => '(g', ws') ← slice_step objs sg z g ws; slice_loop objs sg n' (z + 1) g' ws'
  end.

(** The central cube of [ws_bag], of side [2 bb_h] around [size // 2]. *)
Definition ws_cube (ws : vol) : vol :=
  let s := size (bc_bag bc) / 2 in let h := bb_h (bc_bag bc) in
  vsub ws (s - h) (s + h) (s - h) (s + h) (s - h) (s + h).

(** [virtual_bag[c0-h:c0+h, c1-h:c1+h, c2-h:c2+h] = ws_cube], the branch
    [bag_mask is None]. *)
Definition window_copy (ws vb : vol) : option vol :=
  let '(c0, c1, c2) := bc_img_ctr bc in let h := bb_h (bc_bag bc) in
  vassign_box vb (c0 - h) (c0 + h) (c1 - h) (c1 + h) (c2 - h) (c2 + h) (ws_cube ws).

(** The branch with a bag mask: the cube is placed in [zeros_like(
    virtual_bag)], multiplied by the mask, and copied into [virtual_bag]
    at the mask's non-zero columns. *)
Definition masked_copy (ws vb : vol) (m : grid) : option vol :=
  let '(c0, c1, c2) := bc_img_ctr bc in let h := bb_h (bc_bag bc) in
  shifted ← vassign_box (vzeros (vshape vb)) (c0 - h) (c0 + h) (c1 - h) (c1 + h) (c2 - h) (c2 + h)
              (ws_cube ws);
  shifted ← vmul_plane shifted m;
  vwrite_columns vb m shifted.

(** [create_baggage_image(obj_list, with_shape_grammar)] up to the
    metadata loop: the generator afterwards, [ws_bag] and [virtual_bag]. *)
Definition create_baggage_image (objs : list obj) (sg : bool) (g : G) (ws vb : vol)
    : option (G * vol * vol) :=
  '(g', ws1) ← slice_loop objs sg (Z.to_nat (vz vb)) 0 g ws;
  ws2 ← (match bc_prior bc with Some p => vcopy_nz ws1 p | None => Some ws1 end);
  let ws3 := vclear_negative ws2 in
  vb1 ← (match bc_bag_mask bc with None => window_copy ws3 vb | Some m => masked_copy ws3 vb m end);
  vb2 ← vmul_plane vb1 (bc_gantry bc);
  Some (g', ws3, vb2).

End Pipeline.

(** ** Examples

    A bag of side 20 with a container of half side 5 and walls 2 thick,
    a virtual bag of 20 x 20 x 10, [img_ctr = (10, 10, 5)] or
    [(10, 10, 3)], a full gantry cavity, and the spawn box of a sampler
    with [dim_range = (2, 4)]. *)

Definition example_bnd : vol := bound_vol 20 5 2.
Definition example_ws : vol := vscale bb_label example_bnd.
Definition example_vb : vol := vones (20, 20, 10).
Definition example_plane : grid := mkGrid 20 20 (fun _ _ => 1).
Definition example_prior : vol := vfill_box (vzeros (20, 20, 20)) 10 11 10 11 10 11 7.

Definition example_bconf (ctr : Z * Z * Z) : bconf :=
  mkBConf (mkBag 20 5 None) example_bnd ctr None None example_plane (5, 11) 6 4.

Definition example_box (label : Z) : obj :=
  mkObj B label (scale label (fill_rect (zeros 3 3) 0 2 0 2 1)) (3, 3) (0, 0) None None.

(** ** The slice loop *)

Section PipelineLemmas.
Context {G : Type} `{!Rng G} {L : Labeller}.
Variable sheet_branch : bag -> canvas -> obj -> Z -> option (option (canvas * obj)).
Variable shuffle : Z -> list obj -> list obj.
Variable bc : bconf.

Lemma slice_step_spec objs sg z g ws g' ws' :
  slice_step sheet_branch shuffle bc objs sg z g ws = Some (g', ws') ->
  exists cv, (repose_all bc g objs).2 = g' /\
    slice_body sheet_branch (bc_bag bc) (slice_canvas bc ws z) (shuffle z (repose_all bc g objs).1) sg = Some cv /\
    ws' = vset_slice ws z (Canvas.ws cv).
Proof.
  unfold slice_step. destruct (repose_all bc g objs) as [cur g1]. cbn.
  destruct (slice_body _ _ _ _ _) as [cv|]; [|done]. intros [= <- <-]. by exists cv.
Qed.

(** A slice that an earlier pass wrote is not read by a later one: the
    canvas of slice [k] is the same after a pass on slice [z <> k]. *)
Lemma slice_canvas_set_ne ws z k g : z <> k -> slice_canvas bc (vset_slice ws z g) k = slice_canvas bc ws k.
Proof.
  intros Hz. unfold slice_canvas. f_equal. apply vslice_ext; [done|done|].
  intros x y. apply vread_set_slice_ne. lia.
Qed.

(** The loop over slices [z .. z + n - 1] keeps the shape of [ws_bag] and
    every other slice, and leaves in slice [k] the canvas of one run of
    the slice body on the initial slice [k], from the generator state
    reached at [k], [slice_gen objs (k - z) g]. *)
Lemma slice_loop_spec objs sg n z g ws g' ws' :
  slice_loop sheet_branch shuffle bc objs sg n z g ws = Some (g', ws') ->
  g' = slice_gen bc objs n g /\ vshape ws' = vshape ws /\
  (forall x y k, ~ (z <= k < z + Z.of_nat n) -> ws'.{x, y, k} = ws.{x, y, k}) /\
  (forall k, z <= k < z + Z.of_nat n -> exists cv,
     slice_body sheet_branch (bc_bag bc) (slice_canvas bc ws k)
       (shuffle k (repose_all bc (slice_gen bc objs (Z.to_nat (k - z)) g) objs).1) sg = Some cv /\
     forall x y, vinb ws x y k = true -> ws'.{x, y, k} = (Canvas.ws cv).[x, y]).
Proof.
  revert z g ws. induction n as [|n IH]; intros z g ws; cbn [slice_loop].
  - intros [= <- <-]. split_and!; [done|done|done|]. intros k Hk. lia.
  - destruct (slice_step _ _ _ _ _ _ _ _) as [[g1 ws1]|] eqn:E; cbn; [|done].
    intros Hl. apply slice_step_spec in E as (cv0 & Hg1 & Hb & ->).
    destruct (IH _ _ _ Hl) as (Hg & Hs & Hf & Hk). split_and!.
    + rewrite Hg, <- Hg1. exact (eq_sym (Nat.iter_succ_r n _ g)).
    + exact Hs.
    + intros x y k Hn. rewrite Hf by lia. apply vread_set_slice_ne. lia.
    + intros k Hkr. destruct (decide (k = z)) as [->|Hne].
      * exists cv0. rewrite Z.sub_diag. split; [exact Hb|]. intros x y Hin.
        rewrite Hf by lia. by apply vread_set_slice_eq.
      * destruct (Hk k ltac:(lia)) as (cv & Hb' & Hw). exists cv.
        rewrite slice_canvas_set_ne in Hb' by lia.
        replace (Z.to_nat (k - z)) with (Datatypes.S (Z.to_nat (k - (z + 1)))) by lia.
        unfold slice_gen. rewrite Nat.iter_succ_r, Hg1. split; [exact Hb'|].
        intros x y Hin. apply Hw. exact Hin.
Qed.

(** The central cube has side [2 bb_h] when it lies inside [ws_bag]. *)
Lemma ws_cube_spec ws :
  let s := size (bc_bag bc) / 2 in let h := bb_h (bc_bag bc) in
  0 <= h <= s -> s + h <= vx ws -> s + h <= vy ws -> s + h <= vz ws ->
  vshape (ws_cube bc ws) = (2 * h, 2 * h, 2 * h) /\
  forall x y z, (ws_cube bc ws).{x, y, z} =
    if bool_decide (0 <= x < 2 * h /\ 0 <= y < 2 * h /\ 0 <= z < 2 * h)
    then ws.{s - h + x, s - h + y, s - h + z} else 0.
Proof.
  intros s h Hh Hx Hy Hz. unfold ws_cube. fold s h. split.
  - rewrite vshape_sub by lia. f_equal; [f_equal|]; lia.
  - intros x y z. rewrite vread_sub by lia.
    replace (s + h - (s - h)) with (2 * h) by lia. done.
Qed.

(** A window [c - h : c + h] around a centre [0 <= c < h] does not have
    [2 h] cells: numpy wraps the negative start. *)
Lemma window_short c h n :
  0 < h -> 0 <= c < h -> 0 <= n -> (py_slice (c - h) (c + h) n).2 - (py_slice (c - h) (c + h) n).1 <> 2 * h.
Proof. intros. slice_lia. Qed.

Lemma vcopy_nz_shape v p v' : vcopy_nz v p = Some v' -> vshape v' = vshape v.
Proof. unfold vcopy_nz. case_match; [by intros [= <-]|done]. Qed.

(** The poses that [repose_all] draws, with the generator's laws. *)
Lemma repose_all_spec `{!RngLaws G} g objs :
  0 <= (bc_pose_range bc).1 -> 0 < bc_pose_diff bc ->
  Forall2 (fun o o' => exists c, o' = set_pose o ((bc_pose_range bc).1 + bc_max_dim bc, c) /\
             (bc_pose_range bc).1 <= c < (bc_pose_range bc).1 + bc_pose_diff bc)
          objs (repose_all bc g objs).1.
Proof.
  intros Hlo Hd. revert g. induction objs as [|o objs IH]; intros g; cbn; [constructor|].
  unfold repose. destruct (rng_rand g) as [q1 g1] eqn:E1. destruct (rng_rand g1) as [q2 g2] eqn:E2.
  specialize (IH g2). destruct (repose_all bc g2 objs) as [rest g3]. cbn in *. constructor; [|exact IH].
  eexists. split; [reflexivity|]. exact (py_int_q_range _ _ _ Hlo Hd (rand_range _ _ _ E1)).
Qed.

End PipelineLemmas.

(** ** Properties *)

Section PipelineClaims.
Context {G : Type} `{!Rng G} {L : Labeller}.
Variable sheet_branch : bag -> canvas -> obj -> Z -> option (option (canvas * obj)).
Variable shuffle : Z -> list obj -> list obj.
Variable bc : bconf.

(** C14: Without a prior image, [create_baggage_image] refines the slice
    session of [Session]: every slice [z] of [virtual_bag]'s depth holds,
    inside [ws_bag]'s shape, exactly the canvas of [run_slice] on the
    initial slice [z] with the objects posed from the generator state
    [slice_gen objs z g] that the passes before [z] leave, and shuffled;
    the generator returned is the state after all the passes. The code clears the negative labels once,
    after all slices; [run_slice] clears each slice at its end, and the two
    agree because a pass writes only its own slice. The deeper slices are
    only cleared, and [ws_bag] keeps its shape. *)
Theorem create_baggage_image_refines objs sg g ws vb g' ws' vb' :
  bc_prior bc = None -> vz vb <= vz ws ->
  create_baggage_image sheet_branch shuffle bc objs sg g ws vb = Some (g', ws', vb') ->
  g' = slice_gen bc objs (Z.to_nat (vz vb)) g /\ vshape ws' = vshape ws /\
  (forall z, 0 <= z < vz vb -> exists cv,
     run_slice sheet_branch (bc_bag bc) (slice_canvas bc ws z)
       (shuffle z (repose_all bc (slice_gen bc objs (Z.to_nat z) g) objs).1) sg = Some cv /\
     forall x y, 0 <= x < vx ws -> 0 <= y < vy ws -> ws'.{x, y, z} = (Canvas.ws cv).[x, y]) /\
  (forall x y z, vz vb <= z -> ws'.{x, y, z} = (vclear_negative ws).{x, y, z}).
Proof.
  intros Hp Hz H. unfold create_baggage_image in H. rewrite Hp in H.
  apply bind_Some in H as ([g1 ws1] & E & H). cbn in H.
  apply bind_Some in H as (vb1 & _ & H). apply bind_Some in H as (vb2 & _ & [= <- <- <-]).
  destruct (slice_loop_spec _ _ _ _ _ _ _ _ _ _ _ E) as (Hg & Hs & Hf & Hk).
  split_and!.
  - exact Hg.
  - exact Hs.
  - intros z Hzr. destruct (Hk z ltac:(lia)) as (cv & Hb & Hw). rewrite Z.sub_0_r in Hb.
    exists (mkCanvas (clear_negative (Canvas.ws cv)) (bnd cv)).
    split; [unfold run_slice; by rewrite Hb|]. intros x y Hx Hy.
    rewrite vread_clear, Hw; [cbn [Canvas.ws]; by rewrite get_clear_negative|].
    unfold vinb. apply bool_decide_true. lia.
  - intros x y z Hz'. rewrite !vread_clear, Hf; [done|]. lia.
Qed.

(** C22: With no prior image and no bag mask, and with the central cube of
    [ws_bag] and the window of [virtual_bag] around [img_ctr] inside
    their arrays, the end of [create_baggage_image] copies the cleared
    cube into that window and multiplies the whole of [virtual_bag] by the
    gantry cavity: [virtual_bag] keeps its shape, the window holds
    [ws_bag] shifted by [size // 2 - img_ctr], and every other cell keeps
    the bag image, each times the cavity mask. *)
Theorem create_baggage_image_copy objs sg g ws vb g1 ws1 c0 c1 c2 :
  let s := size (bc_bag bc) / 2 in let h := bb_h (bc_bag bc) in
  bc_prior bc = None -> bc_bag_mask bc = None -> bc_img_ctr bc = (c0, c1, c2) ->
  0 <= h <= s -> s + h <= vx ws -> s + h <= vy ws -> s + h <= vz ws ->
  h <= c0 -> c0 + h <= vx vb -> h <= c1 -> c1 + h <= vy vb -> h <= c2 -> c2 + h <= vz vb ->
  rows (bc_gantry bc) = vx vb -> cols (bc_gantry bc) = vy vb ->
  slice_loop sheet_branch shuffle bc objs sg (Z.to_nat (vz vb)) 0 g ws = Some (g1, ws1) ->
  exists vb', create_baggage_image sheet_branch shuffle bc objs sg g ws vb =
                Some (g1, vclear_negative ws1, vb') /\
    vshape vb' = vshape vb /\
    forall x y z, vb'.{x, y, z} =
      (if bool_decide (c0 - h <= x < c0 + h /\ c1 - h <= y < c1 + h /\ c2 - h <= z < c2 + h)
       then (vclear_negative ws1).{s - c0 + x, s - c1 + y, s - c2 + z} else vb.{x, y, z})
      * (bc_gantry bc).[x, y].
Proof.
  intros s h Hp Hm Hc Hh Hx Hy Hz Hc0 Hc0' Hc1 Hc1' Hc2 Hc2' Hr Hcl E. subst s h.
  destruct (slice_loop_spec _ _ _ _ _ _ _ _ _ _ _ E) as (_ & Hs & _ & _).
  unfold vshape in Hs. injection Hs as Hsx Hsy Hsz.
  destruct (ws_cube_spec bc (vclear_negative ws1)) as (Hcs & Hcg); cbn [vx vy vz vclear_negative von];
    try lia.
  set (h := bb_h (bc_bag bc)) in *.
  destruct (vassign_box_in vb (ws_cube bc (vclear_negative ws1)) (c0 - h) (c0 + h) (c1 - h) (c1 + h)
              (c2 - h) (c2 + h)) as (vb1 & E1 & Hs1 & Hg1); try lia.
  { rewrite Hcs. f_equal; [f_equal|]; lia. }
  destruct (vmul_plane_same vb1 (bc_gantry bc)) as (vb2 & E2 & Hs2 & Hg2).
  { apply (f_equal (fun t => t.1.1)) in Hs1. cbn in Hs1. congruence. }
  { apply (f_equal (fun t => t.1.2)) in Hs1. cbn in Hs1. congruence. }
  exists vb2. unfold create_baggage_image. rewrite E. cbn. rewrite Hp, Hm. cbn.
  unfold window_copy. rewrite Hc. cbv zeta. fold h. rewrite E1. cbn. rewrite E2.
  split_and!; [done|congruence|]. intros x y z. rewrite Hg2, Hg1, Hcg.
  case_bool_decide; [|done]. rewrite bool_decide_true by lia. f_equal. f_equal; lia.
Qed.

(** C23: When [bb_h > 0] and a coordinate of [img_ctr] is below [bb_h],
    the copy into [virtual_bag] raises [ValueError]: the window starts at
    a negative index, which numpy counts from the end, so it is shorter
    than the [2 bb_h] cube of [ws_bag]. [create_baggage_image] then fails
    after all the slices were placed. *)
Theorem create_baggage_image_window_error objs sg g ws vb c0 c1 c2 :
  let s := size (bc_bag bc) / 2 in let h := bb_h (bc_bag bc) in
  bc_bag_mask bc = None -> bc_img_ctr bc = (c0, c1, c2) ->
  0 < h <= s -> s + h <= vx ws -> s + h <= vy ws -> s + h <= vz ws ->
  0 <= vx vb -> 0 <= vy vb -> 0 <= vz vb ->
  (0 <= c0 < h \/ 0 <= c1 < h \/ 0 <= c2 < h) ->
  create_baggage_image sheet_branch shuffle bc objs sg g ws vb = None.
Proof.
  intros s h Hm Hc Hh Hx Hy Hz Hvx Hvy Hvz Hlow. subst s h. unfold create_baggage_image.
  destruct (slice_loop _ _ _ _ _ _ _ _ _) as [[g1 ws1]|] eqn:E; cbn; [|done].
  destruct (slice_loop_spec _ _ _ _ _ _ _ _ _ _ _ E) as (_ & Hs & _ & _).
  destruct (match bc_prior bc with Some p => vcopy_nz ws1 p | None => Some ws1 end) as [ws2|] eqn:E2;
    cbn; [|done].
  assert (Hs2 : vshape ws2 = vshape ws).
  { destruct (bc_prior bc); [by rewrite (vcopy_nz_shape _ _ _ E2)|by injection E2 as <-]. }
  unfold vshape in Hs2. injection Hs2 as Hsx Hsy Hsz.
  destruct (ws_cube_spec bc (vclear_negative ws2)) as (Hcs & _); cbn [vx vy vz vclear_negative von];
    try lia.
  pose proof (f_equal (fun t => t.1.1) Hcs) as Hcx. pose proof (f_equal (fun t => t.1.2) Hcs) as Hcy.
  pose proof (f_equal snd Hcs) as Hcz. cbn [fst snd vshape] in Hcx, Hcy, Hcz.
  rewrite Hm. unfold window_copy. rewrite Hc. cbv zeta. rewrite vassign_box_mismatch; [done|].
  cbv zeta. rewrite Hcx, Hcy, Hcz.
  destruct Hlow as [Hl|[Hl|Hl]]; [left|right; left|right; right]; split;
    try (apply not_eq_sym, window_short; lia); lia.
Qed.

(** C40: The spawn poses of a slice: every copy keeps its shape, label,
    data, dim and liquid, and gets the pose
    [(pose_range[0] + max_dim, c)] with [c] in
    [[pose_range[0], pose_range[0] + pose_diff)], for any generator whose
    [rand()] lies in [0, 1). Every slice starts from the same spawn row,
    whatever poses the sampler gave. *)
Theorem repose_all_bounds `{!RngLaws G} g objs :
  0 <= (bc_pose_range bc).1 -> 0 < bc_pose_diff bc ->
  length (repose_all bc g objs).1 = length objs /\
  Forall2 (fun o o' => o_shape o' = o_shape o /\ o_label o' = o_label o /\ o_data o' = o_data o /\
             o_dim o' = o_dim o /\ o_lqd o' = o_lqd o /\
             (o_pose o').1 = (bc_pose_range bc).1 + bc_max_dim bc /\
             (bc_pose_range bc).1 <= (o_pose o').2 < (bc_pose_range bc).1 + bc_pose_diff bc)
          objs (repose_all bc g objs).1.
Proof.
  intros Hlo Hd. pose proof (repose_all_spec bc g objs Hlo Hd) as H.
  split; [symmetry; exact (Forall2_length H)|].
  revert H. apply Forall2_impl. intros o o' (c & -> & Hc). cbn. done.
Qed.

End PipelineClaims.

(** ** The constructor *)

(** The wall volume of [bag_bound] without a template: the cells of the
    outer cube and not of the inner one. *)
Lemma bound_vol_cell size h t x y z :
  0 <= h -> 0 <= t -> h + t <= size / 2 ->
  0 <= x < size -> 0 <= y < size -> 0 <= z < size ->
  (bound_vol size h t).{x, y, z} =
    if in_cube (size / 2 - h - t) (size / 2 + h + t) x y z && negb (in_cube (size / 2 - h) (size / 2 + h) x y z)
    then 1 else 0.
Proof.
  intros Hh Ht Hs Hx Hy Hz. assert (size / 2 + size / 2 <= size) by (pose proof (Z.mul_div_le size 2 ltac:(lia)); lia).
  unfold bound_vol. cbv zeta.
  rewrite vread_fill_box_in by (cbn; lia). cbn [vx vy vz vfill_box von vzeros fst snd].
  unfold vinb at 1. cbn [vx vy vz vfill_box von vzeros fst snd]. rewrite bool_decide_true by lia.
  rewrite vread_fill_box_in by (cbn; lia). unfold vinb, vread, in_cube. cbn [vx vy vz vcell vzeros fst snd].
  destruct (vinb _ x y z); repeat case_bool_decide; cbn; lia.
Qed.

(** C24: The constructor's wall volume and workspace, with or without a
    prior image: [boundary] and [ws_bag] are cubes of side [size]; a cell
    of [boundary] is 1 where the prior image is non-zero or in the walls
    (the cube of half side [bb_h + bb_t] around [size // 2] without the
    cube of half side [bb_h]), and 0 elsewhere; [ws_bag] is [bb_label]
    times [boundary]. This holds when the walls fit in the cube and every
    non-zero cell of the prior image lies in it. *)
Theorem bag3_init_walls size h t img_vol prior fb :
  0 <= h -> 0 <= t -> h + t <= size / 2 ->
  rows fb = img_vol.1.1 -> cols fb = img_vol.1.2 ->
  (forall p, prior = Some p -> forall x y z, p.{x, y, z} <> 0 -> 0 <= x < size /\ 0 <= y < size /\ 0 <= z < size) ->
  exists b, bag3_init size h t img_vol prior fb = Some b /\
    vshape (b3_bnd b) = (size, size, size) /\ vshape (b3_ws b) = (size, size, size) /\
    forall x y z, 0 <= x < size -> 0 <= y < size -> 0 <= z < size ->
      (b3_bnd b).{x, y, z} =
        (if prior_at prior x y z ||
            (in_cube (size / 2 - h - t) (size / 2 + h + t) x y z && negb (in_cube (size / 2 - h) (size / 2 + h) x y z))
         then 1 else 0) /\
      (b3_ws b).{x, y, z} = bb_label * (b3_bnd b).{x, y, z}.
Proof.
  intros Hh Ht Hs Hr Hc Hp. unfold bag3_init. cbv zeta.
  destruct (vmul_plane_same (vones img_vol) fb) as (vbag & Hvb & _); [done|done|].
  assert (Hcell : forall v : vol, vshape v = (size, size, size) ->
            (forall x y z, 0 <= x < size -> 0 <= y < size -> 0 <= z < size ->
               v.{x, y, z} = if prior_at prior x y z || (in_cube (size / 2 - h - t) (size / 2 + h + t) x y z &&
                 negb (in_cube (size / 2 - h) (size / 2 + h) x y z)) then 1 else 0) ->
            exists b, Some (mkBag3 v (vscale bb_label v) vbag) = Some b /\
              vshape (b3_bnd b) = (size, size, size) /\ vshape (b3_ws b) = (size, size, size) /\
              forall x y z, 0 <= x < size -> 0 <= y < size -> 0 <= z < size ->
                (b3_bnd b).{x, y, z} = (if prior_at prior x y z || (in_cube (size / 2 - h - t) (size / 2 + h + t) x y z &&
                   negb (in_cube (size / 2 - h) (size / 2 + h) x y z)) then 1 else 0) /\
                (b3_ws b).{x, y, z} = bb_label * (b3_bnd b).{x, y, z}).
  { intros v Hv Hvc. eexists. split; [done|]. cbn [b3_bnd b3_ws]. split_and!; [done|done|].
    intros x y z Hx Hy Hz. split; [by apply Hvc|]. unfold vscale. rewrite vread_on.
    injection Hv as Hvx Hvy Hvz. unfold vinb. rewrite Hvx, Hvy, Hvz, bool_decide_true by lia. done. }
  destruct prior as [p|].
  - rewrite vcopy_nz_Some.
    2: { intros x y z Hnz. unfold vbool in Hnz. rewrite vread_on in Hnz.
         destruct (vinb p x y z) eqn:Ein; [|done]. destruct (Z.eqb_spec p.{x, y, z} 0) as [|Hne]; [done|].
         destruct (Hp p eq_refl x y z Hne) as (? & ? & ?). unfold vinb. cbn. apply bool_decide_true. lia. }
    cbn [mbind option_bind]. rewrite Hvb. cbn [mbind option_bind]. apply Hcell; [done|].
    intros x y z Hx Hy Hz. rewrite vread_on. unfold vinb at 1. cbn [vx vy vz bound_vol vfill_box von vzeros fst snd].
    rewrite bool_decide_true by lia. unfold vbool. rewrite !vread_on. unfold prior_at.
    destruct (vinb p x y z) eqn:Ein.
    + destruct (Z.eqb_spec p.{x, y, z} 0) as [E|E]; cbn; [by apply bound_vol_cell|done].
    + unfold vread at 2. rewrite Ein. cbn. by apply bound_vol_cell.
  - cbn [mbind option_bind]. rewrite Hvb. cbn [mbind option_bind]. apply Hcell; [done|].
    intros x y z Hx Hy Hz. by apply bound_vol_cell.
Qed.


(** ** Witnesses *)

Lemma create_baggage_image_refines_witness :
  match create_baggage_image (L := merge_labeller) no_sheet (fun _ l => l) (example_bconf (10, 10, 5))
          [example_box 4; example_box 5] true 0%nat example_ws example_vb with
  | Some (g', ws', _) =>
      g' = slice_gen (example_bconf (10, 10, 5)) [example_box 4; example_box 5] 10 0%nat /\
      vshape ws' = vshape example_ws
  | None => False
  end.
Proof.
  assert (H : match create_baggage_image (L := merge_labeller) no_sheet (fun _ l => l)
                      (example_bconf (10, 10, 5)) [example_box 4; example_box 5] true 0%nat
                      example_ws example_vb with Some _ => true | None => false end = true)
    by (vm_compute; reflexivity).
  apply Some_of_check in H as [[[g' ws'] vb'] E]. rewrite E.
  destruct (create_baggage_image_refines no_sheet (fun _ l => l) (example_bconf (10, 10, 5))
              [example_box 4; example_box 5] true 0%nat example_ws example_vb g' ws' vb' eq_refl
              ltac:(vm_compute; discriminate) E) as (Hg & Hs & _).
  split; [exact Hg|exact Hs].
Defined.

Lemma create_baggage_image_copy_witness :
  match slice_loop (L := merge_labeller) no_sheet (fun _ l => l) (example_bconf (10, 10, 5))
          [example_box 4] true 10 0 0%nat example_ws with
  | Some (g1, ws1) =>
      exists vb', create_baggage_image (L := merge_labeller) no_sheet (fun _ l => l)
                    (example_bconf (10, 10, 5)) [example_box 4] true 0%nat example_ws example_vb =
                  Some (g1, vclear_negative ws1, vb') /\ vshape vb' = vshape example_vb
  | None => False
  end.
Proof.
  assert (H : match slice_loop (L := merge_labeller) no_sheet (fun _ l => l) (example_bconf (10, 10, 5))
                      [example_box 4] true 10 0 0%nat example_ws with Some _ => true | None => false end
              = true) by (vm_compute; reflexivity).
  apply Some_of_check in H as [[g1 ws1] E]. rewrite E.
  destruct (create_baggage_image_copy no_sheet (fun _ l => l) (example_bconf (10, 10, 5))
              [example_box 4] true 0%nat example_ws example_vb g1 ws1 10 10 5
              eq_refl eq_refl eq_refl ltac:(vm_compute; split; congruence)
              ltac:(vm_compute; congruence) ltac:(vm_compute; congruence) ltac:(vm_compute; congruence)
              ltac:(vm_compute; congruence) ltac:(vm_compute; congruence)
              ltac:(vm_compute; congruence) ltac:(vm_compute; congruence)
              ltac:(vm_compute; congruence) ltac:(vm_compute; congruence)
              eq_refl eq_refl E) as (vb' & Hc & Hs & _).
  exists vb'. split; [exact Hc|exact Hs].
Defined.

Lemma create_baggage_image_window_error_witness :
  create_baggage_image (L := merge_labeller) no_sheet (fun _ l => l) (example_bconf (10, 10, 3))
    [example_box 4] true 0%nat example_ws example_vb = None.
Proof.
  apply (create_baggage_image_window_error no_sheet (fun _ l => l) (example_bconf (10, 10, 3))
           [example_box 4] true 0%nat example_ws example_vb 10 10 3 eq_refl eq_refl
           ltac:(vm_compute; split; congruence) ltac:(vm_compute; congruence)
           ltac:(vm_compute; congruence) ltac:(vm_compute; congruence)
           ltac:(vm_compute; congruence) ltac:(vm_compute; congruence) ltac:(vm_compute; congruence)).
  right; right. cbn. lia.
Defined.

Lemma repose_all_bounds_witness :
  Forall2 (fun o o' => (o_pose o').1 = 9 /\ 5 <= (o_pose o').2 < 11)
    [example_box 4; example_box 5] (repose_all (example_bconf (10, 10, 5)) 0%nat [example_box 4; example_box 5]).1.
Proof.
  destruct (repose_all_bounds (example_bconf (10, 10, 5)) 0%nat [example_box 4; example_box 5]
              ltac:(cbn; lia) ltac:(cbn; lia)) as [_ H].
  revert H. apply Forall2_impl. intros o o' (_ & _ & _ & _ & _ & H1 & H2). cbn in *. lia.
Defined.

Lemma bag3_init_walls_witness :
  exists b, bag3_init 20 5 2 (20, 20, 10) (Some example_prior) example_plane = Some b /\
    (b3_bnd b).{10, 10, 10} = 1 /\ (b3_bnd b).{3, 3, 3} = 1 /\ (b3_bnd b).{10, 10, 11} = 0 /\
    (b3_ws b).{3, 3, 3} = 3.
Proof.
  destruct (bag3_init_walls 20 5 2 (20, 20, 10) (Some example_prior) example_plane
              ltac:(lia) ltac:(lia) ltac:(vm_compute; discriminate) eq_refl eq_refl) as (b & Hb & _ & _ & Hc).
  { intros p [= <-] x y z H. apply vread_nz_inb in H. unfold vinb in H. apply bool_decide_eq_true in H.
    cbn in H. lia. }
  exists b. split; [exact Hb|].
  destruct (Hc 10 10 10 ltac:(lia) ltac:(lia) ltac:(lia)) as [H1 _].
  destruct (Hc 3 3 3 ltac:(lia) ltac:(lia) ltac:(lia)) as [H2 H3].
  destruct (Hc 10 10 11 ltac:(lia) ltac:(lia) ltac:(lia)) as [H4 _].
  rewrite H3, H2, H1, H4. split_and!; vm_compute; reflexivity.
Defined.
