(* ===== verification/SamplerTypes.v ===== *)
(** * The objects of the sampler are well formed

    [create_random_object_list] builds every object from a shape letter
    [cshape], a geometry [c_geom] drawn for that letter, and a spawn pose
    [c_pose] of three coordinates. The replacements of the target cap,
    of the metal budget and of the loop that adds targets reuse the same
    [cshape], [c_geom] and [c_pose]. This file proves that every object
    of the returned list is well formed: its SL dictionary carries the
    parameters of its own shape ([geom_fits]), and its pose has three
    coordinates ([obj_typed]). The shape functions that read the
    dictionary ([Object2D.__init__], [create_sim_object]) rely on this. *)

From Stdlib Require Import ZArith Lia QArith Sorting.Permutation.
From stdpp Require Import base list numbers strings.
From S2P Require Import Prelude Result Grid Raster Session Sampler.
Open Scope Z_scope.

(** ** Definitions *)

(** The geometry has the keys of its shape letter. *)
Definition geom_fits (k : shape_kind) (g : cgeom) : bool :=
  match k, g with
  | E, GeomE _ _ | B, GeomB _ _ | Y, GeomY _ _ _ | C, GeomC _ _ _ _
  | S, GeomS _ _ | M, GeomM _ _ _ _ => true
  | _, _ => false
  end.

(** A well-formed object of the sampler. *)
Definition obj_typed (o : sobj) : Prop :=
  geom_fits (sd_shape (so_dict o)) (sd_geom (so_dict o)) = true /\ length (so_pose o) = 3%nat.

(** The configuration of [Sampler.example_conf] with two objects in the
    main loop. *)
Definition two_object_conf : sconf := {|
  sc_material_list := sc_material_list example_conf;
  sc_liquid_list := sc_liquid_list example_conf;
  sc_material_pdf := sc_material_pdf example_conf;
  sc_liquid_pdf := sc_liquid_pdf example_conf;
  sc_lqd_prob := sc_lqd_prob example_conf;
  sc_sheet_prob := sc_sheet_prob example_conf;
  sc_dim_range := sc_dim_range example_conf;
  sc_number_of_objects := NScalar 2;
  sc_spawn_sheets := sc_spawn_sheets example_conf;
  sc_spawn_liquids := sc_spawn_liquids example_conf;
  sc_sheet_dim_list := sc_sheet_dim_list example_conf;
  sc_custom_objects := sc_custom_objects example_conf;
  sc_custom_obj_prob := sc_custom_obj_prob example_conf;
  sc_metal_amt := sc_metal_amt example_conf;
  sc_metal_size := sc_metal_size example_conf;
  sc_num_range := sc_num_range example_conf;
  sc_is_liquid := sc_is_liquid example_conf;
  sc_metals := sc_metals example_conf;
  sc_targets := sc_targets example_conf;
  sc_size := sc_size example_conf;
  sc_bb_h := sc_bb_h example_conf
|}.

(** What every replacement of the main loop's object keeps: the shape
    letter, the geometry and the spawn pose of the pass. *)
Definition same_draw (cshape : shape_kind) (g : cgeom) (p : list Z) (o : sobj) : Prop :=
  sd_shape (so_dict o) = cshape /\ sd_geom (so_dict o) = g /\ so_pose o = p.

Section Typing.
Context {G : Type} `{!Rng G}.
Variable rescale : fgrid -> Q -> fgrid.
Variable object2d : sdict -> list Z -> result grid.
Variable cf : sconf.
Implicit Types s : @sstate G.

(** ** The object list is a frame of most steps *)

Lemma ol_of_rest {A} (m : SE (@sstate G) A) : se_keeps ss_rest m -> se_keeps (@ss_obj_list G) m.
Proof. intros Hk s s' r Hm. specialize (Hk _ _ _ Hm). unfold ss_rest in Hk. by simplify_eq. Qed.

Lemma ol_next_lqd_label : se_keeps (@ss_obj_list G) next_lqd_label.
Proof. by intros s s' r [= <- _]. Qed.

Lemma ol_incr_target : se_keeps (@ss_obj_list G) incr_target.
Proof. by intros s s' r [= <- _]. Qed.

Lemma ol_set_metal_amt a : se_keeps (@ss_obj_list G) (set_metal_amt a).
Proof. by intros s s' r [= <- _]. Qed.

Lemma ol_se_modify_rest (f : @sstate G -> @sstate G) :
  (forall s, ss_obj_list (f s) = ss_obj_list s) -> se_keeps (@ss_obj_list G) (se_modify f).
Proof. intros Hf s s' r [= <- _]. apply Hf. Qed.

#[local] Hint Resolve ol_of_rest ol_next_lqd_label ol_incr_target ol_set_metal_amt
  rest_rand rest_rand_n rest_np_choice rest_draw_shape rest_sample_geom rest_draw_pose
  rest_make_obj : se_keeps.

Ltac keeps_auto := repeat first [apply se_keeps_bind; [|intros ?] | case_match]; auto with se_keeps.

Lemma ol_change_object_material ml mt cl ip cshape g :
  se_keeps (@ss_obj_list G) (change_object_material object2d cf ml mt cl ip cshape g).
Proof. unfold change_object_material. keeps_auto. Qed.

Lemma ol_liquid_dict ml i c_mat cshape g : se_keeps (@ss_obj_list G) (liquid_dict cf ml i c_mat cshape g).
Proof. unfold liquid_dict. keeps_auto. Qed.

#[local] Hint Resolve ol_change_object_material : se_keeps.

Lemma ol_metal_adjust ml i p cshape g a o :
  se_keeps (@ss_obj_list G) (metal_adjust rescale object2d cf ml i p cshape g a o).
Proof. unfold metal_adjust. keeps_auto. Qed.

#[local] Hint Resolve ol_liquid_dict ol_metal_adjust : se_keeps.

(** Use the frame of every step of the context that keeps the list. *)
Ltac ol_steps :=
  repeat match goal with
  | H : ?m ?s = (?s', _) |- _ =>
      let K := fresh "K" in
      assert (K : se_keeps (@ss_obj_list G) m) by (repeat case_match; auto with se_keeps);
      pose proof (K _ _ _ H); clear K H
  end.

(** ** The draws of one object *)

Lemma sample_geom_fits k dm s s' g : sample_geom cf k dm s = (s', Ok g) -> geom_fits k g = true.
Proof. unfold sample_geom. destruct k; intros H; se_inv; repeat (case_match; se_inv); done. Qed.

Lemma draw_pose_length m s s' p : draw_pose cf m s = (s', Ok p) -> length p = 3%nat.
Proof. unfold draw_pose. intros H. se_inv. done. Qed.

(** [change_object_material] keeps the draw of its pass. *)
Lemma change_object_material_draw ml mt cl i p cshape g s s' d o :
  change_object_material object2d cf ml mt cl (Some (i, p)) cshape g s = (s', Ok (d, o)) ->
  so_dict o = d /\ same_draw cshape g p o.
Proof.
  unfold change_object_material. intros H. se_inv.
  match goal with E : make_obj _ _ _ _ = _ |- _ => apply make_obj_spec in E as (_ & Hd & Hp & _) end.
  unfold same_draw. subst d. rewrite Hp.
  destruct cl; se_inv; match goal with Hd' : _ = so_dict o |- _ => rewrite <- Hd' end; done.
Qed.

Lemma liquid_dict_draw ml i c_mat cshape g s s' c d :
  liquid_dict cf ml i c_mat cshape g s = (s', Ok (c, d)) -> sd_shape d = cshape /\ sd_geom d = g.
Proof. unfold liquid_dict. intros H. se_inv. done. Qed.

(** The metal adjustment keeps the object's dictionary and pose, or
    replaces it by [change_object_material] of the same pass. *)
Lemma metal_adjust_draw ml i p cshape g a o s s' o' :
  same_draw cshape g p o ->
  metal_adjust rescale object2d cf ml i p cshape g a o s = (s', Ok o') -> same_draw cshape g p o'.
Proof.
  intros Ho H. unfold metal_adjust in H. cbv zeta in H.
  assert (Hr : forall s1 s2 o2, (p' ← change_object_material object2d cf ml MNonmetal false (Some (i, p))
                 cshape g; mret p'.2) s1 = (s2, Ok o2) -> same_draw cshape g p o2).
  { intros s1 s2 o2 H1. se_inv.
    match goal with E : change_object_material _ _ _ _ _ _ _ _ _ = (_, Ok ?a) |- _ =>
      destruct a as [d o3]; by apply change_object_material_draw in E as [_ ?] end. }
  repeat case_match; try exact (Hr _ _ _ H); se_inv; [done|].
  unfold same_draw in *. cbn. done.
Qed.

Lemma obj_dict_of_draw ml i c cshape g lo s s' c' d :
  obj_dict_of cf ml i c cshape g lo s = (s', Ok (c', d)) -> sd_shape d = cshape /\ sd_geom d = g.
Proof. unfold obj_dict_of. destruct lo; [apply liquid_dict_draw|intros H; se_inv; done]. Qed.

Lemma target_cap_draw ml i p cshape g c o s s' o' :
  same_draw cshape g p o -> target_cap object2d cf ml i p cshape g c o s = (s', Ok o') ->
  same_draw cshape g p o'.
Proof.
  intros Ho H. unfold target_cap in H. se_inv. repeat case_match; se_inv; try done.
  match goal with E : change_object_material _ _ _ _ _ _ _ _ _ = (_, Ok ?a) |- _ =>
    destruct a as [d o3]; by apply change_object_material_draw in E as [_ ?] end.
Qed.

Lemma metal_step_draw ml i p cshape g c o s s' o' :
  same_draw cshape g p o -> metal_step rescale object2d cf ml i p cshape g c o s = (s', Ok o') ->
  same_draw cshape g p o'.
Proof.
  intros Ho H. unfold metal_step in H. se_inv. repeat case_match; se_inv; try done.
  by eapply metal_adjust_draw.
Qed.

Lemma ol_obj_dict_of ml i c cshape g lo : se_keeps (@ss_obj_list G) (obj_dict_of cf ml i c cshape g lo).
Proof. unfold obj_dict_of. keeps_auto. Qed.

Lemma ol_target_cap ml i p cshape g c o :
  se_keeps (@ss_obj_list G) (target_cap object2d cf ml i p cshape g c o).
Proof. unfold target_cap. keeps_auto. Qed.

Lemma ol_metal_step ml i p cshape g c o :
  se_keeps (@ss_obj_list G) (metal_step rescale object2d cf ml i p cshape g c o).
Proof. unfold metal_step. keeps_auto. Qed.

Lemma ol_count_target ml o : se_keeps (@ss_obj_list G) (count_target ml o).
Proof. unfold count_target. keeps_auto. Qed.

#[local] Hint Resolve ol_obj_dict_of ol_target_cap ol_metal_step ol_count_target : se_keeps.

(** ** The main loop *)

Lemma append_typed s s' o :
  Forall obj_typed (ss_obj_list s) -> obj_typed o -> append_obj o s = (s', Ok ()) ->
  Forall obj_typed (ss_obj_list s').
Proof. intros Hs Ho [= <-]. cbn. apply Forall_app. split; [done|]. by constructor. Qed.

(** The list after a step that keeps it. *)
Lemma ol_step {A} (m : SE (@sstate G) A) s s' r :
  se_keeps (@ss_obj_list G) m -> m s = (s', r) -> ss_obj_list s' = ss_obj_list s.
Proof. intros K H. exact (K _ _ _ H). Qed.

(** A pass of the main loop appends one well-formed object and returns a
    pose of three coordinates. *)
Lemma main_iter_typed ml i s s' dm p :
  Forall obj_typed (ss_obj_list s) ->
  main_iter rescale object2d cf ml i s = (s', Ok (dm, p)) ->
  Forall obj_typed (ss_obj_list s') /\ length p = 3%nat.
Proof.
  intros Hs H. unfold main_iter in H. se_inv.
  match goal with E : sample_geom _ _ _ _ = (_, Ok _) |- _ => pose proof (sample_geom_fits _ _ _ _ _ E) as Hg end.
  match goal with E : draw_pose _ _ _ = (_, Ok _) |- _ => pose proof (draw_pose_length _ _ _ _ E) as Hp end.
  split; [|exact Hp].
  match goal with E : make_obj _ _ _ _ = (_, Ok _) |- _ => apply make_obj_spec in E as (-> & Hd & Ho & _) end.
  match goal with E : obj_dict_of _ _ _ _ _ _ _ _ = _ |- _ =>
    pose proof E as Ed; apply obj_dict_of_draw in Ed as [Hk Hgd] end.
  match goal with E : target_cap _ _ _ _ _ _ _ _ _ _ = _ |- _ =>
    pose proof E as Ec; eapply target_cap_draw in Ec; [|unfold same_draw; rewrite Hd, Ho; done] end.
  match goal with E : metal_step _ _ _ _ _ _ _ _ _ _ _ = _ |- _ =>
    pose proof E as Em; eapply metal_step_draw in Em; [|exact Ec] end.
  destruct Em as (Hk' & Hg' & Hp').
  match goal with E : append_obj ?o _ = _ |- _ => assert (Ht : obj_typed o) end.
  { split; [rewrite Hk', Hg'; exact Hg|rewrite Hp'; exact Hp]. }
  ol_steps. repeat match goal with u : unit |- _ => destruct u end.
  match goal with E : append_obj _ ?sa = (?sb, _) |- _ =>
    assert (Hsa : ss_obj_list sa = ss_obj_list s) by congruence;
    apply (append_typed sa sb) in E; [|rewrite Hsa; exact Hs|exact Ht] end.
  match goal with Heq : ss_obj_list s' = ss_obj_list ?x |- _ => rewrite Heq end. assumption.
Qed.

(** The bindings [i] and [c_pose] that the main loop leaves. *)
Definition last_ok (last : option (dims * (Z * list Z))) : Prop :=
  forall dm i p, last = Some (dm, (i, p)) -> length p = 3%nat.

Lemma main_loop_typed ml n : forall i last s s' r,
  Forall obj_typed (ss_obj_list s) -> last_ok last ->
  main_loop rescale object2d cf ml i n last s = (s', Ok r) ->
  Forall obj_typed (ss_obj_list s') /\ last_ok r.
Proof.
  induction n as [|n IH]; intros i last s s' r Hs Hl H; cbn [main_loop] in H; se_inv; [done|].
  match goal with E : main_iter _ _ _ _ _ _ = _ |- _ => apply main_iter_typed in E as [Hs1 Hp]; [|exact Hs] end.
  eapply IH; [exact Hs1| |exact H]. intros ? ? ? [= <- <- <-]. exact Hp.
Qed.

(** A pass of the loop that adds targets appends a well-formed object. *)
Lemma extra_pass_typed ml dm ip s s' u :
  Forall obj_typed (ss_obj_list s) -> (forall i p, ip = Some (i, p) -> length p = 3%nat) ->
  extra_pass object2d cf ml dm ip s = (s', Ok u) -> Forall obj_typed (ss_obj_list s').
Proof.
  intros Hs Hip H. destruct ip as [[i p]|].
  2: { destruct (extra_pass_unbound object2d cf ml dm s) as (e & He & _). rewrite H in He. discriminate. }
  unfold extra_pass in H. se_inv.
  match goal with E : sample_geom _ _ _ _ = (_, Ok _) |- _ => pose proof (sample_geom_fits _ _ _ _ _ E) as Hg end.
  match goal with E : change_object_material _ _ _ _ _ _ _ _ _ = (_, Ok ?a) |- _ =>
    destruct a as [d o]; pose proof E as Ec; apply change_object_material_draw in Ec as [_ (Hk & Hgd & Hpo)] end.
  assert (Ht : obj_typed o) by (split; [rewrite Hk, Hgd; exact Hg|rewrite Hpo; exact (Hip _ _ eq_refl)]).
  ol_steps. repeat match goal with u : unit |- _ => destruct u end.
  match goal with E : append_obj _ ?sa = (?sb, _) |- _ =>
    assert (Hsa : ss_obj_list sa = ss_obj_list s) by congruence;
    apply (append_typed sa sb) in E; [|rewrite Hsa; exact Hs|exact Ht] end.
  match goal with Heq : ss_obj_list s' = ss_obj_list ?x |- _ => rewrite Heq end. assumption.
Qed.

Lemma extra_loop_typed ml fuel lo dm ip : forall s s' u,
  Forall obj_typed (ss_obj_list s) -> (forall i p, ip = Some (i, p) -> length p = 3%nat) ->
  extra_loop object2d cf ml fuel lo dm ip s = (s', Ok u) -> Forall obj_typed (ss_obj_list s').
Proof.
  induction fuel as [|f IH]; intros s s' u Hs Hip H; cbn [extra_loop] in H; se_inv; [done|].
  case_match; se_inv; [|done].
  match goal with E : extra_pass _ _ _ _ _ _ = _ |- _ => eapply extra_pass_typed in E; [|exact Hs|exact Hip] end.
  eapply IH; [eassumption|exact Hip|exact H].
Qed.

End Typing.

(** ** The returned list *)

Section TypingClaims.
Context {G : Type} `{!Rng G}.
Variable rescale : fgrid -> Q -> fgrid.
Variable object2d : sdict -> list Z -> result grid.
Variable shuffle : list sobj -> list sobj.
Variable cf : sconf.

(** C15: Every object that [create_random_object_list] returns is well
    formed: its SL dictionary holds the parameters of its own shape
    letter, and its pose has three coordinates. This holds for the objects
    of the main loop, for the replacements of the target cap and of the
    metal budget, and for the targets added at the end, for every
    generator, every [Object2D] and every shuffle that permutes. *)
Theorem create_random_object_list_typed s s' l a :
  (forall l0, shuffle l0 ≡ₚ l0) ->
  create_random_object_list rescale object2d shuffle cf s = (s', Ok (l, a)) ->
  Forall obj_typed l.
Proof.
  intros Hperm H. unfold create_random_object_list in H. se_inv.
  match goal with E : se_modify _ _ = _ |- _ => injection E as <- _ end.
  match goal with E : main_loop _ _ _ _ _ _ _ _ = _ |- _ =>
    apply main_loop_typed in E as [Hs1 Hl]; [|apply List.Forall_nil|by intros ? ? ? ?] end.
  rewrite Hperm.
  destruct (sc_num_range cf) as [[lo hi]|]; se_inv; [|done].
  destruct (_ <? lo); se_inv; [|done].
  eapply extra_loop_typed; [exact Hs1| |eassumption].
  intros i p Hip. destruct a2 as [[? [? ?]]|]; [|discriminate].
  injection Hip as <- <-. by eapply Hl.
Qed.

End TypingClaims.

Lemma create_random_object_list_typed_witness :
  exists s' l a,
    create_random_object_list example_rescale example_object2d example_shuffle two_object_conf
      (mkSS 0%nat 10 0 None []) = (s', Ok (l, a)) /\ (0 < length l)%nat /\ Forall obj_typed l.
Proof.
  assert (Hc : match (create_random_object_list example_rescale example_object2d example_shuffle
                        two_object_conf (mkSS 0%nat 10 0 None [])).2 with
               | Ok (l, _) => Nat.ltb 0 (length l) | Err _ => false end = true)
    by (vm_compute; reflexivity).
  destruct (create_random_object_list example_rescale example_object2d example_shuffle two_object_conf
              (mkSS 0%nat 10 0 None [])) as [s' [[l a]|e]] eqn:E; [|discriminate].
  exists s', l, a. split; [reflexivity|split; [apply Nat.ltb_lt, Hc|]].
  apply (create_random_object_list_typed example_rescale example_object2d example_shuffle
           two_object_conf (mkSS 0%nat 10 0 None []) s' l a); [intros; reflexivity|exact E].
Defined.
